(* ===== verification/_CoqProject ===== *)
-Q . S2P
Prelude.v
Perun.v
Errors.v
Currency.v
IDProvider.v
Contracts.v
PerunTest.v
Os.v
Log.v
Sdk.v
Timeout.v
SessionErrors.v
ChRegistry.v
Channel.v
ChannelProps.v
User.v
TestConfig.v
TestConfigProps.v
SetupContracts.v
SimChain.v
Generate.v
GenerateProps.v
ConfigFile.v
Client.v
SessionHelpers.v
Session.v
SessionProps.v
SessionLife.v
Node.v
Payment.v
Grpc.v
NodeCmd.v
GrpcProps.v
NodeCmdProps.v
PbClient.v
TuiText.v
Tui.v
TuiProps.v
TuiScreens.v
TuiScreensProps.v
EndToEnd.v
IncomingEndToEnd.v
OpeningEndToEnd.v
ProposalEndToEnd.v
LedgerRefinement.v
ClosingEndToEnd.v
ChannelLifetime.v
Cli.v
CliProps.v
CliShell.v
CliShellProps.v
Instances.v
Witnesses.v
SessionWitnesses.v
NodeWitnesses.v
TuiWitnesses.v
CliWitnesses.v
EndToEndWitnesses.v
DemoWitnesses.v
