(* ===== verification/Prelude.v ===== *)
(** * A verification development of the perun node (Go implementation)

    ** The program

    A perun node runs payment channels for its users on top of the state channel
    SDK go-perun and an Ethereum node.  Its parts, from the inside out:

    - the data types and the errors of the API (perun.go, errors.go), shared by all
      the others;
    - currencies (currency/): amounts as decimal strings and as base units;
    - ID providers (idprovider/): the contacts of a user, by alias and by address;
    - contracts (blockchain/ethereum/): which asset contract belongs to which
      symbol, and whether the contracts on chain are the expected ones;
    - sessions (session/): a session of a user owns a channel client, an ID provider
      and a registry of channels; it proposes channels, answers proposals and
      notifies the user.  A channel (session/channel.go) sends updates, answers
      updates of the peer, is settled and closed;
    - the node (node/): the registries and the sessions, by ID;
    - the payment application (app/payment/): channels and sessions seen as
      payment channels, a payment being an updater of the channel state;
    - the API server (api/grpc/): requests of clients are converted, handed to the
      node, the session or the payment application, and answered; a subscription
      is a call that lasts until the client unsubscribes or the channel closes;
    - two clients of that server: the dashboard (cmd/perunnodetui/) and the
      command line client (cmd/perunnodecli/);
    - the command that runs the node and generates the artefacts of a demo
      (cmd/perunnode/), with the helpers that make them, which the tests share
      (blockchain/ethereum/ethereumtest, idprovidertest, sessiontest, nodetest).

    ** The files

    - Prelude: outcomes of Go statements, programs, trace relations, total and
      partial correctness, machine integers, shared lemmas and tactics.
    - Perun (perun.go): structs and enumerations, API errors as data, Go error
      values, the interface [IDProviderI] of ID providers with its laws.
    - Errors (errors.go): a definition per constructor of API errors.
    - Currency (currency/currency.go, currency/registry.go).
    - IDProvider (idprovider/errors.go, idprovider/local/): [idProviderCache] with
      both indexes, loading and storing; the instance of [IDProviderI].
    - Contracts (blockchain/): wallets, [ChainBackend], [contractRegistry].
    - Sdk: go-perun as the node uses it, as the class [GoPerun].
    - Timeout (session/timeout.go): time limits in 64-bit nanoseconds.
    - SessionErrors: the error constants of session/session.go and the functions
      that turn errors of the SDK into API errors.
    - ChRegistry (session/channelRegistry.go).
    - Channel (session/channel.go): the record [Channel], every method, and the
      abstract channel [achannel]; ChannelProps: its theorems.
    - PerunTest (peruntest/assert.go): the assertions on API errors.
    - Os: the file system and the calls of the system, each of which may fail.
    - Log (log/logger.go).
    - User (session/user.go, session/config.go).
    - TestConfig (ethereumtest/wallet.go, idprovidertest, sessiontest, nodetest):
      wallets and configurations; TestConfigProps: what they create, and its
      removal.  SetupContracts (ethereumtest/setupcontracts.go): the contracts of a
      demo, on a chain that is part of the state.  SimChain (ethereumtest/chain.go).
    - Generate (cmd/perunnode/generate.go): the artefacts of a demo; GenerateProps.
      ConfigFile: [ParseConfig] of session/config.go, on these artefacts.
    - Client (session/client.go, comm/tcp/tcp.go): the interface [ChClient] the
      session is written against, and its instance [client].
    - SessionHelpers: the functions of session/session.go that keep no state
      (balance information, allocations, aliases, the funder's assets).
    - Session (session/session.go): the record [Session] and every method;
      SessionProps: proposals, closing, information; SessionLife: [OpenCh], [New]
      and the invariant of the sessions reached from it.
    - Node (node/node.go), Payment (app/payment/channel.go, session.go).
    - Grpc (api/grpc/server.go): messages, conversions and handlers; GrpcProps.
    - NodeCmd (cmd/perunnode/run.go, flags.go, version.go, and
      [ListenAndServePayChAPI] of the server); NodeCmdProps: both commands.
    - PbClient (api/grpc/pb): what the clients see of the node.
    - TuiText, Tui, TuiProps (cmd/perunnodetui/): texts, the dashboard's entries
      and commands, the theorems.  TuiScreens, TuiScreensProps (main.go, connect.go,
      dashboard.go): start, the screens and their sizes, and closing.
    - EndToEnd, IncomingEndToEnd, OpeningEndToEnd, ProposalEndToEnd: the dashboard,
      the server, the node, the session, the payment application and the channel
      composed, for payments of the user and of the peer, and for channels that the
      user and the peer open.
      LedgerRefinement: any sequence of payments, updates and answers against a
      ledger of two balances.  ClosingEndToEnd: closing a channel, over the chain.
      ChannelLifetime: all of these in a row.
    - Cli, CliProps (cmd/perunnodecli/): state and commands.  CliShell,
      CliShellProps: the commands as the shell offers them.
    - Instances: one executable implementation of every library interface.
      Witnesses, SessionWitnesses, NodeWitnesses, TuiWitnesses, CliWitnesses,
      EndToEndWitnesses and DemoWitnesses: the theorems with hypotheses, applied where
      they hold.

    A definition has the name of the function, method or type it translates; where a
    name is taken, the receiver or the package goes in front.

    ** How the code is modelled

    - A method is a [prog]: a function from the state of its receiver to the actions
      it performs, the state it leaves and an [outcome]: a value, a panic (a nil
      dereference or an index out of range), or [Block], a wait that nobody ends.
      The actions are what is visible from outside: calls of the SDK, the chain and
      responders, notifications, requests to the node, the goroutines started.
    - A mutex is a flag of the state.  [with_lock], [with_slock] and the lock of an
      entry of the dashboard block when it is held, and leave it held when the
      method does ([Close]).  Methods that release it between two parts are one
      program per part, and the theorems run over interleavings of the parts.
    - A pointer that two places hold is an index into the one place its object
      lives in: a channel into the registry of its session ([zoom_ch]), a session
      into the map of the node ([zoom_s]), an entry into the heap of the dashboard.
    - The file system is a finite map from paths to files and directories; every call
      of the system asks the environment whether it fails, so a theorem on the
      helpers holds for every pattern of failures ([wpe] is [wp] with a condition under
      which the program may panic).  The chain is a value that transactions change.
    - The event loop of the dashboard, the buttons and the goroutines that share its
      channel [quitter] are a step function on the state of that channel.
    - [time.Duration], [uint64] challenge durations and the expiry times are [Z] with
      [int64] and [uint64] written out where the code computes; amounts are
      [big.Int], so [Z].  Maps are [gmap]; Go's random order of iteration over a map
      is an argument where it matters.
    - Every function is total without fuel: loops range over slices, or receive from
      a stream, whose messages are a list with the error that ends it.  What never
      ends in the code is a [Block], so theorems of the form "always answers" ([wp])
      exclude panics and deadlocks; [wlp] and [keeps] speak of the runs that end.

    ** What is outside, and what is assumed of it

    Code that is not in the repository is a parameter, a class of operations with
    the laws used as separate classes: [GoTypes] (addresses, apps and wallets of
    go-perun), [GoPerun] (channel controllers, client, responders, event
    subscriptions), [EthLib] (go-ethereum and the Ethereum backend of go-perun),
    [DecimalLib] (shopspring/decimal).  The result of a call may depend on the state
    of the object it is called on, so a theorem holds for every behaviour of the
    SDK, the peers and the chain that satisfies the laws it names: [GoTypesLaws],
    [DecimalLaws], [UpdateByLaws] (an update is the updater's and one version on),
    [CloseLaws] and [ClientCloseLaws] (once the client and its bus
    are closed, the functions that handle and listen return), [FunderLaws],
    [ProposalLaws], [AdjudicatorLaws] (registering and settling leave the state as it
    is), and [IDProviderLaws], which IDProvider proves of its instance.
    For the commands and the helpers: [Env] with [EnvLaws] (faults, free ports, names
    of temporary files, which are new), [TestLib] (random accounts, contract
    addresses), [ChainLib] with [ChainLaws] (what a transaction puts where, and what
    validation looks at), [SimLib], [LogLib] (logrus), [CmdLib] (cobra, viper, the gRPC
    listener), [ConfigLib] with [ConfigLaws] (viper reads back what was written).
    [Instances] and [DemoWitnesses] satisfy them.

    ** What the theorems show

    - Channels: [channel_refines] (the detailed channel implements [achannel]: phase,
      subscription, queue of notifications and pending updates), [channel_invariant]
      along every run, notifications neither lost nor repeated, under every schedule
      of the goroutines that deliver them ([notifications_once]), responders answered at
      most once
      ([answered_at_most_once]), and the behaviour of each entry point on every
      branch ([SendChUpdate_spec], [RespondChUpdate_spec], [Close_spec],
      [HandleAdjudicatorEvent_spec], [closed_channel_refuses]).
    - Sessions: [session_invariant] over calls, callbacks and channel operations;
      [OpenCh_spec], [HandleProposal_spec], [RespondChProposal_spec],
      [session_Close_spec], [New_spec]; [proposals_once] for the interleavings of
      the handlers of proposals with the goroutines they start; [session_deadlock_after_Close] for what remains locked;
      [makeAllocation_spec], [sanitizeBalInfo_spec] for the numbers in a proposal.
    - The node: [node_invariant], [node_New_spec], [OpenSession_spec].
    - The demo: [SetupContracts_spec] deploys the contracts where the configuration
      expects them; [generate_spec] writes the artefacts; a node starts with them
      ([demo_node_starts]) and the sessions find each other ([demo_config_loads]);
      [run_spec] for the command that serves the API, [logging_spec] for its log.
      [helpers_clean_up]: tests leave the file system as it was, but for a directory.
    - Payments: [SendPayChUpdate_spec], with the conservation of funds, and
      [payment_end_to_end]: from the command typed in the dashboard through the
      server to the channel of the node, and back to what the dashboard shows;
      [incoming_payment_end_to_end]: from the SDK to the screen, and the user's answer
      back to the SDK; [screen_refines_ledger]: over any sequence of these the channel
      and the screen are in step with one abstract ledger.
    - Opening and closing: [opening_end_to_end], from the command to the proposal, the
      channel in the session and an entry that is ready for payments;
      [incoming_opening_end_to_end], from a proposal of the peer over the answer of
      the user to the same; [closing_end_to_end], from the command over the
      registered state and the event of the chain to an entry that is closed.
      [channel_lifetime]: from the opening over any number of payments to the closing,
      dashboard and node agree, and no money appears or gets lost.
    - The server: [update_subscription] for the life of a subscription and
      [signals_closed_once] for its signals; [unknown_session_refused] by every handler.
    - The dashboard: [dashboard_invariant] and [dashboard_answers_once] over the
      interleavings of commands, notifications and timers, [waits_end] and
      [incomingUpdateHandler_ends] for what ends and what does not, [update_spec] for the numbers of a
      payment, [registry_limit], [trimZeros_spec]; [main_spec] for its start,
      [screen_layout] for its screens, [quit_spec] for its end.
    - The command line client: [aliases_invariant], the behaviour on unknown
      aliases, and [completions_accepted]: what the shell offers is accepted.
    - The parts below: [Parse_spec], [Print_Parse_roundtrip], [timeouts_exact],
      [ReadByOffChainAddr_sound], [RegisterAssetERC20_spec], and [client_Close_spec] under
      every schedule of the goroutines of the client.
    - Some theorems state what the code does where that is not what it means to do:
      [Print_loses_small_amounts], [Delete_leaves_stale_address],
      [ReadByOffChainAddr_after_Write], [proposeCh_overflows],
      [late_notification_panics], [HandleProposal_unknown_asset_panics],
      [send_on_empty_balance_panics], [unknown_alias], and parts of [quit_spec],
      [screen_layout], [generate_spec], [helpers_clean_up], [waits_end], [registry_limit],
      [incomingUpdateHandler_ends] and [channel_lifetime] (a payment that crashes).

    ** Bounds

    The only numeric hypotheses are those of the machine: time limits below 2^63
    nanoseconds ([timeouts_exact]), fewer than 2^63 aliases in a run of the command
    line client ([aliases_invariant]), and as many channels as the registry of the
    dashboard has places where a theorem says so.

    ** Not modelled

    - api/grpc/pb/api.pb.go is generated: only the messages the server and the
      clients use are given, as records next to the conversions.
    - internal/mocks: generated by mockery.
    - Parsing YAML and reading keystores: the result is an argument.
    - Drawing: the screens are trees of the elements given to termdash, with their
      sizes, titles and padding; colours, fonts and key bindings are left out, and
      so is a function of main.go that fills the table with dummy data and is never
      called.
    - The tables of flags and help texts of cobra (root.go, the init functions of
      cmd/perunnode) and the pretty-printing of configurations (prettify.go).
    - The interfaces of perun.go that have one implementation: the implementation is
      modelled. *)
From stdpp Require Export base option list list_numbers strings gmap pretty.
From Stdlib Require Export ZArith Lia.

#[global] Open Scope Z_scope.

Declare Scope go_scope.
Delimit Scope go_scope with go.
#[global] Open Scope go_scope.

(** ** Outcomes of a Go statement

    A statement of the program yields a value, panics, or waits forever on a
    mutex or a wait group that nobody releases ([Block]). *)
Inductive outcome (A : Type) : Type :=
| Ret (a : A)
| Panic (why : string)
| Block.
Arguments Ret {A} _.
Arguments Panic {A} _.
Arguments Block {A}.

#[global] Instance outcome_mret : MRet outcome := λ A a, Ret a.
#[global] Instance outcome_mbind : MBind outcome := λ A B f m,
  match m with Ret a => f a | Panic w => Panic w | Block => Block end.
#[global] Instance outcome_fmap : FMap outcome := λ A B f m,
  match m with Ret a => Ret (f a) | Panic w => Panic w | Block => Block end.

(** Whether the statement yields a value. *)
Definition returns {A} (o : outcome A) : Prop := ∃ a, o = Ret a.

#[global] Instance returns_dec {A} (o : outcome A) : Decision (returns o).
Proof.
  destruct o; [left; eexists; reflexivity | right; intros [? [=]] ..].
Defined.

(** A result or an error. *)
Definition is_inl {A B} (r : A + B) : Prop := ∃ a, r = inl a.
Definition is_inr {A B} (r : A + B) : Prop := ∃ b, r = inr b.

(** [l[i]] of a Go slice: panics when the index is out of range. *)
Definition go_index {A} (l : list A) (i : nat) : outcome A :=
  match l !! i with Some a => Ret a | None => Panic "index out of range" end.

(** A method call on, or a dereference of, a possibly nil interface value. *)
Definition go_deref {A} (o : option A) : outcome A :=
  match o with Some a => Ret a | None => Panic "nil pointer dereference" end.

(** [l[lo:hi]] of a Go slice. *)
Definition go_slice {A} (l : list A) (lo hi : nat) : outcome (list A) :=
  if decide (lo ≤ hi ∧ hi ≤ length l)%nat then Ret (take (hi - lo) (drop lo l))
  else Panic "slice bounds out of range".

(** [for i := range l { ... }] building a new slice of the same length. *)
Fixpoint go_map {A B} (f : A → outcome B) (l : list A) : outcome (list B) :=
  match l with
  | [] => Ret []
  | x :: l' => y ← f x; ys ← go_map f l'; Ret (y :: ys)
  end.

(** ** Programs: state passing with a trace of externally visible actions

    [S] is the state of a component, [E] the actions it performs on the
    outside (calls into libraries, notifications, spawned goroutines), in the
    order in which the code performs them. *)
Definition prog (S E A : Type) : Type := S → list E * S * outcome A.

Section prog.
Context {S E : Type}.

#[global] Instance prog_mret : MRet (prog S E) := λ A a s, ([], s, Ret a).
#[global] Instance prog_mbind : MBind (prog S E) := λ A B f m s,
  match m s with
  | (es, s', Ret a) => let '(es', s'', o) := f a s' in (es ++ es', s'', o)
  | (es, s', Panic w) => (es, s', Panic w)
  | (es, s', Block) => (es, s', Block)
  end.

Definition get_state : prog S E S := λ s, ([], s, Ret s).
Definition gets {A} (f : S → A) : prog S E A := λ s, ([], s, Ret (f s)).
Definition modify (f : S → S) : prog S E unit := λ s, ([], f s, Ret tt).
Definition emit (e : E) : prog S E unit := λ s, ([e], s, Ret tt).
Definition panic {A} (w : string) : prog S E A := λ s, ([], s, Panic w).
Definition block {A} : prog S E A := λ s, ([], s, Block).
(** A computation that reads nothing and performs no action. *)
Definition lift {A} (o : outcome A) : prog S E A := λ s, ([], s, o).

Definition events {A} (r : list E * S * outcome A) : list E := r.1.1.
Definition final {A} (r : list E * S * outcome A) : S := r.1.2.
Definition value {A} (r : list E * S * outcome A) : outcome A := r.2.
End prog.

(** Runs [m] on a part of the state, and maps its actions. *)
Definition zoom {S T E F A} (look : S → outcome T) (store : T → S → S) (act : E → F)
    (m : prog T E A) : prog S F A := λ s,
  match look s with
  | Ret t => let '(es, t', o) := m t in (act <$> es, store t' s, o)
  | Panic w => ([], s, Panic w)
  | Block => ([], s, Block)
  end.

(** Equations of the state monad, used by the rewriting tactic [run]. *)
Section prog_equations.
Context {S E : Type}.
Implicit Types s : S.

Lemma run_mret {A} (a : A) s : (mret a : prog S E A) s = ([], s, Ret a).
Proof. reflexivity. Qed.
Lemma run_bind {A B} (m : prog S E A) (f : A → prog S E B) s es s' a :
  m s = (es, s', Ret a) →
  (m ≫= f) s = let '(es', s'', o) := f a s' in (es ++ es', s'', o).
Proof. intros H. unfold mbind, prog_mbind. rewrite H. reflexivity. Qed.
Lemma run_bind_panic {A B} (m : prog S E A) (f : A → prog S E B) s es s' w :
  m s = (es, s', Panic w) → (m ≫= f) s = (es, s', Panic w).
Proof. intros H. unfold mbind, prog_mbind. rewrite H. reflexivity. Qed.
End prog_equations.

(** A sequence yields a value exactly when both its parts do. *)
Lemma bind_ret {S E A B} (m : prog S E A) (f : A → prog S E B) s es s' b :
  (m ≫= f) s = (es, s', Ret b) ↔
  ∃ es1 s1 a es2, m s = (es1, s1, Ret a) ∧ f a s1 = (es2, s', Ret b) ∧ es = es1 ++ es2.
Proof.
  unfold mbind, prog_mbind. split.
  - destruct (m s) as [[es1 s1] [a|w|]]; [|discriminate..].
    destruct (f a s1) as [[es2 s2] o] eqn:E2. intros [= <- <- ->].
    eexists _, _, _, _. split; [done|]. by rewrite E2.
  - intros (es1 & s1 & a & es2 & -> & -> & ->). done.
Qed.

(** ** Trace relations

    [keeps R m]: whenever [m] yields a value, [R] relates the state it started
    from, the actions it performed and the state it ended in.  A trace relation
    is reflexive on the empty trace and closed under sequences. *)
Definition keeps {S E A} (R : S → list E → S → Prop) (m : prog S E A) : Prop :=
  ∀ s es s' a, m s = (es, s', Ret a) → R s es s'.

Lemma keeps_run {S E A} R (m : prog S E A) s es s' a :
  keeps R m → m s = (es, s', Ret a) → R s es s'.
Proof. intros H. apply H. Qed.

Class TraceRel {S E} (R : S → list E → S → Prop) : Prop := {
  trace_nil s : R s [] s;
  trace_app s es s1 es' s2 : R s es s1 → R s1 es' s2 → R s (es ++ es') s2;
}.

(** An invariant, whatever the actions. *)
Definition invariant {S E} (I : S → Prop) (s : S) (_ : list E) (s' : S) : Prop := I s → I s'.

#[global] Instance invariant_trace {S E} (I : S → Prop) : TraceRel (E := E) (invariant I).
Proof. split; unfold invariant; auto. Qed.

Section keeps.
Context {S E : Type} (R : S → list E → S → Prop) `{!TraceRel R}.

Lemma keeps_mret {A} (a : A) : keeps R (mret a : prog S E A).
Proof. intros s es s' b [= <- <- _]. apply trace_nil. Qed.
Lemma keeps_lift {A} (o : outcome A) : keeps R (lift o : prog S E A).
Proof. intros s es s' b [= <- <- _]. apply trace_nil. Qed.
Lemma keeps_gets {A} (f : S → A) : keeps R (gets f : prog S E A).
Proof. intros s es s' b [= <- <- _]. apply trace_nil. Qed.
Lemma keeps_get_state : keeps R (get_state : prog S E S).
Proof. intros s es s' b [= <- <- _]. apply trace_nil. Qed.
Lemma keeps_panic {A} w : keeps R (panic w : prog S E A).
Proof. intros s es s' b [=]. Qed.
Lemma keeps_block {A} : keeps R (block : prog S E A).
Proof. intros s es s' b [=]. Qed.
Lemma keeps_emit (e : E) : (∀ s, R s [e] s) → keeps R (emit e : prog S E unit).
Proof. intros H s es s' b [= <- <- _]. apply H. Qed.
Lemma keeps_modify (f : S → S) :
  (∀ s, R s [] (f s)) → keeps R (modify f : prog S E unit).
Proof. intros H s es s' b [= <- <- _]. apply H. Qed.
Lemma keeps_bind {A B} (m : prog S E A) (f : A → prog S E B) :
  keeps R m → (∀ a, keeps R (f a)) → keeps R (m ≫= f).
Proof.
  intros Hm Hf s es s' b (es1 & s1 & a & es2 & H1 & H2 & ->)%bind_ret.
  eapply trace_app; [by eapply Hm | by eapply Hf].
Qed.
(** What is known of the value of an outcome may be used in the rest. *)
Lemma keeps_lift_bind {A B} (o : outcome A) (f : A → prog S E B) :
  (∀ a, o = Ret a → keeps R (f a)) → keeps R (lift o ≫= f).
Proof.
  intros Hf s es s' b (es1 & s1 & a & es2 & [= <- <- ->] & H2 & ->)%bind_ret.
  by eapply Hf.
Qed.
End keeps.

Create HintDb keeps discriminated.
#[export] Hint Resolve keeps_mret keeps_lift keeps_gets keeps_get_state keeps_emit
  keeps_panic keeps_block : keeps.
#[export] Hint Extern 1 (TraceRel _) => exact _ : keeps.

(** Descends into the tests and binds of a program, leaving its assignments
    and actions to the [keeps] database. *)
Ltac keeps_step :=
  first
    [ progress cbv zeta
    | solve [eauto with keeps]
    | match goal with
      | |- keeps _ (lift _ ≫= _) => apply keeps_lift_bind; intros
      | |- keeps _ (_ ≫= _) => apply keeps_bind; [exact _| |intros]
      | |- keeps _ (modify _) => apply keeps_modify; intros
      | |- keeps _ (emit _) => apply keeps_emit; intros
      end
    | case_match ].
Ltac keeps_tac := repeat keeps_step.

(** ** Total correctness

    [wp m s Q]: started in [s], [m] yields a value (it neither panics nor waits
    forever), and [Q] holds of its actions, its final state and its value. *)
Definition wp {S E A} (m : prog S E A) (s : S) (Q : list E → S → A → Prop) : Prop :=
  ∃ es s' a, m s = (es, s', Ret a) ∧ Q es s' a.

Section wp.
Context {S E : Type}.
Implicit Types s : S.

Lemma wp_mret {A} (a : A) s Q : Q [] s a → wp (mret a : prog S E A) s Q.
Proof. intros H. by exists [], s, a. Qed.
Lemma wp_get_state s Q : Q [] s s → wp (get_state : prog S E S) s Q.
Proof. intros H. by exists [], s, s. Qed.
Lemma wp_modify f s Q : Q [] (f s) tt → wp (modify f : prog S E unit) s Q.
Proof. intros H. by exists [], (f s), tt. Qed.
Lemma wp_emit (e : E) s Q : Q [e] s tt → wp (emit e : prog S E unit) s Q.
Proof. intros H. by exists [e], s, tt. Qed.
Lemma wp_lift {A} (a : A) s Q : Q [] s a → wp (lift (Ret a) : prog S E A) s Q.
Proof. intros H. by exists [], s, a. Qed.
Lemma wp_bind {A B} (m : prog S E A) (f : A → prog S E B) s Q :
  wp m s (λ es s1 a, wp (f a) s1 (λ es' s2 b, Q (es ++ es') s2 b)) → wp (m ≫= f) s Q.
Proof.
  intros (es & s1 & a & Hm & es' & s2 & b & Hf & HQ). exists (es ++ es'), s2, b. split; [|done].
  rewrite (run_bind _ _ _ _ _ _ Hm). by rewrite Hf.
Qed.
Lemma wp_mono {A} (m : prog S E A) s (P Q : list E → S → A → Prop) :
  (∀ es s' a, P es s' a → Q es s' a) → wp m s P → wp m s Q.
Proof. intros H (es & s' & a & Hm & HP). exists es, s', a. auto. Qed.
Lemma wp_run {A} (m : prog S E A) s es s' a (Q : list E → S → A → Prop) :
  m s = (es, s', Ret a) → Q es s' a → wp m s Q.
Proof. intros H HQ. by exists es, s', a. Qed.
End wp.

(** One step of a program under [wp]. *)
Ltac wp_step :=
  lazymatch goal with
  | |- wp (_ ≫= _) _ _ => apply wp_bind
  | |- wp (mret _) _ _ => apply wp_mret
  | |- wp get_state _ _ => apply wp_get_state
  | |- wp (modify _) _ _ => apply wp_modify
  | |- wp (emit _) _ _ => apply wp_emit
  | |- wp (lift (Ret _)) _ _ => apply wp_lift
  end.
Ltac wp_steps := repeat (wp_step; cbv beta; cbn [app]).

(** ** Partial correctness

    [wlp m s Q]: if [m] started in [s] yields a value, [Q] holds of its actions,
    its final state and that value. *)
Definition wlp {S E A} (m : prog S E A) (s : S) (Q : list E → S → A → Prop) : Prop :=
  ∀ es s' a, m s = (es, s', Ret a) → Q es s' a.

(** What holds of every result holds of the one there is. *)
Lemma wp_wlp {S E A} (m : prog S E A) s (P Q : list E → S → A → Prop) :
  wlp m s P → wp m s Q → wp m s (λ es s' a, P es s' a ∧ Q es s' a).
Proof. intros HP (es & s' & a & Hm & HQ). exists es, s', a. split; [done|]. split; [by apply (HP es s' a)|done]. Qed.

Section wlp.
Context {S E : Type}.
Implicit Types s : S.

Lemma wlp_mret {A} (a : A) s Q : Q [] s a → wlp (mret a : prog S E A) s Q.
Proof. by intros H es s' b [= <- <- <-]. Qed.
Lemma wlp_get_state s Q : Q [] s s → wlp (get_state : prog S E S) s Q.
Proof. by intros H es s' b [= <- <- <-]. Qed.
Lemma wlp_modify f s Q : Q [] (f s) tt → wlp (modify f : prog S E unit) s Q.
Proof. by intros H es s' b [= <- <- <-]. Qed.
Lemma wlp_emit (e : E) s Q : Q [e] s tt → wlp (emit e : prog S E unit) s Q.
Proof. by intros H es s' b [= <- <- <-]. Qed.
Lemma wlp_lift {A} (o : outcome A) s Q :
  (∀ a, o = Ret a → Q [] s a) → wlp (lift o : prog S E A) s Q.
Proof. intros H es s' b [= <- <- ->]. by apply H. Qed.
Lemma wlp_panic {A} w s (Q : list E → S → A → Prop) : wlp (panic w) s Q.
Proof. by intros es s' b [=]. Qed.
Lemma wlp_block {A} s (Q : list E → S → A → Prop) : wlp block s Q.
Proof. by intros es s' b [=]. Qed.
Lemma wlp_bind {A B} (m : prog S E A) (f : A → prog S E B) s Q :
  wlp m s (λ es s1 a, wlp (f a) s1 (λ es' s2 b, Q (es ++ es') s2 b)) → wlp (m ≫= f) s Q.
Proof.
  intros H es s' b (es1 & s1 & a & es2 & H1 & H2 & ->)%bind_ret. by apply (H _ _ _ H1).
Qed.
Lemma wlp_mono {A} (m : prog S E A) s (P Q : list E → S → A → Prop) :
  wlp m s P → (∀ es s' a, P es s' a → Q es s' a) → wlp m s Q.
Proof. intros H HPQ es s' a Hm. by apply HPQ, H. Qed.
End wlp.

(** ** Correctness up to panics

    [wpe P m s Q]: started in [s], [m] yields a value and [Q] holds of its actions, its
    final state and that value, or it panics and [P] holds. *)
Definition wpe {S E A} (P : Prop) (m : prog S E A) (s : S) (Q : list E → S → A → Prop) : Prop :=
  match m s with
  | (es, s', Ret a) => Q es s' a
  | (_, _, Panic _) => P
  | (_, _, Block) => False
  end.

Section wpe.
Context {S E : Type} (P : Prop).
Implicit Types s : S.

Lemma wpe_bind {A B} (m : prog S E A) (f : A → prog S E B) s Q :
  wpe P m s (λ es s1 a, wpe P (f a) s1 (λ es' s2 b, Q (es ++ es') s2 b)) → wpe P (m ≫= f) s Q.
Proof.
  unfold wpe, mbind, prog_mbind. destruct (m s) as [[es s1] [a|w|]]; [|done..].
  by destruct (f a s1) as [[es' s2] [b|w|]].
Qed.
Lemma wpe_mono {A} (m : prog S E A) s (Q Q' : list E → S → A → Prop) :
  wpe P m s Q → (∀ es s' a, Q es s' a → Q' es s' a) → wpe P m s Q'.
Proof. unfold wpe. destruct (m s) as [[es s1] [a|w|]]; auto. Qed.
Lemma wpe_lift {A} (a : A) s Q : Q [] s a → wpe P (lift (Ret a) : prog S E A) s Q.
Proof. done. Qed.
(** A program that does not panic. *)
Lemma wpe_wp {A} (m : prog S E A) s (Q : list E → S → A → Prop) :
  wpe P m s Q → ¬ P → wp m s Q.
Proof.
  unfold wpe, wp. destruct (m s) as [[es s1] [a|w|]] eqn:Hm; [|done..]. intros HQ _. by exists es, s1, a.
Qed.
Lemma wpe_zoom {T F A} (look : T → outcome S) (store : S → T → T) (act : E → F) (m : prog S E A)
    t s (Q : list F → T → A → Prop) :
  look t = Ret s → wpe P m s (λ es s' a, Q (act <$> es) (store s' t) a) →
  wpe P (zoom look store act m) t Q.
Proof. unfold wpe, zoom. intros ->. by destruct (m s) as [[es s'] [a|w|]]. Qed.
End wpe.

(** One step of a program under [wpe]. *)
Ltac wpe_step :=
  lazymatch goal with
  | |- wpe _ (_ ≫= _) _ _ => apply wpe_bind
  | |- wpe _ (mret ?a) ?s ?Q => change (Q [] s a)
  | |- wpe _ get_state ?s ?Q => change (Q [] s s)
  | |- wpe _ (modify ?f) ?s ?Q => change (Q [] (f s) tt)
  | |- wpe _ (emit ?e) ?s ?Q => change (Q [e] s tt)
  | |- wpe _ (lift (Ret _)) _ _ => apply wpe_lift
  end.
Ltac wpe_steps := repeat (wpe_step; cbv beta; cbn [app]).

(** ** The values of a map, as a multiset *)
Definition map_vals {A} (m : gmap string A) : list A := snd <$> map_to_list m.

Lemma map_vals_delete {A} (m : gmap string A) k x :
  m !! k = Some x → map_vals m ≡ₚ x :: map_vals (delete k m).
Proof. intros H. unfold map_vals. by rewrite <-(map_to_list_delete m k x H). Qed.

Lemma map_vals_insert {A} (m : gmap string A) k x : map_vals (<[k := x]> m) ⊆+ x :: map_vals m.
Proof.
  rewrite <-insert_delete_eq. unfold map_vals at 1.
  rewrite map_to_list_insert by apply lookup_delete_eq. cbn. apply submseteq_skip.
  destruct (m !! k) as [y|] eqn:E.
  - rewrite (map_vals_delete m k y) by done. apply submseteq_cons. reflexivity.
  - by rewrite delete_id.
Qed.

Lemma omap_map {A B C} (f : B → option C) (g : A → B) (l : list A) :
  omap f (g <$> l) = omap (λ x, f (g x)) l.
Proof. induction l as [|x l IH]; [done|]. cbn. by rewrite IH. Qed.

(** ** Machine integers *)
Definition two63 : Z := 2 ^ 63.
Definition two64 : Z := 2 ^ 64.

(** Conversion to [int64] (the width of [time.Duration]) and to [uint64]. *)
Definition int64 (z : Z) : Z := (z + two63) mod two64 - two63.
Definition uint64 (z : Z) : Z := z mod two64.
Definition is_int64 (z : Z) : Prop := - two63 ≤ z < two63.
Definition is_uint64 (z : Z) : Prop := 0 ≤ z < two64.

Lemma int64_range z : is_int64 (int64 z).
Proof.
  unfold is_int64, int64.
  pose proof (Z.mod_pos_bound (z + two63) two64 eq_refl). unfold two63, two64 in *. lia.
Qed.

Lemma int64_id z : is_int64 z → int64 z = z.
Proof. unfold is_int64, int64. intros H. rewrite Z.mod_small; unfold two63, two64 in *; lia. Qed.

Lemma uint64_id z : is_uint64 z → uint64 z = z.
Proof. unfold is_uint64, uint64. intros H. by rewrite Z.mod_small. Qed.

Lemma int64_cong z : ∃ k, int64 z = z + k * two64.
Proof.
  exists (- ((z + two63) / two64)). unfold int64.
  pose proof (Z.div_mod (z + two63) two64). unfold two63, two64 in *. lia.
Qed.

(** Reducing the parts of a sum or a product first makes no difference. *)
Lemma int64_eq_cong a b k : a = b + k * two64 → int64 a = int64 b.
Proof.
  intros ->. unfold int64. f_equal.
  replace (b + k * two64 + two63) with (b + two63 + k * two64) by lia.
  by rewrite Z.mod_add.
Qed.
Lemma int64_add_l a b : int64 (int64 a + b) = int64 (a + b).
Proof. destruct (int64_cong a) as [k ->]. apply (int64_eq_cong _ _ k). lia. Qed.
Lemma int64_add_r a b : int64 (a + int64 b) = int64 (a + b).
Proof. destruct (int64_cong b) as [k ->]. apply (int64_eq_cong _ _ k). lia. Qed.
Lemma int64_mul_l a b : int64 (int64 a * b) = int64 (a * b).
Proof. destruct (int64_cong a) as [k ->]. apply (int64_eq_cong _ _ (k * b)). lia. Qed.
Lemma int64_mul_r a b : int64 (a * int64 b) = int64 (a * b).
Proof. destruct (int64_cong b) as [k ->]. apply (int64_eq_cong _ _ (a * k)). lia. Qed.
Lemma int64_idemp a : int64 (int64 a) = int64 a.
Proof. apply int64_id, int64_range. Qed.


(** Proves [int64 a = int64 b] when [a] and [b] differ by the reductions of
    their parts only. *)
Ltac int64_tac :=
  repeat match goal with
  | |- int64 ?a = int64 ?b =>
      match a with
      | context [int64 ?x] =>
          lazymatch x with
          | context [int64 _] => fail
          | _ => let k := fresh "k" in destruct (int64_cong x) as [k ->]
          end
      end
  end;
  unfold int64, two63, two64 in *; Z.to_euclidean_division_equations; lia.

(** ** Tactics *)
#[global] Set Warnings "-clear-no-such-hyp".

(** Splits on the innermost test of the goal or of a hypothesis, and closes
    the branches whose equations clash. *)
Ltac split_cases :=
  repeat (case_match; simplify_eq/=; try done).
