(* ===== verification/Perun.v ===== *)
(** * The root package: data types and API errors (perun.go)

    Every struct of [perun.go] that the program's logic reads or writes, the
    error categories and codes, the additional information of each error code,
    and Go error values with the operations of [github.com/pkg/errors] the code
    uses on them (wrapping, [As], [Is], [Error]).

    Types of go-perun that the node only stores and passes on (addresses, app
    definitions and data, wallets) are parameters, collected in [GoTypes]. *)
From S2P Require Import Prelude.
Local Open Scope Z_scope.

(** Opaque types of go-perun.  [address] is [pwallet.Address] (which is
    [pwire.Address]); a value of this type is a non-nil interface value, a
    possibly nil one is an [option address]. *)
Class GoTypes := {
  address : Type;
  addr_String : address → string;
  addr_Equals : address → address → bool;
  appdef : Type;
  appdata : Type;
  NoApp : appdef;
  NoData : appdata;
  wallet : Type;
}.

(** [Equals] decides equality of addresses. *)
Class GoTypesLaws `{GoTypes} : Prop := {
  addr_Equals_spec a b : addr_Equals a b = true ↔ a = b;
}.

Definition OwnAlias : string := "self".

Section perun.
Context {GT : GoTypes}.

(** ** Participants and credentials *)
Record PeerID := mkPeerID {
  pid_Alias : string;
  pid_OffChainAddr : option address;
  pid_OffChainAddrString : string;
  pid_CommAddr : string;
  pid_CommType : string;
}.
Definition PeerID_zero : PeerID := mkPeerID "" None "" "" "".

Record Credential := mkCredential {
  cred_Addr : address;
  cred_Wallet : wallet;
  cred_Keystore : string;
  cred_Password : string;
}.

(** ** Balances and channel information *)
Record BalInfo := mkBalInfo {
  bi_Currencies : list string;
  bi_Parts : list string;
  bi_Bals : list (list string);
}.
Definition BalInfo_zero : BalInfo := mkBalInfo [] [] [].

Record App := mkApp { app_Def : option appdef; app_Data : option appdata }.

Record ChInfo := mkChInfo {
  ci_ChID : string;
  ci_BalInfo : BalInfo;
  ci_App : App;
  ci_Version : string;
}.
Definition ChInfo_zero : ChInfo := mkChInfo "" BalInfo_zero (mkApp None None) "".

(** [payment.PayChInfo]; declared here because API errors can carry it. *)
Record PayChInfo := mkPayChInfo {
  pci_ChID : string;
  pci_BalInfo : BalInfo;
  pci_Version : string;
}.

(** ** Error categories, codes and additional information *)
Inductive ErrorCategory :=
| ParticipantError | ClientError | ProtocolFatalError | InternalError.

Definition ErrorCategory_int (c : ErrorCategory) : Z :=
  match c with
  | ParticipantError => 0 | ClientError => 1 | ProtocolFatalError => 2 | InternalError => 3
  end.

Definition ErrorCategory_String (c : ErrorCategory) : string :=
  match c with
  | ParticipantError => "Participant"
  | ClientError => "Client"
  | ProtocolFatalError => "Protocol Fatal"
  | InternalError => "Internal"
  end.

Inductive ErrorCode :=
| ErrPeerRequestTimedOut | ErrPeerRejected | ErrPeerNotFunded | ErrUserResponseTimedOut
| ErrResourceNotFound | ErrResourceExists | ErrInvalidArgument | ErrFailedPreCondition
| ErrInvalidConfig | ErrInvalidContracts
| ErrTxTimedOut | ErrChainNotReachable
| ErrUnknownInternal.

Definition ErrorCode_int (c : ErrorCode) : Z :=
  match c with
  | ErrPeerRequestTimedOut => 101 | ErrPeerRejected => 102
  | ErrPeerNotFunded => 103 | ErrUserResponseTimedOut => 104
  | ErrResourceNotFound => 201 | ErrResourceExists => 202
  | ErrInvalidArgument => 203 | ErrFailedPreCondition => 204
  | ErrInvalidConfig => 205 | ErrInvalidContracts => 206
  | ErrTxTimedOut => 301 | ErrChainNotReachable => 302
  | ErrUnknownInternal => 401
  end.

Record ContractErrInfo := mkContractErrInfo {
  cei_Name : string; cei_Address : string; cei_Error : string }.

(** The values stored in the [addInfo interface{}] field; [None] is nil. *)
Inductive ErrInfo :=
| ErrInfoPeerRequestTimedOut (PeerAlias Timeout : string)
| ErrInfoPeerRejected (PeerAlias Reason : string)
| ErrInfoPeerNotFunded (PeerAlias : string)
| ErrInfoUserResponseTimedOut (Expiry ReceivedAt : Z)
| ErrInfoResourceNotFound (Type_ ID : string)
| ErrInfoResourceExists (Type_ ID : string)
| ErrInfoInvalidArgument (Name Value Requirement : string)
| ErrInfoFailedPreCondUnclosedChs (ChInfos : list ChInfo)
| ErrInfoFailedPreCondUnclosedPayChs (PayChs : list PayChInfo)
| ErrInfoInvalidConfig (Name Value : string)
| ErrInfoInvalidContracts (ContractErrInfos : list ContractErrInfo)
| ErrInfoTxTimedOut (TxType TxID TxTimeout : string)
| ErrInfoChainNotReachable (ChainURL : string).

(** ** Go error values

    [ErrText] is an error without a type the code inspects, [ErrConst] a
    package constant of a type [Error string], [ErrWithMessage] the result of
    [errors.WithMessage] and [errors.Wrap].  The error types of go-perun that
    the code looks for with [errors.As] are leaves carrying the fields the
    code reads and their text. *)
Inductive goerror :=
| ErrText (text : string)
| ErrConst (e : string)
| ErrWithMessage (msg : string) (cause : goerror)
| RequestTimedOutError (text : string)
| PeerRejectedError (Reason text : string)
| FundingTimeoutError (Errors : list (list Z)) (text : string)
| TxTimedoutError (TxType TxID text : string)
| ChainNotReachableError (text : string)
| InvalidContractError (Name Address : string) (err : goerror)
| AssetERC20RegisteredError (Asset Symbol : string)
| ErrAPI (category : ErrorCategory) (code : ErrorCode) (err : goerror) (addInfo : option ErrInfo).

Record APIError := NewAPIErr {
  Category : ErrorCategory;
  Code : ErrorCode;
  Cause : goerror;
  AddInfo : option ErrInfo;
}.

(** An [APIError] used as a plain [error]. *)
Definition api_as_error (e : APIError) : goerror :=
  ErrAPI (Category e) (Code e) (Cause e) (AddInfo e).

(** The [Unwrap] method, where the type has one. *)
Definition error_Unwrap (e : goerror) : option goerror :=
  match e with
  | ErrWithMessage _ c => Some c
  | InvalidContractError _ _ c => Some c
  | ErrAPI _ _ c _ => Some c
  | _ => None
  end.

(** The [Error] method. *)
Fixpoint error_Error (e : goerror) : string :=
  match e with
  | ErrText t | ErrConst t | RequestTimedOutError t | PeerRejectedError _ t
  | FundingTimeoutError _ t | TxTimedoutError _ _ t | ChainNotReachableError t => t
  | ErrWithMessage m c => m +:+ ": " +:+ error_Error c
  | InvalidContractError n a c =>
      "invalid asset " +:+ n +:+ " contract at address " +:+ a +:+ ": " +:+ error_Error c
  | AssetERC20RegisteredError a s =>
      "already registered asset (" +:+ a +:+ ") for the symbol " +:+ s
  | ErrAPI cat code c _ =>
      ErrorCategory_String cat +:+ " " +:+ pretty (ErrorCode_int code) +:+ ":" +:+ error_Error c
  end.

(** [errors.As]: the first error of the chain that [proj] accepts. *)
Fixpoint errors_As {T} (proj : goerror → option T) (e : goerror) : option T :=
  match proj e with
  | Some t => Some t
  | None =>
      match e with
      | ErrWithMessage _ c | InvalidContractError _ _ c | ErrAPI _ _ c _ => errors_As proj c
      | _ => None
      end
  end.

Definition as_RequestTimedOutError (e : goerror) : option unit :=
  match e with RequestTimedOutError _ => Some tt | _ => None end.
Definition as_PeerRejectedError (e : goerror) : option string :=
  match e with PeerRejectedError r _ => Some r | _ => None end.
Definition as_FundingTimeoutError (e : goerror) : option (list (list Z)) :=
  match e with FundingTimeoutError es _ => Some es | _ => None end.
Definition as_TxTimedoutError (e : goerror) : option (string * string) :=
  match e with TxTimedoutError ty id _ => Some (ty, id) | _ => None end.
Definition as_ChainNotReachableError (e : goerror) : option unit :=
  match e with ChainNotReachableError _ => Some tt | _ => None end.
Definition as_InvalidContractError (e : goerror) : option (string * string * goerror) :=
  match e with InvalidContractError n a c => Some (n, a, c) | _ => None end.
Definition as_AssetERC20RegisteredError (e : goerror) : option (string * string) :=
  match e with AssetERC20RegisteredError a s => Some (a, s) | _ => None end.
(** [errors.Is(err, c)] for a package constant [c]. *)
Definition as_Const (c : string) (e : goerror) : option unit :=
  match e with ErrConst c' => if decide (c' = c) then Some tt else None | _ => None end.
Definition errors_Is (e : goerror) (c : string) : bool :=
  bool_decide (is_Some (errors_As (as_Const c) e)).

(** [errors.WithMessage] and [errors.Wrap] map nil to nil. *)
Definition WithMessage (e : option goerror) (msg : string) : option goerror :=
  ErrWithMessage msg <$> e.

(** ** Interfaces *)

(** [perun.Currency]; a possibly nil value is an [option Currency]. *)
Record Currency := mkCurrency {
  Currency_Parse : string → Z + goerror;
  Currency_Print : Z → string;
  Currency_Symbol : string;
}.

(** [perun.WalletBackend].  [UnlockAccount] returns an account the callers
    in this repository drop. *)
Record WalletBackend := mkWalletBackend {
  wb_ParseAddr : string → address + goerror;
  wb_NewWallet : string → string → wallet + goerror;
  wb_UnlockAccount : wallet → address → option goerror;
}.

(** [perun.IDProvider] as the session uses it, with what it relies on:
    a successful [Write] makes exactly the written alias readable, with the
    fields given except for the parsed address; a failed one changes nothing. *)
Class IDProviderI (I : Type) := {
  idp_ReadByAlias : I → string → option PeerID;
  idp_ReadByOffChainAddr : I → option address → option PeerID;
  idp_Write : string → PeerID → I → I * option goerror;
}.

Definition same_but_addr (p q : PeerID) : Prop :=
  pid_Alias p = pid_Alias q ∧ pid_OffChainAddrString p = pid_OffChainAddrString q ∧
  pid_CommAddr p = pid_CommAddr q ∧ pid_CommType p = pid_CommType q.

Class IDProviderLaws (I : Type) `{IDProviderI I} : Prop := {
  idp_Write_ok alias p i i' : idp_Write alias p i = (i', None) →
    idp_ReadByAlias i alias = None ∧
    (∃ q, idp_ReadByAlias i' alias = Some q ∧ same_but_addr q p ∧
          is_Some (pid_OffChainAddr q)) ∧
    (∀ alias', alias' ≠ alias → idp_ReadByAlias i' alias' = idp_ReadByAlias i alias');
  idp_Write_err alias p i i' e : idp_Write alias p i = (i', Some e) → i' = i;
}.

(** ** Notifications *)
Record ChProposalNotif := mkChProposalNotif {
  cpn_ProposalID : string;
  cpn_OpeningBalInfo : BalInfo;
  cpn_App : App;
  cpn_ChallengeDurSecs : Z;
  cpn_Expiry : Z;
}.

Inductive ChUpdateType := ChUpdateTypeOpen | ChUpdateTypeFinal | ChUpdateTypeClosed.

Record ChUpdateNotif := mkChUpdateNotif {
  cun_UpdateID : string;
  cun_CurrChInfo : ChInfo;
  cun_ProposedChInfo : ChInfo;
  cun_Type : ChUpdateType;
  cun_Expiry : Z;
  cun_Error : option APIError;
}.

Record NodeConfig := mkNodeConfig {
  nc_LogLevel : string;
  nc_LogFile : string;
  nc_ChainURL : string;
  nc_ChainID : Z;
  nc_Adjudicator : string;
  nc_AssetETH : string;
  nc_AssetERC20s : list (string * string);
  nc_ChainConnTimeout : Z;
  nc_OnChainTxTimeout : Z;
  nc_ResponseTimeout : Z;
  nc_CommTypes : list string;
  nc_IDProviderTypes : list string;
  nc_CurrencyInterpreters : list string;
}.
End perun.

#[global] Instance ErrorCategory_eq_dec : EqDecision ErrorCategory.
Proof. solve_decision. Defined.
#[global] Instance ErrorCode_eq_dec : EqDecision ErrorCode.
Proof. solve_decision. Defined.
#[global] Instance ChUpdateType_eq_dec : EqDecision ChUpdateType.
Proof. solve_decision. Defined.
#[global] Instance BalInfo_eq_dec : EqDecision BalInfo.
Proof. solve_decision. Defined.

Section perun_facts.
Context {GT : GoTypes}.

(** The recursion of [errors_As] follows [Unwrap]. *)
Lemma errors_As_unfold {T} (proj : goerror → option T) e :
  errors_As proj e =
  match proj e with
  | Some t => Some t
  | None => error_Unwrap e ≫= errors_As proj
  end.
Proof. destruct e; reflexivity. Qed.

(** Annotating an error does not hide it from [errors.As], unless the target
    type is the annotation itself. *)
Lemma errors_As_WithMessage {T} (proj : goerror → option T) msg e :
  proj (ErrWithMessage msg e) = None → errors_As proj (ErrWithMessage msg e) = errors_As proj e.
Proof. cbn. by intros ->. Qed.
End perun_facts.
