(* ===== verification/Errors.v ===== *)
(** * Construction of API errors (errors.go)

    One definition per error-code specific constructor, with the message and
    the additional information it builds, and the well-formedness of API errors
    that every constructor establishes: the category is the one its code
    belongs to, and the additional information has the shape fixed for the
    code. *)
From S2P Require Import Prelude Perun.

Section errors.
Context {GT : GoTypes}.

Definition Message (e : APIError) : string := error_Error (Cause e).

(** [apiError.Error]. *)
Definition APIError_Error (e : APIError) : string :=
  ErrorCategory_String (Category e) +:+ " " +:+ pretty (ErrorCode_int (Code e))
  +:+ ":" +:+ Message e.

Definition NewAPIErrPeerRequestTimedOut (err : goerror) (peerAlias timeout : string) : APIError :=
  let message := "timed out waiting for response from " +:+ peerAlias +:+ " for " +:+ timeout in
  NewAPIErr ParticipantError ErrPeerRequestTimedOut (ErrWithMessage message err)
    (Some (ErrInfoPeerRequestTimedOut peerAlias timeout)).

Definition NewAPIErrPeerRejected (err : goerror) (peerAlias reason : string) : APIError :=
  let message := "peer " +:+ peerAlias +:+ " rejected with reason " +:+ reason in
  NewAPIErr ParticipantError ErrPeerRejected (ErrWithMessage message err)
    (Some (ErrInfoPeerRejected peerAlias reason)).

Definition NewAPIErrPeerNotFunded (err : goerror) (peerAlias : string) : APIError :=
  let message := "peer " +:+ peerAlias +:+ " did not fund within expected time" in
  NewAPIErr ParticipantError ErrPeerNotFunded (ErrWithMessage message err)
    (Some (ErrInfoPeerNotFunded peerAlias)).

Definition NewAPIErrUserResponseTimedOut (expiry receivedAt : Z) : APIError :=
  let message := "response received (at " +:+ pretty receivedAt
                 +:+ ") after timeout expired (at " +:+ pretty expiry +:+ ")" in
  NewAPIErr ParticipantError ErrUserResponseTimedOut (ErrText message)
    (Some (ErrInfoUserResponseTimedOut expiry receivedAt)).

Definition NewAPIErrResourceNotFound (resourceType resourceID : string) : APIError :=
  let message := "cannot find " +:+ resourceType +:+ " with ID: " +:+ resourceID in
  NewAPIErr ClientError ErrResourceNotFound (ErrText message)
    (Some (ErrInfoResourceNotFound resourceType resourceID)).

Definition NewAPIErrResourceExists (resourceType resourceID : string) : APIError :=
  let message := resourceType +:+ " with ID: " +:+ resourceID +:+ " already exists" in
  NewAPIErr ClientError ErrResourceExists (ErrText message)
    (Some (ErrInfoResourceExists resourceType resourceID)).

(** The [Requirement] field is left at its zero value. *)
Definition NewAPIErrInvalidArgument (err : goerror) (name value : string) : APIError :=
  let message := "invalid value for " +:+ name +:+ ": " +:+ value in
  NewAPIErr ClientError ErrInvalidArgument (ErrWithMessage message err)
    (Some (ErrInfoInvalidArgument name value "")).

Definition newAPIErrFailedPreCondition (err : goerror) (addInfo : option ErrInfo) : APIError :=
  NewAPIErr ClientError ErrFailedPreCondition (ErrWithMessage "failed pre-condition" err) addInfo.

Definition NewAPIErrFailedPreCondition (err : goerror) : APIError :=
  newAPIErrFailedPreCondition err None.

Definition NewAPIErrFailedPreConditionUnclosedChs (err : goerror) (chs : list ChInfo) : APIError :=
  newAPIErrFailedPreCondition err (Some (ErrInfoFailedPreCondUnclosedChs chs)).

Definition NewAPIErrInvalidConfig (err : goerror) (name value : string) : APIError :=
  let message := "invalid value for " +:+ name +:+ ": " +:+ value in
  NewAPIErr ClientError ErrInvalidConfig (ErrWithMessage message err)
    (Some (ErrInfoInvalidConfig name value)).

Definition contractErrMsg (c : ContractErrInfo) : string :=
  "(" +:+ cei_Name c +:+ " at address " +:+ cei_Address c +:+ ": " +:+ cei_Error c +:+ ") ".

Definition NewAPIErrInvalidContracts (contractErrInfos : list ContractErrInfo) : APIError :=
  let contractsErrInfosMsg :=
    foldl (λ msg c, msg +:+ contractErrMsg c) "" contractErrInfos in
  NewAPIErr ClientError ErrInvalidContracts
    (ErrText ("invalid contracts: " +:+ contractsErrInfosMsg))
    (Some (ErrInfoInvalidContracts contractErrInfos)).

Definition NewAPIErrTxTimedOut (err : goerror) (txType txID txTimeout : string) : APIError :=
  let message := "timed out waiting for " +:+ txType +:+ " tx (ID:" +:+ txID
                 +:+ ") to be mined in " +:+ txTimeout +:+ ": " +:+ error_Error err in
  NewAPIErr ProtocolFatalError ErrTxTimedOut (ErrWithMessage message err)
    (Some (ErrInfoTxTimedOut txType txID txTimeout)).

Definition NewAPIErrChainNotReachable (err : goerror) (chainURL : string) : APIError :=
  let message := "chain not reachable at URL " +:+ chainURL in
  NewAPIErr ProtocolFatalError ErrChainNotReachable (ErrWithMessage message err)
    (Some (ErrInfoChainNotReachable chainURL)).

Definition NewAPIErrUnknownInternal (err : goerror) : APIError :=
  NewAPIErr InternalError ErrUnknownInternal (ErrWithMessage "unknown internal error" err) None.

(** The fields [APIErrAsMap] logs; a code is logged as a number. *)
Definition APIErrAsMap (method : string) (err : APIError) : gmap string (string + Z) :=
  {[ "method" := inl method;
     "category" := inl (ErrorCategory_String (Category err));
     "code" := inr (ErrorCode_int (Code err)) ]}.

(** ** Well-formed API errors *)

(** The codes are numbered by category: 1xx, 2xx, 3xx, 4xx. *)
Definition code_of_category (cat : ErrorCategory) (code : ErrorCode) : Prop :=
  ErrorCode_int code / 100 = ErrorCategory_int cat + 1.

(** The shape of the additional information fixed for each code. *)
Definition info_of_code (code : ErrorCode) (info : option ErrInfo) : Prop :=
  match code, info with
  | ErrPeerRequestTimedOut, Some (ErrInfoPeerRequestTimedOut _ _)
  | ErrPeerRejected, Some (ErrInfoPeerRejected _ _)
  | ErrPeerNotFunded, Some (ErrInfoPeerNotFunded _)
  | ErrUserResponseTimedOut, Some (ErrInfoUserResponseTimedOut _ _)
  | ErrResourceNotFound, Some (ErrInfoResourceNotFound _ _)
  | ErrResourceExists, Some (ErrInfoResourceExists _ _)
  | ErrInvalidArgument, Some (ErrInfoInvalidArgument _ _ _)
  | ErrFailedPreCondition, None
  | ErrFailedPreCondition, Some (ErrInfoFailedPreCondUnclosedChs _)
  | ErrFailedPreCondition, Some (ErrInfoFailedPreCondUnclosedPayChs _)
  | ErrInvalidConfig, Some (ErrInfoInvalidConfig _ _)
  | ErrInvalidContracts, Some (ErrInfoInvalidContracts _)
  | ErrTxTimedOut, Some (ErrInfoTxTimedOut _ _ _)
  | ErrChainNotReachable, Some (ErrInfoChainNotReachable _)
  | ErrUnknownInternal, None => True
  | _, _ => False
  end.

Definition wf_APIError (e : APIError) : Prop :=
  code_of_category (Category e) (Code e) ∧ info_of_code (Code e) (AddInfo e).

(** A result that is nil or a well-formed error with a code of [codes]. *)
Definition errs_in (codes : list ErrorCode) (e : option APIError) : Prop :=
  match e with None => True | Some e => wf_APIError e ∧ Code e ∈ codes end.

Lemma errs_in_mono codes codes' e :
  errs_in codes e → codes ⊆ codes' → errs_in codes' e.
Proof. destruct e; cbn; [|done]. intros [? ?] ?. split; [done|]. set_solver. Qed.
End errors.

(** Every constructor call proves its well-formedness by computation. *)
Ltac errs_in_tac := cbn; repeat split; try done; set_solver.

Create HintDb errs discriminated.
#[export] Hint Extern 3 (errs_in _ (Some _)) => errs_in_tac : errs.
#[export] Hint Extern 1 (errs_in _ None) => exact I : errs.

Section error_properties.
Context {GT : GoTypes}.

(** [apiError.Unwrap] exposes the wrapped error: [errors.As] finds in an
    API error built from [err] whatever it finds in [err], for every target
    type other than the wrappers themselves. *)
Lemma api_error_transparent {T} (proj : goerror → option T) (err : goerror) e :
  (∀ m c, proj (ErrWithMessage m c) = None) →
  (∀ a b c d, proj (ErrAPI a b c d) = None) →
  (∃ m, Cause e = ErrWithMessage m err) →
  errors_As proj (api_as_error e) = errors_As proj err.
Proof.
  intros Hm Ha [m He]. unfold api_as_error. rewrite errors_As_unfold, Ha. cbn.
  rewrite He. cbn. by rewrite Hm.
Qed.
End error_properties.
