(* ===== verification/Currency.v ===== *)
(** * Currencies (currency/currency.go, currency/registry.go)

    The amount interpreters [currency] and the registry that indexes them by
    symbol.  Decimal arithmetic is github.com/shopspring/decimal, a parameter
    ([DecimalLib]); what the theorems use of it is stated as the laws
    [DecimalLaws] over the rational value of a decimal. *)
From Stdlib Require Import QArith Qround Qabs Qpower Lqa.
From S2P Require Import Prelude Perun.
Local Open Scope Z_scope.

(** ** The decimal library *)
Class DecimalLib `{GoTypes} := {
  decimal : Type;
  NewFromString : string → decimal + goerror;
  New : Z → Z → decimal;
  NewFromInt : Z → decimal;
  NewFromBigInt : Z → Z → decimal;
  Mul : decimal → decimal → decimal;
  LessThan : decimal → decimal → bool;
  BigInt : decimal → Z;
  Div : decimal → decimal → decimal;
  dec_String : decimal → string;
}.

Definition pow10 (e : Z) : Q := ((10 # 1) ^ e)%Q.

(** The integer component of a rational: rounding towards zero. *)
Definition Qtrunc (q : Q) : Z := Z.quot (Qnum q) (Zpos (Qden q)).

(** [DivisionPrecision], the number of decimal places of a quotient. *)
Definition DivisionPrecision : Z := 16.

(** Documented behaviour of the library: construction, multiplication and
    comparison are exact, [BigInt] drops the fractional part, [Div] gives the
    quotient rounded to the nearest multiple of 10^-DivisionPrecision, and the
    printed form of a decimal parses to the same value. *)
Class DecimalLaws `{DecimalLib} := {
  dval : decimal → Q;
  New_val v e : (dval (New v e) == inject_Z v * pow10 e)%Q;
  NewFromInt_val v : (dval (NewFromInt v) == inject_Z v)%Q;
  NewFromBigInt_val v e : (dval (NewFromBigInt v e) == inject_Z v * pow10 e)%Q;
  Mul_val a b : (dval (Mul a b) == dval a * dval b)%Q;
  LessThan_val a b : LessThan a b = true ↔ (dval a < dval b)%Q;
  BigInt_val a : BigInt a = Qtrunc (dval a);
  Div_val a b : ¬ (dval b == 0)%Q →
    ∃ k : Z, (dval (Div a b) == inject_Z k * pow10 (- DivisionPrecision))%Q ∧
             (Qabs (dval (Div a b) - dval a / dval b) * (2 # 1)
                <= pow10 (- DivisionPrecision))%Q;
  String_val a : ∃ a', NewFromString (dec_String a) = inl a' ∧ (dval a' == dval a)%Q;
}.

Section currency.
Context {GT : GoTypes} {DL : DecimalLib}.

(** ** The amount interpreter *)
Record currency := mkcurrency { symbol : string; decimals : decimal }.

Definition Parse (c : currency) (input : string) : Z + goerror :=
  match NewFromString input with
  | inr err => inr (ErrWithMessage "invalid decimal string" err)
  | inl amount =>
      let amountBaseUnit := Mul amount (decimals c) in
      if LessThan amountBaseUnit (NewFromInt 1)
      then inr (ErrText "amount is too small, should be larger than 1e-18")
      else inl (BigInt amountBaseUnit)
  end.

Definition Print (c : currency) (input : Z) : string :=
  let amountBaseUnit := NewFromBigInt input 0 in
  dec_String (Div amountBaseUnit (decimals c)).

Definition Symbol (c : currency) : string := symbol c.

(** A [currency] stored in an interface value of type [perun.Currency]. *)
Definition as_Currency (c : currency) : Currency :=
  mkCurrency (Parse c) (Print c) (Symbol c).

(** ** The registry *)
Definition ETHSymbol : string := "ETH".
Definition ETHMaxDecimals : Z := 18.

(** Entries of the map are interface values; a nil one counts as absent. *)
Record Registry := mkRegistry {
  symbols : list string;
  currencies : gmap string (option currency);
}.

Definition NewRegistry : Registry := mkRegistry [] ∅.

Definition Symbols (r : Registry) : list string := symbols r.

Definition isRegistered (r : Registry) (symbol : string) : bool :=
  match currencies r !! symbol with Some (Some _) => true | _ => false end.

Definition IsRegistered (r : Registry) (symbol : string) : bool := isRegistered r symbol.

Definition Register (r : Registry) (symbol : string) (maxDecimals : Z)
    : Registry * (currency + goerror) :=
  if isRegistered r symbol
  then (r, inr (ErrText "currency parser already registered for the given symbol"))
  else
    let c := mkcurrency symbol (New 1 maxDecimals) in
    (mkRegistry (symbols r ++ [symbol]) (<[symbol := Some c]> (currencies r)), inl c).

(** The zero value of the interface (nil) when the symbol is absent. *)
Definition Currency_ (r : Registry) (symbol : string) : option currency :=
  default None (currencies r !! symbol).

(** ** Well-formed registries

    The symbol list has no repetitions and lists exactly the registered
    symbols; every entry is an interpreter for its own symbol. *)
Record wf_Registry (r : Registry) : Prop := {
  wf_symbols_nodup : NoDup (symbols r);
  wf_symbols_dom s : s ∈ symbols r ↔ isRegistered r s = true;
  wf_entries s oc : currencies r !! s = Some oc → ∃ c, oc = Some c ∧ symbol c = s;
}.
End currency.

(** ** Rational arithmetic of amounts *)
Section amounts.
Local Open Scope Q_scope.

Lemma pow10_pos e : 0 < pow10 e.
Proof. apply Qpower_0_lt. reflexivity. Qed.

Lemma pow10_nz e : ¬ pow10 e == 0.
Proof. intros H. pose proof (pow10_pos e). rewrite H in *. by apply Qlt_irrefl in H0. Qed.

Lemma pow10_plus a b : pow10 (a + b) == pow10 a * pow10 b.
Proof. unfold pow10. apply Qpower_plus. discriminate. Qed.

Lemma pow10_inv a : pow10 (- a) * pow10 a == 1.
Proof. rewrite <- pow10_plus. by replace (- a + a)%Z with 0%Z by lia. Qed.

Lemma pow10_Z (n : Z) : (0 <= n)%Z → pow10 n == inject_Z (10 ^ n).
Proof. intros ?. symmetry. by apply Zpower_Qpower. Qed.

Lemma pow10_opp e : pow10 (- e) == / pow10 e.
Proof. apply Qpower_opp. Qed.

Lemma Qtrunc_Z z : Qtrunc (inject_Z z) = z.
Proof. unfold Qtrunc. cbn. apply Z.quot_1_r. Qed.

Lemma Qtrunc_comp q q' : q == q' → Qtrunc q = Qtrunc q'.
Proof.
  unfold Qeq, Qtrunc. intros E. destruct q as [a b], q' as [c d]; cbn in *.
  rewrite <- (Z.quot_mul_cancel_r a (Zpos b) (Zpos d)) by done.
  rewrite <- (Z.quot_mul_cancel_r c (Zpos d) (Zpos b)) by done.
  rewrite E. f_equal. lia.
Qed.

Lemma Qtrunc_bounds q : 0 <= q → inject_Z (Qtrunc q) <= q ∧ q < inject_Z (Qtrunc q) + 1.
Proof.
  destruct q as [a b]. unfold Qle, Qlt, Qtrunc. cbn. intros Ha.
  rewrite Z.quot_div_nonneg by lia.
  pose proof (Z.mul_div_le a (Zpos b)). pose proof (Z.mul_succ_div_gt a (Zpos b)).
  unfold Qplus, inject_Z; cbn. nia.
Qed.

(** Integers closer than one to each other are equal. *)
Lemma inject_Z_close a b : Qabs (inject_Z a - inject_Z b) < 1 → a = b.
Proof.
  unfold Qminus. rewrite <- inject_Z_opp, <- inject_Z_plus. intros H.
  apply Qabs_Qlt_condition in H as [H1 H2].
  unfold Qlt, inject_Z in *; cbn in *. lia.
Qed.
End amounts.
#[global] Instance Qtrunc_proper : Proper (Qeq ==> eq) Qtrunc.
Proof. exact Qtrunc_comp. Qed.

Section currency_properties.
Context `{DW : DecimalLaws}.

(** An interpreter with [d] decimal places. *)
Definition has_decimals (c : currency) (d : Z) : Prop := (dval (decimals c) == pow10 d)%Q.

Lemma Register_decimals r s d r' c : Register r s d = (r', inl c) → has_decimals c d.
Proof.
  unfold Register, has_decimals. intros. split_cases.
  rewrite (New_val 1 d). ring.
Qed.

Lemma Parse_run c d input n (Hd : has_decimals c d) :
  Parse c input = inl n ↔
  ∃ a, NewFromString input = inl a ∧ (1 <= dval a * pow10 d)%Q ∧
       n = Qtrunc (dval a * pow10 d)%Q.
Proof.
  unfold has_decimals in Hd. unfold Parse. destruct (NewFromString input) as [a|e]; [|split; [done|by intros (? & [=] & _)]].
  assert (Hm : (dval (Mul a (decimals c)) == dval a * pow10 d)%Q) by (by rewrite Mul_val, Hd).
  assert (H1 : (dval (NewFromInt 1) == 1)%Q) by (by rewrite NewFromInt_val).
  pose proof (LessThan_val (Mul a (decimals c)) (NewFromInt 1)) as HL.
  rewrite Hm, H1 in HL.
  destruct (LessThan _ _).
  - split; [done|]. intros (a' & [= <-] & Hle & _).
    destruct HL as [HL _]. specialize (HL eq_refl). lra.
  - rewrite BigInt_val, Hm. split.
    + intros [= <-]. exists a. repeat split; [|done..].
      apply Qnot_lt_le. intros Hlt. by apply HL in Hlt.
    + by intros (a' & [= <-] & _ & ->).
Qed.

Lemma Parse_pos c d input n (Hd : has_decimals c d) : Parse c input = inl n → 1 ≤ n.
Proof.
  intros (a & _ & Hle & ->)%(Parse_run _ d); [|done].
  destruct (Qtrunc_bounds (dval a * pow10 d)) as [_ Hlt]; [lra|].
  assert (Hz : (inject_Z 0 < inject_Z (Qtrunc (dval a * pow10 d)))%Q)
    by (change (inject_Z 0) with 0%Q; lra).
  rewrite <- Zlt_Qlt in Hz. lia.
Qed.

(** [Parse] accepts exactly the decimal strings denoting at least one
    base unit, and yields the number of base units rounded towards zero. *)
Theorem Parse_spec c d input n (Hd : has_decimals c d) :
  Parse c input = inl n ↔
  ∃ a, NewFromString input = inl a ∧ (1 <= dval a * pow10 d)%Q ∧
       n = Qtrunc (dval a * pow10 d)%Q.
Proof. by apply Parse_run. Qed.

(** The value [Print] shows: the nearest multiple of 10^-16. *)
Lemma Print_val c d n (Hd : has_decimals c d) :
  ∃ k, (dval (Div (NewFromBigInt n 0) (decimals c)) == inject_Z k * pow10 (-16))%Q ∧
       (Qabs (inject_Z k * pow10 (-16) - inject_Z n * pow10 (- d)) * (2 # 1) <= pow10 (-16))%Q.
Proof.
  unfold has_decimals in Hd.
  destruct (Div_val (NewFromBigInt n 0) (decimals c)) as (k & Hk & Hr).
  { rewrite Hd. apply pow10_nz. }
  exists k. split; [done|]. rewrite Hk, Hd, NewFromBigInt_val in Hr.
  assert (E : (inject_Z n * pow10 0 / pow10 d == inject_Z n * pow10 (- d))%Q).
  { rewrite pow10_opp. unfold Qdiv. change (pow10 0) with 1%Q. ring. }
  by rewrite E in Hr.
Qed.

(** An amount that is a multiple of 10^-16 of the currency is shown exactly. *)
Lemma Print_exact c d n (Hd : has_decimals c d) (Hd0 : 0 ≤ d)
    (Hn : (10 ^ Z.max 0 (d - DivisionPrecision) | n)) :
  (dval (Div (NewFromBigInt n 0) (decimals c)) == inject_Z n * pow10 (- d))%Q.
Proof.
  destruct (Print_val c d n Hd) as (k & -> & Hk).
  assert (Hm : ∃ m, (inject_Z n * pow10 (- d) == inject_Z m * pow10 (-16))%Q).
  { unfold DivisionPrecision in Hn. destruct (decide (d ≤ 16)).
    - exists (n * 10 ^ (16 - d))%Z.
      rewrite inject_Z_mult, <- pow10_Z by lia.
      rewrite <- Qmult_assoc, <- pow10_plus. by replace (16 - d + -16)%Z with (- d)%Z by lia.
    - destruct Hn as [m ->]. exists m. rewrite Z.max_r by lia.
      rewrite inject_Z_mult, <- pow10_Z by lia.
      rewrite <- Qmult_assoc, <- pow10_plus. by replace (d - 16 + - d)%Z with (-16)%Z by lia. }
  destruct Hm as [m Hm]. rewrite Hm in Hk |- *.
  enough (k = m) as -> by reflexivity.
  apply inject_Z_close. pose proof (pow10_pos (-16)).
  assert (E : (inject_Z k * pow10 (-16) - inject_Z m * pow10 (-16)
               == (inject_Z k - inject_Z m) * pow10 (-16))%Q) by ring.
  rewrite E, Qabs_Qmult, (Qabs_pos (pow10 _)) in Hk by lra. nra.
Qed.

(** C39: Printing and parsing an amount gives it back whenever it is positive and
    needs at most sixteen decimal places. *)
Theorem Print_Parse_roundtrip c d n (Hd : has_decimals c d) (Hd0 : 0 ≤ d) (Hpos : 1 ≤ n)
    (Hn : (10 ^ Z.max 0 (d - DivisionPrecision) | n)) :
  Parse c (Print c n) = inl n.
Proof.
  apply (Parse_run c d); [done|]. unfold Print.
  destruct (String_val (Div (NewFromBigInt n 0) (decimals c))) as (a & Ha & Hv).
  exists a. split; [done|].
  assert (E : (dval a * pow10 d == inject_Z n)%Q).
  { rewrite Hv, (Print_exact c d) by done. rewrite <- Qmult_assoc, pow10_inv. ring. }
  rewrite E, Qtrunc_Z. split; [|done].
  change 1%Q with (inject_Z 1). by rewrite <- Zle_Qle.
Qed.

(** Printing loses the digits beyond the sixteenth: with 18 decimal places, an
    amount below 50 base units prints to a string that [Parse] refuses. *)
Theorem Print_loses_small_amounts c n (Hd : has_decimals c ETHMaxDecimals) (Hn : 0 ≤ n < 50) :
  ∃ e, Parse c (Print c n) = inr e.
Proof.
  destruct (Parse c (Print c n)) as [m|e] eqn:E; [exfalso|by eauto].
  apply (Parse_run c _ _ _ Hd) in E as (a & Ha & Hle & _). unfold Print in Ha.
  destruct (String_val (Div (NewFromBigInt n 0) (decimals c))) as (a' & Ha' & Hv).
  rewrite Ha in Ha'. injection Ha' as <-.
  destruct (Print_val c _ n Hd) as (k & Hk & Hr).
  assert (k = 0) as ->.
  { apply inject_Z_close. pose proof (pow10_pos (-16)) as Hp.
    assert (H18 : (pow10 (- ETHMaxDecimals) == pow10 (-16) * (1 # 100))%Q) by reflexivity.
    rewrite H18 in Hr. apply Qabs_Qlt_condition.
    assert (Hr' : (Qabs (inject_Z k * pow10 (-16) - inject_Z n * (pow10 (-16) * (1 # 100)))
                   <= pow10 (-16) * (1 # 2))%Q) by lra.
    apply Qabs_Qle_condition in Hr' as [H1 H2].
    assert (H0n : (0 <= inject_Z n)%Q) by (change 0%Q with (inject_Z 0); rewrite <- Zle_Qle; lia).
    assert (Hn50 : (inject_Z n <= 49)%Q) by (change 49%Q with (inject_Z 49); rewrite <- Zle_Qle; lia).
    change (inject_Z 0) with 0%Q. split; nra. }
  rewrite Hv, Hk in Hle. change (inject_Z 0) with 0%Q in Hle. lra.
Qed.
End currency_properties.

(** ** The registry *)
Section registry_properties.
Context {GT : GoTypes} {DL : DecimalLib}.

Lemma isRegistered_insert r s s' c :
  isRegistered (mkRegistry (symbols r ++ [s]) (<[s := Some c]> (currencies r))) s' = true ↔
  s' = s ∨ isRegistered r s' = true.
Proof.
  unfold isRegistered; cbn. destruct (decide (s = s')) as [->|Hne].
  - rewrite lookup_insert_eq. naive_solver.
  - rewrite lookup_insert_ne by done. naive_solver.
Qed.

Lemma NewRegistry_wf : wf_Registry NewRegistry.
Proof. split; cbn; [constructor|set_solver|done]. Qed.

Lemma Register_wf r s d : wf_Registry r → wf_Registry (Register r s d).1.
Proof.
  intros [Hnd Hdom Hent]. unfold Register.
  destruct (isRegistered r s) eqn:E; [by split|]. cbn. split; cbn [symbols currencies].
  - apply NoDup_app. repeat split; [done| |apply NoDup_singleton].
    intros s' H ->%list_elem_of_singleton. by apply Hdom in H; congruence.
  - intros s'. rewrite elem_of_app, list_elem_of_singleton, Hdom, isRegistered_insert. tauto.
  - intros s' oc. destruct (decide (s = s')) as [->|].
    + rewrite lookup_insert_eq. intros [= <-]. by eexists.
    + rewrite lookup_insert_ne by done. apply Hent.
Qed.

(** The registry stays well formed: from the empty registry, any sequence of
    registrations keeps the symbol list free of repetitions, listing exactly
    the registered symbols, each with the interpreter of that symbol. *)
Theorem Registry_wf (regs : list (string * Z)) :
  wf_Registry (foldl (λ r '(s, d), (Register r s d).1) NewRegistry regs).
Proof.
  generalize NewRegistry, NewRegistry_wf. induction regs as [|[s d] regs IH]; [done|].
  intros r Hwf. cbn. by apply IH, Register_wf.
Qed.

(** Registration: a new symbol becomes registered with an interpreter for it,
    every other symbol keeps its interpreter, and a registered symbol is
    refused without changing the registry. *)
Theorem Register_spec r s d :
  let '(r', res) := Register r s d in
  (isRegistered r s = true → r' = r ∧ ∃ e, res = inr e) ∧
  (isRegistered r s = false →
     ∃ c, res = inl c ∧ Symbol c = s ∧ Currency_ r' s = Some c ∧
          Symbols r' = Symbols r ++ [s] ∧
          (∀ s', s' ≠ s → Currency_ r' s' = Currency_ r s')).
Proof.
  unfold Register, Currency_, Symbols.
  destruct (isRegistered r s); (split; [|try done]); [by eauto|done|].
  intros _. eexists. repeat split; cbn.
  - by rewrite lookup_insert_eq.
  - intros s' Hs. by rewrite lookup_insert_ne.
Qed.
End registry_properties.
