(* ===== verification/IDProvider.v ===== *)
(** * ID provider (idprovider/errors.go, idprovider/local)

    The cache of peer IDs indexed by alias and by off-chain address string, its
    operations, the creation of a provider from a file and writing it back, and
    the instance of [IDProviderI] the session is verified against. *)
From S2P Require Import Prelude Perun.

Definition ErrPeerIDNotFound : string := "peer id not found".
Definition ErrPeerAliasAlreadyUsed : string := "peer alias is already used for another peer id".
Definition ErrPeerIDAlreadyRegistered : string := "peer id already regsitered".
Definition ErrParsingOffChainAddress : string := "parsing off-chain address".

(** The sentinel [io.EOF]. *)
Definition EOF : string := "EOF".

Section idprovider.
Context {GT : GoTypes}.

(** ** The cache (local/cache.go, local/peer.go) *)
Record idProviderCache := mkCache {
  walletBackend : WalletBackend;
  peerIDsByAlias : gmap string PeerID;
  aliasByAddr : gmap string string;
}.

(** All fields except [OffChainAddr]. *)
Definition PeerIDEqual (p1 p2 : PeerID) : bool :=
  bool_decide (pid_Alias p1 = pid_Alias p2)
  && bool_decide (pid_OffChainAddrString p1 = pid_OffChainAddrString p2)
  && bool_decide (pid_CommType p1 = pid_CommType p2)
  && bool_decide (pid_CommAddr p1 = pid_CommAddr p2).

Definition set_OffChainAddr (a : address) (p : PeerID) : PeerID :=
  mkPeerID (pid_Alias p) (Some a) (pid_OffChainAddrString p) (pid_CommAddr p) (pid_CommType p).

(** The loop of [newIDProviderCache] over the entries of the map, in the
    order in which the runtime ranges over it. *)
Fixpoint indexPeers (backend : WalletBackend) (order : list (string * PeerID))
    (peers : gmap string PeerID) (byAddr : gmap string string)
    : (gmap string PeerID * gmap string string) + goerror :=
  match order with
  | [] => inl (peers, byAddr)
  | (alias, peer) :: order' =>
      match wb_ParseAddr backend (pid_OffChainAddrString peer) with
      | inr err => inr err
      | inl addr =>
          let peer := set_OffChainAddr addr peer in
          indexPeers backend order' (<[alias := peer]> peers)
            (<[pid_OffChainAddrString peer := pid_Alias peer]> byAddr)
      end
  end.

Definition newIDProviderCache (order : list (string * PeerID)) (peers : gmap string PeerID)
    (backend : WalletBackend) : idProviderCache + goerror :=
  match indexPeers backend order peers ∅ with
  | inr err => inr err
  | inl (peers, byAddr) => inl (mkCache backend peers byAddr)
  end.

Definition readByAlias (c : idProviderCache) (alias : string) : option PeerID :=
  peerIDsByAlias c !! alias.

Definition ReadByAlias (c : idProviderCache) (alias : string) : option PeerID :=
  readByAlias c alias.

Definition ReadByOffChainAddr (c : idProviderCache) (offChainAddr : option address)
    : option PeerID :=
  match offChainAddr with
  | None => None
  | Some addr =>
      match aliasByAddr c !! addr_String addr with
      | None => None
      | Some alias => readByAlias c alias
      end
  end.

Definition Write (alias : string) (p : PeerID) (c : idProviderCache)
    : idProviderCache * option goerror :=
  match peerIDsByAlias c !! alias with
  | Some oldPeerID =>
      if PeerIDEqual oldPeerID p then (c, Some (ErrConst ErrPeerIDAlreadyRegistered))
      else (c, Some (ErrConst ErrPeerAliasAlreadyUsed))
  | None =>
      match wb_ParseAddr (walletBackend c) (pid_OffChainAddrString p) with
      | inr err => (c, Some (ErrWithMessage (error_Error err) (ErrConst ErrParsingOffChainAddress)))
      | inl addr =>
          let p := set_OffChainAddr addr p in
          (mkCache (walletBackend c) (<[alias := p]> (peerIDsByAlias c))
             (<[pid_OffChainAddrString p := alias]> (aliasByAddr c)), None)
      end
  end.

(** The entry of the address index is left in place. *)
Definition Delete (alias : string) (c : idProviderCache) : idProviderCache * option goerror :=
  match peerIDsByAlias c !! alias with
  | None => (c, Some (ErrText "peer not found in ID Provider"))
  | Some _ =>
      (mkCache (walletBackend c) (delete alias (peerIDsByAlias c)) (aliasByAddr c), None)
  end.

(** ** The provider (local/idprovider.go) *)
Record IDProvider := mkIDProvider {
  ip_cache : idProviderCache;
  localFilePath : string;
}.

(** [openErr] is the result of opening the file, [decoded] and [decodeErr]
    the map and error [Decode] yields, [order] the order in which the map is
    ranged over. *)
Definition NewIDprovider (filePath : string) (backend : WalletBackend)
    (openErr : option goerror) (decoded : gmap string PeerID) (decodeErr : option goerror)
    (order : list (string * PeerID)) : IDProvider + goerror :=
  match openErr with
  | Some err => inr err
  | None =>
      let fail := match decodeErr with
                  | Some err => if errors_Is err EOF then None else Some err
                  | None => None
                  end in
      match fail with
      | Some err => inr err
      | None =>
          match newIDProviderCache order decoded backend with
          | inr err => inr err
          | inl cache => inl (mkIDProvider cache filePath)
          end
      end
  end.

(** The results of the file operations [UpdateStorage] performs. *)
Record storage_results := mkStorage {
  sr_create : option goerror;
  sr_encode : option goerror;
  sr_encoder_close : option goerror;
  sr_file_close : option goerror;
}.

(** The local variable [err] and the value of the return statement are
    distinct: the deferred function assigns the former after the latter has
    been evaluated, and the result of the function is not named. *)
Definition UpdateStorage (c : IDProvider) (r : storage_results) : option goerror :=
  match sr_create r with
  | Some err => WithMessage (Some err) "opening ID provider file for writing"
  | None =>
      let '(err, result) :=
        match sr_encode r with
        | Some err => (Some err, WithMessage (Some err) "encoding data as yaml")
        | None =>
            let err := WithMessage (sr_encoder_close r) "closing encoder" in (err, err)
        end in
      (* defer *)
      let err_deferred :=
        match sr_file_close r with
        | Some fCloseErr =>
            Some (ErrWithMessage ("error closing file - " +:+ error_Error fCloseErr)
                    (default (ErrText "") err))
        | None => err
        end in
      let _ := err_deferred in
      result
  end.
End idprovider.

(** The provider embeds the cache, and satisfies the interface with it. *)
#[export] Instance local_IDProviderI `{GoTypes} : IDProviderI idProviderCache := {
  idp_ReadByAlias := ReadByAlias;
  idp_ReadByOffChainAddr := ReadByOffChainAddr;
  idp_Write := Write;
}.

Section idprovider_properties.
Context {GT : GoTypes}.
Implicit Types (c : idProviderCache) (p q : PeerID).

Lemma PeerIDEqual_spec p q : PeerIDEqual p q = true ↔ same_but_addr p q.
Proof.
  unfold PeerIDEqual, same_but_addr. rewrite !andb_true_iff, !bool_decide_eq_true. naive_solver.
Qed.

#[export] Instance local_IDProviderLaws : IDProviderLaws idProviderCache.
Proof.
  split; cbn; unfold Write, ReadByAlias, readByAlias.
  - intros alias p c c' H. split_cases. repeat split.
    + eexists. rewrite lookup_insert_eq. repeat split. by eexists.
    + intros. by rewrite lookup_insert_ne.
  - intros alias p c c' e H. by split_cases.
Qed.

Lemma Write_run alias p c :
  let '(c', res) := Write alias p c in
  match peerIDsByAlias c !! alias, wb_ParseAddr (walletBackend c) (pid_OffChainAddrString p) with
  | Some q, _ =>
      c' = c ∧ res = Some (ErrConst (if PeerIDEqual q p then ErrPeerIDAlreadyRegistered
                                     else ErrPeerAliasAlreadyUsed))
  | None, inr err =>
      c' = c ∧ ∃ e, res = Some e ∧ errors_Is e ErrParsingOffChainAddress = true
  | None, inl addr =>
      res = None ∧ ReadByAlias c' alias = Some (set_OffChainAddr addr p) ∧
      (∀ alias', alias' ≠ alias → ReadByAlias c' alias' = ReadByAlias c alias')
  end.
Proof.
  unfold Write, ReadByAlias, readByAlias.
  destruct (peerIDsByAlias c !! alias) as [q|]; [by destruct (PeerIDEqual q p)|].
  destruct (wb_ParseAddr _ _) as [addr|err]; cbn.
  - split; [done|]. split; [by rewrite lookup_insert_eq|].
    intros. by rewrite lookup_insert_ne.
  - split; [done|]. eexists. split; [done|]. reflexivity.
Qed.

(** [Write] fails exactly in the three documented cases, with the error of
    each, and then leaves the cache as it was; otherwise the peer ID becomes
    readable under its alias with the address parsed from its string. *)
Theorem Write_spec alias p c :
  let '(c', res) := Write alias p c in
  match peerIDsByAlias c !! alias, wb_ParseAddr (walletBackend c) (pid_OffChainAddrString p) with
  | Some q, _ =>
      c' = c ∧ res = Some (ErrConst (if PeerIDEqual q p then ErrPeerIDAlreadyRegistered
                                     else ErrPeerAliasAlreadyUsed))
  | None, inr err =>
      c' = c ∧ ∃ e, res = Some e ∧ errors_Is e ErrParsingOffChainAddress = true
  | None, inl addr =>
      res = None ∧ ReadByAlias c' alias = Some (set_OffChainAddr addr p) ∧
      (∀ alias', alias' ≠ alias → ReadByAlias c' alias' = ReadByAlias c alias')
  end.
Proof. apply Write_run. Qed.

(** Every entry of the address index leads to a peer ID with that address. *)
Definition index_ok c : Prop :=
  ∀ s alias, aliasByAddr c !! s = Some alias →
    ∃ p, peerIDsByAlias c !! alias = Some p ∧ pid_OffChainAddrString p = s.

Lemma indexPeers_ok backend order peers byAddr peers' byAddr' :
  indexPeers backend order peers byAddr = inl (peers', byAddr') →
  NoDup order.*1 →
  Forall (λ e, e.1 = pid_Alias e.2) order →
  (∀ s alias, byAddr !! s = Some alias → (alias ∉ order.*1) ∧
    ∃ p, peers !! alias = Some p ∧ pid_OffChainAddrString p = s) →
  ∀ s alias, byAddr' !! s = Some alias →
    ∃ p, peers' !! alias = Some p ∧ pid_OffChainAddrString p = s.
Proof.
  revert peers byAddr. induction order as [|[al p] order IH]; intros peers byAddr; cbn.
  { intros [= <- <-] _ _ H s alias Hs. by apply H. }
  destruct (wb_ParseAddr _ _) as [addr|]; [|done].
  intros Hi [Hal Hnd]%NoDup_cons [Hkey Hown]%Forall_cons H. cbn in *. subst al.
  apply (IH _ _ Hi Hnd Hown). intros s alias.
  destruct (decide (pid_OffChainAddrString p = s)) as [<-|Hne].
  - rewrite lookup_insert_eq. intros [= <-]. split; [done|].
    eexists. by rewrite lookup_insert_eq.
  - rewrite lookup_insert_ne by done. intros (Hnin & q & Hq & Hqs)%H.
    apply not_elem_of_cons in Hnin as [Hne' Hnin]. split; [done|].
    exists q. by rewrite lookup_insert_ne.
Qed.

Lemma Write_index_ok alias p c : index_ok c → index_ok (Write alias p c).1.
Proof.
  intros Hok. unfold Write. destruct (peerIDsByAlias c !! alias) eqn:Hnone.
  { by destruct (PeerIDEqual _ _). }
  destruct (wb_ParseAddr _ _) as [addr|]; [|done]. intros s al. cbn.
  destruct (decide (pid_OffChainAddrString p = s)) as [<-|Hne].
  - rewrite lookup_insert_eq. intros [= <-]. eexists. by rewrite lookup_insert_eq.
  - rewrite lookup_insert_ne by done. intros (q & Hq & Hs)%Hok.
    exists q. rewrite lookup_insert_ne; [done|]. intros ->. congruence.
Qed.

(** Reading by address is sound as long as nothing is deleted: in a provider
    loaded from a file whose keys are the aliases of their entries, after any
    sequence of writes, the peer ID found for an off-chain address is one
    registered with the string of that address. *)
Theorem ReadByOffChainAddr_sound backend order peers c writes a p
    (Horder : order ≡ₚ map_to_list peers)
    (Hown : Forall (λ e, e.1 = pid_Alias e.2) order)
    (Hnew : newIDProviderCache order peers backend = inl c) :
  let c' := foldl (λ c '(alias, p), (Write alias p c).1) c writes in
  ReadByOffChainAddr c' (Some a) = Some p →
  pid_OffChainAddrString p = addr_String a.
Proof.
  assert (Hok : index_ok c).
  { unfold newIDProviderCache in Hnew.
    destruct (indexPeers _ _ _ _) as [[ps ba]|] eqn:E; simplify_eq.
    intros s alias. apply (indexPeers_ok _ _ _ _ _ _ E); [|done|by intros ??].
    rewrite Horder. apply NoDup_fst_map_to_list. }
  clear Hnew. cbn. revert c Hok. induction writes as [|[al q] ws IH]; intros c Hok; cbn.
  - unfold readByAlias. destruct (aliasByAddr c !! addr_String a) eqn:E; [|done].
    apply Hok in E as (q & Hq & <-). by rewrite Hq; intros [= ->].
  - by apply IH, Write_index_ok.
Qed.

(** What reading by the parsed address of a peer ID just written gives: the
    peer ID itself when it was registered with the canonical string of the
    address; otherwise whatever the index already held under the canonical
    string, so the peer is unknown to the node although its alias is
    registered. *)
Theorem ReadByOffChainAddr_after_Write alias p c c' addr
    (Hw : Write alias p c = (c', None))
    (Hp : wb_ParseAddr (walletBackend c) (pid_OffChainAddrString p) = inl addr) :
  ReadByOffChainAddr c' (Some addr) =
  if decide (pid_OffChainAddrString p = addr_String addr)
  then Some (set_OffChainAddr addr p)
  else (aliasByAddr c !! addr_String addr) ≫= ReadByAlias c'.
Proof.
  unfold Write in Hw. destruct (peerIDsByAlias c !! alias); [by split_cases|].
  rewrite Hp in Hw. simplify_eq. unfold ReadByOffChainAddr, readByAlias. cbn.
  case_decide as Hd.
  - rewrite Hd, lookup_insert_eq. cbn. by rewrite lookup_insert_eq.
  - rewrite lookup_insert_ne by done. by destruct (aliasByAddr c !! _).
Qed.

(** [Delete] leaves the address index behind: registering a peer ID, deleting
    it and registering another one under the same alias makes the address of
    the first read as the second. *)
Theorem Delete_leaves_stale_address c alias p q a b
    (Hfree : peerIDsByAlias c !! alias = None)
    (Ha : wb_ParseAddr (walletBackend c) (pid_OffChainAddrString p) = inl a)
    (Hb : wb_ParseAddr (walletBackend c) (pid_OffChainAddrString q) = inl b)
    (Hca : pid_OffChainAddrString p = addr_String a)
    (Hne : pid_OffChainAddrString q ≠ pid_OffChainAddrString p) :
  let '(c1, e1) := Write alias p c in
  let '(c2, e2) := Delete alias c1 in
  let '(c3, e3) := Write alias q c2 in
  e1 = None ∧ e2 = None ∧ e3 = None ∧
  ReadByOffChainAddr c2 (Some a) = None ∧
  ReadByOffChainAddr c3 (Some a) = Some (set_OffChainAddr b q).
Proof.
  unfold Write, Delete. rewrite Hfree, Ha. cbn.
  rewrite lookup_insert_eq. cbn. rewrite lookup_delete_eq, Hb. cbn.
  unfold readByAlias; cbn. rewrite <- Hca.
  rewrite (lookup_insert_ne _ (pid_OffChainAddrString q)) by done.
  rewrite !lookup_insert_eq. cbn. by rewrite lookup_delete_eq.
Qed.

(** [UpdateStorage] reports the failures of creating, encoding and flushing,
    and only those: an error from closing the file is never returned. *)
Theorem UpdateStorage_spec ip r :
  (UpdateStorage ip r = None ↔
     sr_create r = None ∧ sr_encode r = None ∧ sr_encoder_close r = None) ∧
  UpdateStorage ip r = UpdateStorage ip (mkStorage (sr_create r) (sr_encode r) (sr_encoder_close r) None).
Proof.
  destruct r as [[] [] [] []]; cbn;
    (split; [split; [intros H; first [discriminate H|done]|intros (? & ? & ?); done]|reflexivity]).
Qed.
End idprovider_properties.
