(* ===== verification/Contracts.v ===== *)
(** * The ethereum backend (blockchain, blockchain/ethereum)

    Parsing of addresses, validation and deployment of contracts, the funder
    wrapper, and the contract registry.  go-ethereum and go-perun's ethereum
    backend are parameters ([EthLib]). *)
From S2P Require Import Prelude Perun.

(** blockchain/errors.go *)
Definition AdjudicatorName : string := "adjudicator".
Definition AssetETHName : string := "ETH".

(** [strings.Contains] *)
Definition str_Contains (s substr : string) : bool :=
  bool_decide (is_Some (String.index 0 substr s)).

(** The library calls of the ethereum backend.  [cb] is a contract backend
    (a connection to a node), [libfunder] go-perun's ETH funder. *)
Class EthLib `{GoTypes} := {
  cb : Type;
  libfunder : Type;
  HexToAddress : string → address;
  ZeroAddress : address;
  is_eth_address : address → bool;
  lib_IsErrInvalidContractCode : goerror → bool;
  lib_ValidateAdjudicator : cb → address → option goerror;
  lib_ValidateAssetHolderETH : cb → address → address → option goerror;
  lib_ValidateAssetHolderERC20 : cb → address → address → address → option goerror;
  lib_BindToken : cb → address → option goerror;
  lib_TokenSymbol : cb → address → string * option goerror;
  lib_TokenDecimals : cb → address → Z * option goerror;
  lib_DeployAdjudicator : cb → address → address * option goerror;
  lib_DeployETHAssetholder : cb → address → address → address * option goerror;
  lib_DeployERC20Assetholder : cb → address → address → address → address * option goerror;
  lib_DeployPerunToken : cb → list address → Z → address → address * option goerror;
  (** the file system and encrypted wallets *)
  os_NotExist : string → option goerror;
  lib_OpenWallet : Z * Z → string → string → wallet + goerror;
  lib_UnlockAccount : wallet → address → option goerror;
  (** connections and key stores *)
  ethclient : Type;
  keystore : Type;
  kswallet : Type;
  lib_DialContext : Z → string → ethclient + goerror;
  lib_NewKeyStore : string → keystore;
  ks_Unlock : keystore → address → string → option goerror;
  lib_NewKsWallet : keystore → string → kswallet + goerror;
  lib_NewContractBackend : ethclient → option (kswallet * Z) → cb;
  lib_BalanceAt : Z → ethclient → address → Z + goerror;
  lib_NewFunder : cb → libfunder;
  (** [None] registers the ETH depositor, [Some token] an ERC20 depositor. *)
  lib_RegisterAsset : libfunder → address → option address → address → libfunder * bool;
  lib_IsAssetRegistered : libfunder → address → bool;
}.

Section contracts.
Context {GT : GoTypes} {EL : EthLib}.

(** ** Connections (ethereum/chain.go) *)
Record ChainBackend := mkChainBackend { Cb : cb; TxTimeout : Z }.
Definition roChainBackendTxTimeout : Z := 1000000000.

Definition NewChainBackend (url : string) (chainID chainConnTimeout onChainTxTimeout : Z)
    (cred : Credential) : ChainBackend + goerror :=
  match lib_DialContext chainConnTimeout url with
  | inr err => inr (ErrWithMessage ("connecting to ethereum node at " +:+ url) err)
  | inl ethereumBackend =>
      let ks := lib_NewKeyStore (cred_Keystore cred) in
      match ks_Unlock ks (cred_Addr cred) (cred_Password cred) with
      | Some err =>
          inr (ErrWithMessage ("unlocking on-chain keystore for addr - " +:+ addr_String (cred_Addr cred)) err)
      | None =>
          match lib_NewKsWallet ks (cred_Password cred) with
          | inr err => inr err
          | inl ksWallet =>
              inl (mkChainBackend (lib_NewContractBackend ethereumBackend (Some (ksWallet, chainID)))
                     onChainTxTimeout)
          end
      end
  end.

Definition NewROChainBackend (url : string) (chainID chainConnTimeout : Z) : ChainBackend + goerror :=
  match lib_DialContext chainConnTimeout url with
  | inr err => inr (ErrWithMessage ("connecting to ethereum node at " +:+ url) err)
  | inl ethereumBackend =>
      inl (mkChainBackend (lib_NewContractBackend ethereumBackend None) roChainBackendTxTimeout)
  end.

Definition BalanceAt (url : string) (chainConnTimeout onChainTxTimeout : Z) (addr : address)
    : Z + goerror :=
  match lib_DialContext chainConnTimeout url with
  | inr err => inr (ErrWithMessage ("connecting to ethereum node at " +:+ url) err)
  | inl ethereumBackend =>
      match lib_BalanceAt onChainTxTimeout ethereumBackend addr with
      | inr err => inr (ErrWithMessage ("reading on-chain balance for " +:+ addr_String addr) err)
      | inl bal => inl bal
      end
  end.

(** ** Addresses (ethereum/internal/wallet.go) *)
Definition addressLengthHex : nat := 40.

Definition ParseAddr (str : string) : address + goerror :=
  let hasPrefix := String.prefix "0x" str || String.prefix "0X" str in
  if (negb hasPrefix && bool_decide (addressLengthHex < String.length str)%nat)
     || bool_decide (addressLengthHex + 2 < String.length str)%nat
  then inr (ErrText "hex string too long, should be <= 40 chars")
  else
    let addr := HexToAddress str in
    let zeroValue := ZeroAddress in
    if addr_Equals addr zeroValue && negb (str_Contains (addr_String zeroValue) str)
    then inr (ErrText "invalid string")
    else inl addr.

(** ** Wallets (ethereum/internal/wallet.go, ethereum/wallet.go) *)
(** [WeakScryptN] and [WeakScryptP] *)
Definition WeakScrypt : Z * Z := (2, 1).

Definition NewWallet (encParams : Z * Z) (keystorePath password : string) : wallet + goerror :=
  match os_NotExist keystorePath with
  | Some err => inr (ErrWithMessage "initializing new wallet, cannot find keystore directory" err)
  | None =>
      match lib_OpenWallet encParams keystorePath password with
      | inr err => inr (ErrWithMessage "initializing new wallet" err)
      | inl w => inl w
      end
  end.

Definition UnlockAccount (w : wallet) (addr : address) : option goerror :=
  WithMessage (lib_UnlockAccount w addr) "unlocking account".

Definition NewWalletBackend : WalletBackend :=
  mkWalletBackend ParseAddr (NewWallet WeakScrypt) UnlockAccount.

(** ** The funder wrapper (ethereum/internal/chain.go) *)
Definition RegisterAssetERC20_funder (f : libfunder) (asset token onChainAcc : address)
    : libfunder * bool :=
  if is_eth_address asset then lib_RegisterAsset f asset (Some token) onChainAcc else (f, false).

Definition IsAssetRegistered (f : libfunder) (asset : address) : bool :=
  if is_eth_address asset then lib_IsAssetRegistered f asset else false.

Definition NewFunder (c : cb) (assetETHAddr txSender : address) : libfunder :=
  (lib_RegisterAsset (lib_NewFunder c) assetETHAddr None txSender).1.

(** ** Validating and deploying contracts (ethereum/internal/chain.go) *)
Definition ERC20Info (c : cb) (addr : address) : (string * Z) * option goerror :=
  match lib_BindToken c addr with
  | Some err => (("", 0), WithMessage (Some err) "binding to erc20 token contract")
  | None =>
      match lib_TokenSymbol c addr with
      | (_, Some err) => (("", 0), WithMessage (Some err) "reading symbol from the contract")
      | (symbol, None) =>
          let '(decimal, err) := lib_TokenDecimals c addr in
          ((symbol, decimal), WithMessage err "reading decimals from the contract")
      end
  end.

(** [IsErrInvalidContractCode] of a possibly nil error. *)
Definition invalid_code (err : option goerror) : option goerror :=
  match err with
  | Some e => if lib_IsErrInvalidContractCode e then Some e else None
  | None => None
  end.

Definition ValidateAdjudicator (c : cb) (adjAddr : address) : option goerror :=
  let err := lib_ValidateAdjudicator c adjAddr in
  match invalid_code err with
  | Some e => Some (InvalidContractError AdjudicatorName (addr_String adjAddr) e)
  | None => WithMessage err "validating adjudicator contract"
  end.

Definition ValidateAssetETH (c : cb) (adjAddr assetETHAddr : address) : option goerror :=
  let err := lib_ValidateAssetHolderETH c assetETHAddr adjAddr in
  match invalid_code err with
  | Some e => Some (InvalidContractError AssetETHName (addr_String assetETHAddr) e)
  | None => WithMessage err "validating asset ETH contract"
  end.

Definition ValidateAssetERC20 (c : cb) (adj tokenERC20 assetERC20 : address)
    : (string * Z) * option goerror :=
  match ERC20Info c tokenERC20 with
  | (_, Some err) =>
      (("", 0), WithMessage (Some err) "reading symbol and decimal values from token contract")
  | ((symbol, decimals), None) =>
      let err := lib_ValidateAssetHolderERC20 c assetERC20 adj tokenERC20 in
      match invalid_code err with
      | Some e => (("", 0), Some (InvalidContractError symbol (addr_String assetERC20) e))
      | None => ((symbol, decimals), WithMessage err "validating asset ERC20 contract")
      end
  end.

Definition DeployAdjudicator (c : cb) (txSender : address) : address * option goerror :=
  let '(addr, err) := lib_DeployAdjudicator c txSender in
  (addr, WithMessage err "deploying adjudicator contract").

Definition DeployAssetETH (c : cb) (adjAddr txSender : address) : address * option goerror :=
  let '(addr, err) := lib_DeployETHAssetholder c adjAddr txSender in
  (addr, WithMessage err "deploying asset ETH contract").

Definition DeployPerunToken (c : cb) (initAccs : list address) (initBal : Z) (txSender : address)
    : address * option goerror :=
  let '(addr, err) := lib_DeployPerunToken c initAccs initBal txSender in
  (addr, WithMessage err "deploying adjudicator contract").

Definition DeployAssetERC20 (c : cb) (adj tokenERC20 txSender : address)
    : address * option goerror :=
  let '(addr, err) := lib_DeployERC20Assetholder c adj tokenERC20 txSender in
  (addr, WithMessage err "deploying asset ERC20 contract").

(** ** The contract registry (ethereum/registry.go)

    [assets] holds non-nil addresses; the token of ETH is nil. *)
Record contractRegistry := mkContractRegistry {
  cr_chain : cb;
  cr_adjudicator : address;
  cr_currencies : gmap string nat;
  cr_assets : list address;
  cr_tokens : list (option address);
}.

Definition NewContractRegistry (chain : cb) (adjudicator assetETH : address)
    : contractRegistry + goerror :=
  match ValidateAdjudicator chain adjudicator with
  | Some err => inr err
  | None =>
      match ValidateAssetETH chain adjudicator assetETH with
      | Some err => inr err
      | None => inl (mkContractRegistry chain adjudicator {[ "ETH" := 0%nat ]} [assetETH] [None])
      end
  end.

Definition isSymbolRegistered (r : contractRegistry) (symbol : string) : option nat :=
  cr_currencies r !! symbol.

(** The inner loop: the first symbol of the map that has the index. *)
Definition symbolAt (r : contractRegistry) (assetIdx : nat) : option string :=
  (λ x, x.2.1) <$>
    list_find (λ e : string * nat, e.2 = assetIdx) (map_to_list (cr_currencies r)).

Fixpoint findAsset (r : contractRegistry) (asset : address) (assetIdx : nat)
    (assets : list address) : option string :=
  match assets with
  | [] => None
  | gotAsset :: assets' =>
      if addr_Equals gotAsset asset then
        match symbolAt r assetIdx with
        | Some symbol => Some symbol
        | None => findAsset r asset (S assetIdx) assets'
        end
      else findAsset r asset (S assetIdx) assets'
  end.

Definition isAssetRegistered (r : contractRegistry) (asset : address) : option string :=
  findAsset r asset 0 (cr_assets r).

Definition RegisterAssetERC20 (r : contractRegistry) (token asset : address)
    : contractRegistry * ((string * Z) + goerror) :=
  match isAssetRegistered r asset with
  | Some symbol => (r, inr (AssetERC20RegisteredError (addr_String asset) symbol))
  | None =>
      match ValidateAssetERC20 (cr_chain r) (cr_adjudicator r) token asset with
      | (_, Some err) => (r, inr err)
      | ((symbol, maxDecimals), None) =>
          match isSymbolRegistered r symbol with
          | Some idx =>
              let alreadyRegisteredAsset :=
                default "" (addr_String <$> cr_assets r !! idx) in
              (r, inr (AssetERC20RegisteredError alreadyRegisteredAsset symbol))
          | None =>
              let nextIdx := length (cr_assets r) in
              (mkContractRegistry (cr_chain r) (cr_adjudicator r)
                 (<[symbol := nextIdx]> (cr_currencies r))
                 (cr_assets r ++ [asset]) (cr_tokens r ++ [Some token]),
               inl (symbol, maxDecimals))
          end
      end
  end.

Definition Adjudicator (r : contractRegistry) : address := cr_adjudicator r.

(** The index of ["ETH"] is the zero value when the symbol is absent. *)
Definition AssetETH (r : contractRegistry) : outcome address :=
  go_index (cr_assets r) (default 0%nat (cr_currencies r !! "ETH")).

Definition Assets (r : contractRegistry) : gmap string string :=
  omap (λ idx, addr_String <$> cr_assets r !! idx) (cr_currencies r).

Definition Asset (r : contractRegistry) (symbol : string) : option address :=
  match isSymbolRegistered r symbol with
  | None => None
  | Some idx => cr_assets r !! idx
  end.

Definition Token (r : contractRegistry) (symbol : string) : option address :=
  if bool_decide (symbol = "ETH") then None
  else
    match isSymbolRegistered r symbol with
    | None => None
    | Some idx => default None (cr_tokens r !! idx)
    end.

Definition Symbol_of (r : contractRegistry) (asset : address) : option string :=
  isAssetRegistered r asset.

(** ** Well-formed registries

    Symbols and assets are numbered by a bijection onto [0 .. n-1], assets are
    pairwise different, ETH is number 0 and the only one without a token. *)
Record wf_contracts (r : contractRegistry) : Prop := {
  wfc_assets_nodup : NoDup (cr_assets r);
  wfc_tokens_length : length (cr_tokens r) = length (cr_assets r);
  wfc_range s i : cr_currencies r !! s = Some i → (i < length (cr_assets r))%nat;
  wfc_inj s s' i : cr_currencies r !! s = Some i → cr_currencies r !! s' = Some i → s = s';
  wfc_surj i : (i < length (cr_assets r))%nat → ∃ s, cr_currencies r !! s = Some i;
  wfc_eth : cr_currencies r !! "ETH" = Some 0%nat;
  wfc_tokens i : cr_tokens r !! i = Some None ↔ i = 0%nat;
}.
End contracts.

Section registry_facts.
Context {GT : GoTypes} {EL : EthLib} {GL : GoTypesLaws}.
Implicit Types (r : contractRegistry) (a : address).

Lemma symbolAt_spec r i s :
  wf_contracts r → symbolAt r i = Some s ↔ cr_currencies r !! s = Some i.
Proof.
  intros Hwf. unfold symbolAt. rewrite fmap_Some. split.
  - intros ([n [s' i']] & Hf & ->). apply list_find_Some in Hf as (Hl & <- & _).
    by apply elem_of_map_to_list, list_elem_of_lookup; eexists.
  - intros Hs. destruct (list_find_elem_of (λ e : string * nat, e.2 = i)
      (map_to_list (cr_currencies r)) (s, i)) as [[n [s' i']] Hf]; [|done|].
    { by apply elem_of_map_to_list. }
    exists (n, (s', i')). split; [done|]. cbn.
    apply list_find_Some in Hf as (Hl & Hi & _). cbn in Hi. subst i'.
    assert (Hs' : (s', i) ∈ map_to_list (cr_currencies r)) by (apply list_elem_of_lookup; eauto).
    apply elem_of_map_to_list in Hs'. by eapply wfc_inj.
Qed.

Lemma findAsset_spec r a k assets s :
  wf_contracts r → NoDup assets → (k + length assets = length (cr_assets r))%nat →
  findAsset r a k assets = Some s ↔
  ∃ i, assets !! i = Some a ∧ cr_currencies r !! s = Some (k + i)%nat.
Proof.
  intros Hwf. revert k. induction assets as [|b assets IH]; intros k Hnd Hlen; cbn.
  { split; [done|]. by intros (i & Hi & _). }
  apply NoDup_cons in Hnd as [Hb Hnd]. cbn in Hlen.
  assert (Hrest : findAsset r a (S k) assets = Some s ↔
    ∃ i, assets !! i = Some a ∧ cr_currencies r !! s = Some (k + S i)%nat).
  { rewrite (IH (S k)) by (done || lia). by setoid_rewrite Nat.add_succ_comm. }
  destruct (addr_Equals b a) eqn:E.
  - apply addr_Equals_spec in E as <-.
    destruct (wfc_surj _ Hwf k) as [s0 Hs0]; [lia|].
    apply symbolAt_spec in Hs0 as Hs1; [|done]. rewrite Hs1. split.
    + intros [= ->]. exists 0%nat. by rewrite Nat.add_0_r.
    + intros ([|i] & Hi & Hs); cbn in Hi.
      * rewrite Nat.add_0_r in Hs. f_equal. by eapply wfc_inj.
      * destruct Hb. apply list_elem_of_lookup. eauto.
  - rewrite Hrest. split; [intros (i & ? & ?); by exists (S i)|].
    intros ([|i] & Hi & Hs); [|by exists i]. cbn in Hi. injection Hi as ->.
    by rewrite (proj2 (addr_Equals_spec a a) eq_refl) in E.
Qed.

Lemma isAssetRegistered_spec r a s :
  wf_contracts r →
  isAssetRegistered r a = Some s ↔
  ∃ i, cr_assets r !! i = Some a ∧ cr_currencies r !! s = Some i.
Proof. intros Hwf. apply (findAsset_spec r a 0); [done|apply Hwf|done]. Qed.

Lemma isAssetRegistered_None r a :
  wf_contracts r → isAssetRegistered r a = None → a ∉ cr_assets r.
Proof.
  intros Hwf Hn [i Hi]%list_elem_of_lookup.
  destruct (wfc_surj _ Hwf i) as [s Hs]; [by eapply lookup_lt_Some|].
  assert (H : isAssetRegistered r a = Some s) by (apply isAssetRegistered_spec; eauto).
  congruence.
Qed.

Lemma NewContractRegistry_wf chain adj eth r :
  NewContractRegistry chain adj eth = inl r → wf_contracts r.
Proof.
  unfold NewContractRegistry. intros H. split_cases. split; cbn.
  - apply NoDup_singleton.
  - done.
  - intros s i [<- <-]%lookup_singleton_Some. lia.
  - intros s s' i [<- <-]%lookup_singleton_Some [<- _]%lookup_singleton_Some. done.
  - intros i Hi. exists "ETH". rewrite lookup_singleton_eq. f_equal. lia.
  - by rewrite lookup_singleton_eq.
  - intros [|[|i]]; cbn; naive_solver.
Qed.

Lemma RegisterAssetERC20_wf r token asset :
  wf_contracts r → wf_contracts (RegisterAssetERC20 r token asset).1.
Proof.
  intros Hwf. unfold RegisterAssetERC20.
  destruct (isAssetRegistered r asset) eqn:Ha; [done|].
  apply isAssetRegistered_None in Ha; [|done].
  destruct (ValidateAssetERC20 _ _ _ _) as [[s d] [e|]]; [done|].
  destruct (isSymbolRegistered r s) as [idx|] eqn:Hs; [done|]. cbn.
  unfold isSymbolRegistered in Hs. destruct Hwf as [Hnd Htl Hr Hi Hsu He Ht].
  split; cbn; rewrite ?length_app; cbn.
  - apply NoDup_app. split; [done|]. split; [|apply NoDup_singleton].
    intros b Hb ->%list_elem_of_singleton. done.
  - by rewrite Htl.
  - intros s' i [[_ <-]|[_ Hs']]%lookup_insert_Some; [lia|]. apply Hr in Hs'. lia.
  - intros s1 s2 i [[<- <-]|[N1 H1]]%lookup_insert_Some [[<- H2]|[N2 H2]]%lookup_insert_Some;
      [done|apply Hr in H2; lia|subst; apply Hr in H1; lia|by eapply Hi].
  - intros i Hlt. destruct (decide (i = length (cr_assets r))) as [->|].
    + exists s. by rewrite lookup_insert_eq.
    + destruct (Hsu i) as [s' Hs']; [lia|]. exists s'.
      rewrite lookup_insert_ne; congruence.
  - rewrite lookup_insert_ne; [done|congruence].
  - intros i. rewrite lookup_app_Some, <- Ht. split; [|by left].
    intros [?|[_ H]]; [done|]. apply list_lookup_singleton_Some in H as [_ [=]].
Qed.
End registry_facts.

Section registry_properties.
Context {GT : GoTypes} {EL : EthLib} {GL : GoTypesLaws}.

(** The contract registry is well formed from its creation on, whatever is
    registered: symbols, assets and tokens stay in one-to-one correspondence,
    no asset is listed twice, and ETH stays the first, without a token. *)
Theorem contractRegistry_wf chain adj eth r (regs : list (address * address))
    (Hnew : NewContractRegistry chain adj eth = inl r) :
  wf_contracts (foldl (λ r '(token, asset), (RegisterAssetERC20 r token asset).1) r regs).
Proof.
  apply NewContractRegistry_wf in Hnew. revert r Hnew.
  induction regs as [|[t a] regs IH]; intros r Hwf; [done|].
  apply IH. by apply RegisterAssetERC20_wf.
Qed.

Lemma Symbol_of_Asset r s a : wf_contracts r → Asset r s = Some a ↔ Symbol_of r a = Some s.
Proof.
  intros Hwf. unfold Asset, Symbol_of, isSymbolRegistered. rewrite isAssetRegistered_spec by done.
  destruct (cr_currencies r !! s) as [i|]; naive_solver.
Qed.

(** Looking a symbol up and looking an asset up are inverse to each other, and
    neither depends on the order in which the map of symbols is ranged over. *)
Theorem Asset_Symbol_inverse r s a (Hwf : wf_contracts r) :
  Asset r s = Some a ↔ Symbol_of r a = Some s.
Proof. by apply Symbol_of_Asset. Qed.

Lemma RegisterAssetERC20_run r token asset :
  wf_contracts r →
  let '(r', res) := RegisterAssetERC20 r token asset in
  match Symbol_of r asset, ValidateAssetERC20 (cr_chain r) (cr_adjudicator r) token asset with
  | Some s, _ => r' = r ∧ res = inr (AssetERC20RegisteredError (addr_String asset) s)
  | None, (_, Some err) => r' = r ∧ res = inr err
  | None, ((s, d), None) =>
      match Asset r s with
      | Some b => r' = r ∧ res = inr (AssetERC20RegisteredError (addr_String b) s)
      | None =>
          res = inl (s, d) ∧ Asset r' s = Some asset ∧ Token r' s = Some token ∧
          Symbol_of r' asset = Some s ∧
          ∀ s', s' ≠ s → Asset r' s' = Asset r s' ∧ Token r' s' = Token r s'
      end
  end.
Proof.
  intros Hwf.
  pose proof (RegisterAssetERC20_wf r token asset Hwf) as Hwf'. revert Hwf'.
  unfold RegisterAssetERC20, Symbol_of.
  destruct (isAssetRegistered r asset) eqn:Ha; [done|].
  destruct (ValidateAssetERC20 _ _ _ _) as [[s d] [e|]]; [done|].
  unfold Asset at 1. unfold isSymbolRegistered.
  destruct (cr_currencies r !! s) as [idx|] eqn:Hs; cbn.
  { intros _. pose proof (wfc_range _ Hwf _ _ Hs) as Hlt.
    apply lookup_lt_is_Some in Hlt as [b ->]. done. }
  intros Hwf'. split; [done|].
  assert (HA : Asset (mkContractRegistry (cr_chain r) (cr_adjudicator r)
     (<[s := length (cr_assets r)]> (cr_currencies r)) (cr_assets r ++ [asset])
     (cr_tokens r ++ [Some token])) s = Some asset).
  { unfold Asset, isSymbolRegistered; cbn. rewrite lookup_insert_eq.
    by rewrite lookup_app_r, Nat.sub_diag by lia. }
  split; [done|]. split; [|split].
  - unfold Token, isSymbolRegistered; cbn.
    rewrite bool_decide_eq_false_2 by (intros ->; rewrite (wfc_eth _ Hwf) in Hs; done).
    rewrite lookup_insert_eq, <- (wfc_tokens_length _ Hwf).
    by rewrite lookup_app_r, Nat.sub_diag by lia.
  - by apply Symbol_of_Asset.
  - intros s' Hne. unfold Asset, Token, isSymbolRegistered; cbn.
    rewrite lookup_insert_ne by done.
    destruct (cr_currencies r !! s') as [i|] eqn:Hi; [|done].
    apply (wfc_range _ Hwf) in Hi. by rewrite !lookup_app_l by (rewrite ?(wfc_tokens_length _ Hwf); done).
Qed.

(** Registering an ERC20 asset.  A registered asset is refused under the
    symbol it has, before the chain is asked; an asset whose contracts do not
    validate is refused with the validation error; a symbol that is taken is
    refused; otherwise the asset and its token become the ones of the symbol
    read from the chain and every other symbol keeps its own.  A refusal
    leaves the registry as it was. *)
Theorem RegisterAssetERC20_spec r token asset (Hwf : wf_contracts r) :
  let '(r', res) := RegisterAssetERC20 r token asset in
  match Symbol_of r asset, ValidateAssetERC20 (cr_chain r) (cr_adjudicator r) token asset with
  | Some s, _ => r' = r ∧ res = inr (AssetERC20RegisteredError (addr_String asset) s)
  | None, (_, Some err) => r' = r ∧ res = inr err
  | None, ((s, d), None) =>
      match Asset r s with
      | Some b => r' = r ∧ res = inr (AssetERC20RegisteredError (addr_String b) s)
      | None =>
          res = inl (s, d) ∧ Asset r' s = Some asset ∧ Token r' s = Some token ∧
          Symbol_of r' asset = Some s ∧
          ∀ s', s' ≠ s → Asset r' s' = Asset r s' ∧ Token r' s' = Token r s'
      end
  end.
Proof. by apply RegisterAssetERC20_run. Qed.

(** ERC20 tokens: every registered symbol but ETH has a token, ETH has none. *)
Lemma Token_spec r s (Hwf : wf_contracts r) :
  is_Some (Token r s) ↔ s ≠ "ETH" ∧ is_Some (Asset r s).
Proof.
  unfold Token, Asset, isSymbolRegistered. case_bool_decide as Hs.
  { split; [by intros [??]|naive_solver]. }
  destruct (cr_currencies r !! s) as [i|] eqn:Hi; [|split; [by intros [??]|by intros [? [??]]]].
  pose proof (wfc_range _ Hwf _ _ Hi) as Hlt.
  pose proof Hlt as Hlt'. rewrite <- (wfc_tokens_length _ Hwf) in Hlt'.
  apply lookup_lt_is_Some in Hlt as [a ->]. apply lookup_lt_is_Some in Hlt' as [t Ht].
  rewrite Ht. destruct t as [t|]; cbn; [naive_solver|].
  apply (wfc_tokens _ Hwf) in Ht as ->. destruct Hs.
  eapply wfc_inj; [done..|apply wfc_eth, Hwf].
Qed.
End registry_properties.
