(* ===== verification/PerunTest.v ===== *)
(** * Assertions on API errors (peruntest/assert.go)

    An assertion holds when the test goes on without a failure: [require] stops the
    test, [assert] only marks it as failed. *)
From S2P Require Import Prelude Perun Errors Contracts.
Local Open Scope Z_scope.

Section peruntest.
Context {GT : GoTypes}.

(** [require.Error] of a nil error stops the test. *)
Definition AssertAPIError (e : option APIError) (categ : ErrorCategory) (code : ErrorCode)
    (msgs : list string) : Prop :=
  match e with
  | None => False
  | Some e => Category e = categ ∧ Code e = code ∧ Forall (λ msg, str_Contains (Message e) msg = true) msgs
  end.

Definition AssertErrInfoPeerRequestTimedOut (info : option ErrInfo) (peerAlias timeout : string) : Prop :=
  match info with
  | Some (ErrInfoPeerRequestTimedOut p t) => peerAlias = p ∧ timeout = t
  | _ => False
  end.
Definition AssertErrInfoPeerRejected (info : option ErrInfo) (peerAlias reason : string) : Prop :=
  match info with
  | Some (ErrInfoPeerRejected p r) => peerAlias = p ∧ reason = r
  | _ => False
  end.
Definition AssertErrInfoPeerNotFunded (info : option ErrInfo) (peerAlias : string) : Prop :=
  match info with Some (ErrInfoPeerNotFunded p) => peerAlias = p | _ => False end.
Definition AssertErrInfoUserResponseTimedOut (info : option ErrInfo) : Prop :=
  match info with Some (ErrInfoUserResponseTimedOut x r) => x < r | _ => False end.
Definition AssertErrInfoResourceNotFound (info : option ErrInfo) (resourceType id : string) : Prop :=
  match info with
  | Some (ErrInfoResourceNotFound t i) => resourceType = t ∧ id = i
  | _ => False
  end.
Definition AssertErrInfoResourceExists (info : option ErrInfo) (resourceType id : string) : Prop :=
  match info with
  | Some (ErrInfoResourceExists t i) => resourceType = t ∧ id = i
  | _ => False
  end.
(** The requirement is logged, not compared. *)
Definition AssertErrInfoInvalidArgument (info : option ErrInfo) (name value : string) : Prop :=
  match info with
  | Some (ErrInfoInvalidArgument n v _) => name = n ∧ value = v
  | _ => False
  end.
Definition AssertErrInfoFailedPreCondUnclosedChs (info : option ErrInfo) (chInfos : list ChInfo) : Prop :=
  match info with Some (ErrInfoFailedPreCondUnclosedChs l) => chInfos = l | _ => False end.
Definition AssertErrInfoInvalidConfig (info : option ErrInfo) (name value : string) : Prop :=
  match info with
  | Some (ErrInfoInvalidConfig n v) => name = n ∧ value = v
  | _ => False
  end.
(** The lists are not compared. *)
Definition AssertErrInfoInvalidContracts (info : option ErrInfo) (contractErrInfos : list ContractErrInfo)
    : Prop :=
  match info with Some (ErrInfoInvalidContracts _) => True | _ => False end.
Definition AssertErrInfoTxTimedOut (info : option ErrInfo) (txType txID txTimeout : string) : Prop :=
  match info with
  | Some (ErrInfoTxTimedOut y i t) => txType = y ∧ txID = i ∧ txTimeout = t
  | _ => False
  end.
Definition AssertErrInfoChainNotReachable (info : option ErrInfo) (chainURL : string) : Prop :=
  match info with Some (ErrInfoChainNotReachable u) => chainURL = u | _ => False end.

(** An assertion on the information of an error that holds, with the code asserted
    next to it. *)
Inductive asserted : ErrorCode → option ErrInfo → Prop :=
| as_PeerRequestTimedOut i p t : AssertErrInfoPeerRequestTimedOut i p t → asserted ErrPeerRequestTimedOut i
| as_PeerRejected i p r : AssertErrInfoPeerRejected i p r → asserted ErrPeerRejected i
| as_PeerNotFunded i p : AssertErrInfoPeerNotFunded i p → asserted ErrPeerNotFunded i
| as_UserResponseTimedOut i : AssertErrInfoUserResponseTimedOut i → asserted ErrUserResponseTimedOut i
| as_ResourceNotFound i t d : AssertErrInfoResourceNotFound i t d → asserted ErrResourceNotFound i
| as_ResourceExists i t d : AssertErrInfoResourceExists i t d → asserted ErrResourceExists i
| as_InvalidArgument i n v : AssertErrInfoInvalidArgument i n v → asserted ErrInvalidArgument i
| as_UnclosedChs i l : AssertErrInfoFailedPreCondUnclosedChs i l → asserted ErrFailedPreCondition i
| as_InvalidConfig i n v : AssertErrInfoInvalidConfig i n v → asserted ErrInvalidConfig i
| as_InvalidContracts i l : AssertErrInfoInvalidContracts i l → asserted ErrInvalidContracts i
| as_TxTimedOut i y d t : AssertErrInfoTxTimedOut i y d t → asserted ErrTxTimedOut i
| as_ChainNotReachable i u : AssertErrInfoChainNotReachable i u → asserted ErrChainNotReachable i.

(** The assertions of the tests fit the errors.  Applied to the error of a
    constructor an assertion holds exactly for the values the error was made with
    (for a late response: exactly when it was late); and an error whose code and
    information have been asserted has the information documented for its code. *)
Theorem assertions_exact :
  (∀ err p t p' t', AssertErrInfoPeerRequestTimedOut (AddInfo (NewAPIErrPeerRequestTimedOut err p t)) p' t' ↔ p' = p ∧ t' = t) ∧
  (∀ err p r p' r', AssertErrInfoPeerRejected (AddInfo (NewAPIErrPeerRejected err p r)) p' r' ↔ p' = p ∧ r' = r) ∧
  (∀ err p p', AssertErrInfoPeerNotFunded (AddInfo (NewAPIErrPeerNotFunded err p)) p' ↔ p' = p) ∧
  (∀ x r, AssertErrInfoUserResponseTimedOut (AddInfo (NewAPIErrUserResponseTimedOut x r)) ↔ x < r) ∧
  (∀ t i t' i', AssertErrInfoResourceNotFound (AddInfo (NewAPIErrResourceNotFound t i)) t' i' ↔ t' = t ∧ i' = i) ∧
  (∀ t i t' i', AssertErrInfoResourceExists (AddInfo (NewAPIErrResourceExists t i)) t' i' ↔ t' = t ∧ i' = i) ∧
  (∀ err n v n' v', AssertErrInfoInvalidArgument (AddInfo (NewAPIErrInvalidArgument err n v)) n' v' ↔ n' = n ∧ v' = v) ∧
  (∀ err l l', AssertErrInfoFailedPreCondUnclosedChs (AddInfo (NewAPIErrFailedPreConditionUnclosedChs err l)) l' ↔ l' = l) ∧
  (∀ err n v n' v', AssertErrInfoInvalidConfig (AddInfo (NewAPIErrInvalidConfig err n v)) n' v' ↔ n' = n ∧ v' = v) ∧
  (∀ err y d t y' d' t', AssertErrInfoTxTimedOut (AddInfo (NewAPIErrTxTimedOut err y d t)) y' d' t' ↔ y' = y ∧ d' = d ∧ t' = t) ∧
  (∀ err u u', AssertErrInfoChainNotReachable (AddInfo (NewAPIErrChainNotReachable err u)) u' ↔ u' = u) ∧
  (∀ e categ code msgs, AssertAPIError (Some e) categ code msgs → code_of_category categ code →
     asserted code (AddInfo e) → wf_APIError e).
Proof.
  split_and!; try (intros; reflexivity).
  intros e categ code msgs (<- & <- & _) Hc Ha. split; [done|].
  inversion Ha as [i ? ? H Hcode|i ? ? H Hcode|i ? H Hcode|i H Hcode|i ? ? H Hcode|i ? ? H Hcode|i ? ? H Hcode
    |i ? H Hcode|i ? ? H Hcode|i ? H Hcode|i ? ? ? H Hcode|i ? H Hcode]; subst i;
    destruct (AddInfo e) as [[]|]; try done.
Qed.
End peruntest.
