(* ===== verification/Os.v ===== *)
(** * Files and directories (the packages os and io/ioutil of Go)

    The demo artefacts and the configurations for tests are files.  The file system
    is a finite map from paths to nodes.  A directory that is moved or removed as a
    whole (a keystore, a database) keeps the key files put into it in its node; the
    directories of the artefacts have their entries under their own paths.

    Every call may fail for a reason of its own -- permissions, a full disk, another
    device: [env_fault n] is what the n-th call meets.  Names of temporary files are
    chosen by the system. *)
From S2P Require Import Prelude Perun.

(** [env_port n] is the port free at the n-th call; [range_order] is the order in which
    the runtime ranges over a map. *)
Class Env `{GoTypes} := {
  env_fault : nat → option goerror;
  env_port : nat → Z;
  temp_name : string → gset string → string;
  range_order : list (string * string) → list (string * string);
}.

(** A new temporary name does not exist yet, and is an absolute path. *)
Class EnvLaws `{Env} : Prop := {
  temp_fresh pat X : temp_name pat X ∉ X;
  temp_absolute pat X : String.prefix "/" (temp_name pat X) = true;
  range_perm l : range_order l ≡ₚ l;
}.

(** [filepath.Join] of plain names. *)
Definition Join (a b : string) : string := a +:+ "/" +:+ b.

(** [filepath.Clean]: the elements between slashes, without the empty ones and ["."],
    and with [".."] applied where it can be. *)
Fixpoint path_elems (p : string) : list string :=
  match p with
  | EmptyString => [""]
  | String c s =>
      if Ascii.eqb c (Ascii.ascii_of_nat 47) then "" :: path_elems s
      else match path_elems s with
           | [] => [String c ""]
           | e :: es => String c e :: es
           end
  end.

Definition clean_step (rooted : bool) (done : list string) (e : string) : list string :=
  if decide (e = "" ∨ e = ".") then done
  else if decide (e = "..") then
    match done with
    | [] => if rooted then [] else [".."]
    | d :: done' => if decide (d = "..") then ".." :: done else done'
    end
  else e :: done.

Definition Clean (path : string) : string :=
  let rooted := String.prefix "/" path in
  let p := String.concat "/" (reverse (foldl (clean_step rooted) [] (path_elems path))) in
  if rooted then "/" +:+ p else if decide (p = "") then "." else p.

Example Clean_examples :
  Clean "" = "." ∧ Clean "a//b/./c/.." = "a/b" ∧ Clean "/../a/" = "/a" ∧ Clean "../../a" = "../../a" ∧
  Clean "a/.." = "." ∧ Join "alice" "session.yaml" = Clean "alice/session.yaml".
Proof. by vm_compute. Qed.

(** The directory part of a path, when it has one. *)
Fixpoint path_dir (p : string) : option string :=
  match p with
  | EmptyString => None
  | String c s =>
      match path_dir s with
      | Some d => Some (String c d)
      | None => if Ascii.eqb c (Ascii.ascii_of_nat 47) then Some "" else None
      end
  end.

Section os.
Context {GT : GoTypes} {EN : Env} {Y : Type}.

(** [None]: nothing has been written. *)
Inductive fnode := File (data : option Y) | Dir (keys : list address).

Record world := mkWorld { w_files : gmap string fnode; w_calls : nat }.

Inductive OEvent :=
| Printf (s : string)
| Deploy (contract : string)
| Exit (code : Z).

Definition osprog (A : Type) : Type := prog world OEvent A.

Definition set_files (m : gmap string fnode) (w : world) : world := mkWorld m (w_calls w).
Definition tick (w : world) : world := mkWorld (w_files w) (S (w_calls w)).

(** A system call that may fail. *)
Definition syscall : osprog (option goerror) :=
  w ← get_state; modify tick;; mret (env_fault (w_calls w)).

Definition write_node (path : string) (n : fnode) : osprog unit :=
  modify (λ w, set_files (<[path := n]> (w_files w)) w).

(** [os.Stat] followed by [os.IsNotExist] of its error. *)
Definition StatNotExist (path : string) : osprog bool :=
  err ← syscall; w ← get_state;
  mret (match err with Some _ => false | None => bool_decide (w_files w !! path = None) end).

Definition TempFile (pattern : string) : osprog (string + goerror) :=
  err ← syscall;
  match err with
  | Some err => mret (inr err)
  | None =>
      w ← get_state;
      let name := temp_name pattern (dom (w_files w)) in
      write_node name (File None);; mret (inl name)
  end.

Definition TempDir (pattern : string) : osprog (string + goerror) :=
  err ← syscall;
  match err with
  | Some err => mret (inr err)
  | None =>
      w ← get_state;
      let name := temp_name pattern (dom (w_files w)) in
      write_node name (Dir []);; mret (inl name)
  end.

(** Encoding [y] into an open file. *)
Definition Encode (path : string) (y : Y) : osprog (option goerror) :=
  err ← syscall;
  match err with
  | Some err => mret (Some err)
  | None => write_node path (File (Some y));; mret None
  end.

Definition Mkdir (path : string) : osprog (option goerror) :=
  err ← syscall; w ← get_state;
  match err, w_files w !! path with
  | Some err, _ => mret (Some err)
  | None, Some _ => mret (Some (ErrText "file exists"))
  | None, None => write_node path (Dir []);; mret None
  end.

(** Removes a file or an empty directory. *)
Definition Remove (path : string) : osprog (option goerror) :=
  err ← syscall; w ← get_state;
  match err, w_files w !! path with
  | Some err, _ => mret (Some err)
  | None, None => mret (Some (ErrText "no such file or directory"))
  | None, Some (Dir (_ :: _)) => mret (Some (ErrText "directory not empty"))
  | None, Some _ => modify (λ w, set_files (delete path (w_files w)) w);; mret None
  end.

(** No error when there is nothing to remove. *)
Definition RemoveAll (path : string) : osprog (option goerror) :=
  err ← syscall;
  match err with
  | Some err => mret (Some err)
  | None => modify (λ w, set_files (delete path (w_files w)) w);; mret None
  end.

(** A file at [dest] is replaced, a directory is not.  A relative [dest] needs its
    directory; the system's directory for temporary files is there. *)
Definition has_parent (m : gmap string fnode) (dest : string) : bool :=
  String.prefix "/" dest ||
  match path_dir dest with Some d => bool_decide (is_Some (m !! d)) | None => true end.

Definition Rename (src dest : string) : osprog (option goerror) :=
  err ← syscall; w ← get_state;
  match err, w_files w !! src, w_files w !! dest with
  | Some err, _, _ => mret (Some err)
  | None, None, _ => mret (Some (ErrText "no such file or directory"))
  | None, Some _, Some (Dir _) => mret (Some (ErrText "file exists"))
  | None, Some n, _ =>
      if has_parent (w_files w) dest then
        modify (λ w, set_files (<[dest := n]> (delete src (w_files w))) w);; mret None
      else mret (Some (ErrText "no such file or directory"))
  end.

(** Putting a key file into a directory. *)
Definition add_key (dir : string) (a : address) : osprog unit :=
  modify (λ w, set_files (alter (λ n, match n with
    | Dir keys => Dir (keys ++ [a]) | File _ => n end) dir (w_files w)) w).

(** ** What the calls do *)
Implicit Types (w : world).

(** Nothing goes wrong. *)
Definition no_faults : Prop := ∀ n, env_fault n = None.

(** A call changes nothing but the number of calls; it fails only if there are faults. *)
Lemma wpe_syscall P w Q :
  (∀ err, (no_faults → err = None) → Q [] (tick w) err) → wpe P syscall w Q.
Proof. intros H. unfold wpe. cbn. apply H. intros Hn. apply Hn. Qed.

(** Temporary files are created: everything else is kept, the names [l] are new. *)
Record makes w w' (l : list string) : Prop := {
  mk_keeps : w_files w ⊆ w_files w';
  mk_nodup : NoDup l;
  mk_new n : n ∈ l → w_files w !! n = None ∧ is_Some (w_files w' !! n) ∧ String.prefix "/" n = true;
  mk_only n : n ∉ l → w_files w' !! n = w_files w !! n;
}.

Lemma makes_app w w1 w2 l1 l2 : makes w w1 l1 → makes w1 w2 l2 → makes w w2 (l1 ++ l2).
Proof.
  intros [K1 D1 N1 O1] [K2 D2 N2 O2]. split.
  - by etrans.
  - apply NoDup_app. split; [done|]. split; [|done]. intros n (_ & [x Hx] & _)%N1 (Hn & _)%N2. congruence.
  - intros n [Hn|Hn]%elem_of_app.
    + apply N1 in Hn as (? & [x Hx] & ?). split_and!; [done| |done]. exists x. by eapply lookup_weaken.
    + apply N2 in Hn as (Hn & ? & ?). split_and!; [|done..]. by eapply lookup_weaken_None.
  - intros n [Hn1 Hn2]%not_elem_of_app. by rewrite O2, O1.
Qed.

Context {ENL : EnvLaws}.

Lemma makes_insert w w' n x :
  w_files w' = <[n := x]> (w_files w) → w_files w !! n = None → String.prefix "/" n = true →
  makes w w' [n].
Proof.
  intros Hf Hn Hp. split; [rewrite Hf; by apply insert_subseteq|apply NoDup_singleton| |].
  - intros m ->%list_elem_of_singleton. split_and!; [done| |done]. rewrite Hf, lookup_insert_eq. by eexists.
  - intros m Hm. rewrite Hf, lookup_insert_ne; [done|]. intros ->. apply Hm. by left.
Qed.

Lemma temp_new pat w :
  w_files w !! temp_name pat (dom (w_files w)) = None ∧
  String.prefix "/" (temp_name pat (dom (w_files w))) = true.
Proof. split; [apply not_elem_of_dom, temp_fresh|apply temp_absolute]. Qed.

Lemma wpe_TempFile P pat w Q :
  (∀ e w', ¬ no_faults → w_files w' = w_files w → Q [] w' (inr e)) →
  (∀ n w', makes w w' [n] → w_files w' = <[n := File None]> (w_files w) → Q [] w' (inl n)) →
  wpe P (TempFile pat) w Q.
Proof.
  intros He Ho. destruct (temp_new pat w) as [Hn Hp]. apply wpe_bind, wpe_syscall. intros [e|] Hf.
  - apply He; [|done]. intros Hnf. by apply Hf in Hnf.
  - wpe_steps. apply Ho; [by eapply makes_insert|done].
Qed.

Lemma wpe_TempDir P pat w Q :
  (∀ e w', ¬ no_faults → w_files w' = w_files w → Q [] w' (inr e)) →
  (∀ n w', makes w w' [n] → w_files w' = <[n := Dir []]> (w_files w) → Q [] w' (inl n)) →
  wpe P (TempDir pat) w Q.
Proof.
  intros He Ho. destruct (temp_new pat w) as [Hn Hp]. apply wpe_bind, wpe_syscall. intros [e|] Hf.
  - apply He; [|done]. intros Hnf. by apply Hf in Hnf.
  - wpe_steps. apply Ho; [by eapply makes_insert|done].
Qed.

Lemma wpe_Encode P path y w Q :
  (∀ e w', ¬ no_faults → w_files w' = w_files w → Q [] w' (Some e)) →
  (∀ w', w_files w' = <[path := File (Some y)]> (w_files w) → Q [] w' None) →
  wpe P (Encode path y) w Q.
Proof.
  intros He Ho. apply wpe_bind, wpe_syscall. intros [e|] Hf.
  - apply He; [|done]. intros Hnf. by apply Hf in Hnf.
  - wpe_steps. by apply Ho.
Qed.

(** Removing leaves everything else. *)
Lemma wpe_Remove P path w Q :
  (∀ err w', w_files w' = w_files w ∨ w_files w' = delete path (w_files w) →
    (∀ y, no_faults → w_files w !! path = Some (File y) →
      err = None ∧ w_files w' = delete path (w_files w)) → Q [] w' err) →
  wpe P (Remove path) w Q.
Proof.
  intros H. apply wpe_bind, wpe_syscall. intros err Hf. wpe_steps.
  destruct err as [e|]; [|destruct (w_files (tick w) !! path) as [[y|[|k keys]]|] eqn:Hp];
    wpe_steps; cbn in *.
  - apply H; [by left|]. intros y Hnf. by apply Hf in Hnf.
  - apply H; [by right|]. intros y' _ _. done.
  - apply H; [by right|]. intros y' _ _. done.
  - apply H; [by left|]. intros y' _. congruence.
  - apply H; [by left|]. intros y' _. congruence.
Qed.

Lemma wpe_RemoveAll P path w Q :
  (∀ err w', w_files w' = w_files w ∨ w_files w' = delete path (w_files w) →
    (no_faults → err = None ∧ w_files w' = delete path (w_files w)) → Q [] w' err) →
  wpe P (RemoveAll path) w Q.
Proof.
  intros H. apply wpe_bind, wpe_syscall. intros [e|] Hf; wpe_steps.
  - apply H; [by left|]. intros Hnf. by apply Hf in Hnf.
  - apply H; [by right|]. done.
Qed.

(** What moving [src] to [dest] does to the files. *)
Definition moved (m : gmap string (fnode)) (p : string * string) : gmap string fnode :=
  match m !! p.1 with Some n => <[p.2 := n]> (delete p.1 m) | None => m end.

Lemma wpe_Rename P src dest w Q :
  (∀ e w', w_files w' = w_files w →
    (no_faults → has_parent (w_files w) dest = true → is_Some (w_files w !! src) →
     is_Some (w_files w !! dest)) → Q [] w' (Some e)) →
  (∀ w', is_Some (w_files w !! src) → w_files w' = moved (w_files w) (src, dest) → Q [] w' None) →
  wpe P (Rename src dest) w Q.
Proof.
  intros He Ho. apply wpe_bind, wpe_syscall. intros err Hf. wpe_steps. cbn [w_files tick].
  destruct err as [e|].
  { wpe_steps. apply He; [done|]. intros Hnf. by apply Hf in Hnf. }
  destruct (w_files w !! src) as [n|] eqn:Hs.
  2:{ wpe_steps. apply He; [done|]. intros _ _ [??]. congruence. }
  assert (∀ w', w_files w' = <[dest := n]> (delete src (w_files w)) → Q [] w' None) as Ho'.
  { intros w' Hw. apply Ho; [by eexists|]. unfold moved. cbn. by rewrite Hs. }
  destruct (w_files w !! dest) as [[y|keys]|] eqn:Hd;
    [|wpe_steps; apply He; [done|]; intros _ _ _; by eexists|];
    (destruct (has_parent _ dest) eqn:Hp; wpe_steps; [by apply Ho'|]; apply He; [done|]);
    cbn in *; intros _ Hp'; congruence.
Qed.

Section moves.
Implicit Types (m : gmap string fnode) (l : list (string * string)).

Lemma moved_ne m p q : q ≠ p.1 → q ≠ p.2 → moved m p !! q = m !! q.
Proof.
  intros H1 H2. unfold moved. destruct (m !! p.1); [|done]. by rewrite lookup_insert_ne, lookup_delete_ne.
Qed.

Lemma moves_ne m l q : q ∉ l.*1 → q ∉ l.*2 → foldl moved m l !! q = m !! q.
Proof.
  revert m. induction l as [|p l IH]; intros m; [done|]. cbn.
  rewrite !not_elem_of_cons. intros [H1 H2] [H3 H4]. rewrite IH by done. by apply moved_ne.
Qed.

(** Sources and destinations are all different. *)
Lemma moves_dest m l s d :
  NoDup (l.*1 ++ l.*2) → (s, d) ∈ l → foldl moved m l !! d = from_option Some (m !! d) (m !! s).
Proof.
  revert m. induction l as [|p l IH]; intros m Hnd Hin; [by apply elem_of_nil in Hin|].
  cbn in Hnd. apply NoDup_cons in Hnd as [H1 Hnd]. rewrite not_elem_of_app, not_elem_of_cons in H1.
  destruct H1 as (H1 & H12 & H1'). rewrite <-Permutation_middle in Hnd.
  apply NoDup_cons in Hnd as [H2 Hnd]. rewrite not_elem_of_app in H2. destruct H2 as [H2 H2'].
  cbn. apply elem_of_cons in Hin as [<-|Hin]; cbn in *.
  - rewrite moves_ne by done. unfold moved. cbn. destruct (m !! s); [|done]. by rewrite lookup_insert_eq.
  - rewrite IH by done.
    assert (s ∈ l.*1) by (by apply (list_elem_of_fmap_2 fst) in Hin).
    assert (d ∈ l.*2) by (by apply (list_elem_of_fmap_2 snd) in Hin).
    rewrite !moved_ne by congruence. done.
Qed.
End moves.
End os.
Arguments fnode {_} Y : assert.
Arguments world {_} Y : assert.
Arguments osprog {_} Y A : assert.
