(* ===== verification/Log.v ===== *)
(** * Logging (log/logger.go)

    The package keeps one logger, which the loggers of the components derive from.
    A logger is the level, where it writes, and the fields of every entry. *)
From S2P Require Import Prelude Perun Os.

(** The level names of logrus, the system opening a log file for appending, and the
    text of an entry. *)
Class LogLib `{GoTypes} := {
  logrus_ParseLevel : string → Z + goerror;
  os_OpenFile : string → option goerror;
  log_entry : Type;
  logrus_Format : log_entry → string * option goerror;
}.

Section log.
Context {GT : GoTypes} {LL : LogLib}.

Inductive LogOutput := Stdout | LogFile (path : string).

Record Logger := mkLogger {
  lg_Level : Z;
  lg_Output : LogOutput;
  lg_Fields : list (string * string);
}.

(** The variable of the package, and the logger of go-perun. *)
Record logstate := mkLogState { logger : option Logger; plogger : option Logger }.

Definition logprog (A : Type) : Type := prog logstate Empty_set A.

Definition WithField (l : Logger) (key value : string) : Logger :=
  mkLogger (lg_Level l) (lg_Output l) (lg_Fields l ++ [(key, value)]).

Definition InitLogger (levelStr logFile : string) : logprog (option goerror) :=
  match logrus_ParseLevel levelStr with
  | inr err => mret (Some err)
  | inl level =>
      let set out :=
        let newLogger := mkLogger level out [] in
        modify (λ _, mkLogState (Some newLogger) (Some newLogger));; mret None in
      if decide (logFile = "") then set Stdout
      else
        match os_OpenFile (Clean logFile) with
        | Some err => mret (Some err)
        | None => set (LogFile (Clean logFile))
        end
  end.

(** The error of the initialisation is ignored; the result may be nil. *)
Definition NewLogger : logprog (option Logger) :=
  s ← get_state;
  match logger s with
  | Some l => mret (Some l)
  | None => InitLogger "debug" "";; s ← get_state; mret (logger s)
  end.

Definition NewLoggerWithField (key value : string) : logprog Logger :=
  l ← NewLogger; l ← lift (go_deref l); mret (WithField l key value).

Definition NewDerivedLoggerWithField (parentLogger : option Logger) (key value : string)
    : logprog Logger :=
  match parentLogger with
  | None => panic "parent logger should not be nil"
  | Some l => mret (WithField l key value)
  end.

(** The prefix is put even before the text of an error. *)
Definition Format (entry : log_entry) : string * option goerror :=
  let '(originalText, err) := logrus_Format entry in ("▶ " +:+ originalText, err).

(** The logger of the package changes only in an initialisation that succeeds:
    an unknown level or a file that cannot be opened is reported, and logging goes on
    as before.  After a success every new logger has the level and the output asked
    for, and its own field only.  Without any initialisation [NewLogger] writes
    everything to standard output, so a logger is never nil. *)
Theorem logging_spec (debug : Z) (Hdebug : logrus_ParseLevel "debug" = inl debug) s :
  (∀ levelStr logFile,
    wp (InitLogger levelStr logFile) s (λ _ s1 err,
      (is_Some err → s1 = s) ∧
      (err = None ↔ is_inl (logrus_ParseLevel levelStr) ∧ (logFile = "" ∨ os_OpenFile (Clean logFile) = None)) ∧
      (err = None → ∃ level, logrus_ParseLevel levelStr = inl level ∧ plogger s1 = logger s1 ∧
        ∀ key value, wp (NewLoggerWithField key value) s1 (λ _ s2 l, s2 = s1 ∧
          l = mkLogger level (if decide (logFile = "") then Stdout else LogFile (Clean logFile)) [(key, value)])))) ∧
  wp NewLogger s (λ _ s1 l, l = logger s1 ∧
    l = Some (default (mkLogger debug Stdout []) (logger s)) ∧
    (is_Some (logger s) → s1 = s)).
Proof.
  split.
  - intros levelStr logFile. unfold InitLogger. destruct (logrus_ParseLevel levelStr) as [level|e].
    2:{ eexists _, _, _. split; [done|]. split_and!; [done| |done]. split; [done|]. by intros [[] _]. }
    destruct (decide (logFile = "")) as [->|Hne]; [|destruct (os_OpenFile (Clean logFile)) as [e|] eqn:Ho].
    + eexists _, _, _. split; [done|]. split_and!; [by intros []| |].
      * split; [|done]. intros _. split; [by exists level|by left].
      * intros _. exists level. split_and!; [done..|]. intros key value. by eexists _, _, _.
    + eexists _, _, _. split; [done|]. split_and!; [done| |done]. split; [done|]. intros [_ [?|?]]; congruence.
    + eexists _, _, _. split; [done|]. split_and!; [by intros []| |].
      * split; [|done]. intros _. split; [by exists level|by right].
      * intros _. exists level. split_and!; [done..|]. intros key value. by eexists _, _, _.
  - destruct s as [[l|] p].
    + by eexists _, _, _.
    + unfold NewLogger, wp. cbn. unfold InitLogger. rewrite Hdebug. cbn. eexists _, _, _. split; [reflexivity|].
      split_and!; [done..|]. by intros [].
Qed.
End log.
