(* ===== verification/Sdk.v ===== *)
(** * The state channel SDK (go-perun), as the node uses it

    go-perun is not part of this repository: its channel controllers, client
    and responders are parameters, collected in [GoPerun] with the operations
    the node calls.  An operation is a function of the state of the object it
    is called on, so the class describes one arbitrary run of the SDK, the peer
    and the blockchain; the theorems hold for every such run.  A [Z] argument is
    the time limit of the context the node passes.

    What single theorems rely on is stated in [UpdateByLaws], [CloseLaws]
    and [ClientCloseLaws]. *)
From Stdlib Require Import Strings.Ascii Strings.Byte.
From S2P Require Import Prelude Perun.

(** ** Data of the SDK the node reads or writes *)

(** [pchannel.Phase]; the node knows two phases by name. *)
Inductive phase := Acting | Withdrawn | OtherPhase (n : Z).
#[global] Instance phase_eq_dec : EqDecision phase.
Proof. solve_decision. Defined.

Section data.
Context {GT : GoTypes}.

(** [pchannel.Allocation] *)
Record Allocation := mkAllocation {
  al_Assets : list address;
  al_Balances : list (list Z);
}.

(** [pchannel.State] *)
Record PState := mkPState {
  st_ID : list byte;
  st_Version : Z;
  st_App : appdef;
  st_Allocation : Allocation;
  st_Data : appdata;
  st_IsFinal : bool;
}.

Definition set_Balances (b : list (list Z)) (s : PState) : PState :=
  mkPState (st_ID s) (st_Version s) (st_App s)
    (mkAllocation (al_Assets (st_Allocation s)) b) (st_Data s) (st_IsFinal s).
Definition set_IsFinal (b : bool) (s : PState) : PState :=
  mkPState (st_ID s) (st_Version s) (st_App s) (st_Allocation s) (st_Data s) b.
Definition set_Version (v : Z) (s : PState) : PState :=
  mkPState (st_ID s) v (st_App s) (st_Allocation s) (st_Data s) (st_IsFinal s).

(** [pclient.LedgerChannelProposal]; [lcp_ProposalID] is what its method
    [ProposalID] returns. *)
Record LedgerChannelProposal := mkLedgerChannelProposal {
  lcp_ProposalID : list byte;
  lcp_ChallengeDuration : Z;
  lcp_App : appdef;
  lcp_InitData : appdata;
  lcp_InitBals : Allocation;
  lcp_Peers : list address;
}.

(** [pclient.ChannelProposal]: a ledger channel proposal or another kind. *)
Inductive ChannelProposal :=
| LedgerProposal (p : LedgerChannelProposal)
| OtherProposal.

(** [pchannel.AdjudicatorEvent] with what waiting for its timeout returns. *)
Inductive AdjudicatorEvent :=
| RegisteredEvent (wait : option goerror)
| ConcludedEvent
| OtherEvent.

(** [perun.StateUpdater]: works on the state in place; may panic. *)
Definition StateUpdater : Type := PState → outcome (PState * option goerror).
End data.

(** ** The SDK *)
Class GoPerun `{GoTypes} := {
  (** channel controllers (interface PChannel) *)
  pch : Type;
  pch_ID : pch → list byte;
  pch_Idx : pch → Z;
  pch_ChallengeDuration : pch → Z;
  pch_Peers : pch → list address;
  pch_Phase : pch → phase;
  pch_State : pch → PState;
  pch_Close : pch → pch * option goerror;
  pch_UpdateBy : Z → StateUpdater → pch → outcome (pch * option goerror);
  pch_Register : Z → pch → pch * option goerror;
  pch_Settle : Z → bool → pch → pch * option goerror;
  (** whether the call [Watch] of the channel has returned *)
  pch_WatchReturned : pch → bool;
  (** update responders (interface ChUpdateResponder); accepting changes the
      channel the update is for *)
  updResponder : Type;
  upd_Accept : Z → updResponder → pch → pch * option goerror;
  upd_Reject : option Z → updResponder → string → option goerror;
  (** proposal responders (interface ChProposalResponder) *)
  propResponder : Type;
  proposalAcc : Type;
  lcp_Accept : LedgerChannelProposal → option address → proposalAcc;
  prop_Accept : Z → propResponder → proposalAcc → pch + goerror;
  prop_Reject : Z → propResponder → string → option goerror;
  NewLedgerChannelProposal : Z → option address → Allocation → list (option address) →
    option appdef → option appdata → LedgerChannelProposal + goerror;
  (** wallets, the dialer, the message bus, the channel client and the
      database.  [pcl_HandleReturns] and [bus_ListenReturns] tell whether the
      calls [Handle] of the client and [Listen] of the bus return when their
      goroutines run on. *)
  wallet_Unlock : wallet → address → option goerror;
  registerer : Type;
  reg_Register : address → string → registerer → registerer;
  wbus : Type;
  NewBus : address → registerer → wbus;
  bus_Close : wbus → wbus * option goerror;
  bus_ListenReturns : wbus → bool;
  NewTCPListener : string → option goerror;
  NewTCPDialer : Z → registerer;
  pcl : Type;
  NewClient : address → wallet → pcl + goerror;
  pcl_ProposeChannel : Z → LedgerChannelProposal → pcl → pcl * (pch + goerror);
  pcl_Restore : Z → pcl → pcl * list pch * option goerror;
  pcl_Close : pcl → pcl * option goerror;
  pcl_HandleReturns : pcl → bool;
  database : Type;
  LoadDatabase : string → database + goerror;
  db_Close : database → option goerror;
}.

(** [UpdateBy] panics or hangs only if the updater does.  A successful call leaves the channel in the state the updater made of
    the previous one, with the next version; a failed one leaves the state. *)
Class UpdateByLaws `{GoPerun} : Prop := {
  UpdateBy_ret d f p : returns (f (pch_State p)) → returns (pch_UpdateBy d f p);
  UpdateBy_ok d f p p' : pch_UpdateBy d f p = Ret (p', None) →
    ∃ s, f (pch_State p) = Ret (s, None) ∧
         pch_State p' = set_Version (uint64 (st_Version (pch_State p) + 1)) s;
  UpdateBy_err d f p p' e : pch_UpdateBy d f p = Ret (p', Some e) → pch_State p' = pch_State p;
  UpdateBy_static d f p p' e : pch_UpdateBy d f p = Ret (p', e) →
    pch_ID p' = pch_ID p ∧ pch_Idx p' = pch_Idx p;
}.

(** Closing a channel ends its watcher and does not change its state. *)
Class CloseLaws `{GoPerun} : Prop := {
  Close_watch p : pch_WatchReturned (pch_Close p).1 = true;
  Close_state p : pch_State (pch_Close p).1 = pch_State p;
}.

(** The calls of the adjudicator are about the state of the channel and change neither
    it nor the participant. *)
Class AdjudicatorLaws `{GoPerun} : Prop := {
  Register_state t p : pch_State (pch_Register t p).1 = pch_State p;
  Register_idx t p : pch_Idx (pch_Register t p).1 = pch_Idx p;
  Settle_state t b p : pch_State (pch_Settle t b p).1 = pch_State p;
}.

(** Closing the client makes its handlers return, closing the bus its listener, once
    their goroutines run on. *)
Class ClientCloseLaws `{GoPerun} : Prop := {
  pcl_Close_handlers c c' : pcl_Close c = (c', None) → pcl_HandleReturns c' = true;
  bus_Close_listener b b' : bus_Close b = (b', None) → bus_ListenReturns b' = true;
}.

(** ** Printing identifiers *)

(** [%x] of a byte: two lower-case hexadecimal digits. *)
Definition hex_digit (n : N) : ascii :=
  match n with
  | 0 => "0" | 1 => "1" | 2 => "2" | 3 => "3" | 4 => "4" | 5 => "5" | 6 => "6" | 7 => "7"
  | 8 => "8" | 9 => "9" | 10 => "a" | 11 => "b" | 12 => "c" | 13 => "d" | 14 => "e" | _ => "f"
  end%char%N.

Definition hex_byte (b : byte) : string :=
  let n := Byte.to_N b in String (hex_digit (n / 16)) (String (hex_digit (n mod 16)) "").

(** [fmt.Sprintf("%x", bytes)] *)
Fixpoint hex (bs : list byte) : string :=
  match bs with [] => "" | b :: bs' => hex_byte b +:+ hex bs' end.

Lemma hex_digit_inj m n : (m < 16)%N → (n < 16)%N → hex_digit m = hex_digit n → m = n.
Proof.
  set (L := N.of_nat <$> seq 0 16).
  assert (HL : ∀ k, (k < 16)%N → k ∈ L).
  { intros k Hk. apply list_elem_of_fmap. exists (N.to_nat k).
    rewrite N2Nat.id, elem_of_seq. split; [done|lia]. }
  assert (Hall : Forall (λ m, Forall (λ n, hex_digit m = hex_digit n → m = n) L) L)
    by (apply (bool_decide_unpack _); vm_compute; exact I).
  intros Hm%HL Hn%HL. rewrite Forall_forall in Hall. specialize (Hall m Hm).
  rewrite Forall_forall in Hall. by apply Hall.
Qed.

Lemma hex_byte_inj a b : hex_byte a = hex_byte b → a = b.
Proof.
  unfold hex_byte. intros [= H1 H2].
  assert (Hb : ∀ c, (Byte.to_N c < 256)%N) by (intros c; pose proof (Byte.to_N_bounded c); lia).
  apply hex_digit_inj in H1; [|apply N.Div0.div_lt_upper_bound, Hb..].
  apply hex_digit_inj in H2; [|by apply N.mod_lt..].
  assert (E : Byte.to_N a = Byte.to_N b).
  { rewrite (N.div_mod' (Byte.to_N a) 16), (N.div_mod' (Byte.to_N b) 16). by rewrite H1, H2. }
  apply (f_equal Byte.of_N) in E. rewrite !Byte.of_to_N in E. by injection E.
Qed.

#[export] Instance hex_inj : Inj (=) (=) hex.
Proof.
  intros xs. induction xs as [|x xs IH]; intros [|y ys] H; try done.
  cbn in H. injection H as H1 H2 H3. f_equal; [|by apply IH].
  apply hex_byte_inj. unfold hex_byte. congruence.
Qed.
