(* ===== verification/Timeout.v ===== *)
(** * Time limits (session/timeout.go)

    [time.Duration] is a signed 64-bit number of nanoseconds: every sum and
    product wraps around. *)
From S2P Require Import Prelude.

Definition Second : Z := 1000000000.
Definition processingTime : Z := 5 * Second.

Record timeoutConfig := mkTimeoutConfig { onChainTx : Z; response : Z }.

(** [time.Duration(challengeDurSecs) * time.Second] of a [uint64]. *)
Definition challengeDur (challegeDurSecs : Z) : Z := int64 (int64 challegeDurSecs * Second).

Definition proposeCh (t : timeoutConfig) (challegeDurSecs : Z) : Z :=
  int64 (int64 (int64 (int64 (2 * response t) + int64 (3 * onChainTx t))
                + int64 (2 * challengeDur challegeDurSecs)) + processingTime).

Definition respChProposalAccept (t : timeoutConfig) (challegeDurSecs : Z) : Z :=
  proposeCh t challegeDurSecs.

Definition respChProposalReject (t : timeoutConfig) : Z := int64 (response t + processingTime).

Definition chUpdate (t : timeoutConfig) : Z := int64 (response t + processingTime).

Definition respChUpdate (t : timeoutConfig) : Z := int64 (response t + processingTime).

Definition register (t : timeoutConfig) (challegeDurSecs : Z) : Z :=
  int64 (int64 (int64 (1 * onChainTx t) + int64 (1 * challengeDur challegeDurSecs)) + processingTime).

Definition settle (t : timeoutConfig) (challegeDurSecs : Z) : Z :=
  int64 (int64 (int64 (2 * onChainTx t) + int64 (1 * challengeDur challegeDurSecs)) + processingTime).

(** ** [Duration.String] of the standard library *)

(** The digits of [v] after the decimal point, without trailing zeros. *)
Fixpoint fmtFrac (prec : nat) (v : Z) (print : bool) (acc : string) : string * Z :=
  match prec with
  | O => ((if print then "." +:+ acc else acc), v)
  | S prec' =>
      let digit := v mod 10 in
      let print := print || negb (digit =? 0) in
      fmtFrac prec' (v / 10) print (if print then pretty digit +:+ acc else acc)
  end.

Definition Duration_String (d : Z) : string :=
  let u := Z.abs d in
  let neg := if d <? 0 then "-" else "" in
  if u =? 0 then "0s"
  else if u <? Second then
    let '(unit, prec) :=
      if u <? 1000 then ("ns", 0%nat)
      else if u <? 1000000 then ("µs", 3%nat) else ("ms", 6%nat) in
    let '(frac, v) := fmtFrac prec u false "" in
    neg +:+ pretty v +:+ frac +:+ unit
  else
    let '(frac, secs) := fmtFrac 9 u false "" in
    let s := pretty (secs mod 60) +:+ frac +:+ "s" in
    let mins := secs / 60 in
    if mins =? 0 then neg +:+ s
    else
      let m := pretty (mins mod 60) +:+ "m" in
      let hours := mins / 60 in
      if hours =? 0 then neg +:+ m +:+ s
      else neg +:+ pretty hours +:+ "h" +:+ m +:+ s.

Example Duration_String_10s : Duration_String (10 * Second) = "10s".
Proof. reflexivity. Qed.
Example Duration_String_mixed : Duration_String (3723 * Second + 500000000) = "1h2m3.5s".
Proof. reflexivity. Qed.
Example Duration_String_ms : Duration_String 1500000 = "1.5ms".
Proof. reflexivity. Qed.

(** ** Properties *)

Lemma challengeDur_int64 secs : challengeDur secs = int64 (secs * Second).
Proof. apply int64_mul_l. Qed.

(** Each limit is the wrapped-around sum of its parts. *)
Lemma proposeCh_int64 t secs :
  proposeCh t secs = int64 (2 * response t + 3 * onChainTx t + 2 * (secs * Second) + processingTime).
Proof. unfold proposeCh. rewrite challengeDur_int64. int64_tac. Qed.

Lemma register_int64 t secs :
  register t secs = int64 (onChainTx t + secs * Second + processingTime).
Proof. unfold register. rewrite challengeDur_int64. int64_tac. Qed.

Lemma settle_int64 t secs :
  settle t secs = int64 (2 * onChainTx t + secs * Second + processingTime).
Proof. unfold settle. rewrite challengeDur_int64. int64_tac. Qed.

(** Limits and durations that do not overflow when they are combined. *)
Definition no_overflow (t : timeoutConfig) (secs : Z) : Prop :=
  0 ≤ response t ∧ 0 ≤ onChainTx t ∧ 0 ≤ secs ∧
  2 * response t + 3 * onChainTx t + 2 * (secs * Second) + processingTime < two63.

(** Without overflow every time limit is the sum of the steps it is meant to
    cover: in particular it is positive, the limit for proposing covers funding,
    a dispute and the withdrawal, and the limit for settling covers registering. *)
Theorem timeouts_exact t secs (H : no_overflow t secs) :
  proposeCh t secs = 2 * response t + 3 * onChainTx t + 2 * (secs * Second) + processingTime ∧
  respChProposalAccept t secs = proposeCh t secs ∧
  register t secs = onChainTx t + secs * Second + processingTime ∧
  settle t secs = register t secs + onChainTx t ∧
  chUpdate t = response t + processingTime ∧
  respChUpdate t = chUpdate t ∧ respChProposalReject t = chUpdate t ∧
  0 < chUpdate t ≤ proposeCh t secs ∧ 0 < register t secs ≤ settle t secs ∧
  settle t secs ≤ proposeCh t secs.
Proof.
  destruct H as (Hr & Ho & Hs & Hb).
  assert (Hp : proposeCh t secs = 2 * response t + 3 * onChainTx t + 2 * (secs * Second) + processingTime).
  { rewrite proposeCh_int64, int64_id; [done|]. unfold is_int64, processingTime, Second, two63 in *. lia. }
  assert (Hre : register t secs = onChainTx t + secs * Second + processingTime).
  { rewrite register_int64, int64_id; [done|]. unfold is_int64, processingTime, Second, two63 in *. lia. }
  assert (Hse : settle t secs = 2 * onChainTx t + secs * Second + processingTime).
  { rewrite settle_int64, int64_id; [done|]. unfold is_int64, processingTime, Second, two63 in *. lia. }
  assert (Hu : chUpdate t = response t + processingTime).
  { unfold chUpdate. rewrite int64_id; [done|]. unfold is_int64, processingTime, Second, two63 in *. lia. }
  unfold respChProposalAccept, respChUpdate, respChProposalReject. rewrite Hse. fold (chUpdate t).
  unfold processingTime, Second in *. repeat split; lia.
Qed.

(** The challenge duration is an unrestricted 64-bit number of seconds in the
    API: from about 4.6 thousand million seconds on the limit for proposing a
    channel wraps around to a negative duration, so the context it is given to
    has expired before the call starts. *)
Theorem proposeCh_overflows t (Hr : 0 ≤ response t ≤ 3600 * Second)
    (Ho : 0 ≤ onChainTx t ≤ 3600 * Second) :
  ∀ secs, 4611686016 ≤ secs ≤ 9000000000 →
  is_uint64 secs ∧ proposeCh t secs < 0.
Proof.
  intros secs Hs. split; [unfold is_uint64, two64; lia|].
  rewrite proposeCh_int64. unfold int64, two63, two64, processingTime, Second in *.
  Z.to_euclidean_division_equations; lia.
Qed.
