(* ===== verification/SessionErrors.v ===== *)
(** * Error mapping shared by channels and sessions (session/session.go)

    The error constants, resource types and argument names of the package, and
    the three functions that recognise errors of the SDK and turn them into
    API errors. *)
From S2P Require Import Prelude Perun Errors.

Definition ErrChClosed : string := "action not allowed on a closed channel".
Definition ErrSessionClosed : string := "action not allowed on a closed session".
Definition ErrUnsupportedType : string := "type not supported, see node config for supported types".
Definition ErrRepeatedPeerAlias : string := "found repeated entries but each value should be unique".
Definition ErrEntryForSelfNotFound : string := "own peer alias (self) not found".

Definition ResTypeUpdate : string := "update".
Definition ResTypeUpdateSub : string := "updatesSub".
Definition ResTypeChannel : string := "channel".
Definition ResTypeProposal : string := "proposal".
Definition ResTypeProposalSub : string := "proposalsSub".
Definition ResTypePeerID : string := "peerID".
Definition ResTypeSession : string := "session".
Definition ResTypeCurrency : string := "currency".

Definition ArgNameAmount : string := "amount".
Definition ArgNameCurrency : string := "currency".
Definition ArgNamePeerAlias : string := "peerAlias".
Definition ArgNameOffChainAddr : string := "offChainAddress".
Definition ArgNameConfigFile : string := "configFile".
Definition ArgNamePayee : string := "payee".
Definition ArgNameToken : string := "token".
Definition ArgNameAsset : string := "asset".

Section session_errors.
Context {GT : GoTypes}.

Definition handleProposalError (peerAlias responseTimeout : string) (err : goerror)
    : option APIError :=
  match errors_As as_RequestTimedOutError err with
  | Some _ => Some (NewAPIErrPeerRequestTimedOut err peerAlias responseTimeout)
  | None =>
      match errors_As as_PeerRejectedError err with
      | Some Reason => Some (NewAPIErrPeerRejected err peerAlias Reason)
      | None => None
      end
  end.

Definition handleFundingTimeoutError (peerAlias : string) (peerIdx : Z) (err : goerror)
    : option APIError :=
  match errors_As as_FundingTimeoutError err with
  | None => None
  | Some Errors =>
      match Errors with
      | [TimedOutPeers] =>
          match TimedOutPeers with
          | [p] =>
              if p =? peerIdx then Some (NewAPIErrPeerNotFunded err peerAlias)
              else Some (NewAPIErrUnknownInternal
                           (ErrWithMessage ("index of peer must be " +:+ pretty peerIdx) err))
          | _ => Some (NewAPIErrUnknownInternal
                         (ErrWithMessage "channel can contain only one participant other than self" err))
          end
      | _ => Some (NewAPIErrUnknownInternal
                     (ErrWithMessage "channel can contain only one asset" err))
      end
  end.

Definition handleChainError (chainURL onChainTxTimeout : string) (err : goerror)
    : option APIError :=
  match errors_As as_TxTimedoutError err with
  | Some (txType, txID) => Some (NewAPIErrTxTimedOut err txType txID onChainTxTimeout)
  | None =>
      match errors_As as_ChainNotReachableError err with
      | Some _ => Some (NewAPIErrChainNotReachable err chainURL)
      | None => None
      end
  end.

Lemma handleProposalError_codes p t e :
  errs_in [ErrPeerRequestTimedOut; ErrPeerRejected] (handleProposalError p t e).
Proof. unfold handleProposalError. repeat case_match; errs_in_tac. Qed.

Lemma handleFundingTimeoutError_codes p i e :
  errs_in [ErrPeerNotFunded; ErrUnknownInternal] (handleFundingTimeoutError p i e).
Proof. unfold handleFundingTimeoutError. repeat case_match; errs_in_tac. Qed.

Lemma handleChainError_codes u t e :
  errs_in [ErrTxTimedOut; ErrChainNotReachable] (handleChainError u t e).
Proof. unfold handleChainError. repeat case_match; errs_in_tac. Qed.
End session_errors.
#[global] Arguments handleProposalError : simpl never.
#[global] Arguments handleFundingTimeoutError : simpl never.
#[global] Arguments handleChainError : simpl never.
