(* ===== verification/ChRegistry.v ===== *)
(** * The channel registry (session/channelRegistry.go)

    The list of the channels of a session, in the order they were added, with
    an index from channel IDs.  The registry holds pointers: a channel found by
    its ID and the channel at that index of the list are the same object, so an
    operation on one is an [update] of the list. *)
From S2P Require Import Prelude.

Section registry.
Context {C : Type} (cid : C → string).

Record chRegistry := mkChRegistry {
  chIdxs : gmap string nat;
  chs : list C;
}.

Definition newChRegistry : chRegistry := mkChRegistry ∅ [].

Definition put (ch : C) (r : chRegistry) : chRegistry :=
  let l := chs r ++ [ch] in
  mkChRegistry (<[cid ch := (length l - 1)%nat]> (chIdxs r)) l.

(** The index of a channel in the list; [get] dereferences it. *)
Definition get_idx (r : chRegistry) (chID : string) : option nat := chIdxs r !! chID.

Definition get (r : chRegistry) (chID : string) : outcome (option C) :=
  match get_idx r chID with
  | None => Ret None
  | Some chIdx => ch ← go_index (chs r) chIdx; Ret (Some ch)
  end.

Definition count (r : chRegistry) : nat := length (chs r).

(** An operation on the channel that the list holds at [i]. *)
Definition update (i : nat) (ch : C) (r : chRegistry) : chRegistry :=
  mkChRegistry (chIdxs r) (<[i := ch]> (chs r)).

(** ** Well-formed registries

    The index of an ID is the position of the last channel added with it, and
    every channel of the list is indexed. *)
Definition wf_registry (r : chRegistry) : Prop :=
  (∀ id i, chIdxs r !! id = Some i →
     (∃ ch, chs r !! i = Some ch ∧ cid ch = id) ∧
     ∀ j ch, chs r !! j = Some ch → cid ch = id → (j ≤ i)%nat) ∧
  (∀ i ch, chs r !! i = Some ch → is_Some (chIdxs r !! cid ch)).

Lemma newChRegistry_wf : wf_registry newChRegistry.
Proof. split; intros ??; cbn; [by rewrite lookup_empty|done]. Qed.

Lemma put_wf ch r : wf_registry r → wf_registry (put ch r).
Proof.
  intros [Hi Hc]. unfold put. rewrite length_app. cbn [length].
  replace (length (chs r) + 1 - 1)%nat with (length (chs r)) by lia. split; cbn.
  - intros id i. destruct (decide (cid ch = id)) as [<-|Hne].
    + rewrite lookup_insert_eq. intros [= <-]. split.
      * exists ch. split; [|done]. apply list_lookup_middle. done.
      * intros j ch' Hj _. apply lookup_lt_Some in Hj. rewrite length_app in Hj. cbn in Hj. lia.
    + rewrite lookup_insert_ne by done. intros [(ch' & Hch' & Hid) Hlast]%Hi. split.
      * exists ch'. split; [|done]. by apply lookup_app_l_Some.
      * intros j ch'' [Hj|[_ Hj]]%lookup_app_Some; [by apply Hlast|].
        apply list_lookup_singleton_Some in Hj as [_ <-]. congruence.
  - intros i ch' [Hj|[_ Hj]]%lookup_app_Some.
    + destruct (decide (cid ch = cid ch')) as [->|]; [by rewrite lookup_insert_eq|].
      rewrite lookup_insert_ne by done. by eapply Hc.
    + apply list_lookup_singleton_Some in Hj as [_ <-]. by rewrite lookup_insert_eq.
Qed.

Lemma update_wf i ch ch' r :
  chs r !! i = Some ch → cid ch' = cid ch → wf_registry r → wf_registry (update i ch' r).
Proof.
  intros Hch Hid [Hi Hc].
  assert (∀ j c, <[i := ch']> (chs r) !! j = Some c → ∃ c', chs r !! j = Some c' ∧ cid c' = cid c) as Hl.
  { intros j c. destruct (decide (i = j)) as [<-|Hne].
    - rewrite list_lookup_insert_eq by (by eapply lookup_lt_Some). intros [= <-]. eauto.
    - rewrite list_lookup_insert_ne by done. eauto. }
  split; cbn.
  - intros id j [(c & Hc1 & Hc2) Hlast]%Hi. split.
    + destruct (decide (i = j)) as [<-|Hne].
      * exists ch'. rewrite list_lookup_insert_eq by (by eapply lookup_lt_Some).
        split; [done|]. congruence.
      * exists c. by rewrite list_lookup_insert_ne.
    + intros k c' (c'' & Hk & Hk')%Hl Heq. eapply Hlast; [exact Hk|congruence].
  - intros j c (c' & Hj & <-)%Hl. by eapply Hc.
Qed.

(** On a well-formed registry [get] never panics, and finds the channel added
    last under the ID. *)
Lemma get_spec r id : wf_registry r →
  match chIdxs r !! id with
  | Some i => ∃ ch, get r id = Ret (Some ch) ∧ chs r !! i = Some ch ∧ cid ch = id
  | None => get r id = Ret None ∧ ∀ ch, ch ∈ chs r → cid ch ≠ id
  end.
Proof.
  intros [Hi Hc]. unfold get, get_idx. destruct (chIdxs r !! id) as [i|] eqn:E.
  - apply Hi in E as [(ch & Hch & Hid) _]. exists ch. unfold go_index. by rewrite Hch.
  - split; [done|]. intros ch [j Hj]%list_elem_of_lookup <-. apply Hc in Hj as [? ?]. congruence.
Qed.

Lemma get_put_eq r ch : get (put ch r) (cid ch) = Ret (Some ch).
Proof.
  unfold get, get_idx, put, go_index. cbn. rewrite lookup_insert_eq, length_app. cbn.
  rewrite list_lookup_middle by lia. done.
Qed.
Lemma get_put_ne r ch id : wf_registry r → cid ch ≠ id → get (put ch r) id = get r id.
Proof.
  intros Hwf Hne. pose proof (get_spec r id Hwf) as Hs. unfold get, get_idx, put, go_index in *. cbn.
  rewrite lookup_insert_ne by done. destruct (chIdxs r !! id) as [i|]; [|done].
  destruct Hs as (c & Hc & Hl & _). rewrite Hl. by rewrite (lookup_app_l_Some _ _ _ _ Hl).
Qed.
End registry.
Arguments chRegistry _ : clear implicits.
