(* ===== verification/Channel.v ===== *)
(** * Channels (session/channel.go)

    The state of a channel, every operation of it as a program over that state
    and a trace of actions, and its invariants.  A method that takes the
    channel's mutex is [with_lock] of its body; a method call on the channel
    while the mutex is held by someone else waits ([Block]).

    [Out] is what a notifier call delivers to the subscriber. *)
From Stdlib Require Import Strings.Byte.
From S2P Require Import Prelude Perun Errors SessionErrors Sdk Timeout.

Inductive chStatus := open | closed.
#[global] Instance chStatus_eq_dec : EqDecision chStatus.
Proof. solve_decision. Defined.

(** [time.Time.Unix] of a time in nanoseconds. *)
Definition unix (ns : Z) : Z := ns / Second.

Section channel.
Context {GT : GoTypes} {GP : GoPerun} {Out : Type}.

Definition ChUpdateNotifier : Type := ChUpdateNotif → Out.

(** ** State *)
Record params := mkParams {
  p_id : string;
  p_currencies : list (option Currency);
  p_symbols : gmap string nat;
  p_parts : list string;
  p_timeoutCfg : timeoutConfig;
  p_challengeDurSecs : Z;
  p_chainURL : string;
}.

Record chUpdateResponderEntry := mkUpdEntry {
  ue_notif : ChUpdateNotif;
  ue_responder : updResponder;
  ue_notifExpiry : Z;
}.

Record Channel := mkChannel {
  ch_params : params;
  ch_pch : pch;
  ch_status : chStatus;
  ch_wasCloseInitiated : bool;
  ch_chUpdateNotifier : option ChUpdateNotifier;
  ch_chUpdateNotifCache : list ChUpdateNotif;
  ch_chUpdateResponders : gmap string chUpdateResponderEntry;
  ch_locked : bool;
}.

(** Actions of a channel on its environment. *)
Inductive ChEvent :=
| EvGo (n : ChUpdateNotifier) (notif : ChUpdateNotif)   (* go n(notif) *)
| EvGoLater (notif : ChUpdateNotif)                (* go func() { ch.chUpdateNotifier(notif) } *)
| EvNotify (n : ChUpdateNotifier) (notif : ChUpdateNotif) (* n(notif) *)
| EvUpdateBy (timeout : Z)
| EvRegister (timeout : Z)
| EvSettle (timeout : Z) (isSecondary : bool)
| EvAccept (timeout : Z) (r : updResponder)
| EvReject (timeout : Z) (r : updResponder) (reason : string)
| EvClose.

Definition chprog (A : Type) : Type := prog Channel ChEvent A.

(** ** Field assignments *)
Definition set_pch (p : pch) (ch : Channel) : Channel :=
  mkChannel (ch_params ch) p (ch_status ch) (ch_wasCloseInitiated ch) (ch_chUpdateNotifier ch)
    (ch_chUpdateNotifCache ch) (ch_chUpdateResponders ch) (ch_locked ch).
Definition set_status (s : chStatus) (ch : Channel) : Channel :=
  mkChannel (ch_params ch) (ch_pch ch) s (ch_wasCloseInitiated ch) (ch_chUpdateNotifier ch)
    (ch_chUpdateNotifCache ch) (ch_chUpdateResponders ch) (ch_locked ch).
Definition set_wasCloseInitiated (b : bool) (ch : Channel) : Channel :=
  mkChannel (ch_params ch) (ch_pch ch) (ch_status ch) b (ch_chUpdateNotifier ch)
    (ch_chUpdateNotifCache ch) (ch_chUpdateResponders ch) (ch_locked ch).
Definition set_notifier (n : option ChUpdateNotifier) (ch : Channel) : Channel :=
  mkChannel (ch_params ch) (ch_pch ch) (ch_status ch) (ch_wasCloseInitiated ch) n
    (ch_chUpdateNotifCache ch) (ch_chUpdateResponders ch) (ch_locked ch).
Definition set_cache (c : list ChUpdateNotif) (ch : Channel) : Channel :=
  mkChannel (ch_params ch) (ch_pch ch) (ch_status ch) (ch_wasCloseInitiated ch)
    (ch_chUpdateNotifier ch) c (ch_chUpdateResponders ch) (ch_locked ch).
Definition set_responders (m : gmap string chUpdateResponderEntry) (ch : Channel) : Channel :=
  mkChannel (ch_params ch) (ch_pch ch) (ch_status ch) (ch_wasCloseInitiated ch)
    (ch_chUpdateNotifier ch) (ch_chUpdateNotifCache ch) m (ch_locked ch).
Definition set_locked (b : bool) (ch : Channel) : Channel :=
  mkChannel (ch_params ch) (ch_pch ch) (ch_status ch) (ch_wasCloseInitiated ch)
    (ch_chUpdateNotifier ch) (ch_chUpdateNotifCache ch) (ch_chUpdateResponders ch) b.

(** ** The mutex *)
Definition Lock : chprog unit :=
  ch ← get_state; if ch_locked ch then block else modify (set_locked true).
Definition Unlock : chprog unit := modify (set_locked false).
Definition with_lock {A} (m : chprog A) : chprog A :=
  Lock;; a ← m; Unlock;; mret a.

(** Calls on the channel controller. *)
Definition call_pch {A} (f : pch → pch * A) : chprog A :=
  ch ← get_state; let '(p, a) := f (ch_pch ch) in modify (set_pch p);; mret a.

(** ** Creation *)
Definition newCh_symbols (currencies : list (option Currency)) : outcome (gmap string nat) :=
  foldl (λ m '(i, c), m ← m; c ← go_deref c; Ret (<[Currency_Symbol c := i]> m))
    (Ret ∅) (imap pair currencies).

Definition newCh (p : pch) (chainURL : string) (currencies : list (option Currency))
    (parts : list string) (timeoutCfg : timeoutConfig) (challengeDurSecs : Z) : outcome Channel :=
  symbols ← newCh_symbols currencies;
  Ret (mkChannel (mkParams (hex (pch_ID p)) currencies symbols parts timeoutCfg challengeDurSecs chainURL)
         p open false None [] ∅ false).

(** ** Channel information *)
Fixpoint balRows (currencies : list (option Currency)) (rawBal : list (list Z))
    : outcome (list (string * list string)) :=
  match rawBal with
  | [] => Ret []
  | row :: rawBal' =>
      match currencies with
      | [] => Panic "index out of range"
      | c :: currencies' =>
          c ← go_deref c;
          rows ← balRows currencies' rawBal';
          Ret ((Currency_Symbol c, Currency_Print c <$> row) :: rows)
      end
  end.

Definition makeBalInfoFromRawBal (parts : list string) (currencies : list (option Currency))
    (rawBal : list (list Z)) : outcome BalInfo :=
  rows ← balRows currencies rawBal;
  Ret (mkBalInfo (rows.*1 ++ replicate (length currencies - length rawBal) "") parts rows.*2).

Definition makeBalInfoFromState (parts : list string) (currencies : list (option Currency))
    (state : PState) : outcome BalInfo :=
  makeBalInfoFromRawBal parts currencies (al_Balances (st_Allocation state)).

Definition makeApp (def : appdef) (data : appdata) : App := mkApp (Some def) (Some data).

Definition makeChInfo (p : params) (state : option PState) : outcome ChInfo :=
  match state with
  | None => Ret ChInfo_zero
  | Some s =>
      bal ← makeBalInfoFromState (p_parts p) (p_currencies p) s;
      Ret (mkChInfo (p_id p) bal (makeApp (st_App s) (st_Data s)) (pretty (st_Version s)))
  end.

Definition getChInfo : chprog ChInfo :=
  ch ← get_state; lift (makeChInfo (ch_params ch) (Some (pch_State (ch_pch ch)))).

Definition GetChInfo : chprog ChInfo := with_lock getChInfo.

(** ** Read-only accessors, which take no lock *)
Definition ID (ch : Channel) : string := p_id (ch_params ch).
Definition Currencies (ch : Channel) : list (option Currency) := p_currencies (ch_params ch).
Definition Currency_ (ch : Channel) (symbol : string) : outcome (option (nat * option Currency)) :=
  match p_symbols (ch_params ch) !! symbol with
  | None => Ret None
  | Some idx => c ← go_index (p_currencies (ch_params ch)) idx; Ret (Some (idx, c))
  end.
Definition Parts (ch : Channel) : list string := p_parts (ch_params ch).
Definition ChallengeDurSecs (ch : Channel) : Z := p_challengeDurSecs (ch_params ch).

(** ** Error mapping *)
Definition onChainTxString (p : params) : string := Duration_String (onChainTx (p_timeoutCfg p)).

Definition handleChSettleError (p : params) (err : goerror) : APIError :=
  match handleChainError (p_chainURL p) (onChainTxString p) err with
  | Some apiErr => apiErr
  | None => NewAPIErrUnknownInternal err
  end.

Definition handleChRegisterError (p : params) (err : goerror) : APIError :=
  match handleChainError (p_chainURL p) (onChainTxString p) err with
  | Some apiErr => apiErr
  | None => NewAPIErrUnknownInternal err
  end.

(** [ch.parts[ch.pch.Idx()^1]] panics unless the channel has two parties. *)
Definition handleSendChUpdateError (ch : Channel) (err : goerror) : outcome APIError :=
  peerAlias ← go_index (p_parts (ch_params ch)) (Z.to_nat (Z.lxor (pch_Idx (ch_pch ch)) 1));
  Ret (match handleProposalError peerAlias
               (Duration_String (response (p_timeoutCfg (ch_params ch)))) err with
       | Some apiErr => apiErr
       | None => NewAPIErrUnknownInternal err
       end).

(** ** Settling and closing *)
Definition settle : chprog (option APIError) :=
  ch ← get_state;
  let timeout := Timeout.settle (p_timeoutCfg (ch_params ch)) (p_challengeDurSecs (ch_params ch)) in
  let isSecondary := negb (ch_wasCloseInitiated ch) in
  emit (EvSettle timeout isSecondary);;
  err ← call_pch (pch_Settle timeout isSecondary);
  mret (match err with
        | Some err => Some (handleChSettleError (ch_params ch) (ErrWithMessage "settling channel" err))
        | None => None
        end).

(** Waits for the watcher; an error of closing the controller is only logged. *)
Definition close : chprog unit :=
  emit EvClose;;
  _ ← call_pch pch_Close;
  ch ← get_state;
  if pch_WatchReturned (ch_pch ch) then modify (set_status closed) else block.

Definition unsubChUpdates : chprog unit := modify (set_notifier None).

Definition makeChCloseNotif (currChInfo : ChInfo) (err : option APIError) : ChUpdateNotif :=
  mkChUpdateNotif
    (ci_ChID currChInfo +:+ "_" +:+ ci_Version currChInfo +:+ "_" +:+ "closed")
    currChInfo ChInfo_zero ChUpdateTypeClosed 0 err.

Definition closeAndNotify (err : option APIError) : chprog unit :=
  close;;
  ch ← get_state;
  match ch_chUpdateNotifier ch with
  | None => mret tt
  | Some notifier =>
      info ← getChInfo;
      emit (EvNotify notifier (makeChCloseNotif info err));;
      unsubChUpdates
  end.

(** The result of waiting for the timeout of the event is only logged. *)
Definition HandleAdjudicatorEvent (e : AdjudicatorEvent) : chprog unit :=
  with_lock (
    ch ← get_state;
    match e with
    | RegisteredEvent _ =>
        if negb (st_IsFinal (pch_State (ch_pch ch)))
        then apiErr ← settle; closeAndNotify apiErr
        else mret tt
    | ConcludedEvent =>
        if st_IsFinal (pch_State (ch_pch ch))
        then apiErr ← settle; closeAndNotify apiErr
        else mret tt
    | OtherEvent => mret tt
    end).

(** ** Sending an update *)
Definition call_UpdateBy (timeout : Z) (updater : StateUpdater) : chprog (option goerror) :=
  emit (EvUpdateBy timeout);;
  ch ← get_state;
  r ← lift (pch_UpdateBy timeout updater (ch_pch ch));
  modify (set_pch r.1);; mret r.2.

Definition SendChUpdate (updater : StateUpdater) : chprog (ChInfo * option APIError) :=
  with_lock (
    ch ← get_state;
    if decide (ch_status ch = closed) then
      info ← getChInfo;
      mret (info, Some (NewAPIErrFailedPreCondition (ErrConst ErrChClosed)))
    else
      err ← call_UpdateBy (chUpdate (p_timeoutCfg (ch_params ch))) updater;
      match err with
      | Some err =>
          ch ← get_state;
          apiErr ← lift (handleSendChUpdateError ch (ErrWithMessage "sending channel update" err));
          mret (ChInfo_zero, Some apiErr)
      | None => info ← getChInfo; mret (info, None)
      end).

(** ** Receiving updates *)
Definition makeUpdateID (id : string) (version : Z) : string := id +:+ "_" +:+ pretty version.

Definition makeChUpdateNotif (p : params) (currChInfo : ChInfo) (proposedState : PState)
    (expiry : Z) : outcome ChUpdateNotif :=
  let chUpdateType :=
    if st_IsFinal proposedState then ChUpdateTypeFinal else ChUpdateTypeOpen in
  proposed ← makeChInfo p (Some proposedState);
  Ret (mkChUpdateNotif (makeUpdateID (p_id p) (st_Version proposedState))
         currChInfo proposed chUpdateType expiry None).

(** The spawned function reads the field [chUpdateNotifier] when it runs. *)
Definition sendChUpdateNotif (notif : ChUpdateNotif) : chprog unit :=
  ch ← get_state;
  match ch_chUpdateNotifier ch with
  | None => modify (set_cache (ch_chUpdateNotifCache ch ++ [notif]))
  | Some _ => emit (EvGoLater notif)
  end.

Definition run_sendChUpdateNotif (notif : ChUpdateNotif) : chprog unit :=
  ch ← get_state;
  match ch_chUpdateNotifier ch with
  | None => panic "nil pointer dereference"
  | Some n => emit (EvNotify n notif)
  end.

(** The notification [HandleUpdate] makes at time [now] (in nanoseconds). *)
Definition update_notif (p : params) (currState : option PState) (proposed : PState) (now : Z)
    : outcome ChUpdateNotif :=
  currChInfo ← makeChInfo p currState;
  makeChUpdateNotif p currChInfo proposed (unix (now + response (p_timeoutCfg p))).

Definition HandleUpdate (currState : option PState) (proposed : PState)
    (responder : updResponder) (now : Z) : chprog unit :=
  with_lock (
    ch ← get_state;
    if decide (ch_status ch = closed) then mret tt
    else
      let expiry := unix (now + response (p_timeoutCfg (ch_params ch))) in
      notif ← lift (update_notif (ch_params ch) currState proposed now);
      let entry := mkUpdEntry notif responder expiry in
      (if expiry =? 0 then mret tt
       else modify (λ ch, set_responders
              (<[cun_UpdateID notif := entry]> (ch_chUpdateResponders ch)) ch));;
      sendChUpdateNotif notif).

(** ** Subscriptions *)

(** [for i := len(cache); i > 0; i-- { go notifier(cache[0]); cache = cache[1:i] }] *)
Fixpoint sendCached (i : nat) (notifier : ChUpdateNotifier) : chprog unit :=
  match i with
  | O => mret tt
  | S i' =>
      ch ← get_state;
      n ← lift (go_index (ch_chUpdateNotifCache ch) 0);
      emit (EvGo notifier n);;
      rest ← lift (go_slice (ch_chUpdateNotifCache ch) 1 i);
      modify (set_cache rest);;
      sendCached i' notifier
  end.

Definition SubChUpdates (notifier : ChUpdateNotifier) : chprog (option APIError) :=
  with_lock (
    ch ← get_state;
    if decide (ch_status ch = closed) then
      mret (Some (NewAPIErrFailedPreCondition (ErrConst ErrChClosed)))
    else match ch_chUpdateNotifier ch with
    | Some _ => mret (Some (NewAPIErrResourceExists ResTypeUpdateSub (ID ch)))
    | None =>
        modify (set_notifier (Some notifier));;
        sendCached (length (ch_chUpdateNotifCache ch)) notifier;;
        mret None
    end).

Definition UnsubChUpdates : chprog (option APIError) :=
  with_lock (
    ch ← get_state;
    if decide (ch_status ch = closed) then
      mret (Some (NewAPIErrFailedPreCondition (ErrConst ErrChClosed)))
    else match ch_chUpdateNotifier ch with
    | None => mret (Some (NewAPIErrResourceNotFound ResTypeUpdateSub (ID ch)))
    | Some _ => unsubChUpdates;; mret None
    end).

(** ** Responding to an update *)
Definition acceptChUpdate (entry : chUpdateResponderEntry) : chprog (option APIError) :=
  ch ← get_state;
  let timeout := respChUpdate (p_timeoutCfg (ch_params ch)) in
  emit (EvAccept timeout (ue_responder entry));;
  err ← call_pch (upd_Accept timeout (ue_responder entry));
  mret (match err with
        | Some err => Some (NewAPIErrUnknownInternal (ErrWithMessage "accepting update" err))
        | None => None
        end).

Definition rejectChUpdate (entry : chUpdateResponderEntry) (reason : string)
    : chprog (option APIError) :=
  ch ← get_state;
  let timeout := respChUpdate (p_timeoutCfg (ch_params ch)) in
  emit (EvReject timeout (ue_responder entry) reason);;
  mret (match upd_Reject (Some timeout) (ue_responder entry) reason with
        | Some err => Some (NewAPIErrUnknownInternal (ErrWithMessage "rejecting update" err))
        | None => None
        end).

(** Registers the latest state of the channel on-chain. *)
Definition register : chprog (option APIError) :=
  ch ← get_state;
  let timeout := Timeout.register (p_timeoutCfg (ch_params ch)) (p_challengeDurSecs (ch_params ch)) in
  emit (EvRegister timeout);;
  err ← call_pch (pch_Register timeout);
  mret (match err with
        | Some err =>
            Some (handleChRegisterError (ch_params ch) (ErrWithMessage "registering channel state" err))
        | None => None
        end).

Definition respond_accept (entry : chUpdateResponderEntry) : chprog (option APIError) :=
  apiErr ← acceptChUpdate entry;
  match apiErr with
  | Some e => mret (Some e)
  | None =>
      if decide (cun_Type (ue_notif entry) = ChUpdateTypeFinal) then register else mret None
  end.

Definition RespondChUpdate (updateID : string) (accept : bool) (now : Z)
    : chprog (ChInfo * option APIError) :=
  with_lock (
    ch ← get_state;
    if decide (ch_status ch = closed) then
      info ← getChInfo;
      mret (info, Some (NewAPIErrFailedPreCondition (ErrConst ErrChClosed)))
    else match ch_chUpdateResponders ch !! updateID with
    | None =>
        info ← getChInfo;
        mret (info, Some (NewAPIErrResourceNotFound ResTypeUpdate updateID))
    | Some entry =>
        modify (λ ch, set_responders (delete updateID (ch_chUpdateResponders ch)) ch);;
        let currTime := unix now in
        if ue_notifExpiry entry <? currTime then
          info ← getChInfo;
          mret (info, Some (NewAPIErrUserResponseTimedOut (cun_Expiry (ue_notif entry)) currTime))
        else
          apiErr ← (if accept then respond_accept entry
                    else rejectChUpdate entry "rejected by user");
          info ← getChInfo;
          mret (info, apiErr)
    end).

(** ** Closing the channel *)

(** A failure is only logged, but building its message can panic. *)
Definition finalize : chprog unit :=
  ch ← get_state;
  err ← call_UpdateBy (chUpdate (p_timeoutCfg (ch_params ch)))
          (λ state, Ret (set_IsFinal true state, None));
  match err with
  | Some err => ch ← get_state; _ ← lift (handleSendChUpdateError ch err); mret tt
  | None => mret tt
  end.

Definition Close : chprog (ChInfo * option APIError) :=
  with_lock (
    ch ← get_state;
    if decide (ch_status ch = closed) then
      info ← getChInfo;
      mret (info, Some (NewAPIErrFailedPreCondition (ErrConst ErrChClosed)))
    else
      finalize;;
      apiErr ← register;
      modify (set_wasCloseInitiated true);;
      info ← getChInfo;
      mret (info, apiErr)).

(** ** The interface to the environment

    One constructor per entry point: API calls, callbacks of the SDK, and the
    spawned function of [sendChUpdateNotif]. *)
Inductive ch_op :=
| OpGetChInfo
| OpSendChUpdate (updater : StateUpdater)
| OpHandleUpdate (currState : option PState) (proposed : PState) (r : updResponder) (now : Z)
| OpSubChUpdates (notifier : ChUpdateNotifier)
| OpUnsubChUpdates
| OpRespondChUpdate (updateID : string) (accept : bool) (now : Z)
| OpClose
| OpAdjudicatorEvent (e : AdjudicatorEvent)
| OpRunNotify (notif : ChUpdateNotif).

Definition run_op (o : ch_op) : chprog unit :=
  match o with
  | OpGetChInfo => GetChInfo;; mret tt
  | OpSendChUpdate u => SendChUpdate u;; mret tt
  | OpHandleUpdate c p r now => HandleUpdate c p r now
  | OpSubChUpdates n => SubChUpdates n;; mret tt
  | OpUnsubChUpdates => UnsubChUpdates;; mret tt
  | OpRespondChUpdate u a now => RespondChUpdate u a now;; mret tt
  | OpClose => Close;; mret tt
  | OpAdjudicatorEvent e => HandleAdjudicatorEvent e
  | OpRunNotify n => run_sendChUpdateNotif n
  end.

(** A channel takes a step when an entry point runs to its end: the state of
    a call that panics or waits forever is not one another call can see. *)
Inductive ch_step (o : ch_op) (ch : Channel) (es : list ChEvent) (ch' : Channel) : Prop :=
| ch_step_op : run_op o ch = (es, ch', Ret tt) → ch_step o ch es ch'.

(** The runs of a channel: the entry points that ran, one after the other, and
    the actions they performed. *)
Inductive ch_steps : Channel → list ch_op → list ChEvent → Channel → Prop :=
| ch_steps_refl ch : ch_steps ch [] [] ch
| ch_steps_step ch o es ch' os es' ch'' :
    ch_step o ch es ch' → ch_steps ch' os es' ch'' → ch_steps ch (o :: os) (es ++ es') ch''.
End channel.
Arguments Channel {_ _} _.
Arguments ChEvent {_ _} _.
Arguments chprog {_ _} _ _.
Arguments ChUpdateNotifier {_} _.
#[global] Arguments makeChInfo : simpl never.
#[global] Arguments update_notif : simpl never.
