(* ===== verification/ChannelProps.v ===== *)
(** * Properties of channels

    The invariant of a channel along all its runs, delivery of notifications,
    answering of updates, and what each entry point returns. *)
From S2P Require Import Prelude Perun Errors SessionErrors Sdk Timeout Channel.

Section channel_props.
Context {GT : GoTypes} {GP : GoPerun} {Out : Type}.
Implicit Types (ch : Channel Out) (es : list (ChEvent Out)).

(** ** Helpers *)

(** A method under the mutex runs on an unlocked channel and unlocks it. *)
Lemma with_lock_ret {A} (m : chprog Out A) ch es ch' a :
  with_lock m ch = (es, ch', Ret a) ↔
  ch_locked ch = false ∧
  ∃ ch1, m (set_locked true ch) = (es, ch1, Ret a) ∧ ch' = set_locked false ch1.
Proof.
  unfold with_lock, Lock, Unlock, mbind, prog_mbind, mret, prog_mret, get_state, modify, block.
  destruct ch as [p c s w n ca r l]. destruct l; cbn.
  { split; [discriminate | intros [? _]; discriminate]. }
  destruct (m _) as [[es1 s1] [x|x|]]; cbn; rewrite ?app_nil_r.
  - split; [intros [= <- <- <-]; eauto | intros (_ & ch1 & [= -> -> ->] & ->); done].
  - split; [discriminate | by intros (_ & ch1 & ? & _)].
  - split; [discriminate | by intros (_ & ch1 & ? & _)].
Qed.

Lemma with_lock_run {A} (m : chprog Out A) ch :
  ch_locked ch = false →
  with_lock m ch =
    let '(es, ch1, o) := m (set_locked true ch) in
    (es, match o with Ret _ => set_locked false ch1 | _ => ch1 end, o).
Proof.
  unfold with_lock, Lock, Unlock, mbind, prog_mbind, mret, prog_mret, get_state, modify, block.
  intros ->. destruct (m _) as [[es1 s1] [x|x|]]; cbn; by rewrite ?app_nil_r.
Qed.

(** Unfolds the monad on a channel given by its fields. *)
Ltac run :=
  unfold call_pch, call_UpdateBy, set_pch, set_status, set_wasCloseInitiated, set_notifier,
    set_cache, set_responders, set_locked in *;
  unfold mbind, prog_mbind, mret, prog_mret, get_state, modify, emit, lift, gets, panic, block in *;
  cbn in *;
  repeat (first [case_decide; [|done] | case_decide; [done|]]; cbn in *);
  rewrite ?app_nil_r in *.

(** Sending the cached notifications: all of them, oldest first. *)
Lemma sendCached_run n ch :
  sendCached (length (ch_chUpdateNotifCache ch)) n ch =
  (EvGo n <$> ch_chUpdateNotifCache ch, set_cache [] ch, Ret tt).
Proof.
  destruct ch as [p c s w no ca r l]. cbn. revert no.
  induction ca as [|x ca IH]; intros no; [done|].
  cbn [length sendCached]. run. unfold go_slice.
  rewrite decide_True by (cbn; lia). cbn.
  rewrite Nat.sub_0_r, drop_0, firstn_all. run. by rewrite IH.
Qed.

Lemma SubChUpdates_run n ch :
  ch_locked ch = false → ch_status ch = open → ch_chUpdateNotifier ch = None →
  SubChUpdates n ch =
    (EvGo n <$> ch_chUpdateNotifCache ch, set_cache [] (set_notifier (Some n) ch), Ret None).
Proof.
  destruct ch as [p c s w no ca r l]. cbn. intros -> -> ->.
  unfold SubChUpdates. rewrite with_lock_run by done. run.
  pose proof (sendCached_run n (mkChannel p c open w (Some n) ca r true)) as E.
  cbn in E. rewrite E. run. done.
Qed.

(** ** The abstract channel

    What a user of a channel sees: whether it is open, the subscription, the
    queue of notifications waiting for one, and the updates that wait for an
    answer. *)
Record achannel := mkAChannel {
  a_status : chStatus;
  a_sub : option (ChUpdateNotifier Out);
  a_queue : list ChUpdateNotif;
  a_pending : gmap string chUpdateResponderEntry;
}.

Inductive alabel :=
| Deliver (notif : ChUpdateNotif)
| Answer (r : updResponder).

Definition abs_ch ch : achannel :=
  mkAChannel (ch_status ch) (ch_chUpdateNotifier ch) (ch_chUpdateNotifCache ch)
    (ch_chUpdateResponders ch).

Definition label_of (e : ChEvent Out) : option alabel :=
  match e with
  | EvGo _ x | EvGoLater x => Some (Deliver x)
  | EvAccept _ r | EvReject _ r _ => Some (Answer r)
  | _ => None
  end.

Definition labels es : list alabel := omap label_of es.

(** Entry points that leave the abstract channel as it is. *)
Definition stutters (o : ch_op (Out := Out)) (s : achannel) : Prop :=
  match o with
  | OpHandleUpdate _ _ _ _ => a_status s = closed
  | OpSubChUpdates _ => a_status s = closed ∨ is_Some (a_sub s)
  | OpUnsubChUpdates => a_status s = closed ∨ a_sub s = None
  | OpRespondChUpdate id _ _ => a_status s = closed ∨ a_pending s !! id = None
  | _ => True
  end.

Definition pend (id : string) (e : chUpdateResponderEntry) (m : gmap string chUpdateResponderEntry) :=
  if ue_notifExpiry e =? 0 then m else <[id := e]> m.

Inductive abs_step (p : params) : ch_op (Out := Out) → achannel → list alabel → achannel → Prop :=
| abs_stutter o s : stutters o s → abs_step p o s [] s
| abs_receive c prop r now notif s :
    a_status s = open → update_notif p c prop now = Ret notif →
    abs_step p (OpHandleUpdate c prop r now) s
      (match a_sub s with Some _ => [Deliver notif] | None => [] end)
      (mkAChannel open (a_sub s)
         (match a_sub s with Some _ => a_queue s | None => a_queue s ++ [notif] end)
         (pend (cun_UpdateID notif) (mkUpdEntry notif r (cun_Expiry notif)) (a_pending s)))
| abs_sub n s :
    a_status s = open → a_sub s = None →
    abs_step p (OpSubChUpdates n) s (Deliver <$> a_queue s)
      (mkAChannel open (Some n) [] (a_pending s))
| abs_unsub s :
    a_status s = open → is_Some (a_sub s) →
    abs_step p OpUnsubChUpdates s [] (mkAChannel open None (a_queue s) (a_pending s))
| abs_respond id accept now e s :
    a_status s = open → a_pending s !! id = Some e →
    abs_step p (OpRespondChUpdate id accept now) s
      (if ue_notifExpiry e <? unix now then [] else [Answer (ue_responder e)])
      (mkAChannel open (a_sub s) (a_queue s) (delete id (a_pending s)))
| abs_settle e s :
    abs_step p (OpAdjudicatorEvent e) s []
      (mkAChannel closed None (a_queue s) (a_pending s)).

(** Parts of the entry points that the abstract channel does not see. *)
Definition silent ch es ch' : Prop :=
  ch_params ch' = ch_params ch ∧ ch_locked ch' = ch_locked ch ∧
  abs_ch ch' = abs_ch ch ∧ labels es = [].

#[local] Instance silent_trace : TraceRel silent.
Proof.
  split; [done|]. unfold silent, labels. intros s es s1 es' s2 (?&?&?&?) (?&?&?&?).
  rewrite omap_app. repeat split; [congruence..|]. by rewrite H2, H6.
Qed.

Lemma silent_emit e : label_of e = None → keeps silent (emit e).
Proof. intros H s es s' a [= <- <- _]. unfold silent, labels. cbn. by rewrite H. Qed.
#[local] Hint Extern 2 (keeps silent (emit _)) => apply silent_emit; reflexivity : keeps.

Lemma silent_getChInfo : keeps silent getChInfo.
Proof. unfold getChInfo. keeps_tac. Qed.
Lemma silent_pch {A} (f : pch → pch * A) : keeps silent (call_pch f).
Proof. unfold call_pch. keeps_tac. done. Qed.
Lemma silent_UpdateBy t u : keeps silent (call_UpdateBy t u).
Proof. unfold call_UpdateBy. keeps_tac. done. Qed.
#[local] Hint Resolve silent_getChInfo silent_pch silent_UpdateBy : keeps.
Lemma silent_register : keeps silent register.
Proof. unfold register. keeps_tac. Qed.
Lemma silent_settle : keeps silent settle.
Proof. unfold settle. keeps_tac. Qed.
Lemma silent_finalize : keeps silent finalize.
Proof. unfold finalize. keeps_tac. Qed.
#[local] Hint Resolve silent_register silent_settle silent_finalize : keeps.

(** A method whose body is silent leaves the abstract channel as it is. *)
Lemma silent_with_lock {A} (m : chprog Out A) : keeps silent m → keeps silent (with_lock m).
Proof.
  intros Hm ch es ch' a (Hl & ch1 & Hr & ->)%with_lock_ret.
  apply Hm in Hr as (?&?&?&?). destruct ch, ch1; cbn in *. by repeat split.
Qed.

Lemma silent_SendChUpdate u : keeps silent (SendChUpdate u).
Proof. apply silent_with_lock. keeps_tac. Qed.
Lemma silent_Close : keeps silent Close.
Proof. apply silent_with_lock. keeps_tac. all: done. Qed.
Lemma silent_GetChInfo : keeps silent GetChInfo.
Proof. apply silent_with_lock. keeps_tac. Qed.

Lemma closeAndNotify_ret err ch es ch' :
  closeAndNotify err ch = (es, ch', Ret tt) →
  ch_params ch' = ch_params ch ∧ ch_locked ch' = ch_locked ch ∧ labels es = [] ∧
  abs_ch ch' = mkAChannel closed None (ch_chUpdateNotifCache ch) (ch_chUpdateResponders ch).
Proof.
  destruct ch as [p c s w n ca r l].
  unfold closeAndNotify, close, getChInfo, unsubChUpdates. run.
  destruct (pch_Close c) as [c' e]. cbn. destruct (pch_WatchReturned c'); cbn; [|discriminate].
  destruct n as [n|]; cbn; [|by intros [= <- <-]].
  destruct (makeChInfo _ _); cbn; [|discriminate..]. by intros [= <- <-].
Qed.

Lemma settle_and_close_ret ch es ch' :
  (apiErr ← settle; closeAndNotify apiErr) ch = (es, ch', Ret tt) →
  ch_params ch' = ch_params ch ∧ ch_locked ch' = ch_locked ch ∧ labels es = [] ∧
  abs_ch ch' = mkAChannel closed None (ch_chUpdateNotifCache ch) (ch_chUpdateResponders ch).
Proof.
  intros (es1 & s1 & a & es2 & H1 & H2 & ->)%bind_ret.
  apply silent_settle in H1 as (Hp & Hl & [= _ _ Hq Hm] & He).
  apply closeAndNotify_ret in H2 as (Hp' & Hl' & He' & Hc).
  unfold labels in *. rewrite omap_app, He, He'. repeat split; congruence.
Qed.

(** What an entry point does to the abstract channel, in one statement. *)
Definition refines o ch es ch' : Prop :=
  ch_params ch' = ch_params ch ∧ ch_locked ch' = ch_locked ch ∧
  abs_step (ch_params ch) o (abs_ch ch) (labels es) (abs_ch ch').

Lemma refines_silent o ch es ch' :
  silent ch es ch' → stutters o (abs_ch ch) → refines o ch es ch'.
Proof. unfold refines. intros (?&?&E&->) Ho. repeat split; [done..|]. rewrite E. by constructor. Qed.

Lemma HandleAdjudicatorEvent_refines e ch es ch' :
  HandleAdjudicatorEvent e ch = (es, ch', Ret tt) → refines (OpAdjudicatorEvent e) ch es ch'.
Proof.
  unfold HandleAdjudicatorEvent. intros (Hl & ch1 & Hr & ->)%with_lock_ret.
  assert (silent (set_locked true ch) es ch1 ∨
          (apiErr ← settle; closeAndNotify apiErr) (set_locked true ch) = (es, ch1, Ret tt)) as [H|H].
  { apply bind_ret in Hr as (es1 & s1 & a & es2 & [= <- <- <-] & Hr & ->).
    destruct e; repeat case_match; first [by right | by injection Hr as <- <-; left]. }
  - apply refines_silent; [|done]. destruct H as (?&?&?&?), ch, ch1; by repeat split.
  - apply settle_and_close_ret in H as (Hp & _ & He & Ha).
    split; [exact Hp|]. split; [by rewrite Hl|]. rewrite He.
    change (abs_ch (set_locked false ch1)) with (abs_ch ch1). rewrite Ha.
    apply (abs_settle _ _ (abs_ch ch)).
Qed.

Lemma HandleUpdate_refines c pr r now ch es ch' :
  HandleUpdate c pr r now ch = (es, ch', Ret tt) → refines (OpHandleUpdate c pr r now) ch es ch'.
Proof.
  unfold HandleUpdate. intros (Hl & ch1 & Hr & ->)%with_lock_ret.
  destruct ch as [p c' s w n ca re l]. cbn in Hl. subst l. unfold sendChUpdateNotif in Hr. run.
  destruct (decide (s = closed)) as [->|Hs]; cbn in Hr.
  { simplify_eq/=. apply refines_silent; done. }
  assert (s = open) as -> by by destruct s.
  destruct (update_notif p c pr now) as [notif|w'|] eqn:En; cbn in Hr; [|discriminate..].
  assert (cun_Expiry notif = unix (now + response (p_timeoutCfg p))) as Hx.
  { clear -En. unfold update_notif in En. destruct (makeChInfo _ _); [|discriminate..]. cbn in En.
    unfold makeChUpdateNotif in En. destruct (makeChInfo _ _); [|discriminate..]. by injection En as <-. }
  pose proof (abs_receive p c pr r now notif (mkAChannel open n ca re) eq_refl En) as A.
  cbn in A. unfold pend in A. cbn in A. rewrite <- Hx in Hr. 
  destruct (cun_Expiry notif =? 0), n; cbn in Hr; simplify_eq/=; by repeat split.
Qed.

Lemma SubChUpdates_refines n ch es ch' a :
  SubChUpdates n ch = (es, ch', Ret a) → refines (OpSubChUpdates n) ch es ch'.
Proof.
  intros Hr. assert (ch_locked ch = false) as Hl by by eapply with_lock_ret.
  destruct ch as [p c s w no ca re l]. cbn in Hl. subst l.
  destruct s, no as [no|].
  2: { rewrite SubChUpdates_run in Hr by done. simplify_eq. repeat split. cbn.
       replace (labels _) with (Deliver <$> ca).
       - by apply (abs_sub _ _ (mkAChannel open None _ _)).
       - unfold labels. clear. by induction ca; f_equal/=. }
  all: apply refines_silent; [|cbn; eauto].
  all: unfold SubChUpdates in Hr; rewrite with_lock_run in Hr by done; run; by simplify_eq.
Qed.

Lemma UnsubChUpdates_refines ch es ch' a :
  UnsubChUpdates ch = (es, ch', Ret a) → refines OpUnsubChUpdates ch es ch'.
Proof.
  unfold UnsubChUpdates. intros (Hl & ch1 & Hr & ->)%with_lock_ret.
  destruct ch as [p c s w n ca re l]. unfold unsubChUpdates in *. cbn in Hl. subst l. run.
  destruct s, n; cbn in Hr; run; simplify_eq/=; try by (apply refines_silent; [|cbn; eauto]).
  repeat split. by apply (abs_unsub _ (mkAChannel open (Some _) ca re)).
Qed.

(** Sequencing a program with a silent one changes neither the labels nor the
    abstract channel. *)
Lemma bind_silent {A B} (m : chprog Out A) (f : A → chprog Out B) ch es ch' b :
  (∀ a, keeps silent (f a)) → (m ≫= f) ch = (es, ch', Ret b) →
  ∃ es1 ch1 a, m ch = (es1, ch1, Ret a) ∧ labels es = labels es1 ∧
    abs_ch ch' = abs_ch ch1 ∧ ch_params ch' = ch_params ch1.
Proof.
  intros Hf (es1 & s1 & a & es2 & H1 & H2 & ->)%bind_ret.
  apply Hf in H2 as (Hp & _ & Ha & He).
  exists es1, s1, a. unfold labels in *. by rewrite omap_app, He, app_nil_r.
Qed.

Lemma respond_accept_ret e ch es ch' a :
  respond_accept e ch = (es, ch', Ret a) →
  labels es = [Answer (ue_responder e)] ∧ abs_ch ch' = abs_ch ch ∧ ch_params ch' = ch_params ch.
Proof.
  unfold respond_accept. intros H. apply bind_silent in H as (es1 & s1 & x & Hr & -> & -> & ->);
    [|intros; keeps_tac].
  destruct ch as [p c s w n ca re l]. unfold acceptChUpdate in Hr. run.
  destruct (upd_Accept _ _ _). by simplify_eq/=.
Qed.

Lemma RespondChUpdate_refines id acc now ch es ch' a :
  RespondChUpdate id acc now ch = (es, ch', Ret a) → refines (OpRespondChUpdate id acc now) ch es ch'.
Proof.
  unfold RespondChUpdate. intros (Hl & ch1 & Hr & ->)%with_lock_ret.
  apply bind_ret in Hr as (es1 & s1 & x & es2 & [= <- <- <-] & Hr & ->). cbn [app].
  assert (ch_status ch = closed ∨ ch_chUpdateResponders ch !! id = None →
          silent (set_locked true ch) es2 ch1 → refines (OpRespondChUpdate id acc now) ch es2 (set_locked false ch1)).
  { intros Ho (?&?&?&?). apply refines_silent; [|done]. destruct ch, ch1; by repeat split. }
  case_decide as Hs; [|case_match eqn:Hp]; cbn in Hs; try cbn in Hp.
  1,3: apply H; [by auto | eapply keeps_run, Hr; keeps_tac].
  clear H. assert (ch_status ch = open) as Ho by by destruct (ch_status ch).
  pose proof (abs_respond (ch_params ch) id acc now c (abs_ch ch) Ho Hp) as A.
  apply bind_ret in Hr as (es1 & s1 & [] & es3 & [= <- <-] & Hr & ->). cbn [app].
  unfold refines. set (ch0 := set_responders _ _) in Hr.
  assert (abs_ch ch0 = mkAChannel open (ch_chUpdateNotifier ch) (ch_chUpdateNotifCache ch)
            (delete id (ch_chUpdateResponders ch))) as Ha0.
  { unfold abs_ch. cbn. by rewrite Ho. }
  change (abs_ch (set_locked false ch1)) with (abs_ch ch1).
  change (ch_params (set_locked false ch1)) with (ch_params ch1).
  change (ch_params ch) with (ch_params ch0). rewrite Hl.
  cut (abs_ch ch1 = abs_ch ch0 ∧ ch_params ch1 = ch_params ch0 ∧
       labels es3 = if ue_notifExpiry c <? unix now then [] else [Answer (ue_responder c)]).
  { intros (-> & -> & ->). rewrite Ha0. by repeat split. }
  destruct (ue_notifExpiry c <? unix now).
  - assert (silent ch0 es3 ch1) as (?&?&?&?); [eapply keeps_run, Hr; keeps_tac|done].
  - destruct acc; apply bind_silent in Hr as (?&?&?&Hr&->&->&->); try (intros; keeps_tac).
    + by apply respond_accept_ret in Hr as (?&?&?).
    + unfold rejectChUpdate in Hr. run. by simplify_eq/=.
Qed.

Lemma step_refines o ch es ch' : run_op o ch = (es, ch', Ret tt) → refines o ch es ch'.
Proof.
  intros Hr. destruct o; cbn [run_op] in Hr.
  1,2,7: apply refines_silent; [|done]; eapply keeps_run, Hr;
    apply keeps_bind; eauto using silent_GetChInfo, silent_SendChUpdate, silent_Close with keeps.
  - by apply HandleUpdate_refines.
  - apply bind_ret in Hr as (?&?&?&?&Hr&[= <- <-]&->). rewrite app_nil_r.
    by eapply SubChUpdates_refines.
  - apply bind_ret in Hr as (?&?&?&?&Hr&[= <- <-]&->). rewrite app_nil_r.
    by eapply UnsubChUpdates_refines.
  - apply bind_ret in Hr as (?&?&?&?&Hr&[= <- <-]&->). rewrite app_nil_r.
    by eapply RespondChUpdate_refines.
  - by apply HandleAdjudicatorEvent_refines.
  - apply refines_silent; [|done]. eapply keeps_run, Hr. unfold run_sendChUpdateNotif. keeps_tac.
Qed.

(** C1: The channel implements the abstract channel: whatever entry point runs, with
    whatever results of the SDK, its effect on the subscription, the queue of
    cached notifications, the pending updates and the status, and the
    notifications and answers it sends, are a step of the abstract channel;
    the parameters of the channel never change and the mutex is released. *)
Theorem channel_refines o ch es ch' :
  ch_step o ch es ch' →
  ch_params ch' = ch_params ch ∧ ch_locked ch' = ch_locked ch ∧
  abs_step (ch_params ch) o (abs_ch ch) (labels es) (abs_ch ch').
Proof. intros [Hr]. by apply step_refines. Qed.

(** ** Invariants of runs *)

(** An entry waits under the ID of its notification, which names the channel,
    and carries the expiry the user was told. *)
Definition wf_entry (p : params) (id : string) (e : chUpdateResponderEntry) : Prop :=
  id = cun_UpdateID (ue_notif e) ∧ ue_notifExpiry e = cun_Expiry (ue_notif e) ∧
  ue_notifExpiry e ≠ 0 ∧ cun_Type (ue_notif e) ≠ ChUpdateTypeClosed ∧
  ∃ version, id = makeUpdateID (p_id p) version.

Definition wf_abs (p : params) (s : achannel) : Prop :=
  (is_Some (a_sub s) → a_queue s = []) ∧
  (a_status s = closed → a_sub s = None) ∧
  map_Forall (wf_entry p) (a_pending s).

Definition wf_channel ch : Prop := wf_abs (ch_params ch) (abs_ch ch) ∧ ch_locked ch = false.

Lemma update_notif_spec p c pr now n :
  update_notif p c pr now = Ret n →
  cun_UpdateID n = makeUpdateID (p_id p) (st_Version pr) ∧
  cun_Expiry n = unix (now + response (p_timeoutCfg p)) ∧
  cun_Type n = (if st_IsFinal pr then ChUpdateTypeFinal else ChUpdateTypeOpen) ∧
  cun_Error n = None ∧ makeChInfo p c = Ret (cun_CurrChInfo n) ∧
  makeChInfo p (Some pr) = Ret (cun_ProposedChInfo n).
Proof.
  unfold update_notif, makeChUpdateNotif.
  destruct (makeChInfo p c); [|discriminate..]. cbn.
  destruct (makeChInfo p (Some pr)); [|discriminate..]. cbn. by intros [= <-].
Qed.

Lemma abs_step_wf p o s ls s' : abs_step p o s ls s' → wf_abs p s → wf_abs p s'.
Proof.
  intros Hstep (Hq & Hc & Hm).
  destruct Hstep as [o s _|c pr r now n s Ho Hn|n s Ho Hn|s Ho Hn|id acc now e s Ho He|e s];
    [done|split_and!; cbn in *; try done..].
  - intros [x Hx]. rewrite Hx. apply Hq. eauto.
  - unfold pend. case_match eqn:Hx; [done|]. apply map_Forall_insert_2; [|done].
    apply update_notif_spec in Hn as (Hu & _ & Ht & _). cbn in *. apply Z.eqb_neq in Hx.
    unfold wf_entry. cbn. rewrite Ht, Hu. split_and!; [done..| |by eexists]. by case_match.
  - by apply map_Forall_delete.
Qed.

Lemma abs_step_closed p o s ls s' :
  abs_step p o s ls s' → a_status s = closed →
  a_status s' = closed ∧ ls = [] ∧ a_pending s' = a_pending s ∧ a_queue s' = a_queue s.
Proof. intros H Hc. destruct H; cbn; split_and!; congruence. Qed.

Lemma step_wf o ch es ch' : run_op o ch = (es, ch', Ret tt) → wf_channel ch → wf_channel ch'.
Proof.
  intros (Hp & Hl & Ha)%step_refines [Hwf Hf].
  split; [rewrite Hp; by eapply abs_step_wf | congruence].
Qed.

(** C16: Along every run a channel stays well formed: with a subscription no
    notification stays cached, a closed channel has no subscription, every
    pending update waits under its own ID with the expiry its notification
    shows, the mutex is free between entry points; the parameters never change,
    and a closed channel stays closed, answers no update and changes no queue. *)
Theorem channel_invariant ch os es ch' (Hwf : wf_channel ch) (Hrun : ch_steps ch os es ch') :
  wf_channel ch' ∧ ch_params ch' = ch_params ch ∧
  (ch_status ch = closed →
    ch_status ch' = closed ∧ labels es = [] ∧
    ch_chUpdateResponders ch' = ch_chUpdateResponders ch ∧
    ch_chUpdateNotifCache ch' = ch_chUpdateNotifCache ch).
Proof.
  induction Hrun as [ch|ch o es ch' os es' ch'' [Hstep] _ IH]; [done|].
  pose proof (step_refines _ _ _ _ Hstep) as (Hp & Hl & Ha).
  destruct IH as (Hwf' & Hp' & Hc'); [by eapply step_wf|].
  split; [done|]. split; [congruence|]. intros Hs.
  apply abs_step_closed in Ha as (Hs1 & He1 & Hr1 & Hq1); [|done].
  destruct (Hc' Hs1) as (? & He2 & ? & ?). unfold labels in *. rewrite omap_app, He1, He2.
  split_and!; [done|done|cbn in *; congruence..].
Qed.

(** ** Delivery of notifications *)

(** The notifications the updates of a run give rise to. *)
Definition made_by (o : ch_op (Out := Out)) (p : params) (st : chStatus) : list ChUpdateNotif :=
  match o with
  | OpHandleUpdate c pr _ now =>
      if decide (st = closed) then []
      else match update_notif p c pr now with Ret n => [n] | _ => [] end
  | _ => []
  end.

Fixpoint made (os : list ch_op) ch : list ChUpdateNotif :=
  match os with
  | [] => []
  | o :: os' => made_by o (ch_params ch) (ch_status ch) ++ made os' (final (run_op o ch))
  end.

(** The goroutines an entry point starts: [go notifier(notif)] captures the
    subscriber, [go func() { ch.chUpdateNotifier(notif) }()] reads the field when
    it runs. *)
Inductive goroutine :=
| GoDirect (n : ChUpdateNotifier Out) (notif : ChUpdateNotif)
| GoField (notif : ChUpdateNotif).

Definition carried (g : goroutine) : ChUpdateNotif :=
  match g with GoDirect _ x | GoField x => x end.

Definition started es : list goroutine :=
  omap (λ e, match e with
             | EvGo n x => Some (GoDirect n x)
             | EvGoLater x => Some (GoField x)
             | _ => None
             end) es.

Definition run_goroutine (g : goroutine) : chprog Out unit :=
  match g with
  | GoDirect n x => emit (EvNotify n x)
  | GoField x => run_sendChUpdateNotif x
  end.

(** The calls of subscribers. *)
Definition delivered es : list (ChUpdateNotifier Out * ChUpdateNotif) :=
  omap (λ e, match e with EvNotify n x => Some (n, x) | _ => None end) es.

Definition is_entry (o : ch_op (Out := Out)) : Prop :=
  match o with OpRunNotify _ => False | _ => True end.

(** A run of the channel together with the goroutines started and not yet run:
    the scheduler chooses between an entry point and any of these goroutines.
    The indices are the entry points run, the goroutines started and the
    notifications that reached a subscriber. *)
Inductive ch_sched : Channel Out → list goroutine → list ch_op → list goroutine →
    list (ChUpdateNotifier Out * ChUpdateNotif) → Channel Out → list goroutine → Prop :=
| sched_done ch pool : ch_sched ch pool [] [] [] ch pool
| sched_entry ch pool o es ch1 os gs ds ch2 pool2 :
    is_entry o → ch_step o ch es ch1 →
    ch_sched ch1 (pool ++ started es) os gs ds ch2 pool2 →
    ch_sched ch pool (o :: os) (started es ++ gs) ds ch2 pool2
| sched_go ch pool1 g pool2 es ch1 os gs ds ch2 pool' :
    run_goroutine g ch = (es, ch1, Ret tt) →
    ch_sched ch1 (pool1 ++ pool2) os gs ds ch2 pool' →
    ch_sched ch (pool1 ++ g :: pool2) os gs (delivered es ++ ds) ch2 pool'.

Definition deliveries (ls : list alabel) : list ChUpdateNotif :=
  omap (λ l, match l with Deliver n => Some n | _ => None end) ls.

Lemma started_labels es : carried <$> started es = deliveries (labels es).
Proof. unfold started, deliveries, labels. induction es as [|[] es IH]; cbn; by rewrite ?IH. Qed.

Lemma abs_step_fifo p o s ls s' :
  abs_step p o s ls s' → wf_abs p s →
  a_queue s ++ made_by o p (a_status s) = deliveries ls ++ a_queue s'.
Proof.
  intros Hs (Hq & _ & _). unfold made_by.
  destruct Hs as [o s Ho|c pr r now n s Ho Hn|n s Ho Hn|s Ho Hn|id acc now e s Ho He|e s]; cbn;
    rewrite ?app_nil_r; try done.
  - destruct o; cbn in *; by rewrite ?decide_True, ?app_nil_r by done.
  - rewrite decide_False, Hn by congruence. destruct (a_sub s); [|done].
    rewrite Hq by eauto. done.
  - clear. by induction (a_queue s); f_equal/=.
  - by case_match.
Qed.

(** What a goroutine does when it runs: its one notification reaches the captured
    subscriber or the current one; without one it calls a nil function. *)
Definition goroutine_outcome (g : goroutine) ch : Prop :=
  (∃ n, run_goroutine g ch = ([EvNotify n (carried g)], ch, Ret tt) ∧
        match g with GoDirect n' _ => n' = n | GoField _ => ch_chUpdateNotifier ch = Some n end) ∨
  (g = GoField (carried g) ∧ ch_chUpdateNotifier ch = None ∧
   run_goroutine g ch = ([], ch, Panic "nil pointer dereference")).

Lemma run_goroutine_outcome g ch : goroutine_outcome g ch.
Proof.
  destruct g as [n x|x]; [by left; exists n|]. unfold goroutine_outcome. cbn [run_goroutine carried].
  destruct ch as [p pc s w [n|] ca re l]; cbn.
  - left. exists n. unfold run_sendChUpdateNotif. run. done.
  - right. unfold run_sendChUpdateNotif. run. done.
Qed.

Lemma run_goroutine_ret g ch es ch' :
  run_goroutine g ch = (es, ch', Ret tt) → ch' = ch ∧ (delivered es).*2 = [carried g].
Proof.
  destruct (run_goroutine_outcome g ch) as [(n & E & _)|(_ & _ & E)]; rewrite E; intros H; by simplify_eq.
Qed.

(** C15: No notification of an incoming update is lost or repeated, in any
    interleaving of the entry points with the goroutines that call the
    subscriber.  The notifications cached at the start followed by those made
    during the run are, in this order, the ones whose goroutines were started
    followed by those still cached; and counted with multiplicity, the goroutines
    that were waiting for the scheduler and those started are the notifications
    that reached a subscriber and the goroutines still waiting.  The order in
    which started goroutines run is the scheduler's.  A goroutine left over
    delivers its notification when it runs, to the subscriber it captured (a
    cached notification) or to the one subscribed at that moment (a fresh one);
    only a fresh one that finds no subscription left calls a nil function. *)
Theorem notifications_once ch pool os gs ds ch' pool' (Hwf : wf_channel ch)
    (Hrun : ch_sched ch pool os gs ds ch' pool') :
  ch_chUpdateNotifCache ch ++ made os ch = (carried <$> gs) ++ ch_chUpdateNotifCache ch' ∧
  carried <$> (pool ++ gs) ≡ₚ ds.*2 ++ (carried <$> pool') ∧
  Forall (λ g, goroutine_outcome g ch') pool'.
Proof.
  split_and!; [| |by apply Forall_forall; intros; apply run_goroutine_outcome].
  - induction Hrun as [ch pool|ch pool o es ch1 os gs ds ch2 pool2 _ [Hstep] _ IH
      |ch pool1 g pool2 es ch1 os gs ds ch2 pool' Hg _ IH]; [by rewrite app_nil_r| |].
    + pose proof (step_refines _ _ _ _ Hstep) as (Hp & Hl & Ha).
      rewrite fmap_app, started_labels, <-app_assoc, <-IH by eauto using step_wf.
      cbn [made]. rewrite Hstep. change (final _) with ch1. rewrite !app_assoc. f_equal.
      apply (abs_step_fifo _ _ _ _ _ Ha), Hwf.
    + apply run_goroutine_ret in Hg as [-> _]. by apply IH.
  - clear Hwf. induction Hrun as [ch pool|ch pool o es ch1 os gs ds ch2 pool2 _ _ _ IH
      |ch pool1 g pool2 es ch1 os gs ds ch2 pool' Hg _ IH]; [by rewrite app_nil_r| |].
    + by rewrite app_assoc.
    + apply run_goroutine_ret in Hg as [_ Hd]. rewrite (fmap_app snd), Hd. cbn. rewrite <-IH.
      rewrite !fmap_app, <-!app_assoc. cbn. by rewrite <-Permutation_middle.
Qed.

(** ** Answers to updates *)

Definition received_by (o : ch_op (Out := Out)) : option updResponder :=
  match o with OpHandleUpdate _ _ r _ => Some r | _ => None end.

Definition answers (ls : list alabel) : list updResponder :=
  omap (λ l, match l with Answer r => Some r | _ => None end) ls.
Definition answered es : list updResponder := answers (labels es).

Lemma answered_app es es' : answered (es ++ es') = answered es ++ answered es'.
Proof. unfold answered, answers, labels. by rewrite !omap_app. Qed.

(** The responders still waiting for an answer. *)
Definition waiting (m : gmap string chUpdateResponderEntry) : list updResponder :=
  ue_responder <$> map_vals m.

Lemma waiting_delete m id e :
  m !! id = Some e → waiting m ≡ₚ ue_responder e :: waiting (delete id m).
Proof. intros H. unfold waiting. by rewrite (map_vals_delete m id e H). Qed.

Lemma waiting_insert m id e : waiting (<[id := e]> m) ⊆+ ue_responder e :: waiting m.
Proof. exact (fmap_submseteq ue_responder _ _ (map_vals_insert m id e)). Qed.

Lemma abs_step_answers p o s ls s' :
  abs_step p o s ls s' →
  answers ls ++ waiting (a_pending s') ⊆+
  waiting (a_pending s) ++ omap received_by [o].
Proof.
  intros Hs.
  destruct Hs as [o s Ho|c pr r now n s Ho Hn|n s Ho Hn|s Ho Hn|id acc now e s Ho He|e s]; cbn;
    rewrite ?app_nil_r; try done.
  - destruct (received_by o); [|by rewrite app_nil_r]. by apply submseteq_inserts_r.
  - rewrite (Permutation_app_comm _ [r]). cbn.
    replace (answers _) with (@nil updResponder) by by destruct (a_sub s). cbn.
    unfold pend. cbn. case_match; [by apply submseteq_cons|]. apply waiting_insert.
  - replace (answers _) with (@nil updResponder); [done|]. clear. by induction (a_queue s).
  - rewrite (waiting_delete _ _ _ He). case_match; cbn; [by apply submseteq_cons|done].
Qed.

(** C14: Every responder is answered at most once, and none is answered that the
    channel was not handed: the responders answered during a run together with
    those still waiting are among (as a multiset) those that waited at the start
    and those the updates of the run brought. *)
Theorem answered_at_most_once ch os es ch' (Hrun : ch_steps ch os es ch') :
  answered es ++ waiting (ch_chUpdateResponders ch') ⊆+
  waiting (ch_chUpdateResponders ch) ++ omap received_by os.
Proof.
  induction Hrun as [ch|ch o es ch' os es' ch'' [Hstep] _ IH]; [by rewrite app_nil_r|].
  pose proof (step_refines _ _ _ _ Hstep) as (_ & _ & Ha%abs_step_answers). cbn in Ha.
  rewrite answered_app, <-app_assoc. etrans; [apply submseteq_skips_l, IH|].
  rewrite app_assoc. etrans; [apply submseteq_skips_r, Ha|].
  rewrite <-app_assoc. apply submseteq_skips_l. cbn. by destruct (received_by o).
Qed.

(** ** What the entry points return *)

(** The information an entry point returns for the state of the controller. *)
Definition info_of ch (p : pch) (i : ChInfo) : Prop :=
  makeChInfo (ch_params ch) (Some (pch_State p)) = Ret i.

(** Runs an entry point on a channel given by its fields. *)
Ltac run_entry := rewrite with_lock_run by done; unfold getChInfo, info_of in *; run.

Lemma RespondChUpdate_run id (acc : bool) now ch e p' es err i :
  ch_locked ch = false → ch_status ch = open → ch_chUpdateResponders ch !! id = Some e →
  let ch0 := set_locked true (set_responders (delete id (ch_chUpdateResponders ch)) ch) in
  (if ue_notifExpiry e <? unix now
   then mret (Some (NewAPIErrUserResponseTimedOut (cun_Expiry (ue_notif e)) (unix now)))
   else if acc then respond_accept e else rejectChUpdate e "rejected by user") ch0
    = (es, set_pch p' ch0, Ret err) →
  info_of ch p' i →
  RespondChUpdate id acc now ch =
    (es, set_pch p' (set_responders (delete id (ch_chUpdateResponders ch)) ch), Ret (i, err)).
Proof.
  destruct ch as [p c s w n ca re l]. cbn. intros -> -> He Hr Hi.
  unfold RespondChUpdate. run_entry. rewrite He. run.
  destruct (_ <? _); run; [injection Hr as <- <- <-; by rewrite Hi|].
  destruct acc; rewrite Hr; run; rewrite Hi; by run.
Qed.

(** What the answer to the pending update [e] does: when it comes too late, when it
    rejects, when accepting fails, when it succeeds, and for a final update. *)
Definition respond_branches id now ch (e : chUpdateResponderEntry) : Prop :=
  let t := respChUpdate (p_timeoutCfg (ch_params ch)) in
  let tr := Timeout.register (p_timeoutCfg (ch_params ch)) (p_challengeDurSecs (ch_params ch)) in
  let r := ue_responder e in
  let done_ p := set_pch p (set_responders (delete id (ch_chUpdateResponders ch)) ch) in
  (ue_notifExpiry e < unix now → ∀ acc i, info_of ch (ch_pch ch) i →
    RespondChUpdate id acc now ch =
      ([], done_ (ch_pch ch),
       Ret (i, Some (NewAPIErrUserResponseTimedOut (cun_Expiry (ue_notif e)) (unix now))))) ∧
  (unix now ≤ ue_notifExpiry e →
    (∀ i, info_of ch (ch_pch ch) i →
      RespondChUpdate id false now ch =
        ([EvReject t r "rejected by user"], done_ (ch_pch ch),
         Ret (i, (λ err, NewAPIErrUnknownInternal (ErrWithMessage "rejecting update" err))
                   <$> upd_Reject (Some t) r "rejected by user"))) ∧
    (∀ p' err i, upd_Accept t r (ch_pch ch) = (p', Some err) → info_of ch p' i →
      RespondChUpdate id true now ch =
        ([EvAccept t r], done_ p',
         Ret (i, Some (NewAPIErrUnknownInternal (ErrWithMessage "accepting update" err))))) ∧
    (∀ p' i, upd_Accept t r (ch_pch ch) = (p', None) →
      cun_Type (ue_notif e) ≠ ChUpdateTypeFinal → info_of ch p' i →
      RespondChUpdate id true now ch = ([EvAccept t r], done_ p', Ret (i, None))) ∧
    (∀ p' p'' err i, upd_Accept t r (ch_pch ch) = (p', None) →
      cun_Type (ue_notif e) = ChUpdateTypeFinal → pch_Register tr p' = (p'', err) →
      info_of ch p'' i →
      RespondChUpdate id true now ch =
        ([EvAccept t r; EvRegister tr], done_ p'',
         Ret (i, (λ err, handleChRegisterError (ch_params ch)
                    (ErrWithMessage "registering channel state" err)) <$> err)))).

Lemma RespondChUpdate_branches id now ch e :
  ch_locked ch = false → ch_status ch = open → ch_chUpdateResponders ch !! id = Some e →
  respond_branches id now ch e.
Proof.
  intros Hl Ho He. cbv beta delta [respond_branches]. intros t tr r done_. split; [|intros Hx; split_and!].
  1: intros Hx acc i Hi; eapply RespondChUpdate_run; [done..| |done];
     rewrite (proj2 (Z.ltb_lt _ _)) by done; by destruct ch.
  all: intros; eapply RespondChUpdate_run; [done..| |done];
    rewrite (proj2 (Z.ltb_ge _ _)) by done; destruct ch as [p c s w n ca re l].
  - unfold rejectChUpdate. run. fold t r. by destruct (upd_Reject _ _ _).
  - unfold respond_accept, acceptChUpdate. run. fold t r. rewrite H. by run.
  - unfold respond_accept, acceptChUpdate. run. fold t r. rewrite H. by run.
  - unfold respond_accept, acceptChUpdate, register. run. fold t r. rewrite H. run. fold tr.
    rewrite H1. by destruct err.
Qed.

(** C17: Answering a pending update, on every branch: an expired entry is removed and
    nothing is sent; a rejection reaches the peer with the fixed reason; an
    acceptance reaches the peer, and exactly when it succeeds for a final update
    the state is registered on the blockchain.  In every case the entry is gone,
    and the error is the one of the call that failed. *)
Theorem RespondChUpdate_spec id now ch e
    (Hl : ch_locked ch = false) (Ho : ch_status ch = open)
    (He : ch_chUpdateResponders ch !! id = Some e) :
  respond_branches id now ch e.
Proof. by apply RespondChUpdate_branches. Qed.

Definition closed_error : APIError := NewAPIErrFailedPreCondition (ErrConst ErrChClosed).

(** A closed channel refuses every request of the user: sending, answering,
    closing and both subscription calls return the failed-precondition error,
    change nothing and make no call of the SDK. *)
Theorem closed_channel_refuses ch i
    (Hl : ch_locked ch = false) (Hc : ch_status ch = closed) (Hi : info_of ch (ch_pch ch) i) :
  (∀ u, SendChUpdate u ch = ([], ch, Ret (i, Some closed_error))) ∧
  (∀ id acc now, RespondChUpdate id acc now ch = ([], ch, Ret (i, Some closed_error))) ∧
  Close ch = ([], ch, Ret (i, Some closed_error)) ∧
  (∀ n, SubChUpdates n ch = ([], ch, Ret (Some closed_error))) ∧
  UnsubChUpdates ch = ([], ch, Ret (Some closed_error)) ∧
  (∀ c pr r now, HandleUpdate c pr r now ch = ([], ch, Ret tt)).
Proof.
  destruct ch as [p c s w n ca re l]. cbn in *. subst.
  split_and!; intros;
    unfold SendChUpdate, RespondChUpdate, Close, SubChUpdates, UnsubChUpdates, HandleUpdate;
    run_entry; try rewrite Hi; by run.
Qed.

(** Finalizing calls the peer once and tells the user nothing. *)
Lemma finalize_run ch p1 err :
  let t := chUpdate (p_timeoutCfg (ch_params ch)) in
  pch_UpdateBy t (λ st, Ret (set_IsFinal true st, None)) (ch_pch ch) = Ret (p1, err) →
  (is_Some err → is_Some (p_parts (ch_params ch) !! Z.to_nat (Z.lxor (pch_Idx p1) 1))) →
  finalize ch = ([EvUpdateBy t], set_pch p1 ch, Ret tt).
Proof.
  destruct ch as [p c s w n ca re l]. intros t H Hp. unfold finalize. run. fold t. rewrite H. run.
  destruct err as [err|]; run; [|done]. unfold handleSendChUpdateError, go_index; cbn.
  destruct Hp as [x Hx]; [by eexists|]. by rewrite Hx.
Qed.

Lemma Close_run `{!UpdateByLaws} ch p1 err1 p2 err2 i :
  ch_locked ch = false → ch_status ch = open →
  let t := chUpdate (p_timeoutCfg (ch_params ch)) in
  let tr := Timeout.register (p_timeoutCfg (ch_params ch)) (p_challengeDurSecs (ch_params ch)) in
  pch_UpdateBy t (λ st, Ret (set_IsFinal true st, None)) (ch_pch ch) = Ret (p1, err1) →
  is_Some (p_parts (ch_params ch) !! Z.to_nat (Z.lxor (pch_Idx (ch_pch ch)) 1)) →
  pch_Register tr p1 = (p2, err2) → info_of ch p2 i →
  Close ch =
    ([EvUpdateBy t; EvRegister tr], set_wasCloseInitiated true (set_pch p2 ch),
     Ret (i, (λ err, handleChRegisterError (ch_params ch)
                (ErrWithMessage "registering channel state" err)) <$> err2)).
Proof.
  intros Hl Ho t tr Hu Hp Hr Hi. destruct (UpdateBy_static _ _ _ _ _ Hu) as [_ Hidx].
  pose proof (finalize_run (set_locked true ch) p1 err1 Hu) as Hf.
  rewrite Hidx in Hf. specialize (Hf (λ _, Hp)).
  destruct ch as [p c s w n ca re l]. cbn in *. subst. unfold Close. run_entry.
  rewrite Hf. unfold register. run. fold t tr. rewrite Hr. run. rewrite Hi. run.
  by destruct err2.
Qed.

(** C21: Closing an open channel first asks the peer to finalize and registers the
    resulting state on the blockchain in every case, also when the peer refuses
    or does not answer; the state registered is final exactly when the peer
    agreed, and is otherwise the last agreed one.  The error returned is that of
    the registration. *)
Theorem Close_spec `{!UpdateByLaws} ch p1 err1 p2 err2 i
    (Hl : ch_locked ch = false) (Ho : ch_status ch = open) :
  let t := chUpdate (p_timeoutCfg (ch_params ch)) in
  let tr := Timeout.register (p_timeoutCfg (ch_params ch)) (p_challengeDurSecs (ch_params ch)) in
  ∀ (Hu : pch_UpdateBy t (λ st, Ret (set_IsFinal true st, None)) (ch_pch ch) = Ret (p1, err1))
    (Hp : is_Some (p_parts (ch_params ch) !! Z.to_nat (Z.lxor (pch_Idx (ch_pch ch)) 1)))
    (Hr : pch_Register tr p1 = (p2, err2)) (Hi : info_of ch p2 i),
  Close ch =
    ([EvUpdateBy t; EvRegister tr], set_wasCloseInitiated true (set_pch p2 ch),
     Ret (i, (λ err, handleChRegisterError (ch_params ch)
                (ErrWithMessage "registering channel state" err)) <$> err2)) ∧
  (err1 = None → pch_State p1 =
     set_Version (uint64 (st_Version (pch_State (ch_pch ch)) + 1))
       (set_IsFinal true (pch_State (ch_pch ch)))) ∧
  (is_Some err1 → pch_State p1 = pch_State (ch_pch ch)).
Proof.
  intros t tr Hu Hp Hr Hi. split_and!.
  - by apply (Close_run ch p1 err1 p2 err2 i).
  - intros ->. apply UpdateBy_ok in Hu as (s & [= <-] & ->). done.
  - intros [e ->]. by eapply UpdateBy_err.
Qed.

(** What the channel does when the blockchain reports [e] and settling yields [p1] and
    [err]. *)
Definition chain_reaction (e : AdjudicatorEvent) ch p1 err (i : ChInfo)
    : list (ChEvent Out) * Channel Out * outcome unit :=
  let ts := Timeout.settle (p_timeoutCfg (ch_params ch)) (p_challengeDurSecs (ch_params ch)) in
  let sec := negb (ch_wasCloseInitiated ch) in
  let final := st_IsFinal (pch_State (ch_pch ch)) in
  let apiErr := (λ err, handleChSettleError (ch_params ch)
                          (ErrWithMessage "settling channel" err)) <$> err in
  if match e with
     | RegisteredEvent _ => negb final | ConcludedEvent => final | OtherEvent => false
     end
  then ([EvSettle ts sec; EvClose] ++
          (match ch_chUpdateNotifier ch with
           | Some n => [EvNotify n (makeChCloseNotif i apiErr)] | None => [] end),
        set_notifier None (set_status closed (set_pch (pch_Close p1).1 ch)), Ret tt)
  else ([], ch, Ret tt).

Lemma HandleAdjudicatorEvent_run `{!CloseLaws} e ch p1 err i :
  ch_locked ch = false →
  let ts := Timeout.settle (p_timeoutCfg (ch_params ch)) (p_challengeDurSecs (ch_params ch)) in
  pch_Settle ts (negb (ch_wasCloseInitiated ch)) (ch_pch ch) = (p1, err) → info_of ch (pch_Close p1).1 i →
  HandleAdjudicatorEvent e ch = chain_reaction e ch p1 err i.
Proof.
  intros Hl ts Hs Hi. pose proof (Close_watch p1) as Hw. unfold chain_reaction.
  destruct ch as [p c s w n ca re l]. cbn in *. subst l.
  unfold HandleAdjudicatorEvent. rewrite with_lock_run by done. unfold info_of in *.
  destruct e; run; try destruct (st_IsFinal _); run; try done;
    unfold settle, closeAndNotify, close, getChInfo, unsubChUpdates; run; fold ts;
    rewrite Hs; run; destruct (pch_Close p1) as [p3 e3]; run; rewrite Hw; run;
    destruct n, err; run; rewrite ?Hi; by run.
Qed.

(** C20: When the blockchain reports a registered state that is not final, or the
    conclusion of a final one, the channel is settled -- with the node as the
    secondary party exactly if it did not initiate the closing -- and closed,
    and its subscriber, if any, gets one closing notification carrying the error
    of the settlement and is then removed; every other event changes nothing. *)
Theorem HandleAdjudicatorEvent_spec `{!CloseLaws} e ch p1 err i
    (Hl : ch_locked ch = false) :
  let ts := Timeout.settle (p_timeoutCfg (ch_params ch)) (p_challengeDurSecs (ch_params ch)) in
  ∀ (Hs : pch_Settle ts (negb (ch_wasCloseInitiated ch)) (ch_pch ch) = (p1, err))
    (Hi : info_of ch (pch_Close p1).1 i),
  HandleAdjudicatorEvent e ch = chain_reaction e ch p1 err i.
Proof. intros ts Hs Hi. by apply HandleAdjudicatorEvent_run. Qed.

Lemma SendChUpdate_run `{!UpdateByLaws} u ch p1 err
    (Hl : ch_locked ch = false) (Ho : ch_status ch = open) :
  let t := chUpdate (p_timeoutCfg (ch_params ch)) in
  ∀ (Hu : pch_UpdateBy t u (ch_pch ch) = Ret (p1, err))
    (Hp : is_Some (p_parts (ch_params ch) !! Z.to_nat (Z.lxor (pch_Idx (ch_pch ch)) 1))),
  (err = None →
    (∃ s, u (pch_State (ch_pch ch)) = Ret (s, None) ∧
          pch_State p1 = set_Version (uint64 (st_Version (pch_State (ch_pch ch)) + 1)) s) ∧
    ∀ i, info_of ch p1 i →
      SendChUpdate u ch = ([EvUpdateBy t], set_pch p1 ch, Ret (i, None))) ∧
  (is_Some err →
    pch_State p1 = pch_State (ch_pch ch) ∧
    ∃ e, SendChUpdate u ch = ([EvUpdateBy t], set_pch p1 ch, Ret (ChInfo_zero, Some e)) ∧
         errs_in [ErrPeerRequestTimedOut; ErrPeerRejected; ErrUnknownInternal] (Some e)).
Proof.
  intros t Hu [x Hx]. pose proof (UpdateBy_static _ _ _ _ _ Hu) as [_ Hidx].
  destruct ch as [p c s w n ca re l]. cbn in *. subst. split.
  - intros ->. split; [by eapply UpdateBy_ok|]. intros i Hi. unfold SendChUpdate. run_entry.
    fold t. rewrite Hu. run. rewrite Hi. by run.
  - intros [e ->]. split; [by eapply UpdateBy_err|]. unfold SendChUpdate. run_entry.
    fold t. rewrite Hu. run. unfold handleSendChUpdateError, go_index. cbn. rewrite Hidx, Hx. cbn.
    eexists. split; [done|]. match goal with |- context [handleProposalError ?a ?b ?c] =>
      pose proof (handleProposalError_codes a b c) as Hc; destruct (handleProposalError a b c) as [a'|] end;
      [apply (errs_in_mono _ _ (Some a') Hc); set_solver|]. errs_in_tac.
Qed.

(** Sending an update on an open channel: on success the channel is in the state
    the updater made of the last agreed one, with the next version, and that is
    what the user is told; on failure the state is unchanged, the user is told
    nothing but the error, and the error has one of the documented codes. *)
Theorem SendChUpdate_spec `{!UpdateByLaws} u ch p1 err
    (Hl : ch_locked ch = false) (Ho : ch_status ch = open) :
  let t := chUpdate (p_timeoutCfg (ch_params ch)) in
  ∀ (Hu : pch_UpdateBy t u (ch_pch ch) = Ret (p1, err))
    (Hp : is_Some (p_parts (ch_params ch) !! Z.to_nat (Z.lxor (pch_Idx (ch_pch ch)) 1))),
  (err = None →
    (∃ s, u (pch_State (ch_pch ch)) = Ret (s, None) ∧
          pch_State p1 = set_Version (uint64 (st_Version (pch_State (ch_pch ch)) + 1)) s) ∧
    ∀ i, info_of ch p1 i →
      SendChUpdate u ch = ([EvUpdateBy t], set_pch p1 ch, Ret (i, None))) ∧
  (is_Some err →
    pch_State p1 = pch_State (ch_pch ch) ∧
    ∃ e, SendChUpdate u ch = ([EvUpdateBy t], set_pch p1 ch, Ret (ChInfo_zero, Some e)) ∧
         errs_in [ErrPeerRequestTimedOut; ErrPeerRejected; ErrUnknownInternal] (Some e)).
Proof. by apply SendChUpdate_run. Qed.

(** A notification sent while a subscription exists reads the notifier only when
    its goroutine runs: if the user unsubscribes (or the channel closes) in
    between, the goroutine calls a nil function and the node crashes. *)
Theorem late_notification_panics ch n c pr r now notif
    (Hl : ch_locked ch = false) (Ho : ch_status ch = open)
    (Hn : ch_chUpdateNotifier ch = Some n)
    (Hu : update_notif (ch_params ch) c pr now = Ret notif) :
  ∃ ch1 ch2, ch_step (OpHandleUpdate c pr r now) ch [EvGoLater notif] ch1 ∧
    ch_step OpUnsubChUpdates ch1 [] ch2 ∧
    value (run_op (OpRunNotify notif) ch1) = Ret tt ∧
    value (run_op (OpRunNotify notif) ch2) = Panic "nil pointer dereference".
Proof.
  destruct ch as [p pc s w no ca re l]. cbn in *. subst.
  assert (∃ ch1, HandleUpdate c pr r now (mkChannel p pc open w (Some n) ca re false) =
            ([EvGoLater notif], ch1, Ret tt) ∧ ch_locked ch1 = false ∧ ch_status ch1 = open ∧
            ch_chUpdateNotifier ch1 = Some n) as (ch1 & H1 & H2 & H3 & H4).
  { unfold HandleUpdate, sendChUpdateNotif. run_entry. rewrite Hu. run.
    destruct (_ =? 0); run; eexists; by split_and!. }
  exists ch1, (set_notifier None ch1). destruct ch1 as [p1 pc1 s1 w1 no1 ca1 re1 l1]. cbn in *. subst.
  split_and!; [by constructor| |done|done]. constructor. cbn. unfold UnsubChUpdates, unsubChUpdates.
  unfold mbind at 1, prog_mbind. rewrite with_lock_run by done. by run.
Qed.
End channel_props.
