(* ===== verification/User.v ===== *)
(** * Session configuration and users (session/config.go, session/user.go) *)
From S2P Require Import Prelude Perun Errors.

Section user.
Context {GT : GoTypes}.

Record WalletConfig := mkWalletConfig { KeystorePath : string; Password : string }.

Record UserConfig := mkUserConfig {
  uc_Alias : string;
  uc_OnChainAddr : string;
  uc_OnChainWallet : WalletConfig;
  uc_PartAddrs : list string;
  uc_OffChainAddr : string;
  uc_OffChainWallet : WalletConfig;
  uc_CommAddr : string;
  uc_CommType : string;
}.

Record Config := mkConfig {
  cfg_User : UserConfig;
  cfg_IDProviderType : string;
  cfg_IDProviderURL : string;
  cfg_ChainURL : string;
  cfg_ChainID : Z;
  cfg_ChainConnTimeout : Z;
  cfg_OnChainTxTimeout : Z;
  cfg_ResponseTimeout : Z;
  cfg_DatabaseDir : string;
  cfg_PeerReconnTimeout : Z;
  cfg_AssetETH : option address;
  cfg_Adjudicator : option address;
}.

Record User := mkUser {
  u_PeerID : PeerID;
  u_OnChain : Credential;
  u_OffChain : Credential;
  u_PartAddrs : list address;
}.

Definition newCred (wb : WalletBackend) (cfg : WalletConfig) (addr : address)
    : Credential + goerror :=
  match wb_NewWallet wb (KeystorePath cfg) (Password cfg) with
  | inr err => inr err
  | inl w =>
      match wb_UnlockAccount wb w addr with
      | Some err => inr err
      | None => inl (mkCredential addr w (KeystorePath cfg) (Password cfg))
      end
  end.

Definition wallet_value (cfg : WalletConfig) : string :=
  KeystorePath cfg +:+ ", " +:+ Password cfg.

Definition NewUnlockedUser (wb : WalletBackend) (cfg : UserConfig) : User + APIError :=
  match wb_ParseAddr wb (uc_OnChainAddr cfg) with
  | inr err => inr (NewAPIErrInvalidConfig err "onChainAddr" (uc_OnChainAddr cfg))
  | inl onChainAddr =>
  match wb_ParseAddr wb (uc_OffChainAddr cfg) with
  | inr err => inr (NewAPIErrInvalidConfig err "offChainAddr" (uc_OffChainAddr cfg))
  | inl offChainAddr =>
  match newCred wb (uc_OnChainWallet cfg) onChainAddr with
  | inr err => inr (NewAPIErrInvalidConfig err "onChainWallet" (wallet_value (uc_OnChainWallet cfg)))
  | inl onChain =>
  match newCred wb (uc_OffChainWallet cfg) offChainAddr with
  | inr err => inr (NewAPIErrInvalidConfig err "offChainWallet" (wallet_value (uc_OffChainWallet cfg)))
  | inl offChain =>
      inl (mkUser (mkPeerID OwnAlias (Some (cred_Addr offChain)) (addr_String (cred_Addr offChain))
                     (uc_CommAddr cfg) (uc_CommType cfg))
             onChain offChain [])
  end end end end.

Lemma newCred_ok wb cfg addr c :
  newCred wb cfg addr = inl c ↔
  ∃ w, wb_NewWallet wb (KeystorePath cfg) (Password cfg) = inl w ∧
       wb_UnlockAccount wb w addr = None ∧
       c = mkCredential addr w (KeystorePath cfg) (Password cfg).
Proof. unfold newCred. split; [intros; split_cases; eauto|by intros (w & -> & -> & ->)]. Qed.

(** A user is created exactly when both addresses parse and both wallets open
    and unlock; the user then names itself "self", holds the two accounts it was
    configured with, and publishes the off-chain one.  Every failure is an
    invalid-configuration error. *)
Lemma NewUnlockedUser_spec wb cfg :
  match NewUnlockedUser wb cfg with
  | inl u =>
      ∃ on off, wb_ParseAddr wb (uc_OnChainAddr cfg) = inl on ∧
        wb_ParseAddr wb (uc_OffChainAddr cfg) = inl off ∧
        newCred wb (uc_OnChainWallet cfg) on = inl (u_OnChain u) ∧
        newCred wb (uc_OffChainWallet cfg) off = inl (u_OffChain u) ∧
        pid_Alias (u_PeerID u) = OwnAlias ∧ pid_OffChainAddr (u_PeerID u) = Some off ∧
        pid_OffChainAddrString (u_PeerID u) = addr_String off
  | inr e => errs_in [ErrInvalidConfig] (Some e)
  end.
Proof.
  unfold NewUnlockedUser.
  destruct (wb_ParseAddr wb (uc_OnChainAddr cfg)) as [on|] eqn:E1; [|errs_in_tac].
  destruct (wb_ParseAddr wb (uc_OffChainAddr cfg)) as [off|] eqn:E2; [|errs_in_tac].
  destruct (newCred wb (uc_OnChainWallet cfg) on) as [c1|] eqn:E3; [|errs_in_tac].
  destruct (newCred wb (uc_OffChainWallet cfg) off) as [c2|] eqn:E4; [|errs_in_tac].
  exists on, off. cbn. split_and!; try done.
  - apply newCred_ok in E4 as (w & _ & _ & ->). done.
  - apply newCred_ok in E4 as (w & _ & _ & ->). done.
Qed.
End user.
