(* ===== verification/TestConfig.v ===== *)
(** * Configurations for demos and tests (ethereumtest, idprovidertest, sessiontest, nodetest)

    Wallets with fresh accounts, ID providers, configurations of sessions and of the
    node, and the files they are written to.  The variants for tests register the
    removal of what they create; [testing.T] is the list of these removals and the
    failure of the test.  Random numbers and the addresses of contracts come from
    the libraries ([TestLib]). *)
From S2P Require Import Prelude Perun Contracts Os User.
Local Open Scope Z_scope.

(** [rng] is a [rand.Rand]; using it yields its next state.  [CreateAddress a n] is
    the address of the contract [a] deploys with its n-th transaction. *)
Class TestLib `{EthLib} := {
  rng : Type;
  rand_New : Z → rng;
  lib_NewRandomAccount : rng → address * rng;
  lib_RandAddress : rng → address * rng;
  lib_CreateAddress : address → Z → address;
  lib_as_wallet : kswallet → wallet;
}.

(** What the YAML files of the program hold. *)
Inductive Yaml `{GoTypes} :=
| YNodeConfig (cfg : NodeConfig)
| YSessionConfig (cfg : Config)
| YPeerIDs (peers : gmap string PeerID).

Section testconfig.
Context {GT : GoTypes} {EL : EthLib} {EN : Env} {TL : TestLib}.
Local Abbreviation osprog := (osprog Yaml).

(** ** Wallets (ethereumtest/wallet.go, chain.go) *)
Definition RandSeedForTestAccs : Z := 1729.
Definition Minute : Z := 60000000000.
Definition OnChainTxTimeout : Z := Minute.
Definition ChainURL : string := "ws://127.0.0.1:8545".
Definition ChainConnTimeout : Z := 10 * 1000000000.
Definition ChainID : Z := 1337.

Definition NewTestWalletBackend : WalletBackend :=
  mkWalletBackend ParseAddr (NewWallet WeakScrypt) UnlockAccount.

(** The key store of a setup is the one opened at its path. *)
Record WalletSetup := mkWalletSetup {
  ws_WalletBackend : WalletBackend;
  ws_KeystorePath : string;
  ws_Wallet : wallet;
  ws_Accs : list address;
}.

Fixpoint newAccounts (ksPath : string) (n : nat) (r : rng) : osprog (list address * rng) :=
  match n with
  | O => mret ([], r)
  | S n =>
      let '(a, r) := lib_NewRandomAccount r in
      add_key ksPath a;;
      x ← newAccounts ksPath n r;
      mret (a :: x.1, x.2)
  end.

Definition NewWalletSetup (r : rng) (n : nat) : osprog ((WalletSetup + goerror) * rng) :=
  ksPath ← TempDir "perun-node-test-keystore-*";
  match ksPath with
  | inr err => mret (inr (ErrWithMessage "creating temp directory for keystore" err), r)
  | inl ksPath =>
      let ks := lib_NewKeyStore ksPath in
      match lib_NewKsWallet ks "" with
      | inr err => RemoveAll ksPath;; mret (inr (ErrWithMessage "creating creating wallet" err), r)
      | inl w =>
          x ← newAccounts ksPath n r;
          mret (inl (mkWalletSetup NewTestWalletBackend ksPath (lib_as_wallet w) x.1), x.2)
      end
  end.

Definition NewRandomAddress (r : rng) : address * rng := lib_RandAddress r.

(** ** Addresses of the contracts (ethereumtest/setupcontracts.go)

    The wallet is set up with a new generator, so its accounts are always the same. *)
Definition ContractAddrs : osprog (address * address * list (address * address)) :=
  x ← NewWalletSetup (rand_New RandSeedForTestAccs) 2;
  match x.1 with
  | inr _ => panic "Cannot setup test wallet"
  | inl ws =>
      acc ← lift (go_index (ws_Accs ws) 0);
      mret (lib_CreateAddress acc 0, lib_CreateAddress acc 1,
            [(lib_CreateAddress acc 2, lib_CreateAddress acc 3)])
  end.

(** ** ID providers (idprovidertest/idprovider.go) *)

(** The address value is not written, only its string. *)
Definition yaml_PeerID (p : PeerID) : PeerID :=
  mkPeerID (pid_Alias p) None (pid_OffChainAddrString p) (pid_CommAddr p) (pid_CommType p).

(** Encodes into the temporary file and closes the encoder and the file; an
    unusable file is removed. *)
Definition write_yaml (name : string) (y : Yaml) (encoding : string) : osprog (string + goerror) :=
  err ← Encode name y;
  match err with
  | Some err =>
      _ ← syscall (* tempFile.Close *); Remove name;; mret (inr (ErrWithMessage encoding err))
  | None =>
      err ← syscall (* encoder.Close *);
      match err with
      | Some err =>
          _ ← syscall; Remove name;; mret (inr (ErrWithMessage "closing encoder" err))
      | None =>
          err ← syscall;
          mret (match err with Some err => inr err | None => inl name end)
      end
  end.

Definition NewIDProvider (peerIDs : list PeerID) : osprog (string + goerror) :=
  tempFile ← TempFile "";
  match tempFile with
  | inr err => mret (inr (ErrWithMessage "creating temp file for local idProvider" err))
  | inl name =>
      let idProvider := foldl (λ m peer, <[pid_Alias peer := yaml_PeerID peer]> m) ∅ peerIDs in
      write_yaml name (YPeerIDs idProvider) "encoding idProvider"
  end.

(** ** Sessions (sessiontest/config.go) *)
Definition PeerReconnTimeout : Z := 20 * 1000000000.
Definition ResponseTimeout : Z := 10 * 1000000000.

(** The addresses set by the node are not written. *)
Definition yaml_Config (c : Config) : Config :=
  mkConfig (cfg_User c) (cfg_IDProviderType c) (cfg_IDProviderURL c) (cfg_ChainURL c) (cfg_ChainID c)
    (cfg_ChainConnTimeout c) (cfg_OnChainTxTimeout c) (cfg_ResponseTimeout c) (cfg_DatabaseDir c)
    (cfg_PeerReconnTimeout c) None None.

Definition NewConfigFile (config : Yaml) : osprog (string + goerror) :=
  tempFile ← TempFile "*.yaml";
  match tempFile with
  | inr err => mret (inr (ErrWithMessage "creating temp file for config" err))
  | inl name => write_yaml name config "encoding config"
  end.

Definition newDatabaseDir : osprog (string + goerror) :=
  databaseDir ← TempDir "";
  mret (match databaseDir with
        | inr err => inr (ErrWithMessage "creating temp directory for database" err)
        | inl d => inl d
        end).

(** [freeport.GetFreePort] *)
Definition GetFreePort : osprog (Z + goerror) :=
  w ← get_state; err ← syscall;
  mret (match err with Some err => inr err | None => inl (env_port (w_calls w)) end).

(** The loop over the participants reads the accounts from the first one on. *)
Definition newUserConfig (r : rng) (n : nat)
    : osprog ((WalletSetup * UserConfig + goerror) * rng) :=
  x ← NewWalletSetup r (2 + n);
  match x with
  | (inr err, r) => mret (inr (ErrWithMessage "new wallet setup" err), r)
  | (inl ws, r) =>
      port ← GetFreePort;
      match port with
      | inr err => mret (inr (ErrWithMessage "acquiring free port" err), r)
      | inl port =>
          onChain ← lift (go_index (ws_Accs ws) 0);
          offChain ← lift (go_index (ws_Accs ws) 1);
          parts ← lift (go_map (λ i, a ← go_index (ws_Accs ws) i; Ret (addr_String a)) (seq 0 n));
          let wallet := mkWalletConfig (ws_KeystorePath ws) "" in
          mret (inl (ws, mkUserConfig "test-user" (addr_String onChain) wallet parts
                           (addr_String offChain) wallet ("127.0.0.1:" +:+ pretty port) "tcp"), r)
      end
  end.

(** The wallet setup is nil when an error is returned. *)
Definition NewUserConfig (r : rng) (n : nat)
    : osprog (WalletBackend * (UserConfig + goerror) * rng) :=
  x ← newUserConfig r (2 + n);
  match x with
  | (inr _, _) => panic "nil pointer dereference"
  | (inl (ws, cfg), r) => mret (ws_WalletBackend ws, inl cfg, r)
  end.

Definition NewConfig (r : rng) (peerIDs : list PeerID) : osprog ((Config + goerror) * rng) :=
  x ← newUserConfig r 0;
  match x with
  | (inr err, r) => mret (inr (ErrWithMessage "new user config" err), r)
  | (inl (_, userCfg), r) =>
      addrs ← ContractAddrs;
      let '(adjudicator, assetETH, _) := addrs in
      databaseDir ← newDatabaseDir;
      match databaseDir with
      | inr err => mret (inr err, r)
      | inl databaseDir =>
          idProviderURL ← NewIDProvider peerIDs;
          match idProviderURL with
          | inr err => mret (inr err, r)
          | inl idProviderURL =>
              mret (inl (mkConfig userCfg "local" idProviderURL ChainURL ChainID ChainConnTimeout
                           OnChainTxTimeout ResponseTimeout databaseDir PeerReconnTimeout
                           (Some assetETH) (Some adjudicator)), r)
          end
      end
  end.

(** ** The node (nodetest/config.go) *)
Definition newNodeConfig (incERC20Assets : bool) : osprog NodeConfig :=
  addrs ← ContractAddrs;
  let '(adjudicator, assetETH, assetERC20s) := addrs in
  let assetERC20sString :=
    if incERC20Assets then (λ p : address * address, (addr_String p.1, addr_String p.2)) <$> assetERC20s
    else [] in
  mret (mkNodeConfig "debug" "" ChainURL ChainID (addr_String adjudicator) (addr_String assetETH)
          assetERC20sString ChainConnTimeout OnChainTxTimeout ResponseTimeout ["tcp"] ["local"] ["ETH"]).

(** ** Under a test

    [testing.T]: a clean-up is what it removes; the clean-ups run from the last to the
    first.  [FailNow] ends the goroutine of the test: the result is [None]. *)
Inductive removal :=
| RmAll (path msg : string)
| Rm (path msg : string).

Record testing := mkTesting {
  te_world : world Yaml;
  te_cleanups : list (list removal);
  te_log : list string;
  te_failed : bool;
}.

Definition testprog (A : Type) : Type := prog testing OEvent A.

Definition set_world (w : world Yaml) (t : testing) : testing :=
  mkTesting w (te_cleanups t) (te_log t) (te_failed t).
Definition os {A} (m : osprog A) : testprog A := zoom (λ t, Ret (te_world t)) set_world id m.
Definition Cleanup (c : list removal) : testprog unit :=
  modify (λ t, mkTesting (te_world t) (c :: te_cleanups t) (te_log t) (te_failed t)).
Definition Log (msg : string) : testprog unit :=
  modify (λ t, mkTesting (te_world t) (te_cleanups t) (te_log t ++ [msg]) (te_failed t)).
Definition FailNow {A} : testprog (option A) :=
  modify (λ t, mkTesting (te_world t) (te_cleanups t) (te_log t) true);; mret None.

Definition run_removal (x : removal) : testprog unit :=
  match x with
  | RmAll path msg =>
      err ← os (RemoveAll path); match err with Some _ => Log msg | None => mret tt end
  | Rm path msg => err ← os (Remove path); match err with Some _ => Log msg | None => mret tt end
  end.
Fixpoint run_removals (l : list removal) : testprog unit :=
  match l with [] => mret tt | x :: l => run_removal x;; run_removals l end.
(** The end of the test. *)
Definition run_cleanups : testprog unit := t ← get_state; run_removals (concat (te_cleanups t)).

(** [require.NoError] *)
Definition no_error {A B} (r : A + goerror) (k : A → testprog (option B)) : testprog (option B) :=
  match r with inr _ => FailNow | inl a => k a end.

Definition NewWalletSetupT (r : rng) (n : nat) : testprog (option (WalletSetup * rng)) :=
  x ← os (NewWalletSetup r n);
  no_error x.1 (λ ws,
    Cleanup [RmAll (ws_KeystorePath ws) "error in cleanup - "];; mret (Some (ws, x.2))).

Definition NewIDProviderT (peerIDs : list PeerID) : testprog (option string) :=
  x ← os (NewIDProvider peerIDs);
  no_error x (λ file,
    Cleanup [Rm file ("Error in test cleanup: removing file - " +:+ file)];; mret (Some file)).

Definition NewConfigFileT (config : Config) : testprog (option string) :=
  x ← os (NewConfigFile (YSessionConfig (yaml_Config config)));
  no_error x (λ file,
    Cleanup [Rm file ("Error in test cleanup: removing file - " +:+ file)];; mret (Some file)).

Definition NewUserConfigT (r : rng) (n : nat)
    : testprog (option (WalletBackend * UserConfig * rng)) :=
  x ← os (NewUserConfig r n);
  let '(wb, cfg, r) := x in
  no_error cfg (λ cfg,
    Cleanup [RmAll (KeystorePath (uc_OnChainWallet cfg)) "error in cleanup - "];;
    mret (Some (wb, cfg, r))).

Definition NewConfigT (r : rng) (peerIDs : list PeerID) : testprog (option (Config * rng)) :=
  x ← os (NewConfig r peerIDs);
  no_error x.1 (λ cfg,
    let keystore := KeystorePath (uc_OnChainWallet (cfg_User cfg)) in
    Cleanup [RmAll (cfg_DatabaseDir cfg)
               ("Error in test cleanup: removing directory - " +:+ cfg_DatabaseDir cfg);
             RmAll keystore ("Error in test cleanup: removing directory - " +:+ keystore);
             Rm (cfg_IDProviderURL cfg)
               ("Error in test cleanup: removing file - " +:+ cfg_IDProviderURL cfg)];;
    mret (Some (cfg, x.2))).
End testconfig.
