(* ===== verification/TestConfigProps.v ===== *)
(** * What the configurations for demos and tests leave behind

    Every step is stated with [wpe]: what is created, and that an error or a panic
    needs a failing call.  Then the clean-up of a test. *)
From S2P Require Import Prelude Perun Contracts Os User TestConfig.
Local Open Scope Z_scope.

Section testconfig_props.
Context {GT : GoTypes} {EL : EthLib} {EN : Env} {TL : TestLib} {ENL : EnvLaws}.
Implicit Types (w : world Yaml).

(** Nothing goes wrong in the system or with the wallets. *)
Definition ok_env : Prop :=
  no_faults ∧ ∀ path, ∃ wl, lib_NewKsWallet (lib_NewKeyStore path) "" = inl wl.

(** ** Wallets *)
Fixpoint accounts (n : nat) (r : rng) : list address * rng :=
  match n with
  | O => ([], r)
  | S n => let '(a, r) := lib_NewRandomAccount r in (a :: (accounts n r).1, (accounts n r).2)
  end.

Lemma newAccounts_run ks n r w keys :
  w_files w !! ks = Some (Dir keys) →
  newAccounts ks n r w =
    ([], set_files (<[ks := Dir (keys ++ (accounts n r).1)]> (w_files w)) w, Ret (accounts n r)).
Proof.
  revert r w keys. induction n as [|n IH]; intros r w keys Hk; cbn.
  { rewrite app_nil_r, insert_id by done. by destruct w. }
  destruct (lib_NewRandomAccount r) as [a r']. unfold mbind, prog_mbind, add_key, modify. cbn.
  rewrite (IH r' _ (keys ++ [a])) by (cbn; by rewrite lookup_alter_eq, Hk). cbn.
  f_equal. f_equal. unfold set_files. cbn. f_equal.
  rewrite <-app_assoc. cbn. apply map_eq. intros p. destruct (decide (p = ks)) as [->|Hne].
  - by rewrite !lookup_insert_eq.
  - by rewrite !lookup_insert_ne, lookup_alter_ne by done.
Qed.

Lemma wpe_NewWalletSetup P r n w Q :
  (∀ e w', ¬ ok_env → w_files w ⊆ w_files w' → Q [] w' (inr e, r)) →
  (∀ ks wl w', makes w w' [ks] → w_files w' = <[ks := Dir (accounts n r).1]> (w_files w) →
     Q [] w' (inl (mkWalletSetup NewTestWalletBackend ks wl (accounts n r).1), (accounts n r).2)) →
  wpe P (NewWalletSetup r n) w Q.
Proof.
  intros He Ho. apply wpe_bind, wpe_TempDir.
  - intros e w' Hf Hw. wpe_steps. apply He; [by intros [? _]|by rewrite Hw].
  - intros ks w' Hm Hw. cbn [app]. destruct (lib_NewKsWallet _ _) as [wl|err] eqn:Hk.
    + apply wpe_bind. unfold wpe at 1. rewrite (newAccounts_run ks n r w' []) by by rewrite Hw, lookup_insert_eq.
      wpe_steps. destruct Hm as [K D N O].
      assert (Hn : w_files w !! ks = None) by (apply N; by left).
      assert (Hp : String.prefix "/" ks = true) by (apply (N ks); by left).
      apply Ho; cbn; rewrite Hw, insert_insert_eq; [|done]. by eapply makes_insert.
    + apply wpe_bind, wpe_RemoveAll. intros err' w'' Hd _. wpe_steps. apply He.
      * intros [_ Hok]. destruct (Hok ks) as [? ?]. congruence.
      * destruct Hm as [K D N O]. assert (Hn : w_files w !! ks = None) by (apply N; by left).
        destruct Hd as [->| ->]; [done|]. rewrite Hw, delete_insert_id; done.
Qed.

(** ** Contracts *)
Definition deployer : address := (lib_NewRandomAccount (rand_New RandSeedForTestAccs)).1.
Definition contract (n : Z) : address := lib_CreateAddress deployer n.

Lemma accounts_deployer n : ∃ l, (accounts (S n) (rand_New RandSeedForTestAccs)).1 = deployer :: l.
Proof. cbn. unfold deployer. destruct (lib_NewRandomAccount _) as [a r]. by eexists. Qed.

Lemma wpe_ContractAddrs P w Q :
  (¬ ok_env → P) →
  (∀ ks keys w', makes w w' [ks] → w_files w' = <[ks := Dir keys]> (w_files w) →
     Q [] w' (contract 0, contract 1, [(contract 2, contract 3)])) →
  wpe P ContractAddrs w Q.
Proof.
  intros HP Ho. apply wpe_bind, wpe_NewWalletSetup.
  - intros e w' Hne _. cbn. by apply HP.
  - intros ks wl w' Hm Hw. cbn [fst ws_Accs]. destruct (accounts_deployer 1) as [l Hl].
    rewrite Hl. cbn. by eapply Ho.
Qed.

(** ** Files *)
Lemma delete_below_insert {A} (m : gmap string A) k x : delete k m ⊆ <[k := x]> m.
Proof. rewrite <-(delete_insert_eq m k x). apply delete_subseteq. Qed.

Lemma wpe_write_yaml P name y enc w Q :
  (∀ e w', ¬ no_faults → delete name (w_files w) ⊆ w_files w' →
     (∀ q, q ≠ name → w_files w' !! q = w_files w !! q) → Q [] w' (inr e)) →
  (∀ w', w_files w' = <[name := File (Some y)]> (w_files w) → Q [] w' (inl name)) →
  wpe P (write_yaml name y enc) w Q.
Proof.
  intros He Ho. apply wpe_bind, wpe_Encode.
  - intros e w1 Hf Hw. cbn [app]. apply wpe_bind, wpe_syscall. intros _ _. apply wpe_bind, wpe_Remove.
    intros err w2 Hd _. wpe_steps. cbn in Hd. rewrite Hw in Hd. apply He; [done|..].
    + destruct Hd as [->| ->]; [apply delete_subseteq|done].
    + intros q Hq. destruct Hd as [->| ->]; [done|by rewrite lookup_delete_ne].
  - intros w1 Hw. cbn [app]. apply wpe_bind, wpe_syscall. intros [e|] Hf1; cbn [app].
    + apply wpe_bind, wpe_syscall. intros _ _. apply wpe_bind, wpe_Remove.
      intros err w2 Hd _. wpe_steps. cbn in Hd. rewrite Hw in Hd. apply He; [by intros H%Hf1|..].
      * destruct Hd as [->| ->]; [apply delete_below_insert|by rewrite delete_insert_eq].
      * intros q Hq. destruct Hd as [->| ->]; by rewrite ?lookup_delete_ne, lookup_insert_ne.
    + apply wpe_bind, wpe_syscall. intros [e|] Hf2; wpe_steps; [|by apply Ho].
      apply He; cbn; rewrite ?Hw; [by intros H%Hf2|apply delete_below_insert|].
      intros q Hq. by rewrite lookup_insert_ne.
Qed.

(** A temporary file with [y]. *)
Lemma wpe_temp_yaml P pat y enc msg w Q :
  (∀ e w', ¬ no_faults → w_files w ⊆ w_files w' →
     (∀ q, String.prefix "/" q = false → w_files w' !! q = w_files w !! q) → Q [] w' (inr e)) →
  (∀ n w', makes w w' [n] → w_files w' = <[n := File (Some y)]> (w_files w) → Q [] w' (inl n)) →
  wpe P (x ← TempFile pat;
         match x with
         | inr err => mret (inr (ErrWithMessage msg err))
         | inl name => write_yaml name y enc
         end) w Q.
Proof.
  intros He Ho. apply wpe_bind, wpe_TempFile.
  - intros e w' Hf Hw. wpe_steps. by apply He; rewrite ?Hw.
  - intros n w1 [K D N O] Hw. cbn [app]. destruct (N n) as (Hn & _ & Hp); [by left|]. apply wpe_write_yaml.
    + intros e w2 Hf Hd Hs. apply He; [done|by rewrite Hw, delete_insert_id in Hd|].
      intros q Hq. assert (q ≠ n) by congruence. by rewrite Hs, Hw, lookup_insert_ne.
    + intros w2 Hw2. rewrite Hw, insert_insert_eq in Hw2. apply Ho; [by eapply makes_insert|done].
Qed.

Lemma wpe_NewConfigFile P y w Q :
  (∀ e w', ¬ no_faults → w_files w ⊆ w_files w' →
     (∀ q, String.prefix "/" q = false → w_files w' !! q = w_files w !! q) → Q [] w' (inr e)) →
  (∀ n w', makes w w' [n] → w_files w' = <[n := File (Some y)]> (w_files w) → Q [] w' (inl n)) →
  wpe P (NewConfigFile y) w Q.
Proof. intros. by apply wpe_temp_yaml. Qed.

Definition peers_map (peerIDs : list PeerID) : gmap string PeerID :=
  foldl (λ m peer, <[pid_Alias peer := yaml_PeerID peer]> m) ∅ peerIDs.

Lemma wpe_NewIDProvider P peerIDs w Q :
  (∀ e w', ¬ no_faults → w_files w ⊆ w_files w' → Q [] w' (inr e)) →
  (∀ n w', makes w w' [n] → w_files w' = <[n := File (Some (YPeerIDs (peers_map peerIDs)))]> (w_files w) →
     Q [] w' (inl n)) →
  wpe P (NewIDProvider peerIDs) w Q.
Proof. intros He Ho. apply wpe_temp_yaml; [intros; by apply He|done]. Qed.

Lemma wpe_newDatabaseDir P w Q :
  (∀ e w', ¬ no_faults → w_files w ⊆ w_files w' → Q [] w' (inr e)) →
  (∀ n w', makes w w' [n] → w_files w' = <[n := Dir []]> (w_files w) → Q [] w' (inl n)) →
  wpe P newDatabaseDir w Q.
Proof.
  intros He Ho. apply wpe_bind, wpe_TempDir.
  - intros e w' Hf Hw. wpe_steps. apply He; [done|by rewrite Hw].
  - intros n w' Hm Hw. wpe_steps. by apply Ho.
Qed.

(** ** Configurations *)

(** The user whose accounts are [accs], with [n] participants. *)
Definition user_config (ks : string) (port : Z) (accs : list address) (n : nat) : UserConfig :=
  mkUserConfig "test-user" (default "" (addr_String <$> accs !! 0%nat)) (mkWalletConfig ks "")
    (addr_String <$> take n accs) (default "" (addr_String <$> accs !! 1%nat)) (mkWalletConfig ks "")
    ("127.0.0.1:" +:+ pretty port) "tcp".

Lemma go_map_take {A B} (f : A → B) (l : list A) n :
  (n ≤ length l)%nat → go_map (λ i, a ← go_index l i; Ret (f a)) (seq 0 n) = Ret (f <$> take n l).
Proof.
  assert (∀ k n, (k + n ≤ length l)%nat →
    go_map (λ i, a ← go_index l i; Ret (f a)) (seq k n) = Ret (f <$> take n (drop k l))) as H.
  { intros k m. revert k. induction m as [|m IH]; intros k Hk; [done|].
    destruct (lookup_lt_is_Some_2 l k) as [x Hx]; [lia|].
    assert (go_index l k = Ret x) as E by (unfold go_index; by rewrite Hx).
    cbn [seq go_map]. rewrite E. cbn. rewrite IH by lia. cbn.
    by rewrite (drop_S _ _ _ Hx). }
  intros Hn. by apply (H 0%nat).
Qed.

Lemma length_accounts n r : length (accounts n r).1 = n.
Proof.
  revert r. induction n as [|n IH]; intros r; [done|]. cbn. destruct (lib_NewRandomAccount r). cbn. by rewrite IH.
Qed.

Lemma wpe_newUserConfig P r n w Q :
  (∀ e w' r', ¬ ok_env → w_files w ⊆ w_files w' → Q [] w' (inr e, r')) →
  (∀ ks ws port w', makes w w' [ks] → w_files w' = <[ks := Dir (accounts (2 + n) r).1]> (w_files w) →
     Q [] w' (inl (ws, user_config ks port (accounts (2 + n) r).1 n), (accounts (2 + n) r).2)) →
  wpe P (newUserConfig r n) w Q.
Proof.
  intros He Ho. apply wpe_bind, wpe_NewWalletSetup.
  - intros e w' Hne Hw. wpe_steps. by apply He.
  - intros ks wl w' Hm Hw. cbn [app]. apply wpe_bind. unfold GetFreePort.
    apply wpe_bind. wpe_steps. apply wpe_bind, wpe_syscall. intros [e|] Hf; wpe_steps.
    + apply He; [intros [Hnf _]; by apply Hf in Hnf|]. by apply Hm.
    + pose proof (length_accounts (2 + n) r) as Hlen. cbn [ws_Accs ws_KeystorePath].
      set (accs := accounts (2 + n) r) in *.
      destruct (lookup_lt_is_Some_2 accs.1 0) as [a0 H0]; [lia|].
      destruct (lookup_lt_is_Some_2 accs.1 1) as [a1 H1]; [lia|].
      unfold go_index at 1. rewrite H0. wpe_steps. unfold go_index at 1. rewrite H1. wpe_steps.
      rewrite go_map_take by lia. wpe_steps.
      specialize (Ho ks (mkWalletSetup NewTestWalletBackend ks wl accs.1) (env_port (w_calls w')) (tick w')).
      unfold user_config in Ho. rewrite H0, H1 in Ho. apply Ho; [|done].
      by destruct Hm.
Qed.

Definition session_config (userCfg : UserConfig) (db idp : string) : Config :=
  mkConfig userCfg "local" idp ChainURL ChainID ChainConnTimeout OnChainTxTimeout ResponseTimeout db
    PeerReconnTimeout (Some (contract 1)) (Some (contract 0)).

Lemma wpe_NewConfig P r peerIDs w Q :
  (¬ ok_env → P) →
  (∀ e w' r', ¬ ok_env → w_files w ⊆ w_files w' → Q [] w' (inr e, r')) →
  (∀ ks port ca keys db idp w', makes w w' [ks; ca; db; idp] →
     w_files w' = <[idp := File (Some (YPeerIDs (peers_map peerIDs)))]> (<[db := Dir []]>
       (<[ca := Dir keys]> (<[ks := Dir (accounts 2 r).1]> (w_files w)))) →
     Q [] w' (inl (session_config (user_config ks port (accounts 2 r).1 0) db idp), (accounts 2 r).2)) →
  wpe P (NewConfig r peerIDs) w Q.
Proof.
  intros HP He Ho. apply wpe_bind, wpe_newUserConfig.
  { intros e w' r' Hne Hw. wpe_steps. by apply He. }
  intros ks ws port w1 M1 F1. cbn [app]. apply wpe_bind, wpe_ContractAddrs; [done|].
  intros ca keys w2 M2 F2. cbn [app]. pose proof (makes_app _ _ _ _ _ M1 M2) as M12.
  apply wpe_bind, wpe_newDatabaseDir.
  { intros e w3 Hne Hw. wpe_steps. apply He; [by intros [? _]|]. etrans; [apply M12|done]. }
  intros db w3 M3 F3. cbn [app]. pose proof (makes_app _ _ _ _ _ M12 M3) as M13.
  apply wpe_bind, wpe_NewIDProvider.
  { intros e w4 Hne Hw. wpe_steps. apply He; [by intros [? _]|]. etrans; [apply M13|done]. }
  intros idp w4 M4 F4. wpe_steps. pose proof (makes_app _ _ _ _ _ M13 M4) as M14.
  eapply Ho; [exact M14|]. by rewrite F4, F3, F2, F1.
Qed.

(** ** Under a test *)
Lemma wpe_os {A} P (m : osprog Yaml A) t Q :
  wpe P m (te_world t) (λ es w x, Q es (set_world w t) x) → wpe P (os m) t Q.
Proof.
  intros H. eapply wpe_zoom; [done|]. eapply wpe_mono; [exact H|].
  intros es w x. by rewrite list_fmap_id.
Qed.

Definition files_of (t : testing) : gmap string (fnode Yaml) := w_files (te_world t).
Definition rm_path (x : removal) : string := match x with RmAll p _ | Rm p _ => p end.

(** Removing always finishes; without faults it removes everything on the list. *)
Definition removable (m : gmap string (fnode Yaml)) (x : removal) : Prop :=
  match x with RmAll _ _ => True | Rm p _ => ∃ y, m !! p = Some (File y) end.

Lemma wp_run_removals l t :
  NoDup (rm_path <$> l) →
  wpe False (run_removals l) t (λ _ t' _,
    no_faults → Forall (removable (files_of t)) l →
    files_of t' = foldl (λ m x, delete (rm_path x) m) (files_of t) l ∧ te_log t' = te_log t).
Proof.
  revert t. induction l as [|x l IH]; intros t; cbn [fmap list_fmap].
  { done. }
  intros [Hx Hnd]%NoDup_cons. cbn [run_removals]. apply wpe_bind.
  assert (wpe False (run_removal x) t (λ _ t1 _, no_faults → removable (files_of t) x →
    files_of t1 = delete (rm_path x) (files_of t) ∧ te_log t1 = te_log t)) as H.
  { destruct x as [p msg|p msg]; cbn [run_removal].
    - apply wpe_bind, wpe_os, wpe_RemoveAll. intros err w' _ Hok. destruct err; wpe_steps.
      + intros Hnf _. by destruct (Hok Hnf).
      + intros Hnf _. by destruct (Hok Hnf).
    - apply wpe_bind, wpe_os, wpe_Remove. intros err w' _ Hok. destruct err; wpe_steps.
      + intros Hnf [y Hy]. by destruct (Hok y Hnf Hy).
      + intros Hnf [y Hy]. by destruct (Hok y Hnf Hy). }
  eapply wpe_mono; [exact H|]. intros es t1 u1 H1. eapply wpe_mono; [by apply IH|].
  intros es' t2 u2 H2 Hnf [Hr Hall]%Forall_cons. destruct (H1 Hnf Hr) as [E1 L1].
  destruct (H2 Hnf) as [E2 L2].
  - apply Forall_forall. intros y Hy. rewrite Forall_forall in Hall. specialize (Hall y Hy).
    destruct y as [|p msg]; [done|]. destruct Hall as [z Hz]. exists z. rewrite E1, lookup_delete_ne; [done|].
    intros Heq. apply Hx. rewrite Heq. by apply (list_elem_of_fmap_2 rm_path) in Hy.
  - rewrite E2, E1, L2, L1. done.
Qed.

(** [m] creates something and registers its removal: when it succeeds, the clean-up
    leaves the files as [after] says; it fails only when something goes wrong. *)
Definition cleans {A} (m : testprog (option A))
    (after : gmap string (fnode Yaml) → gmap string (fnode Yaml) → Prop) : Prop :=
  ∀ t, te_cleanups t = [] →
    wpe (¬ ok_env) m t (λ _ t1 x,
      match x with
      | None => ¬ ok_env ∧ te_failed t1 = true
      | Some _ => wp run_cleanups t1 (λ _ t2 _,
          no_faults → after (files_of t) (files_of t2) ∧ te_log t2 = te_log t)
      end).

(** The clean-up registered last. *)
Lemma wp_cleanups l t t1 (after : gmap string (fnode Yaml) → gmap string (fnode Yaml) → Prop) :
  te_cleanups t1 = [l] → te_log t1 = te_log t → NoDup (rm_path <$> l) →
  Forall (removable (files_of t1)) l →
  after (files_of t) (foldl (λ m x, delete (rm_path x) m) (files_of t1) l) →
  wp run_cleanups t1 (λ _ t2 _, no_faults → after (files_of t) (files_of t2) ∧ te_log t2 = te_log t).
Proof.
  intros Hc Hlog Hnd Hr Ha. unfold run_cleanups. apply wp_bind, wp_get_state. rewrite Hc. cbn [concat].
  rewrite app_nil_r. apply (wpe_wp False); [|by intros ?]. eapply wpe_mono; [by apply wp_run_removals|].
  intros es t2 u H Hnf. destruct (H Hnf Hr) as [-> ->]. done.
Qed.

Lemma makes_one w w' n x m :
  makes w w' [n] → w_files w' = <[n := x]> (w_files w) →
  w_files w = m → delete n (w_files w') = m.
Proof. intros M -> <-. apply delete_insert_id. destruct (mk_new _ _ _ M n) as [H _]; [by left|done]. Qed.

(** A helper that makes one file or directory and registers its removal. *)
Lemma cleans_one {A B C} (m : osprog Yaml A) (res : A → B + goerror) (rm : B → removal)
    (k : A → B → C) :
  (∀ P w Q,
    (∀ x e w', ¬ ok_env → res x = inr e → Q [] w' x) →
    (∀ x b w' n, makes w w' [rm_path (rm b)] → w_files w' = <[rm_path (rm b) := n]> (w_files w) →
       res x = inl b → (∀ p msg, rm b = Rm p msg → ∃ y, n = File y) → Q [] w' x) →
    (¬ ok_env → P) → wpe P m w Q) →
  cleans (x ← os m; no_error (res x) (λ b, Cleanup [rm b];; mret (Some (k x b)))) eq.
Proof.
  intros Hm t Ht. apply wpe_bind, wpe_os, Hm; [| |done].
  - intros x e w' Hne ->. cbn [no_error]. wpe_steps. done.
  - intros x b w' n M F -> Hrm. cbn [no_error]. unfold Cleanup. wpe_steps.
    eapply (wp_cleanups [rm b] _ _ eq); try done; cbn.
    + by rewrite Ht.
    + apply NoDup_singleton.
    + apply Forall_singleton. destruct (rm b) as [|p msg] eqn:E; [done|]. cbn in *.
      destruct (Hrm p msg eq_refl) as [y ->]. exists y. unfold files_of. cbn. by rewrite F, lookup_insert_eq.
    + symmetry. by apply (makes_one _ _ _ _ _ M F).
Qed.

Lemma cleans_NewConfigT r peerIDs :
  cleans (NewConfigT r peerIDs) (λ m m', ∃ ca keys, m !! ca = None ∧ m' = <[ca := Dir keys]> m).
Proof.
  intros t Ht. apply wpe_bind, wpe_os, wpe_NewConfig; [done| |].
  - intros e w' r' Hne _. cbn [no_error fst]. wpe_steps. done.
  - intros ks port ca keys db idp w' [_ D N _] F. cbn [no_error fst]. unfold Cleanup. wpe_steps.
    assert (Hd : ∀ n, n ∈ [ks; ca; db; idp] → files_of t !! n = None) by (intros n Hn; by apply N).
    assert (ks ≠ ca ∧ ks ≠ db ∧ ks ≠ idp ∧ ca ≠ db ∧ ca ≠ idp ∧ db ≠ idp) as (N1&N2&N3&N4&N5&N6).
    { clear -D. repeat rewrite NoDup_cons in D. set_solver. }
    eapply (wp_cleanups _ _ _ (λ m m', ∃ ca keys, m !! ca = None ∧ m' = <[ca := Dir keys]> m));
      [cbn; by rewrite Ht|done| | |].
    + cbn. repeat constructor; set_solver.
    + repeat constructor. eexists. unfold files_of. cbn. by rewrite F, lookup_insert_eq.
    + exists ca, keys. split; [apply Hd; set_solver|]. unfold files_of. cbn. rewrite F.
      assert (Hks : w_files (te_world t) !! ks = None) by (apply (Hd ks); set_solver).
      assert (Hdb : w_files (te_world t) !! db = None) by (apply (Hd db); set_solver).
      assert (Hidp : w_files (te_world t) !! idp = None) by (apply (Hd idp); set_solver).
      apply map_eq. intros p.
      destruct (decide (p = idp)) as [->|P1]; [rewrite lookup_delete_eq, lookup_insert_ne; congruence|].
      rewrite lookup_delete_ne by done.
      destruct (decide (p = ks)) as [->|P2]; [rewrite lookup_delete_eq, lookup_insert_ne; congruence|].
      rewrite lookup_delete_ne by done.
      destruct (decide (p = db)) as [->|P3]; [rewrite lookup_delete_eq, lookup_insert_ne; congruence|].
      rewrite lookup_delete_ne, !(lookup_insert_ne _ idp), (lookup_insert_ne _ db) by done.
      destruct (decide (p = ca)) as [->|P4]; [by rewrite !lookup_insert_eq|].
      by rewrite !lookup_insert_ne by done.
Qed.

(** Test helpers clean up after themselves.  Whatever they create is removed at the
    end of the test, and the file system is as before -- except for [NewConfigT],
    which leaves one directory with keys behind: the one of the wallet
    [ContractAddrs] sets up to compute the addresses of the contracts.  A helper
    stops the test only if the system or a wallet fails. *)
Theorem helpers_clean_up :
  (∀ r n, cleans (NewWalletSetupT r n) eq) ∧
  (∀ peerIDs, cleans (NewIDProviderT peerIDs) eq) ∧
  (∀ config, cleans (NewConfigFileT config) eq) ∧
  (∀ r n, cleans (NewUserConfigT r n) eq) ∧
  (∀ r peerIDs, cleans (NewConfigT r peerIDs)
     (λ m m', ∃ ca keys, m !! ca = None ∧ m' = <[ca := Dir keys]> m)).
Proof.
  split_and!; [intros r n|intros peerIDs|intros config|intros r n|apply cleans_NewConfigT].
  - apply (cleans_one (NewWalletSetup r n) fst (λ ws, RmAll (ws_KeystorePath ws) _) (λ x ws, (ws, x.2))).
    intros P w Q He Ho HP. apply wpe_NewWalletSetup; [intros e w' Hne _; by eapply (He _ e)|].
    intros ks wl w' M F. eapply Ho; [| |reflexivity|done]; [exact M|exact F].
  - apply (cleans_one (NewIDProvider peerIDs) id (λ f, Rm f _) (λ _ f, f)).
    intros P w Q He Ho HP. apply wpe_NewIDProvider; [intros e w' Hne _; eapply (He _ e); [by intros [? _]|done]|].
    intros n w' M F. eapply Ho; [exact M|exact F|done|]. by eexists.
  - apply (cleans_one (NewConfigFile _) id (λ f, Rm f _) (λ _ f, f)).
    intros P w Q He Ho HP. apply wpe_NewConfigFile; [intros e w' Hne _ _; eapply (He _ e); [by intros [? _]|done]|].
    intros n w' M F. eapply Ho; [exact M|exact F|done|]. by eexists.
  - intros t Ht. apply wpe_bind, wpe_os, wpe_bind, wpe_newUserConfig; [done|].
    intros ks ws port w' M F. cbn [no_error app]. unfold Cleanup. wpe_steps.
    eapply (wp_cleanups [_] _ _ eq); [cbn; by rewrite Ht|done|apply NoDup_singleton|by repeat constructor|].
    symmetry. by apply (makes_one _ _ _ _ _ M F).
Qed.
End testconfig_props.
