(* ===== verification/SetupContracts.v ===== *)
(** * Deploying the contracts for demos and tests (ethereumtest/setupcontracts.go)

    The addresses of the contracts are computed in advance from a fixed seed; they
    are deployed when the adjudicator is not at its address.  The chain is part of
    the state: a transaction yields the chain that contains it ([mined]).  What the
    program relies on of Ethereum is in [ChainLaws]. *)
From S2P Require Import Prelude Perun Contracts Os User TestConfig TestConfigProps.
Local Open Scope Z_scope.

(** What a transaction of the program creates. *)
Inductive deployment `{GoTypes} :=
| DAdjudicator
| DAssetETH (adj : address)
| DPerunToken (initAccs : list address) (initBal : Z)
| DAssetERC20 (adj token : address).

Class ChainLib `{EthLib} := { mined : cb → address → deployment → cb }.

(** A contract gets the address of its creator and the number of the transaction;
    it never changes.  Validation looks at the code and at what it refers to. *)
Class ChainLaws `{ChainLib, !TestLib} := {
  nonce : cb → address → Z;
  contract_at : cb → address → option deployment;
  mined_nonce c s d : nonce (mined c s d) s = nonce c s + 1;
  mined_at c s d a : contract_at (mined c s d) a =
    if addr_Equals a (lib_CreateAddress s (nonce c s)) then Some d else contract_at c a;
  CreateAddress_inj s n m : lib_CreateAddress s n = lib_CreateAddress s m → n = m;
  deploy_adj c s a : lib_DeployAdjudicator c s = (a, None) → a = lib_CreateAddress s (nonce c s);
  deploy_eth c adj s a :
    lib_DeployETHAssetholder c adj s = (a, None) → a = lib_CreateAddress s (nonce c s);
  deploy_token c accs bal s a :
    lib_DeployPerunToken c accs bal s = (a, None) → a = lib_CreateAddress s (nonce c s);
  deploy_erc20 c adj token s a :
    lib_DeployERC20Assetholder c adj token s = (a, None) → a = lib_CreateAddress s (nonce c s);
  valid_adj c a : lib_ValidateAdjudicator c a = None ↔ contract_at c a = Some DAdjudicator;
  valid_eth c a adj : lib_ValidateAssetHolderETH c a adj = None ↔
    contract_at c a = Some (DAssetETH adj) ∧ contract_at c adj = Some DAdjudicator;
  valid_erc20 c a adj token : lib_ValidateAssetHolderERC20 c a adj token = None ↔
    contract_at c a = Some (DAssetERC20 adj token) ∧ contract_at c adj = Some DAdjudicator;
  valid_token c a accs bal : contract_at c a = Some (DPerunToken accs bal) →
    lib_BindToken c a = None ∧ lib_TokenSymbol c a = ("PRN", None) ∧ lib_TokenDecimals c a = (18, None);
}.

Section setup.
Context {GT : GoTypes} {EL : EthLib} {EN : Env} {TL : TestLib} {CL : ChainLib}.

Record eth := mkEth { e_world : world Yaml; e_chain : cb }.
Definition ethprog (A : Type) : Type := prog eth OEvent A.

Definition set_e_world (w : world Yaml) (s : eth) : eth := mkEth w (e_chain s).
Definition set_e_chain (c : cb) (s : eth) : eth := mkEth (e_world s) c.
Definition on_os {A} (m : osprog Yaml A) : ethprog A := zoom (λ s, Ret (e_world s)) set_e_world id m.

(** Sending a transaction; [res] is the address or the error. *)
Definition transact (name : string) (s : address) (d : deployment)
    (res : cb → address * option goerror) : ethprog (address * option goerror) :=
  st ← get_state;
  let c := e_chain st in
  emit (Deploy name);;
  modify (set_e_chain (match (res c).2 with None => mined c s d | Some _ => c end));;
  mret (res c).

(** The dial of a web socket. *)
Definition isBlockchainRunning (url : string) : ethprog bool :=
  err ← on_os syscall; mret (bool_decide (err = None)).

Definition newContractRegistry (incAssetERC20s : bool) : ethprog (contractRegistry + goerror) :=
  addrs ← on_os ContractAddrs;
  let '(adjudicatorAddr, assetETHAddr, assetERC20Addrs) := addrs in
  st ← get_state;
  match NewContractRegistry (e_chain st) adjudicatorAddr assetETHAddr with
  | inr err => mret (inr (ErrWithMessage "initializing contract registry" err))
  | inl contracts =>
      if negb incAssetERC20s then mret (inl contracts)
      else
        mret (foldl (λ r '(tokenERC20, assetERC20),
          match r with
          | inr err => inr err
          | inl contracts =>
              match RegisterAssetERC20 contracts tokenERC20 assetERC20 with
              | (_, inr err) =>
                  inr (ErrWithMessage ("registering erc20 token " +:+ addr_String tokenERC20
                                       +:+ " with asset " +:+ addr_String assetERC20) err)
              | (contracts, inl _) => inl contracts
              end
          end) (inl contracts) assetERC20Addrs)
  end.

Definition deployContracts (sender : address) (initAccs : list address) (initBal : Z)
    : ethprog (option goerror) :=
  r ← transact "adjudicator" sender DAdjudicator (λ c, DeployAdjudicator c sender);
  match r with
  | (_, Some err) => mret (Some (ErrWithMessage "deploying adjudicator" err))
  | (adjudicator, None) =>
  r ← transact "asset ETH" sender (DAssetETH adjudicator) (λ c, DeployAssetETH c adjudicator sender);
  match r with
  | (_, Some err) => mret (Some (ErrWithMessage "deploying asset ETH" err))
  | (_, None) =>
  r ← transact "perun token" sender (DPerunToken initAccs initBal)
        (λ c, DeployPerunToken c initAccs initBal sender);
  match r with
  | (_, Some err) => mret (Some (ErrWithMessage "deploying perun token" err))
  | (tokenERC20PRN, None) =>
  r ← transact "asset ERC20" sender (DAssetERC20 adjudicator tokenERC20PRN)
        (λ c, DeployAssetERC20 c adjudicator tokenERC20PRN sender);
  match r with
  | (_, Some err) => mret (Some (ErrWithMessage "deploying asset ERC20" err))
  | (_, None) => mret None
  end end end end.

Definition SetupContracts (chainURL : string) (chainID onChainTxTimeout : Z) (incAssetERC20s : bool)
    : ethprog (contractRegistry + goerror) :=
  running ← isBlockchainRunning chainURL;
  if negb running then
    mret (inr (ErrText ("cannot connect to ganache-cli node at " +:+ chainURL)))
  else
    x ← on_os (NewWalletSetup (rand_New RandSeedForTestAccs) 3);
    match x.1 with
    | inr err => mret (inr err)
    | inl ws =>
        acc ← lift (go_index (ws_Accs ws) 0);
        let onChainCred := mkCredential acc (ws_Wallet ws) (ws_KeystorePath ws) "" in
        match NewChainBackend chainURL chainID ChainConnTimeout onChainTxTimeout onChainCred with
        | inr err => mret (inr (ErrWithMessage "initializaing chain backend" err))
        | inl chain =>
            modify (set_e_chain (Cb chain));;
            addrs ← on_os ContractAddrs;
            match ValidateAdjudicator (Cb chain) addrs.1.1 with
            | None => newContractRegistry incAssetERC20s
            | Some _ =>
                let initBal := 10 ^ 18 * 10 ^ 3 in
                err ← deployContracts (cred_Addr onChainCred) (ws_Accs ws) initBal;
                match err with
                | Some err => mret (inr err)
                | None => newContractRegistry incAssetERC20s
                end
            end
        end
    end.

(** [SetupContractsT]: an error ends the test. *)
Definition SetupContractsT (chainURL : string) (chainID onChainTxTimeout : Z) (incAssetERC20s : bool)
    : ethprog (option contractRegistry) :=
  r ← SetupContracts chainURL chainID onChainTxTimeout incAssetERC20s;
  mret (match r with inl contracts => Some contracts | inr _ => None end).
End setup.

(** ** What is set up *)

(** The error [E] of a deployment contradicts [H], by which none fails. *)
Ltac deploy_failed H E :=
  apply (f_equal snd) in E;
  first [rewrite (proj1 (H _)) in E | rewrite (proj1 (proj2 (H _))) in E
        | rewrite (proj1 (proj2 (proj2 (H _)))) in E | rewrite (proj2 (proj2 (proj2 (H _)))) in E];
  discriminate E.

Section setup_props.
Context {GT : GoTypes} {EL : EthLib} {EN : Env} {TL : TestLib} {CL : ChainLib}.
Context {GL : GoTypesLaws} {ENL : EnvLaws} {CHL : ChainLaws}.

Lemma wpe_on_os {A} P (m : osprog Yaml A) (s : eth) Q :
  wpe P m (e_world s) (λ es w x, Q es (set_e_world w s) x) → wpe P (on_os m) s Q.
Proof.
  intros H. eapply wpe_zoom; [done|]. eapply wpe_mono; [exact H|].
  intros es w x. by rewrite list_fmap_id.
Qed.

(** The contracts are where the program expects them. *)
Record deployed (c : cb) : Prop := {
  dep_adj : contract_at c (contract 0) = Some DAdjudicator;
  dep_eth : contract_at c (contract 1) = Some (DAssetETH (contract 0));
  dep_token : ∃ accs bal, contract_at c (contract 2) = Some (DPerunToken accs bal);
  dep_erc20 : contract_at c (contract 3) = Some (DAssetERC20 (contract 0) (contract 2));
}.

(** The registry of these contracts, with or without the token. *)
Record registry_of (inc : bool) (c : cb) (r : contractRegistry) : Prop := {
  ro_chain : cr_chain r = c;
  ro_adj : Adjudicator r = contract 0;
  ro_eth : Asset r "ETH" = Some (contract 1);
  ro_prn : Asset r "PRN" = if inc then Some (contract 3) else None;
  ro_token : Token r "PRN" = if inc then Some (contract 2) else None;
}.

Lemma contract_inj n m : contract n = contract m → n = m.
Proof. apply CreateAddress_inj. Qed.

Lemma NewContractRegistry_deployed c :
  deployed c → ∃ r, NewContractRegistry c (contract 0) (contract 1) = inl r ∧ registry_of false c r.
Proof.
  intros [Ha He _ _]. unfold NewContractRegistry, ValidateAdjudicator, ValidateAssetETH.
  rewrite (proj2 (valid_adj c (contract 0))) by done. cbn.
  rewrite (proj2 (valid_eth c (contract 1) (contract 0))) by done. cbn.
  eexists. split; [done|]. split; try done; unfold Asset, Token, isSymbolRegistered; cbn;
    by rewrite ?lookup_singleton_eq, ?lookup_singleton_ne.
Qed.

Lemma RegisterAssetERC20_deployed c r :
  deployed c → NewContractRegistry c (contract 0) (contract 1) = inl r →
  ∃ r' d, RegisterAssetERC20 r (contract 2) (contract 3) = (r', inl d) ∧ registry_of true c r'.
Proof.
  intros Hd Hr. pose proof (NewContractRegistry_wf _ _ _ _ Hr) as Hwf.
  destruct (NewContractRegistry_deployed c Hd) as (r0 & Hr0 & [Hc Had He Hp Ht]).
  rewrite Hr in Hr0. injection Hr0 as <-.
  pose proof (RegisterAssetERC20_run r (contract 2) (contract 3) Hwf) as H.
  destruct (RegisterAssetERC20 r (contract 2) (contract 3)) as [r' res] eqn:E.
  assert (Symbol_of r (contract 3) = None) as Hs.
  { destruct (Symbol_of r (contract 3)) as [s|] eqn:Hs; [|done]. apply Symbol_of_Asset in Hs; [|done].
    assert (r = mkContractRegistry c (contract 0) {[ "ETH" := 0%nat ]} [contract 1] [None]) as ->.
    { unfold NewContractRegistry in Hr. by split_cases. }
    unfold Asset, isSymbolRegistered in Hs. cbn in Hs. destruct (decide (s = "ETH")) as [->|Hne].
    - rewrite lookup_singleton_eq in Hs. cbn in Hs. injection Hs as Hs%contract_inj. done.
    - by rewrite lookup_singleton_ne in Hs. }
  rewrite Hs in H. destruct Hd as [Ha Hee (accs & bal & Htk) H20].
  destruct (valid_token _ _ _ _ Htk) as (B1 & B2 & B3).
  unfold ValidateAssetERC20, ERC20Info in H. change (cr_adjudicator r) with (Adjudicator r) in H.
  rewrite Had, Hc, B1, B2, B3 in H. cbn in H.
  rewrite (proj2 (valid_erc20 c (contract 3) (contract 0) (contract 2))) in H by done. cbn in H.
  rewrite Hp in H. destruct H as (-> & H1 & H2 & _ & Hkeep). eexists _, _. split; [done|].
  assert (cr_chain r' = cr_chain r ∧ Adjudicator r' = Adjudicator r) as [Hc' Had'].
  { unfold RegisterAssetERC20 in E. split_cases; done. }
  split; [by rewrite Hc'|by rewrite Had'| |done..]. by rewrite (proj1 (Hkeep "ETH" ltac:(done))).
Qed.

(** ** Transactions *)
Definition transactions (es : list OEvent) : list string :=
  omap (λ e, match e with Deploy n => Some n | _ => None end) es.

(** All four contracts of the program, in the order they are deployed. *)
Definition all_contracts : list string := ["adjudicator"; "asset ETH"; "perun token"; "asset ERC20"].

Lemma wpe_transact P name sender d f s Q :
  (∀ a err, (f (e_chain s)) = (a, Some err) → Q [Deploy name] s (a, Some err)) →
  (∀ a, f (e_chain s) = (a, None) → Q [Deploy name] (set_e_chain (mined (e_chain s) sender d) s) (a, None)) →
  wpe P (transact name sender d f) s Q.
Proof.
  intros He Ho. unfold transact. wpe_steps. destruct (f (e_chain s)) as [a [err|]] eqn:E; cbn.
  - destruct s. by apply He.
  - by apply Ho.
Qed.

(** The chain after the four transactions from [c]. *)
Definition after_deployment (c c' : cb) (accs : list address) (bal : Z) : Prop :=
  let n := nonce c deployer in
  ∀ a, contract_at c' a =
    if addr_Equals a (contract (n + 3)) then Some (DAssetERC20 (contract n) (contract (n + 2)))
    else if addr_Equals a (contract (n + 2)) then Some (DPerunToken accs bal)
    else if addr_Equals a (contract (n + 1)) then Some (DAssetETH (contract n))
    else if addr_Equals a (contract n) then Some DAdjudicator
    else contract_at c a.

(** No deployment of the sender [s] fails. *)
Definition deploys (s : address) : Prop := ∀ c,
  (DeployAdjudicator c s).2 = None ∧ (∀ adj, (DeployAssetETH c adj s).2 = None) ∧
  (∀ accs bal, (DeployPerunToken c accs bal s).2 = None) ∧
  (∀ adj token, (DeployAssetERC20 c adj token s).2 = None).
Definition can_deploy : Prop := deploys deployer.

(** A contract gets the address of the next transaction. *)
Lemma Deploy_addr c s a adj token accs bal :
  let next := lib_CreateAddress s (nonce c s) in
  (DeployAdjudicator c s = (a, None) → a = next) ∧ (DeployAssetETH c adj s = (a, None) → a = next) ∧
  (DeployPerunToken c accs bal s = (a, None) → a = next) ∧
  (DeployAssetERC20 c adj token s = (a, None) → a = next).
Proof.
  unfold DeployAdjudicator, DeployAssetETH, DeployPerunToken, DeployAssetERC20. split_and!.
  - destruct (lib_DeployAdjudicator c s) as [b [?|]] eqn:L; [done|]. intros [= <-]. by apply deploy_adj in L.
  - destruct (lib_DeployETHAssetholder c adj s) as [b [?|]] eqn:L; [done|]. intros [= <-]. by apply deploy_eth in L.
  - destruct (lib_DeployPerunToken c accs bal s) as [b [?|]] eqn:L; [done|]. intros [= <-].
    by apply deploy_token in L.
  - destruct (lib_DeployERC20Assetholder c adj token s) as [b [?|]] eqn:L; [done|]. intros [= <-].
    by apply deploy_erc20 in L.
Qed.
Definition DeployAdjudicator_addr c s a := proj1 (Deploy_addr c s a s s [] 0).
Definition DeployAssetETH_addr c s a adj := proj1 (proj2 (Deploy_addr c s a adj s [] 0)).
Definition DeployPerunToken_addr c s a accs bal := proj1 (proj2 (proj2 (Deploy_addr c s a s s accs bal))).
Definition DeployAssetERC20_addr c s a adj token := proj2 (proj2 (proj2 (Deploy_addr c s a adj token [] 0))).

Lemma wpe_deployContracts P accs bal s Q :
  (∀ es err c', ¬ can_deploy → Q es (set_e_chain c' s) (Some err)) →
  (∀ es c', transactions es = all_contracts → after_deployment (e_chain s) c' accs bal →
     Q es (set_e_chain c' s) None) →
  wpe P (deployContracts deployer accs bal) s Q.
Proof.
  intros He Ho. destruct s as [w c]. unfold deployContracts.
  apply wpe_bind, wpe_transact; [intros a err E; apply (He _ _ c); intros H; deploy_failed H E|]. intros a1 E1. cbn [e_chain set_e_chain] in *.
  apply wpe_bind, wpe_transact; [intros a err E; apply (He _ _ (mined c deployer DAdjudicator)); intros H; deploy_failed H E|].
  intros a2 E2. cbn [e_chain set_e_chain e_world] in *. set (c1 := mined c deployer _) in *.
  apply wpe_bind, wpe_transact; [intros a err E; apply (He _ _ (mined c1 deployer (DAssetETH a1))); intros H; deploy_failed H E|].
  intros a3 E3. cbn [e_chain set_e_chain e_world] in *. set (c2 := mined c1 deployer _) in *.
  apply wpe_bind, wpe_transact; [intros a err E; apply (He _ _ (mined c2 deployer (DPerunToken accs bal))); intros H; deploy_failed H E|].
  intros a4 E4. cbn [e_chain set_e_chain e_world] in *. set (c3 := mined c2 deployer _) in *.
  wpe_steps. apply (Ho _ (mined c3 deployer (DAssetERC20 a1 a3))); [done|].
  apply DeployAdjudicator_addr in E1 as ->. apply DeployPerunToken_addr in E3 as ->.
  assert (nonce c1 deployer = nonce c deployer + 1) as N1 by apply mined_nonce.
  assert (nonce c2 deployer = nonce c deployer + 2) as N2 by (unfold c2; rewrite mined_nonce, N1; lia).
  assert (nonce c3 deployer = nonce c deployer + 3) as N3 by (unfold c3; rewrite mined_nonce, N2; lia).
  intros a. unfold c3 at 1. rewrite mined_at. fold c3. rewrite N3. unfold c3. rewrite mined_at, N2.
  unfold c2. rewrite mined_at, N1. unfold c1. rewrite mined_at. reflexivity.
Qed.

Lemma addr_Equals_contract n m : addr_Equals (contract n) (contract m) = bool_decide (n = m).
Proof.
  apply eq_bool_prop_intro. rewrite bool_decide_spec. split.
  - intros H%Is_true_true%addr_Equals_spec. by apply contract_inj.
  - intros ->. by apply Is_true_true, addr_Equals_spec.
Qed.

Lemma deployed_after c c' accs bal :
  after_deployment c c' accs bal → nonce c deployer = 0 → deployed c'.
Proof.
  intros H Hn. unfold after_deployment in H. rewrite Hn in H.
  split; try eexists _, _; rewrite H, !addr_Equals_contract; reflexivity.
Qed.

Lemma not_deployed_after c c' accs bal :
  after_deployment c c' accs bal → 0 < nonce c deployer → contract_at c (contract 0) ≠ Some DAdjudicator →
  contract_at c' (contract 0) ≠ Some DAdjudicator.
Proof.
  intros H Hn Hc. unfold after_deployment in H. rewrite H, !addr_Equals_contract.
  by rewrite !bool_decide_eq_false_2 by lia.
Qed.

(** ** The registry *)
Lemma wpe_newContractRegistry P inc s Q :
  (¬ ok_env → P) →
  (∀ w' r, (deployed (e_chain s) → ∃ reg, r = inl reg ∧ registry_of inc (e_chain s) reg) →
     (contract_at (e_chain s) (contract 0) ≠ Some DAdjudicator → ∃ err, r = inr err) →
     Q [] (set_e_world w' s) r) →
  wpe P (newContractRegistry inc) s Q.
Proof.
  intros HP Ho. apply wpe_bind, wpe_on_os, wpe_ContractAddrs; [done|]. intros ks keys w' _ _. wpe_steps.
  set (c := e_chain s). change (e_chain (set_e_world w' s)) with c.
  destruct (NewContractRegistry c (contract 0) (contract 1)) as [reg|err] eqn:Hr.
  - assert (contract_at c (contract 0) = Some DAdjudicator) as Hadj.
    { apply valid_adj. unfold NewContractRegistry, ValidateAdjudicator in Hr.
      destruct (lib_ValidateAdjudicator c (contract 0)) as [e|]; [|done]. cbn in Hr.
      by destruct (lib_IsErrInvalidContractCode e). }
    destruct inc; wpe_steps; apply Ho; try done.
    + intros Hd. destruct (RegisterAssetERC20_deployed c reg Hd Hr) as (r' & d & Hreg & Hro).
      exists r'. cbn. by rewrite Hreg.
    + intros Hd. destruct (NewContractRegistry_deployed c Hd) as (r' & Hr' & Hro). exists r'.
      rewrite Hr in Hr'. by injection Hr' as <-.
  - wpe_steps. apply Ho; [|by eexists]. intros Hd.
    destruct (NewContractRegistry_deployed c Hd) as (r' & Hr' & _). congruence.
Qed.

(** What [SetupContracts] does and yields over a connection to the chain [c]. *)
Record setup_result (inc : bool) (c : cb) (es : list OEvent) (s' : eth)
    (r : contractRegistry + goerror) : Prop := {
  sr_deployed : deployed c → transactions es = [];
  sr_again : deployed c → ok_env → e_chain s' = c ∧ ∃ reg, r = inl reg ∧ registry_of inc c reg;
  sr_fresh reg : contract_at c (contract 0) ≠ Some DAdjudicator → nonce c deployer = 0 → r = inl reg →
    transactions es = all_contracts ∧ deployed (e_chain s') ∧ registry_of inc (e_chain s') reg;
  sr_works : contract_at c (contract 0) ≠ Some DAdjudicator → nonce c deployer = 0 →
    ok_env → can_deploy → is_inl r;
  sr_used : contract_at c (contract 0) ≠ Some DAdjudicator → 0 < nonce c deployer → is_inr r;
}.

Lemma setup_failed inc c s' err : ¬ ok_env → setup_result inc c [] s' (inr err).
Proof. intros Hne. split; [done|by intros ? ?|done|by intros ? ? ?|by eexists]. Qed.

(** Setting the contracts up, over a connection to the chain [c].  If they are all in
    place, no transaction is sent and the registry of these contracts is returned; so
    it may be called any number of times.  On a chain without the adjudicator on
    which the deployer has sent nothing yet, success means that the four contracts
    were deployed, in order, and are at the addresses computed in advance, and the
    registry names them; it fails only if something outside does.  When the deployer
    has sent a transaction before, the addresses are different, and after deploying
    everything for nothing the call fails. *)
Theorem SetupContracts_spec url chainID t inc s c
    (Hconn : ∀ cred, NewChainBackend url chainID ChainConnTimeout t cred = inl (mkChainBackend c t)) :
  wpe (¬ ok_env) (SetupContracts url chainID t inc) s (setup_result inc c).
Proof.
  apply wpe_bind, wpe_bind, wpe_on_os, wpe_syscall. intros [err|] Hf; wpe_steps.
  { cbn. apply setup_failed. intros [Hnf _]. by apply Hf in Hnf. }
  cbn [bool_decide decide negb]. apply wpe_bind, wpe_on_os, wpe_NewWalletSetup.
  { intros e w' Hne _. cbn. by apply setup_failed. }
  intros ks wl w' _ _. cbn [fst ws_Accs]. destruct (accounts_deployer 2) as [l Hl]. rewrite Hl.
  cbn [go_index lookup list_lookup]. wpe_steps. rewrite Hconn. wpe_steps. cbn [cred_Addr Cb].
  apply wpe_on_os, wpe_ContractAddrs; [done|]. intros ks2 keys2 w2 _ _. cbn [fst app].
  destruct (ValidateAdjudicator c (contract 0)) as [e|] eqn:Hv.
  - assert (contract_at c (contract 0) ≠ Some DAdjudicator) as Hno.
    { intros H%valid_adj. unfold ValidateAdjudicator in Hv. by rewrite H in Hv. }
    apply wpe_bind, wpe_deployContracts.
    + intros es e'' c' Hnd. cbn. split; [by intros []|by intros []|done|by intros _ _ _ ?|by intros; eexists].
    + intros es c' Hes Haft. cbn [app]. apply wpe_newContractRegistry; [done|]. intros w3 r Hok Hbad.
      cbn [e_chain set_e_chain set_e_world] in *. rewrite app_nil_r. split; try by intros [].
      * intros reg _ Hn ->. pose proof (deployed_after _ _ _ _ Haft Hn) as Hd.
        destruct (Hok Hd) as (reg' & [= <-] & Hro). done.
      * intros _ Hn _ _. destruct (Hok (deployed_after _ _ _ _ Haft Hn)) as (reg & -> & _). by eexists.
      * intros _ Hn. destruct Hbad as [err ->]; [by eapply not_deployed_after|]. by eexists.
  - assert (contract_at c (contract 0) = Some DAdjudicator) as Hadj.
    { apply valid_adj. unfold ValidateAdjudicator in Hv.
      destruct (lib_ValidateAdjudicator c (contract 0)) as [e|]; [|done]. cbn in Hv.
      by destruct (lib_IsErrInvalidContractCode e). }
    apply wpe_newContractRegistry; [done|]. intros w3 r Hok _.
    split; try done. intros Hd _. split; [done|]. by apply Hok.
Qed.
End setup_props.
