(* ===== verification/SimChain.v ===== *)
(** * A simulated chain for tests (ethereumtest/chain.go)

    A wallet for the test, a simulated backend in which its accounts have funds, and
    the contracts deployed on it. *)
From S2P Require Import Prelude Perun Contracts Os User TestConfig TestConfigProps SetupContracts.
Local Open Scope Z_scope.

(** The simulated backend with these accounts funded, sending from the wallet. *)
Class SimLib `{EthLib} := { lib_NewSimulatedBackend : list address → kswallet → Z → cb }.

Section simchain.
Context {GT : GoTypes} {EL : EthLib} {EN : Env} {TL : TestLib} {CL : ChainLib} {SL : SimLib}.

Record ChainBackendSetup := mkSetup {
  su_WalletSetup : WalletSetup;
  su_ChainBackend : ChainBackend;
  su_Adjudicator : address;
  su_AssetETH : address;
  su_AssetERC20s : list (address * address);
}.

Record simtest := mkSim { sm_test : testing; sm_chain : cb }.
Definition simprog (A : Type) : Type := prog simtest OEvent A.

Definition on_test {A} (m : testprog A) : simprog A :=
  zoom (λ s, Ret (sm_test s)) (λ t s, mkSim t (sm_chain s)) id m.
Definition on_chain {A} (m : ethprog A) : simprog A :=
  zoom (λ s, Ret (mkEth (te_world (sm_test s)) (sm_chain s)))
    (λ e s, mkSim (set_world (e_world e) (sm_test s)) (e_chain e)) id m.

(** The first account sends the transactions. *)
Definition newSimContractBackend (accs : list address) (ksPath : string) : simprog (option cb) :=
  match lib_NewKsWallet (lib_NewKeyStore ksPath) "" with
  | inr _ => on_test FailNow
  | inl ksWallet => mret (Some (lib_NewSimulatedBackend accs ksWallet ChainID))
  end.

(** [require.NoError] on the result of a deployment. *)
Definition deployT {A} (m : ethprog (address * option goerror)) (k : address → simprog (option A))
    : simprog (option A) :=
  r ← on_chain m;
  match r with (_, Some _) => on_test FailNow | (a, None) => k a end.

Definition NewSimChainBackendSetup (r : rng) (numAccs : nat) : simprog (option ChainBackendSetup) :=
  walletSetup ← on_test (NewWalletSetupT r numAccs);
  match walletSetup with
  | None => mret None
  | Some (ws, _) =>
      cbEth ← newSimContractBackend (ws_Accs ws) (ws_KeystorePath ws);
      match cbEth with
      | None => mret None
      | Some cbEth =>
          modify (λ s, mkSim (sm_test s) cbEth);;
          acc ← lift (go_index (ws_Accs ws) 0);
          deployT (transact "adjudicator" acc DAdjudicator (λ c, DeployAdjudicator c acc)) (λ adjudicator,
          deployT (transact "asset ETH" acc (DAssetETH adjudicator)
                     (λ c, DeployAssetETH c adjudicator acc)) (λ assetETH,
          deployT (transact "perun token" acc (DPerunToken [acc] 10)
                     (λ c, DeployPerunToken c [acc] 10 acc)) (λ token,
          deployT (transact "asset ERC20" acc (DAssetERC20 adjudicator token)
                     (λ c, DeployAssetERC20 c adjudicator token acc)) (λ asset,
          s ← get_state;
          mret (Some (mkSetup ws (mkChainBackend (sm_chain s) OnChainTxTimeout) adjudicator assetETH
                        [(token, asset)]))))))
      end
  end.

(** ** What is on the chain *)
Context {GL : GoTypesLaws} {ENL : EnvLaws} {CHL : ChainLaws}.

Lemma wpe_deployT {A} P name sender d f (k : address → simprog (option A)) s Q :
  (∀ a e t, f (sm_chain s) = (a, Some e) → te_failed t = true → Q [Deploy name] (mkSim t (sm_chain s)) None) →
  (∀ a, f (sm_chain s) = (a, None) →
     wpe P (k a) (mkSim (sm_test s) (mined (sm_chain s) sender d)) (λ es, Q (Deploy name :: es))) →
  wpe P (deployT (transact name sender d f) k) s Q.
Proof.
  intros He Ho. destruct s as [[w cl lg fl] c]. apply wpe_bind. unfold on_chain. eapply wpe_zoom; [done|].
  apply wpe_transact; cbn.
  - intros a err E. unfold FailNow, on_test. eapply wpe_zoom; [done|]. wpe_steps. by eapply He.
  - intros a E. by apply Ho.
Qed.

(** A contract stays when its creator sends further transactions. *)
Lemma mined_keeps c s d n x :
  n < nonce c s → contract_at c (lib_CreateAddress s n) = Some x →
  contract_at (mined c s d) (lib_CreateAddress s n) = Some x.
Proof.
  intros Hn Hx. rewrite mined_at. destruct (addr_Equals _ _) eqn:E; [|done].
  apply addr_Equals_spec, CreateAddress_inj in E. lia.
Qed.
Lemma mined_new c s d : contract_at (mined c s d) (lib_CreateAddress s (nonce c s)) = Some d.
Proof. rewrite mined_at. by rewrite (proj2 (addr_Equals_spec _ _) eq_refl). Qed.

(** A setup whose contracts are in place, with accounts generated from [r]. *)
Record sim_deployed (n : nat) (r : rng) (u : ChainBackendSetup) : Prop := {
  sd_accs : ws_Accs (su_WalletSetup u) = (accounts n r).1;
  sd_adj : contract_at (Cb (su_ChainBackend u)) (su_Adjudicator u) = Some DAdjudicator;
  sd_eth : contract_at (Cb (su_ChainBackend u)) (su_AssetETH u) = Some (DAssetETH (su_Adjudicator u));
  sd_erc20 : ∃ token asset accs, su_AssetERC20s u = [(token, asset)] ∧
    contract_at (Cb (su_ChainBackend u)) token = Some (DPerunToken accs 10) ∧
    contract_at (Cb (su_ChainBackend u)) asset = Some (DAssetERC20 (su_Adjudicator u) token);
}.

(** The outcome of a setup: it ends the test only when something outside fails. *)
Definition sim_result (n : nat) (r : rng) (es : list OEvent) (s : simtest)
    (x : option ChainBackendSetup) : Prop :=
  match x with
  | Some u => sim_deployed n r u ∧ transactions es = all_contracts
  | None => te_failed (sm_test s) = true ∧ ¬ (ok_env ∧ deploys (lib_NewRandomAccount r).1)
  end.

Lemma accounts_first n r : ∃ l, (accounts (S n) r).1 = (lib_NewRandomAccount r).1 :: l.
Proof. cbn. destruct (lib_NewRandomAccount r) as [a r']. by eexists. Qed.

(** The simulated chain.  With at least one account, a setup that succeeds has sent
    the four transactions in order, and the addresses it reports are those of the
    adjudicator, of the asset holders that refer to it and of the token; the test
    fails only when the system, a wallet or a deployment does. *)
Lemma NewSimChainBackendSetup_spec r n s :
  wpe (n = 0%nat) (NewSimChainBackendSetup r n) s (sim_result n r).
Proof.
  apply wpe_bind. eapply wpe_zoom; [done|]. apply wpe_bind, wpe_os, wpe_NewWalletSetup.
  { intros e w' Hne _. cbn [no_error fst]. wpe_steps. split; [done|]. tauto. }
  intros ks wl w' _ _. cbn [no_error fst]. unfold Cleanup. wpe_steps.
  unfold newSimContractBackend. cbn [ws_KeystorePath ws_Accs].
  destruct (lib_NewKsWallet (lib_NewKeyStore ks) "") as [kw|e] eqn:Hk.
  2:{ unfold FailNow, on_test. eapply wpe_zoom; [done|]. wpe_steps. split; [done|].
      intros [[_ Hok] _]. destruct (Hok ks) as [? ?]. congruence. }
  wpe_steps. destruct n as [|n]; [by cbn|]. destruct (accounts_first n r) as [l Hl]. rewrite Hl.
  cbn [go_index lookup list_lookup]. wpe_steps. set (a := (lib_NewRandomAccount r).1) in *.
  set (c := lib_NewSimulatedBackend _ _ _).
  apply wpe_deployT; cbn [sm_chain sm_test]; [intros b e t E Ht; split; [done|]; intros [_ H]; deploy_failed H E|].
  intros adj E1. set (c1 := mined c a _) in *.
  apply wpe_deployT; cbn [sm_chain sm_test]; [intros b e t E Ht; split; [done|]; intros [_ H]; deploy_failed H E|].
  intros eth E2. set (c2 := mined c1 a _) in *.
  apply wpe_deployT; cbn [sm_chain sm_test]; [intros b e t E Ht; split; [done|]; intros [_ H]; deploy_failed H E|].
  intros token E3. set (c3 := mined c2 a _) in *.
  apply wpe_deployT; cbn [sm_chain sm_test]; [intros b e t E Ht; split; [done|]; intros [_ H]; deploy_failed H E|].
  intros asset E4. wpe_steps. split; [|done].
  apply DeployAdjudicator_addr in E1 as ->. apply DeployAssetETH_addr in E2 as ->.
  apply DeployPerunToken_addr in E3 as ->. apply DeployAssetERC20_addr in E4 as ->.
  assert (nonce c1 a = nonce c a + 1) as N1 by apply mined_nonce.
  assert (nonce c2 a = nonce c a + 2) as N2 by (unfold c2; rewrite mined_nonce, N1; lia).
  assert (nonce c3 a = nonce c a + 3) as N3 by (unfold c3; rewrite mined_nonce, N2; lia).
  split; cbn [su_WalletSetup ws_Accs su_ChainBackend Cb su_Adjudicator su_AssetETH su_AssetERC20s sm_chain].
  - done.
  - do 3 (apply mined_keeps; [lia|]). apply mined_new.
  - do 2 (apply mined_keeps; [lia|]). apply mined_new.
  - eexists _, _, _. split; [reflexivity|]. split; [apply mined_keeps; [lia|]|]; apply mined_new.
Qed.
End simchain.
