(* ===== verification/Generate.v ===== *)
(** * The artefacts for demos (cmd/perunnode/generate.go)

    The configuration of the node in [node.yaml], and for each of alice and bob a
    directory with the configuration of a session, the ID provider, the keystore and
    the database.  Everything is created under temporary names, then moved. *)
From S2P Require Import Prelude Perun Contracts Os User TestConfig TestConfigProps.

Definition aliceAlias : string := "alice".
Definition bobAlias : string := "bob".
Definition nodeConfigFile : string := "node.yaml".
Definition sessionConfigFile : string := "session.yaml".
Definition keystoreDir : string := "keystore".
Definition idProviderFile : string := "idprovider.yaml".
Definition databaseDir : string := "database".

Section generate.
Context {GT : GoTypes} {EL : EthLib} {EN : Env} {TL : TestLib}.
Local Abbreviation osprog := (osprog Yaml).

(** The loop of [moveFiles]: an entry that cannot be moved does not stop it. *)
Fixpoint move_all (files : list (string * string)) : osprog (list string) :=
  match files with
  | [] => mret []
  | (src, dest) :: files =>
      err ← Rename src dest;
      errs ← move_all files;
      mret (match err with
            | Some err => (src +:+ " to " +:+ dest +:+ ": " +:+ error_Error err) :: errs
            | None => errs
            end)
  end.

Definition moveFiles (srcDest : gmap string string) : osprog (option goerror) :=
  errs ← move_all (range_order (map_to_list srcDest));
  mret (match errs with
        | [] => None
        | _ => Some (ErrText ("moving files: [" +:+ String.concat " " errs +:+ "]"))
        end).

(** A map literal: of two entries for a key the later one counts. *)
Definition go_map_literal (l : list (string * string)) : gmap string string :=
  foldl (λ m p, <[p.1 := p.2]> m) ∅ l.

Definition with_contracts (adjudicator assetETH : string) (c : NodeConfig) : NodeConfig :=
  mkNodeConfig (nc_LogLevel c) (nc_LogFile c) (nc_ChainURL c) (nc_ChainID c) adjudicator assetETH
    (nc_AssetERC20s c) (nc_ChainConnTimeout c) (nc_OnChainTxTimeout c) (nc_ResponseTimeout c)
    (nc_CommTypes c) (nc_IDProviderTypes c) (nc_CurrencyInterpreters c).

Definition generateNodeConfig : osprog (option goerror) :=
  absent ← StatNotExist nodeConfigFile;
  if negb absent then mret (Some (ErrText ("file exists - " +:+ nodeConfigFile))) else
  nodeCfg ← newNodeConfig true;
  addrs ← ContractAddrs;
  let '(adjudicator, assetETH, _) := addrs in
  tempNodeConfigFile ← NewConfigFile
    (YNodeConfig (with_contracts (addr_String adjudicator) (addr_String assetETH) nodeCfg));
  match tempNodeConfigFile with
  | inr err => mret (Some err)
  | inl file => moveFiles (go_map_literal [(file, nodeConfigFile)])
  end.

Fixpoint isAnyDirPresent (dirNames : list string) : osprog (option string) :=
  match dirNames with
  | [] => mret None
  | d :: dirNames =>
      absent ← StatNotExist d;
      if negb absent then mret (Some d) else isAnyDirPresent dirNames
  end.

Fixpoint makeDirs (dirNames : list string) : osprog (option goerror) :=
  match dirNames with
  | [] => mret None
  | d :: dirNames =>
      err ← Mkdir d;
      match err with
      | Some _ => mret (Some (ErrText ("creating dir - " +:+ d)))
      | None => makeDirs dirNames
      end
  end.

Definition peerID (userCfg : UserConfig) : PeerID :=
  mkPeerID (uc_Alias userCfg) None (uc_OffChainAddr userCfg) (uc_CommAddr userCfg) (uc_CommType userCfg).

Definition with_Alias (alias : string) (c : Config) : Config :=
  let u := cfg_User c in
  mkConfig (mkUserConfig alias (uc_OnChainAddr u) (uc_OnChainWallet u) (uc_PartAddrs u)
              (uc_OffChainAddr u) (uc_OffChainWallet u) (uc_CommAddr u) (uc_CommType u))
    (cfg_IDProviderType c) (cfg_IDProviderURL c) (cfg_ChainURL c) (cfg_ChainID c)
    (cfg_ChainConnTimeout c) (cfg_OnChainTxTimeout c) (cfg_ResponseTimeout c) (cfg_DatabaseDir c)
    (cfg_PeerReconnTimeout c) (cfg_AssetETH c) (cfg_Adjudicator c).

Definition updatedConfigCopy (c : Config) : Config :=
  let u := cfg_User c in
  let ks := Join (uc_Alias u) keystoreDir in
  mkConfig (mkUserConfig (uc_Alias u) (uc_OnChainAddr u)
              (mkWalletConfig ks (Password (uc_OnChainWallet u))) (uc_PartAddrs u) (uc_OffChainAddr u)
              (mkWalletConfig ks (Password (uc_OffChainWallet u))) (uc_CommAddr u) (uc_CommType u))
    (cfg_IDProviderType c) (Join (uc_Alias u) idProviderFile) (cfg_ChainURL c) (cfg_ChainID c)
    (cfg_ChainConnTimeout c) (cfg_OnChainTxTimeout c) (cfg_ResponseTimeout c)
    (Join (uc_Alias u) databaseDir) (cfg_PeerReconnTimeout c) (cfg_AssetETH c) (cfg_Adjudicator c).

(** Returns at the first error. *)
Definition try_os {A B} (m : osprog (A + goerror)) (k : A → osprog (B + goerror))
    : osprog (B + goerror) :=
  r ← m; match r with inr err => mret (inr err) | inl a => k a end.

Definition session_artefacts : osprog (gmap string string + goerror) :=
  '(aliceCfg, prng) ← NewConfig (rand_New RandSeedForTestAccs) [];
  try_os (mret aliceCfg) (λ aliceCfg, let aliceCfg := with_Alias aliceAlias aliceCfg in
  '(bobCfg, _) ← NewConfig prng [];
  try_os (mret bobCfg) (λ bobCfg, let bobCfg := with_Alias bobAlias bobCfg in
  try_os (NewIDProvider [peerID (cfg_User bobCfg)]) (λ aliceIDProviderFile,
  try_os (NewIDProvider [peerID (cfg_User aliceCfg)]) (λ bobIDProviderFile,
  try_os (NewConfigFile (YSessionConfig (yaml_Config (updatedConfigCopy aliceCfg)))) (λ aliceCfgFile,
  try_os (NewConfigFile (YSessionConfig (yaml_Config (updatedConfigCopy bobCfg)))) (λ bobCfgFile,
  mret (inl (go_map_literal [
    (aliceCfgFile, Join aliceAlias sessionConfigFile);
    (aliceIDProviderFile, Join aliceAlias idProviderFile);
    (cfg_DatabaseDir aliceCfg, Join aliceAlias databaseDir);
    (KeystorePath (uc_OnChainWallet (cfg_User aliceCfg)), Join aliceAlias keystoreDir);
    (bobCfgFile, Join bobAlias sessionConfigFile);
    (cfg_DatabaseDir bobCfg, Join bobAlias databaseDir);
    (bobIDProviderFile, Join bobAlias idProviderFile);
    (KeystorePath (uc_OnChainWallet (cfg_User bobCfg)), Join bobAlias keystoreDir)])))))))).

Definition generateSessionConfig : osprog (option goerror) :=
  present ← isAnyDirPresent [aliceAlias; bobAlias];
  match present with
  | Some dirName => mret (Some (ErrText ("dir exists - " +:+ dirName)))
  | None =>
      err ← makeDirs [aliceAlias; bobAlias];
      match err with
      | Some err => mret (Some err)
      | None =>
          r ← session_artefacts;
          match r with
          | inr err => mret (Some err)
          | inl filesToMove => moveFiles filesToMove
          end
      end
  end.
End generate.
