(* ===== verification/GenerateProps.v ===== *)
(** * What the artefacts for demos are

    Everything is created under a new temporary name, so nothing that exists is
    touched; when the command succeeds the artefacts refer to each other. *)
From S2P Require Import Prelude Perun Contracts Os User TestConfig TestConfigProps Generate.
Local Open Scope Z_scope.

Section generate_props.
Context {GT : GoTypes} {EL : EthLib} {EN : Env} {TL : TestLib} {ENL : EnvLaws}.
Local Abbreviation files := (gmap string (fnode Yaml)).
Implicit Types (w : world Yaml) (m : files) (l : list (string * string)).

(** ** Moving *)

(** The directory of a destination is there, and is not moved itself. *)
Definition dest_ok m l (d : string) : Prop :=
  path_dir d = None ∨ ∃ p, path_dir d = Some p ∧ is_Some (m !! p) ∧ (p ∉ l.*1) ∧ (p ∉ l.*2).

Record movable m l : Prop := {
  mv_nodup : NoDup (l.*1 ++ l.*2);
  mv_each p : p ∈ l → is_Some (m !! p.1) ∧ m !! p.2 = None ∧ dest_ok m l p.2;
}.

Lemma dest_ok_parent m l d : dest_ok m l d → has_parent m d = true.
Proof.
  unfold has_parent. intros [->|(p & -> & Hp & _)]; [by rewrite orb_true_r|].
  by rewrite bool_decide_eq_true_2, orb_true_r.
Qed.

Lemma movable_moved m p l : movable m (p :: l) → movable (moved m p) l.
Proof.
  intros [Hnd Hall]. cbn in Hnd. apply NoDup_cons in Hnd as [H1 Hnd]. rewrite not_elem_of_app in H1.
  rewrite <-Permutation_middle in Hnd. apply NoDup_cons in Hnd as [H2 Hnd]. rewrite not_elem_of_app in H2.
  cbn in H1. rewrite not_elem_of_cons in H1. destruct H1 as (H1 & H12 & H1'), H2 as [H2 H2'].
  split; [done|]. intros q Hq. destruct (Hall q) as (Hs & Hd & Hp); [by right|].
  assert (q.1 ∈ l.*1) by by apply list_elem_of_fmap_2. assert (q.2 ∈ l.*2) by by apply list_elem_of_fmap_2.
  rewrite !moved_ne by congruence. split_and!; [done..|].
  destruct Hp as [Hp|(d & Hp & Hd' & Hn1 & Hn2)]; [by left|]. right. exists d.
  cbn in Hn1, Hn2. rewrite not_elem_of_cons in Hn1, Hn2. rewrite moved_ne by naive_solver. naive_solver.
Qed.

Lemma wpe_move_all P l w Q :
  (∀ errs w',
    (∀ q, q ∉ l.*1 → q ∉ l.*2 → w_files w' !! q = w_files w !! q) →
    (errs = [] → w_files w' = foldl moved (w_files w) l) →
    (no_faults → movable (w_files w) l → errs = []) → Q [] w' errs) →
  wpe P (move_all l) w Q.
Proof.
  revert w Q. induction l as [|[s d] l IH]; intros w Q HQ; [by apply HQ|].
  cbn [move_all]. apply wpe_bind, wpe_Rename.
  - intros e w1 Hw He. cbn [app]. apply wpe_bind, IH. intros errs w2 Hf _ _. wpe_steps. apply HQ; [|done|].
    + cbn. intros q [_ H1]%not_elem_of_cons [_ H2]%not_elem_of_cons. by rewrite Hf, Hw.
    + intros Hnf [Hnd Hall]. destruct (Hall (s, d)) as (Hs & Hd & Hp); [by left|].
      apply dest_ok_parent in Hp. destruct (He Hnf Hp Hs) as [? ?]. cbn in *. congruence.
  - intros w1 Hs Hw. cbn [app]. apply wpe_bind, IH. intros errs w2 Hf Ho Hok. wpe_steps. apply HQ.
    + cbn. intros q [N1 H1]%not_elem_of_cons [N2 H2]%not_elem_of_cons.
      rewrite Hf by done. rewrite Hw. by apply moved_ne.
    + intros E. rewrite (Ho E), Hw. done.
    + intros Hnf Hm. apply Hok; [done|]. rewrite Hw. by apply movable_moved.
Qed.

Lemma go_map_literal_perm l :
  NoDup l.*1 → range_order (map_to_list (go_map_literal l)) ≡ₚ l.
Proof.
  intros Hnd. etrans; [apply range_perm|].
  assert (go_map_literal l = list_to_map (reverse l)) as ->.
  { clear Hnd. unfold go_map_literal. induction l as [|[k v] l IH] using rev_ind; [done|].
    rewrite foldl_app, reverse_snoc. cbn. by rewrite IH. }
  rewrite map_to_list_to_map, reverse_Permutation; [done|]. by rewrite fmap_reverse, reverse_Permutation.
Qed.

Lemma movable_perm m l l' : l ≡ₚ l' → movable m l → movable m l'.
Proof.
  intros Hp [Hnd Hall]. split; [by rewrite <-Hp|]. intros p Hin. rewrite <-Hp in Hin.
  destruct (Hall p Hin) as (? & ? & Hd). split_and!; [done..|]. unfold dest_ok in *.
  destruct Hd as [?|(d & ?)]; [by left|]. right. exists d. by rewrite <-Hp.
Qed.

(** Nothing else is touched; without faults everything movable is moved. *)
Lemma wpe_moveFiles P l w Q :
  NoDup (l.*1 ++ l.*2) →
  (∀ err w',
    (∀ q, q ∉ l.*1 → q ∉ l.*2 → w_files w' !! q = w_files w !! q) →
    (err = None → ∀ s d, (s, d) ∈ l → is_Some (w_files w !! s) → w_files w' !! d = w_files w !! s) →
    (no_faults → movable (w_files w) l → err = None) → Q [] w' err) →
  wpe P (moveFiles (go_map_literal l)) w Q.
Proof.
  intros Hnd HQ. pose proof (NoDup_app l.*1 l.*2) as [Hnd1 _]. destruct (Hnd1 Hnd) as (Hn1 & _).
  pose proof (go_map_literal_perm l Hn1) as Hp.
  apply wpe_bind, wpe_move_all. intros errs w' Hf Ho Hok. wpe_steps. apply HQ.
  - intros q. rewrite <-Hp. apply Hf.
  - intros He s d Hin [x Hx]. destruct errs; [|done]. rewrite (Ho eq_refl), Hx.
    rewrite (moves_dest _ _ s d); [by rewrite Hx|by rewrite Hp|by rewrite Hp].
  - intros Hnf Hm. rewrite Hok; [done..|]. by eapply movable_perm.
Qed.

(** ** A session for each of two users *)

(** The temporary names of a user's artefacts. *)
Record art := mkArt { a_cfg : string; a_idp : string; a_db : string; a_ks : string }.
Definition art_names (a : art) : list string := [a_cfg a; a_idp a; a_db a; a_ks a].
Definition art_moves (alias : string) (a : art) : list (string * string) :=
  [(a_cfg a, Join alias sessionConfigFile); (a_idp a, Join alias idProviderFile);
   (a_db a, Join alias databaseDir); (a_ks a, Join alias keystoreDir)].

(** The configuration of the user with the accounts [accs]. *)
Definition demo_config (alias : string) (accs : list address) (port : Z) : Config :=
  yaml_Config (updatedConfigCopy (with_Alias alias (session_config (user_config "" port accs 0) "" ""))).

Definition peer_file (c : Config) : Yaml := YPeerIDs (peers_map [peerID (cfg_User c)]).

(** [m] has the artefacts [a] of the configuration [c], whose only contact is that of [c']. *)
Record has_art m (a : art) (c c' : Config) (accs : list address) : Prop := {
  ha_cfg : m !! a_cfg a = Some (File (Some (YSessionConfig c)));
  ha_idp : m !! a_idp a = Some (File (Some (peer_file c')));
  ha_db : m !! a_db a = Some (Dir []);
  ha_ks : m !! a_ks a = Some (Dir accs);
}.

Lemma wpe_try_os {A B} P (m : osprog Yaml (A + goerror)) (k : A → osprog Yaml (B + goerror)) w Q :
  wpe P m w (λ es w' r, match r with
    | inr e => Q es w' (inr e)
    | inl a => wpe P (k a) w' (λ es' w'' b, Q (es ++ es') w'' b) end) →
  wpe P (try_os m k) w Q.
Proof.
  intros H. apply wpe_bind. eapply wpe_mono; [exact H|]. intros es w' [a|e] HQ; [exact HQ|].
  wpe_steps. by rewrite app_nil_r.
Qed.

Lemma wpe_try_ret {A B} P (a : A) (k : A → osprog Yaml (B + goerror)) w Q :
  wpe P (k a) w Q → wpe P (try_os (mret (inl a)) k) w Q.
Proof. intros H. by apply wpe_try_os. Qed.

(** What [NewConfig] made, by name. *)
Lemma wpe_NewConfig_files P r w Q :
  (¬ ok_env → P) →
  (∀ e w' r', ¬ ok_env → w_files w ⊆ w_files w' → Q [] w' (inr e, r')) →
  (∀ ks port ca db idp w', makes w w' [ks; ca; db; idp] →
     w_files w' !! ks = Some (Dir (accounts 2 r).1) → w_files w' !! db = Some (Dir []) →
     Q [] w' (inl (session_config (user_config ks port (accounts 2 r).1 0) db idp), (accounts 2 r).2)) →
  wpe P (NewConfig r []) w Q.
Proof.
  intros HP He Ho. apply wpe_NewConfig; [done..|]. intros ks port ca keys db idp w' M F. pose proof M as [_ D _ _].
  assert (ks ≠ ca ∧ ks ≠ db ∧ ks ≠ idp ∧ db ≠ idp) as (N1 & N2 & N3 & N4).
  { clear -D. repeat rewrite NoDup_cons in D. set_solver. }
  eapply Ho; [exact M| |]; rewrite F.
  - by rewrite !lookup_insert_ne, lookup_insert_eq by done.
  - by rewrite lookup_insert_ne, lookup_insert_eq by done.
Qed.

(** Another file with [y], after what has been made so far. *)
Definition makes_file (f : osprog Yaml (string + goerror)) (y : Yaml) : Prop :=
  ∀ P w Q, (∀ e w', ¬ no_faults → w_files w ⊆ w_files w' → Q [] w' (inr e)) →
    (∀ n w', makes w w' [n] → w_files w' = <[n := File (Some y)]> (w_files w) → Q [] w' (inl n)) →
    wpe P f w Q.

Lemma wpe_then_file {B} P w0 (ns : list string) f y (k : string → osprog Yaml (B + goerror)) w Q :
  makes_file f y → makes w0 w ns →
  (∀ e w', ¬ ok_env → w_files w0 ⊆ w_files w' → Q [] w' (inr e)) →
  (∀ n w', makes w0 w' (ns ++ [n]) → w_files w ⊆ w_files w' → w_files w' !! n = Some (File (Some y)) →
     wpe P (k n) w' Q) →
  wpe P (try_os f k) w Q.
Proof.
  intros Hm M He Ho. apply wpe_try_os, Hm.
  - intros e w' Hf Hs. apply He; [by intros [? _]|]. etrans; [apply M|done].
  - intros n w' M' F. cbn [app]. apply Ho; [by eapply makes_app|apply M'|]. by rewrite F, lookup_insert_eq.
Qed.

Lemma has_art_mono m m' a c c' accs : m ⊆ m' → has_art m a c c' accs → has_art m' a c c' accs.
Proof. intros H [? ? ? ?]. split; by eapply lookup_weaken. Qed.

Lemma NoDup_sub {A} (l k : list A) : NoDup k → l ⊆+ k → NoDup l.
Proof. intros Hk [k' Hp]%submseteq_Permutation. rewrite Hp in Hk. by apply NoDup_app in Hk as [? _]. Qed.

(** What [session_artefacts] makes. *)
Record made_artefacts w w' (files : list (string * string)) (a b : art) (A B : Config)
    (accsA accsB : list address) : Prop := {
  ma_files : files ≡ₚ art_moves aliceAlias a ++ art_moves bobAlias b;
  ma_keeps : w_files w ⊆ w_files w';
  ma_nodup : NoDup (art_names a ++ art_names b);
  ma_new n : n ∈ art_names a ++ art_names b → w_files w !! n = None ∧ String.prefix "/" n = true;
  ma_only q : String.prefix "/" q = false → w_files w' !! q = w_files w !! q;
  ma_alice : has_art (w_files w') a A B accsA;
  ma_bob : has_art (w_files w') b B A accsB;
}.

Lemma wpe_session_artefacts P w Q :
  let alice := accounts 2 (rand_New RandSeedForTestAccs) in
  let bob := accounts 2 alice.2 in
  (¬ ok_env → P) →
  (∀ e w', ¬ ok_env → w_files w ⊆ w_files w' → Q [] w' (inr e)) →
  (∀ files a b pa pb w',
     made_artefacts w w' files a b (demo_config aliceAlias alice.1 pa) (demo_config bobAlias bob.1 pb)
       alice.1 bob.1 → Q [] w' (inl (go_map_literal files))) →
  wpe P session_artefacts w Q.
Proof.
  intros alice bob HP He Ho. apply wpe_bind, wpe_NewConfig_files; [done| |].
  { intros e w' r' Hne Hs. cbn [app]. apply wpe_try_os. wpe_steps. by apply He. }
  intros ks pa ca db idp w1 M1 K1 D1. cbn [app]. apply wpe_try_ret.
  apply wpe_bind, wpe_NewConfig_files; [done| |].
  { intros e w' r' Hne Hs. cbn [app]. apply wpe_try_os. wpe_steps. apply He; [done|]. etrans; [apply M1|done]. }
  intros ks' pb ca' db' idp' w2 M2 K2 D2. cbn [app]. apply wpe_try_ret.
  pose proof (makes_app _ _ _ _ _ M1 M2) as M.
  eapply wpe_then_file; [intros ??; apply wpe_NewIDProvider|exact M|done|]. clear M. intros i w3 M S3 F3.
  eapply wpe_then_file; [intros ??; apply wpe_NewIDProvider|exact M|done|]. clear M. intros i' w4 M S4 F4.
  eapply wpe_then_file; [intros ??? He' ?; apply wpe_NewConfigFile; [intros; by apply He'|done]|exact M|done|]. clear M. intros c w5 M S5 F5.
  eapply wpe_then_file; [intros ??? He' ?; apply wpe_NewConfigFile; [intros; by apply He'|done]|exact M|done|]. clear M. intros c' w6 M S6 F6.
  wpe_steps. apply (Ho _ (mkArt c i db ks) (mkArt c' i' db' ks') pa pb).
  destruct M as [MK MD MN MO]. cbn [app] in MD, MN.
  assert (S26 : w_files w2 ⊆ w_files w6) by (by do 3 (etrans; [eassumption|])).
  assert (S36 : w_files w3 ⊆ w_files w6) by (by do 2 (etrans; [eassumption|])).
  assert (S46 : w_files w4 ⊆ w_files w6) by (by etrans).
  assert (S16 : w_files w1 ⊆ w_files w6) by (etrans; [apply M2|done]).
  split; cbn.
  - apply Permutation_cons, Permutation_cons, Permutation_cons, Permutation_cons; [done..|].
    apply perm_skip, perm_swap.
  - done.
  - eapply NoDup_sub; [exact MD|]. cbn. solve_submseteq.
  - intros n Hn. destruct (MN n) as (? & _ & ?); [|done].
    eapply elem_of_submseteq; [exact Hn|]. cbn. solve_submseteq.
  - intros q Hq. apply MO. intros Hin. apply MN in Hin as (_ & _ & Hp). congruence.
  - split; cbn; by eapply lookup_weaken.
  - split; cbn; by eapply lookup_weaken.
Qed.

(** ** The directories *)
Lemma wpe_StatNotExist P path w Q :
  (∀ b w', w_files w' = w_files w → (b = true → w_files w !! path = None) →
    (no_faults → w_files w !! path = None → b = true) → Q [] w' b) →
  wpe P (StatNotExist path) w Q.
Proof.
  intros H. apply wpe_bind, wpe_syscall. intros [e|] Hf; wpe_steps; apply H; try done.
  - intros Hnf. by apply Hf in Hnf.
  - by intros ?%bool_decide_eq_true.
  - intros _ ?. by apply bool_decide_eq_true.
Qed.

Lemma wpe_isAnyDirPresent P ds w Q :
  (∀ d w', w_files w' = w_files w → (no_faults → ∃ d, d ∈ ds ∧ is_Some (w_files w !! d)) → Q [] w' (Some d)) →
  (∀ w', w_files w' = w_files w → Forall (λ d, w_files w !! d = None) ds → Q [] w' None) →
  wpe P (isAnyDirPresent ds) w Q.
Proof.
  revert w Q. induction ds as [|d ds IH]; intros w Q He Ho; cbn [isAnyDirPresent].
  { by apply Ho. }
  apply wpe_bind, wpe_StatNotExist. intros [] w1 Hw H1 H2; cbn [negb app].
  - apply IH; rewrite Hw.
    + intros d' w' Hw' Hd. apply He; [done|]. intros (d0 & ? & ?)%Hd. exists d0. split; [by right|done].
    + intros w' Hw' Hall. apply Ho; [done|]. constructor; [by apply H1|done].
  - wpe_steps. apply He; [done|]. intros Hnf. exists d. split; [by left|].
    destruct (w_files w !! d) eqn:E; [by eexists|]. by specialize (H2 Hnf eq_refl).
Qed.

Definition with_dirs (ds : list string) m : files := foldl (λ m d, <[d := Dir []]> m) m ds.

Lemma wpe_makeDirs P ds w Q :
  NoDup ds → Forall (λ d, w_files w !! d = None) ds →
  (∀ e w', ¬ no_faults → w_files w ⊆ w_files w' → Q [] w' (Some e)) →
  (∀ w', w_files w' = with_dirs ds (w_files w) → w_files w ⊆ w_files w' → Q [] w' None) →
  wpe P (makeDirs ds) w Q.
Proof.
  revert w Q. induction ds as [|d ds IH]; intros w Q; cbn [makeDirs].
  { intros _ _ _ Ho. by apply Ho. }
  intros [Hd Hnd]%NoDup_cons [Hn Hall]%Forall_cons He Ho.
  apply wpe_bind, wpe_bind, wpe_syscall. intros [e|] Hf; wpe_steps.
  { apply He; [by intros ?%Hf|done]. }
  cbn [w_files tick]. rewrite Hn. unfold write_node. wpe_steps.
  assert (w_files w ⊆ <[d := Dir []]> (w_files w)) as Hs by by apply insert_subseteq.
  apply IH; [done| | |]; cbn.
  - rewrite Forall_forall in Hall |- *. intros d' Hd'. rewrite lookup_insert_ne; [by apply Hall|by intros ->].
  - intros e w' Hne Hs'. apply He; [done|by etrans].
  - intros w' Hw Hs'. apply Ho; [done|by etrans].
Qed.

(** ** Session artefacts *)

(** An entry of a directory needs the directory. *)
Definition rooted m : Prop :=
  ∀ q d, is_Some (m !! q) → path_dir q = Some d → String.prefix "/" q = false → is_Some (m !! d).

(** The artefacts of a user under their final names: the session configuration
    [c], what it refers to, and the list of contacts. *)
Record user_artefacts m (alias : string) (c : Config) (peers : list PeerID) : Prop := {
  ua_session : m !! Join alias sessionConfigFile = Some (File (Some (YSessionConfig c)));
  ua_alias : uc_Alias (cfg_User c) = alias;
  ua_yaml : yaml_Config c = c;
  ua_peers : m !! cfg_IDProviderURL c = Some (File (Some (YPeerIDs (peers_map peers))));
  ua_database : m !! cfg_DatabaseDir c = Some (Dir []);
  ua_wallets : uc_OffChainWallet (cfg_User c) = uc_OnChainWallet (cfg_User c);
  ua_keys : ∃ onChain offChain,
    m !! KeystorePath (uc_OnChainWallet (cfg_User c)) = Some (Dir [onChain; offChain]) ∧
    uc_OnChainAddr (cfg_User c) = addr_String onChain ∧
    uc_OffChainAddr (cfg_User c) = addr_String offChain;
}.

Lemma made_nodup w w' files a b A B la lb :
  made_artefacts w w' files a b A B la lb → NoDup (files.*1 ++ files.*2).
Proof.
  intros [Hp _ Hnd Hnew _ _ _]. rewrite Hp. apply NoDup_app. split_and!; [exact Hnd| |].
  - intros n Hn Hd. apply Hnew in Hn as [_ Hn]. rewrite fmap_app in Hd. cbn in Hd.
    clear -Hn Hd. repeat (apply elem_of_cons in Hd as [->|Hd]; [discriminate Hn|]). by apply elem_of_nil in Hd.
  - cbn. apply (bool_decide_unpack _). vm_compute. done.
Qed.

Lemma made_dest w w' files a b A B la lb d :
  made_artefacts w w' files a b A B la lb → d ∈ files.*2 →
  String.prefix "/" d = false ∧ ∃ alias, path_dir d = Some alias ∧ (alias = aliceAlias ∨ alias = bobAlias).
Proof.
  intros [Hp _ _ _ _ _ _]. rewrite Hp, fmap_app. cbn. intros Hd.
  repeat (apply elem_of_cons in Hd as [->|Hd];
    [split; [reflexivity|eexists; split; [reflexivity|]; by auto]|]).
  by apply elem_of_nil in Hd.
Qed.

Lemma made_source w w' files a b A B la lb s :
  made_artefacts w w' files a b A B la lb → s ∈ files.*1 →
  w_files w !! s = None ∧ String.prefix "/" s = true ∧ is_Some (w_files w' !! s).
Proof.
  intros [Hp _ _ Hnew _ [] []]. rewrite Hp, fmap_app. intros Hs.
  destruct (Hnew s Hs) as [? ?]. split_and!; [done..|]. cbn in Hs.
  repeat (apply elem_of_cons in Hs as [->|Hs]; [by eexists|]). by apply elem_of_nil in Hs.
Qed.

(** Once the directories have been made, everything can be moved. *)
Lemma made_movable m w w' files a b A B la lb :
  rooted m → m !! aliceAlias = None → m !! bobAlias = None →
  w_files w = with_dirs [aliceAlias; bobAlias] m →
  made_artefacts w w' files a b A B la lb →
  movable (w_files w') files ∧ ∀ q, q ∈ files.*2 → m !! q = None.
Proof.
  intros Hroot Ha Hb Hw Hm.
  assert (∀ d, d ∈ files.*2 → m !! d = None ∧ w_files w' !! d = None) as Hd.
  { intros d Hd. destruct (made_dest _ _ _ _ _ _ _ _ _ _ Hm Hd) as (Hrel & alias & Hdir & Hal).
    assert (m !! d = None) as Hmd.
    { apply eq_None_not_Some. intros Hs. destruct (Hroot d alias Hs Hdir Hrel) as [x Hx].
      destruct Hal; subst alias; congruence. }
    split; [done|]. rewrite (ma_only _ _ _ _ _ _ _ _ _ Hm d Hrel), Hw. cbn.
    rewrite !lookup_insert_ne; [done|..]; intros <-; by vm_compute in Hdir. }
  split; [|intros q Hq; by apply Hd]. split; [by eapply made_nodup|]. intros p Hp.
  assert (p.1 ∈ files.*1) as Hp1 by by apply list_elem_of_fmap_2.
  assert (p.2 ∈ files.*2) as Hp2 by by apply list_elem_of_fmap_2.
  split_and!; [by eapply made_source|by apply Hd|]. right.
  destruct (made_dest _ _ _ _ _ _ _ _ _ _ Hm Hp2) as (_ & alias & Hdir & Hal).
  assert (String.prefix "/" alias = false ∧ path_dir alias = None ∧ is_Some (w_files w' !! alias)) as (H1 & H2 & H3).
  { pose proof (ma_only _ _ _ _ _ _ _ _ _ Hm alias) as Ho. rewrite Hw in Ho.
    destruct Hal; subst alias; (split_and!; [done..|]); rewrite Ho by done; cbn;
      [rewrite lookup_insert_ne by done|]; rewrite lookup_insert_eq; by eexists. }
  exists alias. split_and!; [done..| |].
  - intros Hs. destruct (made_source _ _ _ _ _ _ _ _ _ _ Hm Hs) as (_ & ? & _). congruence.
  - intros Hs. destruct (made_dest _ _ _ _ _ _ _ _ _ _ Hm Hs) as (_ & d & ? & _). congruence.
Qed.

Lemma made_user m m' a c c' accs alias other port moves :
  has_art m a c c' accs → c = demo_config alias accs port → length accs = 2%nat →
  uc_Alias (cfg_User c') = other → art_moves alias a ⊆ moves →
  (∀ s d, (s, d) ∈ moves → is_Some (m !! s) → m' !! d = m !! s) →
  user_artefacts m' alias c [peerID (cfg_User c')].
Proof.
  intros [Hc Hi Hd Hk] -> Hlen Ho Hsub Hmv.
  destruct accs as [|x [|y [|]]]; try discriminate Hlen. clear Hlen.
  assert (∀ s d z, (s, d) ∈ art_moves alias a → m !! s = Some z → m' !! d = Some z) as Hget.
  { intros s d z Hin Hz. rewrite (Hmv s d), Hz; [done|by apply Hsub|by eexists]. }
  unfold art_moves in Hget. split.
  - eapply Hget; [|exact Hc]. by left.
  - done.
  - done.
  - eapply Hget; [|exact Hi]. cbn. do 1 right. by left.
  - eapply Hget; [|exact Hd]. cbn. do 2 right. by left.
  - done.
  - exists x, y. split_and!; [|done..]. eapply Hget; [|exact Hk]. cbn. do 3 right. by left.
Qed.

(** The directories have been made, and the artefacts of [files] under temporary names. *)
Lemma wpe_move_made P m w w' files a b pa pb alice bob Q :
  rooted m → m !! aliceAlias = None → m !! bobAlias = None →
  w_files w = with_dirs [aliceAlias; bobAlias] m → m ⊆ w_files w →
  made_artefacts w w' files a b (demo_config aliceAlias alice pa) (demo_config bobAlias bob pb) alice bob →
  length alice = 2%nat → length bob = 2%nat →
  (∀ err w'', m ⊆ w_files w'' → (no_faults → err = None) →
     (err = None → ∃ A B,
        user_artefacts (w_files w'') aliceAlias A [peerID (cfg_User B)] ∧
        user_artefacts (w_files w'') bobAlias B [peerID (cfg_User A)]) → Q [] w'' err) →
  wpe P (moveFiles (go_map_literal files)) w' Q.
Proof.
  intros Hroot Ha Hb Hw Hs Hm La Lb HQ.
  destruct (made_movable _ _ _ _ _ _ _ _ _ _ Hroot Ha Hb Hw Hm) as [Hmv Hnew].
  pose proof Hm as [Hp Hk _ _ _ HA HB].
  apply wpe_moveFiles; [by eapply made_nodup|]. intros err w'' Hf Ho Hok. apply HQ.
  - apply map_subseteq_spec. intros q x Hq. rewrite Hf.
    + eapply lookup_weaken; [|exact Hk]. by eapply lookup_weaken.
    + intros Hin. apply (made_source _ _ _ _ _ _ _ _ _ _ Hm) in Hin as (Hn & _).
      rewrite (lookup_weaken _ _ _ _ Hq Hs) in Hn. done.
    + intros Hin%Hnew. congruence.
  - intros Hnf. by apply Hok.
  - intros He. specialize (Ho He). exists (demo_config aliceAlias alice pa), (demo_config bobAlias bob pb).
    split; (eapply made_user; [first [exact HA|exact HB]|done|done|done| |exact Ho]);
      intros p Hin; rewrite Hp; apply elem_of_app; by auto.
Qed.

(** The session artefacts.  When the command succeeds, [alice/session.yaml] and
    [bob/session.yaml] hold configurations whose ID provider, database and keystore
    are the files next to them: the keystore has exactly the keys of the two
    addresses of the user, and the only contact of each user is the other one.
    Whatever happens, nothing that existed is changed.  An existing directory is
    refused, and nothing is created then; without that and without a failing system
    call the command succeeds. *)
Lemma wpe_generateSessionConfig w : rooted (w_files w) →
  wpe (¬ ok_env) generateSessionConfig w (λ es w' err,
    let present := is_Some (w_files w !! "alice") ∨ is_Some (w_files w !! "bob") in
    es = [] ∧ w_files w ⊆ w_files w' ∧
    (present → is_Some err ∧ w_files w' = w_files w) ∧
    (ok_env → ¬ present → err = None) ∧
    (err = None → ∃ A B,
       user_artefacts (w_files w') "alice" A [peerID (cfg_User B)] ∧
       user_artefacts (w_files w') "bob" B [peerID (cfg_User A)])).
Proof.
  intros Hroot. apply wpe_bind, wpe_isAnyDirPresent.
  - intros d w1 Hw Hd. wpe_steps. rewrite Hw. split_and!; [done..| |done].
    intros [Hnf _] Hnp. destruct (Hd Hnf) as (d' & Hin & Hs). destruct Hnp.
    repeat (apply elem_of_cons in Hin as [Hin|Hin]; [subst; by auto|]). by apply elem_of_nil in Hin.
  - intros w1 Hw Habs. pose proof Habs as [Ha [Hb _]%Forall_cons]%Forall_cons. cbn [app].
    change (w_files w !! "alice" = None) in Ha. change (w_files w !! "bob" = None) in Hb.
    assert (¬ (is_Some (w_files w !! "alice") ∨ is_Some (w_files w !! "bob"))) as Hnp.
    { intros [[??]|[??]]; congruence. }
    apply wpe_bind, wpe_makeDirs; rewrite ?Hw; [by apply (bool_decide_unpack _)|done| |].
    { intros e w2 Hne Hs. wpe_steps. split_and!; [done|done|done| |done]. intros [Hnf _]. done. }
    intros w2 Hw2 Hs2. cbn [app]. apply wpe_bind, wpe_session_artefacts; [done| |].
    { intros e w3 Hne Hs. wpe_steps. split_and!; [done|by etrans|done|done|done]. }
    intros files a b pa pb w3 Hm. cbn [app].
    eapply wpe_move_made; [done|done|done|done|done|exact Hm|apply length_accounts..|].
    intros err w4 Hs Hok Hres. split_and!; [done|done|done| |done]. intros [Hnf _] _. by apply Hok.
Qed.

(** ** The configuration of the node *)
Definition demo_node_config (inc : bool) : NodeConfig :=
  mkNodeConfig "debug" "" ChainURL ChainID (addr_String (contract 0)) (addr_String (contract 1))
    (if inc then [(addr_String (contract 2), addr_String (contract 3))] else [])
    ChainConnTimeout OnChainTxTimeout ResponseTimeout ["tcp"] ["local"] ["ETH"].

Lemma wpe_newNodeConfig P inc w Q :
  (¬ ok_env → P) →
  (∀ ks w', makes w w' [ks] → Q [] w' (demo_node_config inc)) →
  wpe P (newNodeConfig inc) w Q.
Proof.
  intros HP Ho. apply wpe_bind, wpe_ContractAddrs; [done|]. intros ks keys w' M _. cbn [app].
  specialize (Ho ks w' M). destruct inc; wpe_steps; exact Ho.
Qed.

(** The configuration of the node.  On success [node.yaml] names the addresses
    the contracts of [SetupContracts] get: adjudicator, ETH asset holder, and the
    ERC20 token with its asset holder.  An existing file is refused and nothing is
    created; nothing that existed is ever changed, and nothing else is created outside
    of the system's directory for temporary files; without a failing system call the
    command succeeds. *)
Lemma wpe_generateNodeConfig w :
  wpe (¬ ok_env) generateNodeConfig w (λ es w' err,
    let present := is_Some (w_files w !! "node.yaml") in
    es = [] ∧ w_files w ⊆ w_files w' ∧
    (∀ q, String.prefix "/" q = false → q ≠ "node.yaml" → w_files w' !! q = w_files w !! q) ∧
    (present → is_Some err ∧ w_files w' = w_files w) ∧
    (ok_env → ¬ present → err = None) ∧
    (err = None → w_files w' !! "node.yaml" = Some (File (Some (YNodeConfig (demo_node_config true)))))).
Proof.
  apply wpe_bind, wpe_StatNotExist. intros [] w1 Hw Habs Hok; cbn [negb app].
  2:{ wpe_steps. rewrite Hw. split_and!; [done|done|done|done| |done]. intros [Hnf _] Hn.
      by specialize (Hok Hnf (proj2 (eq_None_not_Some _) Hn)). }
  specialize (Habs eq_refl). assert (¬ is_Some (w_files w !! "node.yaml")) as Hnp.
  { intros [x Hx]. change (w_files w !! nodeConfigFile = Some x) in Hx. congruence. }
  apply wpe_bind, wpe_newNodeConfig; [done|]. intros k1 w2 M2. cbn [app].
  apply wpe_bind, wpe_ContractAddrs; [done|]. intros k2 keys w3 M3 _. cbn [app].
  pose proof (makes_app _ _ _ _ _ M2 M3) as M. apply wpe_bind, wpe_NewConfigFile.
  { intros e w4 Hne Hs Hsame. wpe_steps. split_and!; [done| | |done| |done].
    - rewrite <-Hw. etrans; [apply M|done].
    - intros q Hq _. rewrite Hsame by done. rewrite (mk_only _ _ _ M); [by rewrite Hw|].
      intros Hin. apply M in Hin as (_ & _ & ?). congruence.
    - by intros [? _]. }
  intros file w4 M4 F. cbn [app]. pose proof (makes_app _ _ _ _ _ M M4) as [MK MD MN MO].
  rewrite Hw in MK, MN, MO. assert (Hnode : w_files w3 !! nodeConfigFile = None).
  { rewrite (mk_only _ _ _ M); [by rewrite Hw|]. intros Hin. by apply M in Hin as (_ & _ & ?). }
  destruct (MN file) as (Hfile & _ & Hp); [cbn; by do 2 right; left|].
  assert (Hne : file ≠ nodeConfigFile) by (intros ->; discriminate Hp).
  apply wpe_moveFiles.
  { cbn. repeat constructor; [|by intros ?%elem_of_nil]. by intros ->%list_elem_of_singleton. }
  intros err w5 Hf Ho Hok'. split_and!; [done| | |done| |].
  - apply map_subseteq_spec. intros q x Hq. rewrite Hf; [by eapply lookup_weaken|..];
      cbn; intros ->%list_elem_of_singleton; congruence.
  - intros q Hq Hqn. rewrite Hf; [apply MO; intros Hin; apply MN in Hin as (_ & _ & ?); congruence|..];
      cbn; intros ->%list_elem_of_singleton; [congruence|by apply Hqn].
  - intros [Hnf _] _. apply Hok'; [done|]. split; [cbn; repeat constructor; [|by intros ?%elem_of_nil]|].
    + by intros ->%list_elem_of_singleton.
    + intros p ->%list_elem_of_singleton. cbn. rewrite F, lookup_insert_eq, lookup_insert_ne by done.
      split_and!; [by eexists|done|by left].
  - intros He. change "node.yaml" with nodeConfigFile. rewrite (Ho He file nodeConfigFile); [|by left|]; rewrite F, lookup_insert_eq; [done|by eexists].
Qed.

End generate_props.
