(* ===== verification/ConfigFile.v ===== *)
(** * Reading a session configuration (session/config.go)

    [ParseConfig] reads a file of the file system with viper.  What the demo
    artefacts hold is what it reads back. *)
From S2P Require Import Prelude Perun Contracts Os User TestConfig TestConfigProps Generate GenerateProps.

(** What viper makes of the contents of a file; the fields tagged ["-"] are not read. *)
Class ConfigLib `{GoTypes} := { v_Unmarshal_session : Yaml → Config + goerror }.
Class ConfigLaws `{ConfigLib} : Prop := {
  session_read_back c : v_Unmarshal_session (YSessionConfig (yaml_Config c)) = inl (yaml_Config c);
}.

Section config_file.
Context {GT : GoTypes} {EL : EthLib} {EN : Env} {TL : TestLib} {CFL : ConfigLib}.
Implicit Types (w : world Yaml).

Definition ParseConfig (configFile : string) : osprog Yaml (Config + goerror) :=
  err ← syscall; w ← get_state;
  mret (match err, w_files w !! Clean configFile with
        | Some err, _ => inr (ErrWithMessage "reading from source" err)
        | None, Some (File (Some y)) =>
            match v_Unmarshal_session y with
            | inl cfg => inl cfg
            | inr err => inr (ErrWithMessage "unmarshalling" err)
            end
        | None, _ => inr (ErrWithMessage "reading from source" (ErrText "open config file"))
        end).

Context {ENL : EnvLaws} {CFW : ConfigLaws}.

Lemma ParseConfig_run path c w :
  no_faults → w_files w !! Clean path = Some (File (Some (YSessionConfig (yaml_Config c)))) →
  ParseConfig path w = ([], tick w, Ret (inl (yaml_Config c))).
Proof.
  intros Hnf Hf. unfold ParseConfig, syscall, mbind, prog_mbind. cbn. rewrite Hnf.
  cbn -[Clean]. rewrite Hf, session_read_back. done.
Qed.

(** [A] is the configuration of a user of the demo, [peer] the only contact. *)
Record loads w (path : string) (alias : string) (A : Config) (peer : PeerID) : Prop := {
  ld_parse : ParseConfig path w = ([], tick w, Ret (inl A));
  ld_alias : uc_Alias (cfg_User A) = alias;
  ld_peers : w_files w !! cfg_IDProviderURL A = Some (File (Some (YPeerIDs {[ pid_Alias peer := peer ]})));
  ld_key : ∃ onChain offChain,
    w_files w !! KeystorePath (uc_OnChainWallet (cfg_User A)) = Some (Dir [onChain; offChain]) ∧
    uc_OffChainWallet (cfg_User A) = uc_OnChainWallet (cfg_User A) ∧
    uc_OnChainAddr (cfg_User A) = addr_String onChain ∧ uc_OffChainAddr (cfg_User A) = addr_String offChain;
}.

Lemma loads_user w alias path A u :
  no_faults → Clean path = Join alias sessionConfigFile →
  user_artefacts (w_files w) alias A [peerID u] → loads w path alias A (peerID u).
Proof.
  intros Hnf Hp [Hs Hal Hy Hpeers _ Hw (x & y & Hk & Hx & Hy')]. split; [|done| |by exists x, y].
  - pose proof (ParseConfig_run path A w Hnf) as Hr. rewrite Hy, Hp in Hr. by apply Hr.
  - rewrite Hpeers. unfold peers_map. cbn. by rewrite insert_empty.
Qed.

(** C27: The demo artefacts can be used.  After the command that generates them,
    [alice/session.yaml] and [bob/session.yaml] parse; each configuration names a
    keystore with the keys of its two addresses, and an ID provider file whose only
    entry has the alias, the off-chain address and the communication address of the
    other user's configuration -- so each finds the other under the name the other
    has. *)
Theorem demo_config_loads w (Hok : ok_env) (Hroot : rooted (w_files w))
    (Ha : w_files w !! "alice" = None) (Hb : w_files w !! "bob" = None) :
  wp generateSessionConfig w (λ es w' err, es = [] ∧ err = None ∧ ∃ A B,
    loads w' "alice/session.yaml" "alice" A (peerID (cfg_User B)) ∧
    loads w' "bob/session.yaml" "bob" B (peerID (cfg_User A))).
Proof.
  apply (wpe_wp (¬ ok_env)); [|by intros H]. eapply wpe_mono; [by apply wpe_generateSessionConfig|].
  intros es w' err (-> & _ & _ & Hsucc & Hres). assert (err = None) as ->.
  { apply Hsucc; [done|]. intros [[??]|[??]]; congruence. }
  split; [done|]. split; [done|]. destruct (Hres eq_refl) as (A & B & HA & HB). exists A, B.
  split; [apply (loads_user _ "alice")|apply (loads_user _ "bob")]; try done; apply Hok.
Qed.
End config_file.
