(* ===== verification/Client.v ===== *)
(** * The channel client (session/client.go)

    The wrapper around go-perun's client that also owns the message bus, the
    dialer and the database, and counts the goroutines it has started.  [ChClient]
    is the interface the session uses; [client] implements it. *)
From S2P Require Import Prelude Perun Errors Sdk.

Section client.
Context {GT : GoTypes} {GP : GoPerun}.

(** ** The interface *)
Class ChClient (C : Type) := {
  cc_Register : address → string → C → C;
  cc_ProposeChannel : Z → LedgerChannelProposal → C → C * (pch + goerror);
  cc_Handle : C → C;
  cc_RestoreChs : string → Z → C → C * list pch * option goerror;
  cc_Close : C → C * outcome (option goerror);
}.

(** ** The state

    [cl_goroutines] are the functions whose goroutines the wait group counts and that
    have not returned: listening on the message bus, and handling proposals and
    updates.  [cl_onNewChannel] says whether the handler for restored channels is
    installed; the zero value of [dbConn] is nil. *)
Inductive wg_func := WgListen | WgHandle.

Record client := mkClient {
  cl_pClient : pcl;
  cl_msgBus : wbus;
  cl_msgBusRegistry : registerer;
  cl_dbConn : option database;
  cl_goroutines : list wg_func;
  cl_onNewChannel : bool;
}.

Definition set_pClient (p : pcl) (c : client) : client :=
  mkClient p (cl_msgBus c) (cl_msgBusRegistry c) (cl_dbConn c) (cl_goroutines c) (cl_onNewChannel c).
Definition set_msgBus (b : wbus) (c : client) : client :=
  mkClient (cl_pClient c) b (cl_msgBusRegistry c) (cl_dbConn c) (cl_goroutines c) (cl_onNewChannel c).
Definition set_registry (r : registerer) (c : client) : client :=
  mkClient (cl_pClient c) (cl_msgBus c) r (cl_dbConn c) (cl_goroutines c) (cl_onNewChannel c).
Definition set_dbConn (d : option database) (c : client) : client :=
  mkClient (cl_pClient c) (cl_msgBus c) (cl_msgBusRegistry c) d (cl_goroutines c) (cl_onNewChannel c).
Definition set_goroutines (l : list wg_func) (c : client) : client :=
  mkClient (cl_pClient c) (cl_msgBus c) (cl_msgBusRegistry c) (cl_dbConn c) l (cl_onNewChannel c).
Definition set_onNewChannel (b : bool) (c : client) : client :=
  mkClient (cl_pClient c) (cl_msgBus c) (cl_msgBusRegistry c) (cl_dbConn c) (cl_goroutines c) b.

(** ** Operations *)

(** The comm backend (comm/tcp/tcp.go): the timeout for dialing. *)
Record Backend := mkBackend { dialerTimeout : Z }.
Definition NewTCPBackend (dialerTimeout : Z) : Backend := mkBackend dialerTimeout.
Definition NewListener (_ : Backend) (addr : string) : option goerror :=
  WithMessage (NewTCPListener addr) "initializing listener".
Definition NewDialer (b : Backend) : registerer := NewTCPDialer (dialerTimeout b).

(** Adds one to the wait group, and starts a goroutine that takes it away again when
    [f] has returned. *)
Definition runAsGoRoutine (f : wg_func) (c : client) : client :=
  set_goroutines (cl_goroutines c ++ [f]) c.

(** The funder and the adjudicator only go into the SDK's client. *)
Definition newEthereumPaymentClient (comm : Backend) (commAddr : string)
    (offChainCred : Credential) : client + APIError :=
  match wallet_Unlock (cred_Wallet offChainCred) (cred_Addr offChainCred) with
  | Some err => inr (NewAPIErrUnknownInternal (ErrWithMessage "off-chain account" err))
  | None =>
      let dialer := NewDialer comm in
      let msgBus := NewBus (cred_Addr offChainCred) dialer in
      match NewClient (cred_Addr offChainCred) (cred_Wallet offChainCred) with
      | inr err => inr (NewAPIErrUnknownInternal (ErrWithMessage "off-chain account" err))
      | inl pcClient =>
          match NewListener comm commAddr with
          | Some err => inr (NewAPIErrInvalidConfig err "commAddr" commAddr)
          | None => inl (runAsGoRoutine WgListen (mkClient pcClient msgBus dialer None [] false))
          end
      end
  end.

Definition Register (offChainAddr : address) (commAddr : string) (c : client) : client :=
  set_registry (reg_Register offChainAddr commAddr (cl_msgBusRegistry c)) c.

Definition ProposeChannel (timeout : Z) (proposal : LedgerChannelProposal) (c : client)
    : client * (pch + goerror) :=
  let '(p, res) := pcl_ProposeChannel timeout proposal (cl_pClient c) in (set_pClient p c, res).

Definition Handle (c : client) : client := runAsGoRoutine WgHandle c.

(** The second component lists the channels the handler is called with, in
    order, while [Restore] runs. *)
Definition RestoreChs (databaseDir : string) (timeout : Z) (c : client)
    : client * list pch * option goerror :=
  let c := set_onNewChannel true c in
  match LoadDatabase databaseDir with
  | inr err =>
      (c, [], Some (ErrWithMessage ("initializing persistence database in dir - " +:+ databaseDir) err))
  | inl db =>
      let c := set_dbConn (Some db) c in
      let '(p, chs, err) := pcl_Restore timeout (cl_pClient c) in
      (set_onNewChannel false (set_pClient p c), chs, err)
  end.

(** *** Closing

    The statements of [Close].  Each goes on with the next one, returns from [Close],
    or waits. *)
Inductive close_stmt := ClosePClient | CloseMsgBus | WgWait | CloseDbConn.
Inductive close_result := Next | Return (r : outcome (option goerror)) | Waits.

Definition Close_body : list close_stmt := [ClosePClient; CloseMsgBus; WgWait; CloseDbConn].

Definition run_stmt (st : close_stmt) (c : client) : client * close_result :=
  match st with
  | ClosePClient =>
      let '(p, err) := pcl_Close (cl_pClient c) in
      (set_pClient p c,
       match err with
       | Some err => Return (Ret (WithMessage (Some err) "closing channel client"))
       | None => Next
       end)
  | CloseMsgBus =>
      let '(b, busErr) := bus_Close (cl_msgBus c) in
      (set_msgBus b c,
       match busErr with
       | Some busErr => Return (Ret (WithMessage (Some busErr) "closing message bus"))
       | None => Next
       end)
  | WgWait => (c, match cl_goroutines c with [] => Next | _ => Waits end)
  | CloseDbConn =>
      (c, Return (db ← go_deref (cl_dbConn c);
                  Ret (WithMessage (db_Close db) "closing persistence database")))
  end.

(** A function of the wait group returns when the SDK lets it. *)
Definition may_return (c : client) (f : wg_func) : bool :=
  match f with
  | WgListen => bus_ListenReturns (cl_msgBus c)
  | WgHandle => pcl_HandleReturns (cl_pClient c)
  end.
Definition end_goroutines (c : client) : client :=
  set_goroutines (filter (λ f, may_return c f = false) (cl_goroutines c)) c.

(** The schedule in which goroutines end only while [Close] waits for them. *)
Fixpoint run_close (body : list close_stmt) (c : client) : client * outcome (option goerror) :=
  match body with
  | [] => (c, Ret None)
  | st :: rest =>
      match run_stmt st c with
      | (c, Next) => run_close rest c
      | (c, Return r) => (c, r)
      | (c, Waits) =>
          let c := end_goroutines c in
          match cl_goroutines c with [] => run_close rest c | _ => (c, Block) end
      end
  end.
Definition Close (c : client) : client * outcome (option goerror) := run_close Close_body c.

(** Every schedule: goroutines may end at any time.  A state is the client with the
    statements left, or with what [Close] has returned. *)
Definition close_state : Type := client * (list close_stmt + outcome (option goerror)).
Inductive close_step : close_state → close_state → Prop :=
| close_goroutine c k l1 f l2 :
    cl_goroutines c = l1 ++ f :: l2 → may_return c f = true →
    close_step (c, k) (set_goroutines (l1 ++ l2) c, k)
| close_next st rest c c' :
    run_stmt st c = (c', Next) → close_step (c, inl (st :: rest)) (c', inl rest)
| close_return st rest c c' r :
    run_stmt st c = (c', Return r) → close_step (c, inl (st :: rest)) (c', inr r).

#[export] Instance client_ChClient : ChClient client := {
  cc_Register := Register;
  cc_ProposeChannel := ProposeChannel;
  cc_Handle := Handle;
  cc_RestoreChs := RestoreChs;
  cc_Close := Close;
}.

(** ** Properties *)

(** A client whose database is open. *)
Definition client_ready (c : client) : Prop := is_Some (cl_dbConn c).

(** Closed, the client and the bus let the goroutines return. *)
Lemma closed_may_return {CL : ClientCloseLaws} c f p b :
  pcl_Close p = (cl_pClient c, None) → bus_Close b = (cl_msgBus c, None) → may_return c f = true.
Proof. intros Hp Hb. destruct f; cbn; [by eapply bus_Close_listener|by eapply pcl_Close_handlers]. Qed.

Lemma closed_end {CL : ClientCloseLaws} c p b :
  pcl_Close p = (cl_pClient c, None) → bus_Close b = (cl_msgBus c, None) →
  end_goroutines c = set_goroutines [] c.
Proof.
  intros Hp Hb. unfold end_goroutines. f_equal. induction (cl_goroutines c) as [|f l IH]; [done|].
  rewrite filter_cons_False; [done|]. by rewrite (closed_may_return c f p b).
Qed.

(** What [Close] returns. *)
Definition close_value (c : client) : outcome (option goerror) :=
  match (pcl_Close (cl_pClient c)).2, (bus_Close (cl_msgBus c)).2 with
  | Some e, _ => Ret (Some (ErrWithMessage "closing channel client" e))
  | None, Some e => Ret (Some (ErrWithMessage "closing message bus" e))
  | None, None =>
      db ← go_deref (cl_dbConn c); Ret (ErrWithMessage "closing persistence database" <$> db_Close db)
  end.

Lemma Close_value {CL : ClientCloseLaws} c : (Close c).2 = close_value c.
Proof.
  unfold Close, Close_body, close_value. cbn -[end_goroutines].
  destruct (pcl_Close (cl_pClient c)) as [p [e|]] eqn:Ep; [done|]. cbn -[end_goroutines].
  destruct (bus_Close (cl_msgBus c)) as [b [e|]] eqn:Eb; [done|]. cbn -[end_goroutines].
  rewrite (closed_end _ (cl_pClient c) (cl_msgBus c)) by done. by destruct (cl_goroutines c).
Qed.

(** What holds at each point of [Close], whatever the goroutines do. *)
Definition close_inv (c c1 : client) (k : list close_stmt + outcome (option goerror)) : Prop :=
  let p := pcl_Close (cl_pClient c) in
  let b := bus_Close (cl_msgBus c) in
  cl_dbConn c1 = cl_dbConn c ∧
  match k with
  | inl [ClosePClient; CloseMsgBus; WgWait; CloseDbConn] =>
      cl_pClient c1 = cl_pClient c ∧ cl_msgBus c1 = cl_msgBus c
  | inl [CloseMsgBus; WgWait; CloseDbConn] => p = (cl_pClient c1, None) ∧ cl_msgBus c1 = cl_msgBus c
  | inl [WgWait; CloseDbConn] => p = (cl_pClient c1, None) ∧ b = (cl_msgBus c1, None)
  | inl [CloseDbConn] =>
      p = (cl_pClient c1, None) ∧ b = (cl_msgBus c1, None) ∧ cl_goroutines c1 = []
  | inl _ => False
  | inr r =>
      r = close_value c ∧ cl_pClient c1 = p.1 ∧
      cl_msgBus c1 = (if p.2 is Some _ then cl_msgBus c else b.1) ∧
      (p.2 = None → b.2 = None → cl_goroutines c1 = [])
  end.

Lemma close_inv_step c c1 k c2 k2 : close_inv c c1 k → close_step (c1, k) (c2, k2) → close_inv c c2 k2.
Proof.
  intros Hinv Hs. inversion Hs as [? ? l1 f l2 Hl Hf|st rest ? ? Hr|st rest ? ? r Hr]; subst; clear Hs.
  - unfold close_inv in *. cbn. destruct Hinv as [Hd Hinv]. split; [done|].
    assert (Hne : cl_goroutines c1 ≠ []) by (rewrite Hl; by destruct l1).
    repeat case_match; try done; by destruct_and!; split_and?; naive_solver.
  - destruct Hinv as [Hd Hinv]. destruct st; cbn in Hr.
    all: destruct rest as [|[] [|[] [|[] [|? ?]]]]; try done; unfold close_inv; cbn in *.
    + destruct (pcl_Close (cl_pClient c1)) as [p [e|]] eqn:Ep; simplify_eq/=.
      destruct Hinv as [Hp Hb]. rewrite <-Hp. by rewrite Ep.
    + destruct (bus_Close (cl_msgBus c1)) as [b [e|]] eqn:Eb; simplify_eq/=.
      destruct Hinv as [Hp Hb]. rewrite <-Hb. by rewrite Eb.
    + destruct (cl_goroutines c1) eqn:El; simplify_eq. by destruct Hinv.
  - destruct Hinv as [Hd Hinv]. destruct st; cbn in Hr.
    all: destruct rest as [|[] [|[] [|[] [|? ?]]]]; try done; unfold close_inv, close_value; cbn in *.
    + destruct (pcl_Close (cl_pClient c1)) as [p [e|]] eqn:Ep; simplify_eq/=.
      destruct Hinv as [Hp Hb]. rewrite <-Hp, Ep. by split_and!.
    + destruct (bus_Close (cl_msgBus c1)) as [b [e|]] eqn:Eb; simplify_eq/=.
      destruct Hinv as [Hp Hb]. rewrite <-Hb, Hp, Eb. by split_and!.
    + by destruct (cl_goroutines c1).
    + simplify_eq/=. destruct Hinv as (Hp & Hb & Hg). rewrite Hp, Hb, Hd. by split_and!.
Qed.

Lemma close_inv_steps c x y : rtc close_step x y → close_inv c x.1 x.2 → close_inv c y.1 y.2.
Proof.
  induction 1 as [|[c1 k1] [c2 k2] z Hs _ IH]; [done|]. intros Hx. apply IH. by eapply close_inv_step.
Qed.
Lemma close_inv_run c x : rtc close_step (c, inl Close_body) x → close_inv c x.1 x.2.
Proof. intros Hr. by apply (close_inv_steps c _ _ Hr). Qed.

Lemma close_progress {CL : ClientCloseLaws} c c1 l :
  close_inv c c1 (inl l) → ∃ next, close_step (c1, inl l) next.
Proof.
  intros [Hd Hinv].
  destruct l as [|st rest]; [done|]. destruct (run_stmt st c1) as [c2 [|r|]] eqn:E.
  - eexists. by apply close_next.
  - eexists. by apply (close_return _ rest).
  - destruct st; cbn in E; try (repeat case_match; simplify_eq/=; done).
    destruct (cl_goroutines c1) as [|f l] eqn:Hl; [done|].
    assert (may_return c1 f = true) as Hf.
    { destruct rest as [|[] [|? ?]]; try done. destruct Hinv as [Hp Hb]. by eapply closed_may_return. }
    eexists. by apply (close_goroutine _ _ [] f l).
Qed.

(** The statements and goroutines left become fewer. *)
Definition close_measure (x : close_state) : nat :=
  length (cl_goroutines x.1) + match x.2 with inl l => S (length l) | inr _ => 0 end.
Lemma close_step_measure x y : close_step x y → (close_measure y < close_measure x)%nat.
Proof.
  unfold close_measure. destruct 1 as [c k l1 f l2 Hl _|st rest c c' Hr|st rest c c' r Hr]; cbn.
  - rewrite Hl, !length_app. cbn. lia.
  - assert (cl_goroutines c' = cl_goroutines c) as ->; [|lia].
    destruct st; cbn in Hr; repeat case_match; by simplify_eq/=.
  - assert (cl_goroutines c' = cl_goroutines c) as ->; [|lia].
    destruct st; cbn in Hr; repeat case_match; by simplify_eq/=.
Qed.

(** C38: Closing a client that has been restored never hangs and never crashes, however
    its goroutines are scheduled: every run of [Close] ends, at no point of it is
    everything stuck, and it returns what the run in which the goroutines end last
    returns.  The client, the bus and the database are closed in this order, the
    first failure is returned with the step it happened in and the later steps are
    skipped; the database is closed, and [Close] returns without a failure before
    it, only once the goroutines of the listener and the handlers have ended. *)
Theorem client_Close_spec {CL : ClientCloseLaws} c db (Hdb : cl_dbConn c = Some db) :
  (Close c).2 =
    match (pcl_Close (cl_pClient c)).2, (bus_Close (cl_msgBus c)).2 with
    | Some e, _ => Ret (Some (ErrWithMessage "closing channel client" e))
    | None, Some e => Ret (Some (ErrWithMessage "closing message bus" e))
    | None, None => Ret (ErrWithMessage "closing persistence database" <$> db_Close db)
    end ∧
  Acc (flip close_step) (c, inl Close_body) ∧
  ∀ c1 k, rtc close_step (c, inl Close_body) (c1, k) →
    match k with
    | inl l => (∃ next, close_step (c1, inl l) next) ∧ (l = [CloseDbConn] → cl_goroutines c1 = [])
    | inr r =>
        r = (Close c).2 ∧ cl_pClient c1 = (pcl_Close (cl_pClient c)).1 ∧
        match (pcl_Close (cl_pClient c)).2, (bus_Close (cl_msgBus c)).2 with
        | Some _, _ => cl_msgBus c1 = cl_msgBus c
        | None, Some _ => cl_msgBus c1 = (bus_Close (cl_msgBus c)).1
        | None, None => cl_msgBus c1 = (bus_Close (cl_msgBus c)).1 ∧ cl_goroutines c1 = []
        end
    end.
Proof.
  split_and!.
  - rewrite Close_value. unfold close_value. by rewrite Hdb.
  - apply (wf_projected lt close_measure); [|apply lt_wf]. intros x y. apply close_step_measure.
  - intros c1 k Hrun. pose proof (close_inv_run c _ Hrun) as Hinv. cbn [fst snd] in Hinv.
    destruct k as [l|r].
    + split; [by eapply close_progress|]. intros ->. apply Hinv.
    + destruct Hinv as (_ & -> & Hp & Hb & Hg). rewrite Close_value. split_and!; [done..|].
      destruct (pcl_Close (cl_pClient c)).2, (bus_Close (cl_msgBus c)).2; try done. split; [done|by apply Hg].
Qed.

(** Restoring installs the handler for the channels found in the database and
    removes it again, so that channels opened later are not handled twice; this
    is not done when the database cannot be opened, and the client then crashes
    when it is closed. *)
Theorem RestoreChs_spec {CL : ClientCloseLaws} dir timeout c :
  let '(c', chs, err) := RestoreChs dir timeout c in
  match LoadDatabase dir with
  | inl db =>
      cl_dbConn c' = Some db ∧ cl_onNewChannel c' = false ∧
      (chs, err) = ((pcl_Restore timeout (cl_pClient c)).1.2, (pcl_Restore timeout (cl_pClient c)).2)
  | inr e =>
      is_Some err ∧ chs = [] ∧ cl_onNewChannel c' = true ∧
      (cl_dbConn c = None → (pcl_Close (cl_pClient c)).2 = None → (bus_Close (cl_msgBus c)).2 = None →
       (Close c').2 = Panic "nil pointer dereference")
  end.
Proof.
  unfold RestoreChs. destruct (LoadDatabase dir) as [db|e].
  - cbn. destruct (pcl_Restore _ _) as [[p chs] err]. done.
  - split_and!; [by eexists|done|done|]. intros Hdb Hp Hb. rewrite Close_value. unfold close_value. cbn.
    by rewrite Hp, Hb, Hdb.
Qed.
End client.
