(* ===== verification/SessionHelpers.v ===== *)
(** * Building channel proposals (the functions of session/session.go that keep
    no state)

    Normalising the balance information of a request, resolving aliases, turning
    it into an allocation and back, and telling the funder about assets. *)
From S2P Require Import Prelude Perun Errors SessionErrors Currency Contracts Sdk Client.

(** [strings.Join(l, ",")] *)
Definition join_comma (l : list string) : string := String.concat "," l.

(** [a, b := l[i], l[0]; l[i] = b; l[0] = a] *)
Definition swap0 {A} (i : nat) (l : list A) : outcome (list A) :=
  a ← go_index l i; b ← go_index l 0; Ret (<[0%nat := a]> (<[i := b]> l)).

Section helpers.
Context {GT : GoTypes} {GP : GoPerun} {EL : EthLib} {DL : DecimalLib}.

(** ** Normalising balance information *)

(** The last index of the own alias; 0 if there is none. *)
Definition ownIdx (parts : list string) : nat :=
  foldl (λ own '(idx, p), if decide (p = OwnAlias) then idx else own) 0%nat (imap pair parts).

(** The slices of the argument are changed in place: the result is what they
    hold afterwards. *)
Definition sanitizeBalInfo (balInfo : BalInfo) : outcome BalInfo :=
  let own := ownIdx (bi_Parts balInfo) in
  if decide (own = 0%nat) then Ret balInfo
  else
    p0 ← go_index (bi_Parts balInfo) 0;
    let parts := <[0%nat := OwnAlias]> (<[own := p0]> (bi_Parts balInfo)) in
    bals ← go_map (swap0 own) (bi_Bals balInfo);
    Ret (mkBalInfo (bi_Currencies balInfo) parts bals).

(** ** Resolving aliases *)
Section retrieve.
  Context {I : Type} {II : IDProviderI I}.

Record partAcc := mkPartAcc {
  knownParts : gmap string PeerID;
  partIDs : list PeerID;
  missingParts : list string;
  repeatedParts : list string;
  foundOwnAlias : bool;
}.

Definition retrieveStep (idp : I) (acc : partAcc) (alias : string) : partAcc :=
  let found := foundOwnAlias acc || bool_decide (alias = OwnAlias) in
  match idp_ReadByAlias idp alias with
  | None =>
      mkPartAcc (knownParts acc) (partIDs acc ++ [PeerID_zero]) (missingParts acc ++ [alias])
        (repeatedParts acc) found
  | Some peerID =>
      let repeated := match knownParts acc !! alias with
                      | Some _ => repeatedParts acc ++ [alias]
                      | None => repeatedParts acc
                      end in
      mkPartAcc (<[alias := peerID]> (knownParts acc)) (partIDs acc ++ [peerID]) (missingParts acc)
        repeated found
  end.

Definition retrievePartIDs (aliases : list string) (idp : I) : list PeerID + APIError :=
  let acc := foldl (retrieveStep idp) (mkPartAcc ∅ [] [] [] false) aliases in
  if bool_decide (missingParts acc ≠ []) then
    inr (NewAPIErrResourceNotFound ResTypePeerID (join_comma (missingParts acc)))
  else if bool_decide (repeatedParts acc ≠ []) then
    inr (NewAPIErrInvalidArgument (ErrConst ErrRepeatedPeerAlias) ArgNamePeerAlias (join_comma aliases))
  else if negb (foundOwnAlias acc) then
    inr (NewAPIErrInvalidArgument (ErrConst ErrEntryForSelfNotFound) ArgNamePeerAlias (join_comma aliases))
  else inl (partIDs acc).
End retrieve.

Definition makeOffChainAddrs (partIDs : list PeerID) : list (option address) :=
  pid_OffChainAddr <$> partIDs.

(** Registering a nil address panics in the dialer. *)
Fixpoint registerParts {C} {CC : ChClient C} (parts : list PeerID) (c : C) : outcome C :=
  match parts with
  | [] => Ret c
  | p :: parts' =>
      if decide (pid_Alias p = OwnAlias) then registerParts parts' c
      else
        addr ← go_deref (pid_OffChainAddr p);
        registerParts parts' (cc_Register addr (pid_CommAddr p) c)
  end.

(** ** Allocations *)

Fixpoint parseRow (currency : option Currency) (row : list string) : outcome (list Z + APIError) :=
  match row with
  | [] => Ret (inl [])
  | bal :: row' =>
      c ← go_deref currency;
      match Currency_Parse c bal with
      | inr err => Ret (inr (NewAPIErrInvalidArgument (ErrWithMessage "parsing amount" err) ArgNameAmount bal))
      | inl amount =>
          rest ← parseRow currency row';
          Ret (match rest with inl amounts => inl (amount :: amounts) | inr e => inr e end)
      end
  end.

Definition registered_Currency (currencyRegistry : Registry) (symbol : string) : option Currency :=
  as_Currency <$> Currency.Currency_ currencyRegistry symbol.

Fixpoint allocRows (contracts : contractRegistry) (currencyRegistry : Registry)
    (symbols : list string) (bals : list (list string))
    : outcome ((list (option Currency) * list address * list (list Z)) + APIError) :=
  match symbols with
  | [] => Ret (inl ([], [], []))
  | symbol :: symbols' =>
      match Asset contracts symbol with
      | None => Ret (inr (NewAPIErrResourceNotFound ResTypeCurrency symbol))
      | Some asset =>
          let currency := registered_Currency currencyRegistry symbol in
          row ← go_index bals 0;
          balances ← parseRow currency row;
          match balances with
          | inr e => Ret (inr e)
          | inl balances =>
              rest ← allocRows contracts currencyRegistry symbols' (drop 1 bals);
              Ret (match rest with
                   | inl (cs, az, bs) => inl (currency :: cs, asset :: az, balances :: bs)
                   | inr e => inr e
                   end)
          end
      end
  end.

Definition makeAllocation (balInfo : BalInfo) (contracts : contractRegistry)
    (currencyRegistry : Registry)
    : outcome ((list (option Currency) * Allocation) + APIError) :=
  if negb (length (bi_Currencies balInfo) =? length (bi_Bals balInfo))%nat then
    Ret (inr (NewAPIErrInvalidArgument
                (ErrText "length of currencies should match the outer length of bals")
                ArgNameCurrency (join_comma (bi_Currencies balInfo))))
  else
    r ← allocRows contracts currencyRegistry (bi_Currencies balInfo) (bi_Bals balInfo);
    Ret (match r with
         | inl (cs, az, bs) => inl (cs, mkAllocation az bs)
         | inr e => inr e
         end).

(** The other direction: the currencies of the assets of a proposal. *)
Fixpoint getCurrencies (assets : list address) (contracts : contractRegistry)
    (currencyRegistry : Registry) : list (option Currency) + goerror :=
  match assets with
  | [] => inl []
  | asset :: assets' =>
      match Symbol_of contracts asset with
      | None => inr (ErrText ("unknown asset " +:+ addr_String asset))
      | Some symbol =>
          match getCurrencies assets' contracts currencyRegistry with
          | inl cs => inl (registered_Currency currencyRegistry symbol :: cs)
          | inr e => inr e
          end
      end
  end.

(** ** The funder *)

(** A nil asset is neither registered nor registers; a nil token panics. *)
Fixpoint updateAssetsInFunder (currs : list (option Currency)) (contracts : contractRegistry)
    (f : libfunder) (onChainAcc : address) : outcome libfunder :=
  match currs with
  | [] => Ret f
  | c :: currs' =>
      c ← go_deref c;
      f ← match Asset contracts (Currency_Symbol c) with
          | None => Ret f
          | Some asset =>
              if IsAssetRegistered f asset then Ret f
              else if is_eth_address asset then
                token ← go_deref (Token contracts (Currency_Symbol c));
                Ret (RegisterAssetERC20_funder f asset token onChainAcc).1
              else Ret f
          end;
      updateAssetsInFunder currs' contracts f onChainAcc
  end.
End helpers.

(** ** Properties *)

Lemma ownIdx_spec parts :
  match decide (OwnAlias ∈ parts) with
  | left _ => parts !! ownIdx parts = Some OwnAlias
  | right _ => ownIdx parts = 0%nat
  end.
Proof.
  unfold ownIdx. induction parts as [|p parts IH] using rev_ind; [done|].
  rewrite imap_app, foldl_app. cbn [imap foldl]. rewrite Nat.add_0_r. unfold compose.
  destruct (decide (p = OwnAlias)) as [->|Hp].
  - rewrite decide_True by set_solver. rewrite lookup_app_r by lia. by rewrite Nat.sub_diag.
  - destruct (decide (OwnAlias ∈ parts)) as [Hin|Hin].
    + rewrite decide_True by set_solver. by apply lookup_app_l_Some.
    + rewrite decide_False by set_solver. done.
Qed.

Lemma swap0_perm {A} i (l l' : list A) : swap0 i l = Ret l' → l' ≡ₚ l.
Proof.
  unfold swap0, go_index. destruct (l !! i) as [a|] eqn:Ha; [|done].
  destruct (l !! 0%nat) as [b|] eqn:Hb; [|done]. cbn. intros [= <-].
  by apply Permutation_insert_swap.
Qed.

Lemma swap0_zip {A B} i (l l' : list A) (k k' : list B) :
  swap0 i l = Ret l' → swap0 i k = Ret k' → swap0 i (zip l k) = Ret (zip l' k').
Proof.
  unfold swap0, go_index. destruct (l !! i) as [a|] eqn:Ha; [|done].
  destruct (l !! 0%nat) as [b|] eqn:Hb; [|done]. cbn. intros [= <-].
  destruct (k !! i) as [c|] eqn:Hc; [|done].
  destruct (k !! 0%nat) as [d|] eqn:Hd; [|done]. cbn. intros [= <-].
  rewrite !lookup_zip_with, Ha, Hb, Hc, Hd. cbn.
  rewrite !insert_zip_with. done.
Qed.

Lemma go_map_ret {A B} (f : A → outcome B) l (P : A → B → Prop) :
  Forall (λ x, ∃ y, f x = Ret y ∧ P x y) l → ∃ l', go_map f l = Ret l' ∧ Forall2 P l l'.
Proof.
  induction 1 as [|x l (y & Hy & HP) _ (l' & IH & IHP)]; [by exists []|].
  exists (y :: l'). cbn. rewrite Hy. cbn. rewrite IH. cbn. split; [done|by constructor].
Qed.

Lemma swap0_ret {A} i (l : list A) : (i < length l)%nat → ∃ l', swap0 i l = Ret l'.
Proof.
  intros Hi. unfold swap0, go_index. destruct (lookup_lt_is_Some_2 l i Hi) as [a ->].
  destruct (lookup_lt_is_Some_2 l 0%nat ltac:(lia)) as [b ->]. by eexists.
Qed.

Section sanitize.
Context {GT : GoTypes}.

Lemma swap0_parts (parts : list string) p0 :
  OwnAlias ∈ parts → parts !! 0%nat = Some p0 →
  swap0 (ownIdx parts) parts = Ret (<[0%nat := OwnAlias]> (<[ownIdx parts := p0]> parts)).
Proof.
  intros Hin H0. pose proof (ownIdx_spec parts) as Ho. rewrite decide_True in Ho by done.
  unfold swap0, go_index. by rewrite Ho, H0.
Qed.

(** Normalising a well-shaped request puts the own alias first and only reorders
    the participants: in every currency each participant keeps its amount.  A
    request that does not name the own alias is left as it is. *)
Theorem sanitizeBalInfo_spec (bi : BalInfo)
    (Hrows : Forall (λ row, length row = length (bi_Parts bi)) (bi_Bals bi)) :
  ∃ bi', sanitizeBalInfo bi = Ret bi' ∧ bi_Currencies bi' = bi_Currencies bi ∧
    bi_Parts bi' ≡ₚ bi_Parts bi ∧
    (OwnAlias ∈ bi_Parts bi → bi_Parts bi' !! 0%nat = Some OwnAlias) ∧
    ((OwnAlias ∉ bi_Parts bi) → bi' = bi) ∧
    Forall2 (λ row row', zip (bi_Parts bi') row' ≡ₚ zip (bi_Parts bi) row) (bi_Bals bi) (bi_Bals bi').
Proof.
  destruct bi as [cs parts bals]. unfold sanitizeBalInfo. cbn [bi_Parts bi_Bals bi_Currencies] in *.
  pose proof (ownIdx_spec parts) as Ho.
  destruct (decide (ownIdx parts = 0%nat)) as [H0|H0].
  { eexists. split; [done|]. cbn. split_and!; try done.
    - intros Hin. rewrite decide_True in Ho by done. by rewrite H0 in Ho.
    - by apply Forall_Forall2_diag, Forall_true. }
  destruct (decide (OwnAlias ∈ parts)) as [Hin|Hin]; [|done].
  assert (ownIdx parts < length parts)%nat as Hlt by (by eapply lookup_lt_Some).
  destruct (lookup_lt_is_Some_2 parts 0%nat ltac:(lia)) as [p0 Hp0].
  unfold go_index at 1. rewrite Hp0. cbn.
  pose proof (swap0_parts parts p0 Hin Hp0) as Hs.
  set (parts' := <[0%nat:=OwnAlias]> (<[ownIdx parts:=p0]> parts)) in *.
  destruct (go_map_ret (swap0 (ownIdx parts)) bals (λ row row', zip parts' row' ≡ₚ zip parts row))
    as (bals' & -> & Hb).
  { eapply Forall_impl; [exact Hrows|]. intros row Hrow. cbn in Hrow.
    destruct (swap0_ret (ownIdx parts) row) as [row' Hr]; [lia|]. exists row'. split; [done|].
    eapply swap0_perm, swap0_zip; done. }
  eexists. split; [done|]. cbn. split_and!; try done.
  - by eapply swap0_perm.
  - intros _. unfold parts'. apply list_lookup_insert_eq. rewrite length_insert. lia.
Qed.

(** A row of amounts that does not reach the own participant crashes the node. *)
Lemma sanitizeBalInfo_short_row bi row rows
    (Ho : ownIdx (bi_Parts bi) ≠ 0%nat) (Hb : bi_Bals bi = row :: rows)
    (Hs : (length row ≤ ownIdx (bi_Parts bi))%nat) :
  sanitizeBalInfo bi = Panic "index out of range".
Proof.
  assert (swap0 (ownIdx (bi_Parts bi)) row = Panic "index out of range") as E.
  { unfold swap0, go_index. rewrite (lookup_ge_None_2 row _ Hs). reflexivity. }
  unfold sanitizeBalInfo. rewrite decide_False by done. unfold go_index.
  destruct (bi_Parts bi !! 0%nat); [|done]. rewrite Hb. cbn [mbind outcome_mbind go_map]. by rewrite E.
Qed.
End sanitize.

Section retrieve_properties.
Context {GT : GoTypes} {I : Type} {II : IDProviderI I}.

(** What the loop has found after the aliases [done_]. *)
Definition retrieve_inv (idp : I) (done_ : list string) (acc : partAcc) : Prop :=
  (∀ a, is_Some (knownParts acc !! a) ↔ a ∈ done_ ∧ is_Some (idp_ReadByAlias idp a)) ∧
  (missingParts acc = [] → Forall2 (λ a p, idp_ReadByAlias idp a = Some p) done_ (partIDs acc)) ∧
  (missingParts acc = [] ↔ Forall (λ a, is_Some (idp_ReadByAlias idp a)) done_) ∧
  (missingParts acc = [] → (repeatedParts acc = [] ↔ NoDup done_)) ∧
  (foundOwnAlias acc = true ↔ OwnAlias ∈ done_).

Lemma retrieve_inv_step idp d acc a :
  retrieve_inv idp d acc → retrieve_inv idp (d ++ [a]) (retrieveStep idp acc a).
Proof.
  intros (Hk & Hp & Hm & Hr & Ho). unfold retrieveStep.
  assert (foundOwnAlias acc || bool_decide (a = OwnAlias) = true ↔ OwnAlias ∈ d ++ [a]) as Ho'.
  { rewrite orb_true_iff, bool_decide_eq_true, Ho, elem_of_app, list_elem_of_singleton. naive_solver. }
  destruct (idp_ReadByAlias idp a) as [p|] eqn:E; unfold retrieve_inv; cbn.
  - split_and!; try done.
    + intros b. rewrite elem_of_app, list_elem_of_singleton. destruct (decide (a = b)) as [<-|Hne].
      * rewrite lookup_insert_eq, E. naive_solver.
      * rewrite lookup_insert_ne, Hk by done. naive_solver.
    + intros Hnil. apply Forall2_app; [by apply Hp|]. by constructor.
    + rewrite Forall_app, Hm. split; [|tauto]. intros. split; [done|]. constructor; [by rewrite E|done].
    + intros Hnil. rewrite NoDup_app, <-(Hr Hnil). specialize (Hk a). destruct (knownParts acc !! a) as [q|].
      * split; [intros [_ [=]]%app_nil|]. intros (_ & Hd & _). destruct (Hd a); [|by left].
        by apply Hk; eexists.
      * assert (a ∉ d) as Hn. { intros Hin. destruct Hk as [_ Hk]. rewrite E in Hk.
          destruct Hk as [? ?]; [split; [done|by eexists]|done]. }
        split; [|tauto]. intros Hrep. split_and!; [done| |apply NoDup_singleton].
        by intros x Hx ->%list_elem_of_singleton.
  - split_and!; try done.
    + intros b. rewrite Hk, elem_of_app, list_elem_of_singleton. split; [naive_solver|].
      intros [[?| ->] Hs]; [done|]. rewrite E in Hs. by apply is_Some_None in Hs.
    + by intros [_ [=]]%app_nil.
    + split; [by intros [_ [=]]%app_nil|]. intros [_ Hs]%Forall_app. inversion_clear Hs as [|?? Ha _].
      rewrite E in Ha. by apply is_Some_None in Ha.
    + by intros [_ [=]]%app_nil.
Qed.

Lemma retrieve_inv_all idp aliases :
  retrieve_inv idp aliases (foldl (retrieveStep idp) (mkPartAcc ∅ [] [] [] false) aliases).
Proof.
  induction aliases as [|a l IH] using rev_ind.
  - unfold retrieve_inv; cbn. split_and!.
    + intros a. rewrite lookup_empty. split; [by intros [? [=]]|set_solver].
    + constructor.
    + split; [constructor|done].
    + split; [constructor|done].
    + split; [done|set_solver].
  - rewrite foldl_app. by apply retrieve_inv_step.
Qed.

Lemma retrievePartIDs_codes (idp : I) aliases :
  match retrievePartIDs aliases idp with
  | inl ps => Forall2 (λ a p, idp_ReadByAlias idp a = Some p) aliases ps
  | inr e => errs_in [ErrResourceNotFound; ErrInvalidArgument] (Some e)
  end.
Proof.
  pose proof (retrieve_inv_all idp aliases) as (_ & Hp & _). unfold retrievePartIDs.
  case_bool_decide as H1; [errs_in_tac|]. case_bool_decide; [errs_in_tac|].
  destruct (foundOwnAlias _); cbn [negb]; [by apply Hp|errs_in_tac].
Qed.

(** Aliases are resolved exactly when each is known to the ID provider, none is
    repeated and the own one is among them; the peer IDs then come in the order
    of the aliases.  Otherwise the error says which rule failed, unknown aliases
    first. *)
Theorem retrievePartIDs_spec (idp : I) aliases :
  match retrievePartIDs aliases idp with
  | inl ps =>
      NoDup aliases ∧ OwnAlias ∈ aliases ∧ Forall2 (λ a p, idp_ReadByAlias idp a = Some p) aliases ps
  | inr e =>
      (Code e = ErrResourceNotFound ∧ ∃ a, a ∈ aliases ∧ idp_ReadByAlias idp a = None) ∨
      (Code e = ErrInvalidArgument ∧ Forall (λ a, is_Some (idp_ReadByAlias idp a)) aliases ∧
       (¬ NoDup aliases ∨ (OwnAlias ∉ aliases)))
  end.
Proof.
  pose proof (retrieve_inv_all idp aliases) as (_ & Hp & Hm & Hr & Ho). unfold retrievePartIDs.
  set (acc := foldl _ _ _) in *. case_bool_decide as H1.
  { left. split; [done|]. rewrite Hm in H1.
    apply not_Forall_Exists in H1; [|apply _]. apply Exists_exists in H1 as (a & Ha & Hn).
    exists a. split; [done|]. by apply eq_None_not_Some. }
  specialize (Hr H1). case_bool_decide as H2.
  { right. split_and!; [done|by apply Hm|]. left. by rewrite <-Hr. }
  destruct (foundOwnAlias acc) eqn:H3; cbn.
  - split_and!; [by apply Hr|by apply Ho|by apply Hp].
  - right. split_and!; [done|by apply Hm|]. right. by intros ?%Ho.
Qed.
End retrieve_properties.

Section allocation_properties.
Context {GT : GoTypes} {GP : GoPerun} {EL : EthLib} {DL : DecimalLib} {GL : GoTypesLaws}.

(** The two registries of a node: every symbol with a contract has an
    interpreter. *)
Record wf_registries (contracts : contractRegistry) (currencies : Registry) : Prop := {
  wfr_contracts : wf_contracts contracts;
  wfr_currencies : wf_Registry currencies;
  wfr_symbols s : is_Some (Asset contracts s) → isRegistered currencies s = true;
}.

Lemma registered_Currency_spec currencies s :
  wf_Registry currencies → isRegistered currencies s = true →
  ∃ c, registered_Currency currencies s = Some c ∧ Currency_Symbol c = s.
Proof.
  intros Hwf. unfold isRegistered, registered_Currency, Currency.Currency_.
  destruct (Currency.currencies currencies !! s) as [[c|]|] eqn:E; [|done..]. intros _.
  apply (wf_entries _ Hwf) in E as (c' & [= <-] & Hc). by exists (as_Currency c).
Qed.

Lemma parseRow_spec c row :
  ∃ r, parseRow (Some c) row = Ret r ∧
  match r with
  | inl ns => Forall2 (λ b n, Currency_Parse c b = inl n) row ns
  | inr e => errs_in [ErrInvalidArgument] (Some e)
  end.
Proof.
  induction row as [|b row (r & IH & IHr)]; [by eexists; split; [done|constructor]|]. cbn.
  destruct (Currency_Parse c b) as [n|err] eqn:E; [|by eexists; split; [done|errs_in_tac]].
  rewrite IH. cbn. eexists. split; [done|]. destruct r; [by constructor|done].
Qed.

(** One currency of an allocation: its asset, interpreter and amounts. *)
Definition alloc_row (contracts : contractRegistry) (currencies : Registry)
    (s : string) (row : list string) (c : option Currency) (a : address) (ns : list Z) : Prop :=
  Asset contracts s = Some a ∧ ∃ c', c = Some c' ∧ Currency_Symbol c' = s ∧
  registered_Currency currencies s = Some c' ∧ Forall2 (λ b n, Currency_Parse c' b = inl n) row ns.

Inductive alloc_rows (contracts : contractRegistry) (currencies : Registry) :
    list string → list (list string) → list (option Currency) → list address → list (list Z) → Prop :=
| alloc_rows_nil : alloc_rows contracts currencies [] [] [] [] []
| alloc_rows_cons s ss row rows c cs a az ns nss :
    alloc_row contracts currencies s row c a ns →
    alloc_rows contracts currencies ss rows cs az nss →
    alloc_rows contracts currencies (s :: ss) (row :: rows) (c :: cs) (a :: az) (ns :: nss).

Lemma allocRows_spec contracts currencies ss rows :
  wf_registries contracts currencies → length ss = length rows →
  ∃ r, allocRows contracts currencies ss rows = Ret r ∧
  match r with
  | inl (cs, az, nss) => alloc_rows contracts currencies ss rows cs az nss
  | inr e => errs_in [ErrInvalidArgument; ErrResourceNotFound] (Some e)
  end.
Proof.
  intros Hwf. revert rows. induction ss as [|s ss IH]; intros [|row rows] Hlen; try done.
  { eexists. split; [done|constructor]. }
  cbn [allocRows]. destruct (Asset contracts s) as [a|] eqn:Ha; [|by eexists; split; [done|errs_in_tac]].
  destruct (registered_Currency_spec currencies s) as (c & Hc & Hs);
    [apply Hwf|apply (wfr_symbols _ _ Hwf); by eexists|].
  rewrite Hc. cbn. destruct (parseRow_spec c row) as (r & -> & Hr). cbn.
  destruct r as [ns|e]; [|eexists; split; [done|]].
  - destruct (IH rows) as (r & Hrest & Hrr); [by injection Hlen|].
    rewrite drop_0, Hrest. cbn. eexists. split; [done|].
    destruct r as [[[cs az] nss]|e]; [|done]. constructor; [|done].
    split; [done|]. exists c. by rewrite Hc.
  - eapply (errs_in_mono _ _ (Some e)); [exact Hr|set_solver].
Qed.

Lemma getCurrencies_alloc contracts currencies ss rows cs az nss :
  wf_contracts contracts → alloc_rows contracts currencies ss rows cs az nss →
  getCurrencies az contracts currencies = inl cs.
Proof.
  intros Hwf. induction 1 as [|s ss row rows c cs a az ns nss (Ha & c' & -> & _ & Hc & _) _ IH]; [done|].
  cbn. assert (Symbol_of contracts a = Some s) as ->; [|by rewrite IH, Hc].
  unfold Symbol_of. apply isAssetRegistered_spec; [done|].
  unfold Asset, isSymbolRegistered in Ha. by destruct (cr_currencies contracts !! s); [eexists|].
Qed.

Lemma makeAllocation_run bi contracts currencies :
  wf_registries contracts currencies →
  ∃ r, makeAllocation bi contracts currencies = Ret r ∧
  match r with
  | inl (cs, al) =>
      alloc_rows contracts currencies (bi_Currencies bi) (bi_Bals bi) cs (al_Assets al) (al_Balances al)
  | inr e => errs_in [ErrInvalidArgument; ErrResourceNotFound] (Some e)
  end.
Proof.
  intros Hwf. unfold makeAllocation. destruct (length _ =? length _)%nat eqn:E; cbn;
    [|by eexists; split; [done|errs_in_tac]].
  apply Nat.eqb_eq in E. destruct (allocRows_spec contracts currencies _ _ Hwf E) as (r & -> & Hr).
  cbn. eexists. split; [done|]. by destruct r as [[[cs az] nss]|e].
Qed.

(** Why an allocation is refused: an unknown currency, or amounts that do not fit the
    currencies or cannot be parsed. *)
Definition alloc_error (contracts : contractRegistry) (currencies : Registry) (bi : BalInfo) (e : APIError) : Prop :=
  (Code e = ErrResourceNotFound ∧ ∃ s, s ∈ bi_Currencies bi ∧ Asset contracts s = None) ∨
  (Code e = ErrInvalidArgument ∧
   (length (bi_Currencies bi) ≠ length (bi_Bals bi) ∨
    ∃ i s row b c err, bi_Currencies bi !! i = Some s ∧ bi_Bals bi !! i = Some row ∧ b ∈ row ∧
      registered_Currency currencies s = Some c ∧ Currency_Parse c b = inr err)).

Lemma parseRow_error c row e :
  parseRow (Some c) row = Ret (inr e) →
  Code e = ErrInvalidArgument ∧ ∃ b err, b ∈ row ∧ Currency_Parse c b = inr err.
Proof.
  induction row as [|b row IH]; cbn; [done|]. destruct (Currency_Parse c b) as [n|err] eqn:E.
  - destruct (parseRow (Some c) row) as [[ns|e']|w|]; cbn; try done. intros [= ->].
    destruct (IH eq_refl) as (Hc & b' & err & Hb & He). split; [done|]. exists b', err. split; [by right|done].
  - intros [= <-]. split; [done|]. exists b, err. split; [by left|done].
Qed.

Lemma allocRows_error contracts currencies ss rows e :
  wf_registries contracts currencies → length ss = length rows →
  allocRows contracts currencies ss rows = Ret (inr e) →
  (Code e = ErrResourceNotFound ∧ ∃ s, s ∈ ss ∧ Asset contracts s = None) ∨
  (Code e = ErrInvalidArgument ∧
   ∃ i s row b c err, ss !! i = Some s ∧ rows !! i = Some row ∧ b ∈ row ∧
     registered_Currency currencies s = Some c ∧ Currency_Parse c b = inr err).
Proof.
  intros Hwf. revert rows. induction ss as [|s ss IH]; intros [|row rows] Hlen; try done.
  cbn [allocRows]. destruct (Asset contracts s) as [a|] eqn:Ha.
  2:{ intros [= <-]. left. split; [done|]. exists s. split; [by left|done]. }
  destruct (registered_Currency_spec currencies s) as (c & Hc & Hs);
    [apply Hwf|apply (wfr_symbols _ _ Hwf); by eexists|].
  rewrite Hc. cbn. rewrite drop_0. destruct (parseRow (Some c) row) as [[ns|e']|w|] eqn:Er; cbn; try done.
  - destruct (allocRows _ _ ss rows) as [[[[cs az] nss]|e']|w|] eqn:El; cbn; try done. intros [= ->].
    injection Hlen as Hlen. destruct (IH rows Hlen El) as [[Hcode (s' & Hin & Hn)]|(Hcode & i & s' & row' & H)].
    + left. split; [done|]. exists s'. split; [by right|done].
    + right. split; [done|]. by exists (S i), s', row'.
  - intros [= ->]. apply parseRow_error in Er as (Hcode & b & err & Hb & He). right. split; [done|].
    by exists 0%nat, s, row, b, c, err.
Qed.

Lemma makeAllocation_error bi contracts currencies e :
  wf_registries contracts currencies → makeAllocation bi contracts currencies = Ret (inr e) →
  alloc_error contracts currencies bi e.
Proof.
  intros Hwf. unfold makeAllocation, alloc_error. destruct (length _ =? length _)%nat eqn:E; cbn.
  - apply Nat.eqb_eq in E. destruct (allocRows _ _ _ _) as [[[[cs az] nss]|e']|w|] eqn:El; cbn; try done.
    intros [= ->]. destruct (allocRows_error _ _ _ _ _ Hwf E El) as [|[? ?]]; [by left|right; auto].
  - intros [= <-]. apply Nat.eqb_neq in E. right. split; [done|by left].
Qed.

Lemma alloc_rows_currencies contracts currencies ss rows cs az nss :
  alloc_rows contracts currencies ss rows cs az nss → Forall is_Some cs ∧ length az = length cs.
Proof.
  induction 1 as [|s ss row rows c cs a az ns nss (_ & c' & -> & _) _ [IH IHl]]; [done|].
  cbn. rewrite IHl. split; [|done]. by constructor; [eexists|].
Qed.

(** Building the allocation of a proposal never crashes on the registries of a
    node.  When it succeeds, every currency has the asset of its symbol and the
    amounts its interpreter parses, in the order of the request; and a peer with
    the same registries recovers from the assets exactly the currencies the
    proposer used.  When it fails, the error is an invalid argument or an unknown
    currency. *)
Theorem makeAllocation_spec bi contracts currencies (Hwf : wf_registries contracts currencies) :
  ∃ r, makeAllocation bi contracts currencies = Ret r ∧
  match r with
  | inl (cs, al) =>
      alloc_rows contracts currencies (bi_Currencies bi) (bi_Bals bi) cs (al_Assets al) (al_Balances al) ∧
      getCurrencies (al_Assets al) contracts currencies = inl cs
  | inr e => errs_in [ErrInvalidArgument; ErrResourceNotFound] (Some e)
  end.
Proof.
  destruct (makeAllocation_run bi contracts currencies Hwf) as (r & -> & Hr).
  exists r. split; [done|]. destruct r as [[cs al]|e]; [|done].
  split; [done|]. eapply getCurrencies_alloc; [apply Hwf|exact Hr].
Qed.

Lemma registerParts_ret {C} {CC : ChClient C} parts (c : C) :
  Forall (λ p, is_Some (pid_OffChainAddr p)) parts → returns (registerParts parts c).
Proof.
  intros Hall. revert c. induction Hall as [|p parts [a Ha] _ IH]; intros c; [by eexists|].
  cbn. case_decide; [apply IH|]. rewrite Ha. cbn. apply IH.
Qed.
End allocation_properties.
