(* ===== verification/Session.v ===== *)
(** * Sessions (session/session.go)

    The state of a session and every operation of it.  The channels of the
    session live in its registry; an operation on one of them is run at its index
    ([zoom_ch]), so the channel a handler holds and the one in the registry are the
    same object.  The contract and currency registries belong to the node and are
    shared by its sessions: an operation gets their present contents in [env].

    [C] implements the channel client, [I] the ID provider.  [OpenCh],
    [RespondChProposal], [HandleProposal] and [GetCh] hold the mutex of the session
    for the parts only that the code locks; the others hold it throughout. *)
From Stdlib Require Import Strings.Byte.
From S2P Require Import Prelude Perun Errors SessionErrors Currency IDProvider Contracts Sdk Timeout.
From S2P Require Import ChRegistry Client User Channel SessionHelpers.

Section session.
Context {GT : GoTypes} {GP : GoPerun} {EL : EthLib} {DL : DecimalLib}.
Context {Out C I : Type} {CC : ChClient C} {II : IDProviderI I}.

(** ** State *)

(** What a session shares with the node. *)
Record env := mkEnv {
  e_contracts : contractRegistry;
  e_currencies : Registry;
  e_walletBackend : WalletBackend;
}.

Definition ChProposalNotifier : Type := ChProposalNotif → Out.

Record chProposalResponderEntry := mkPropEntry {
  pe_proposal : LedgerChannelProposal;
  pe_notif : ChProposalNotif;
  pe_responder : propResponder;
  pe_currencies : list (option Currency);
}.

Record Session := mkSession {
  s_id : string;
  s_isOpen : bool;
  s_user : User;
  s_chClient : C;
  s_idProvider : I;
  s_timeoutCfg : timeoutConfig;
  s_chainURL : string;
  s_chain : ChainBackend;
  s_funder : libfunder;
  s_chs : chRegistry (Channel Out);
  s_chProposalNotifier : option ChProposalNotifier;
  s_chProposalNotifsCache : list ChProposalNotif;
  s_chProposalResponders : gmap string chProposalResponderEntry;
  s_locked : bool;
}.

(** Actions of a session on its environment. *)
Inductive SEvent :=
| SEvCh (i : nat) (e : ChEvent Out)
| SEvWatch (id : string)
| SEvPropose (timeout : Z) (p : LedgerChannelProposal)
| SEvGoNotify (n : ChProposalNotifier) (notif : ChProposalNotif)
| SEvAccept (timeout : Z) (r : propResponder) (acc : proposalAcc)
| SEvReject (timeout : Z) (r : propResponder) (reason : string)
| SEvRejectUpdate (r : updResponder) (reason : string)
| SEvGoHandleUpdate (i : nat) (currState : option PState) (proposed : PState) (r : updResponder)
| SEvLockAll (w : wallet)
| SEvCloseClient.

Definition sprog (A : Type) : Type := prog Session SEvent A.

(** ** Field assignments *)
Definition set_isOpen (b : bool) (s : Session) : Session :=
  mkSession (s_id s) b (s_user s) (s_chClient s) (s_idProvider s) (s_timeoutCfg s) (s_chainURL s)
    (s_chain s) (s_funder s) (s_chs s) (s_chProposalNotifier s) (s_chProposalNotifsCache s)
    (s_chProposalResponders s) (s_locked s).
Definition set_chClient (c : C) (s : Session) : Session :=
  mkSession (s_id s) (s_isOpen s) (s_user s) c (s_idProvider s) (s_timeoutCfg s) (s_chainURL s)
    (s_chain s) (s_funder s) (s_chs s) (s_chProposalNotifier s) (s_chProposalNotifsCache s)
    (s_chProposalResponders s) (s_locked s).
Definition set_idProvider (i : I) (s : Session) : Session :=
  mkSession (s_id s) (s_isOpen s) (s_user s) (s_chClient s) i (s_timeoutCfg s) (s_chainURL s)
    (s_chain s) (s_funder s) (s_chs s) (s_chProposalNotifier s) (s_chProposalNotifsCache s)
    (s_chProposalResponders s) (s_locked s).
Definition set_funder (f : libfunder) (s : Session) : Session :=
  mkSession (s_id s) (s_isOpen s) (s_user s) (s_chClient s) (s_idProvider s) (s_timeoutCfg s)
    (s_chainURL s) (s_chain s) f (s_chs s) (s_chProposalNotifier s) (s_chProposalNotifsCache s)
    (s_chProposalResponders s) (s_locked s).
Definition set_chs (r : chRegistry (Channel Out)) (s : Session) : Session :=
  mkSession (s_id s) (s_isOpen s) (s_user s) (s_chClient s) (s_idProvider s) (s_timeoutCfg s)
    (s_chainURL s) (s_chain s) (s_funder s) r (s_chProposalNotifier s) (s_chProposalNotifsCache s)
    (s_chProposalResponders s) (s_locked s).
Definition set_chProposalNotifier (n : option ChProposalNotifier) (s : Session) : Session :=
  mkSession (s_id s) (s_isOpen s) (s_user s) (s_chClient s) (s_idProvider s) (s_timeoutCfg s)
    (s_chainURL s) (s_chain s) (s_funder s) (s_chs s) n (s_chProposalNotifsCache s)
    (s_chProposalResponders s) (s_locked s).
Definition set_chProposalNotifsCache (l : list ChProposalNotif) (s : Session) : Session :=
  mkSession (s_id s) (s_isOpen s) (s_user s) (s_chClient s) (s_idProvider s) (s_timeoutCfg s)
    (s_chainURL s) (s_chain s) (s_funder s) (s_chs s) (s_chProposalNotifier s) l
    (s_chProposalResponders s) (s_locked s).
Definition set_chProposalResponders (m : gmap string chProposalResponderEntry) (s : Session) : Session :=
  mkSession (s_id s) (s_isOpen s) (s_user s) (s_chClient s) (s_idProvider s) (s_timeoutCfg s)
    (s_chainURL s) (s_chain s) (s_funder s) (s_chs s) (s_chProposalNotifier s)
    (s_chProposalNotifsCache s) m (s_locked s).
Definition set_slocked (b : bool) (s : Session) : Session :=
  mkSession (s_id s) (s_isOpen s) (s_user s) (s_chClient s) (s_idProvider s) (s_timeoutCfg s)
    (s_chainURL s) (s_chain s) (s_funder s) (s_chs s) (s_chProposalNotifier s)
    (s_chProposalNotifsCache s) (s_chProposalResponders s) b.

(** ** The mutex, and operations on a channel of the registry *)
Definition sLock : sprog unit :=
  s ← get_state; if s_locked s then block else modify (set_slocked true).
Definition sUnlock : sprog unit := modify (set_slocked false).
Definition with_slock {A} (m : sprog A) : sprog A := sLock;; a ← m; sUnlock;; mret a.

Definition zoom_ch {A} (i : nat) (m : chprog Out A) : sprog A :=
  zoom (λ s, go_index (chs (s_chs s)) i) (λ ch s, set_chs (update i ch (s_chs s)) s) (SEvCh i) m.

(** [for i := range chs { f(i) }], collecting the results. *)
Fixpoint forEach {A} (idxs : list nat) (f : nat → sprog A) : sprog (list A) :=
  match idxs with
  | [] => mret []
  | i :: idxs' => a ← f i; rest ← forEach idxs' f; mret (a :: rest)
  end.

Definition chIndices (s : Session) : list nat := seq 0 (count (s_chs s)).

Definition ErrClosedSession : APIError := NewAPIErrFailedPreCondition (ErrConst ErrSessionClosed).

(** ** Peer IDs *)
Definition AddPeerID_error (peerID : PeerID) (err : goerror) : APIError :=
  if errors_Is err ErrPeerAliasAlreadyUsed then
    NewAPIErrInvalidArgument err ArgNamePeerAlias (pid_Alias peerID)
  else if errors_Is err ErrPeerIDAlreadyRegistered then
    NewAPIErrResourceExists ResTypePeerID (pid_Alias peerID)
  else if errors_Is err ErrParsingOffChainAddress then
    NewAPIErrInvalidArgument err ArgNameOffChainAddr (pid_OffChainAddrString peerID)
  else NewAPIErrUnknownInternal err.

Definition AddPeerID (peerID : PeerID) : sprog (option APIError) :=
  with_slock (
    s ← get_state;
    if negb (s_isOpen s) then mret (Some ErrClosedSession)
    else
      let '(idp, err) := idp_Write (pid_Alias peerID) peerID (s_idProvider s) in
      modify (set_idProvider idp);;
      mret (AddPeerID_error peerID <$> err)).

Definition GetPeerID (alias : string) : sprog (PeerID * option APIError) :=
  with_slock (
    s ← get_state;
    if negb (s_isOpen s) then mret (PeerID_zero, Some ErrClosedSession)
    else
      match idp_ReadByAlias (s_idProvider s) alias with
      | None => mret (PeerID_zero, Some (NewAPIErrResourceNotFound ResTypePeerID alias))
      | Some peerID => mret (peerID, None)
      end).

(** ** Opening a channel *)
Definition onChainTxTimeout_String (s : Session) : string := Duration_String (onChainTx (s_timeoutCfg s)).

Definition handleProposeChError (s : Session) (parts : list string) (err : goerror)
    : outcome APIError :=
  match handleChainError (s_chainURL s) (onChainTxTimeout_String s) err with
  | Some apiErr => Ret apiErr
  | None =>
      peer ← go_index parts 1;
      Ret (match handleFundingTimeoutError peer 1 err with
           | Some apiErr => apiErr
           | None =>
               match handleProposalError peer (Duration_String (response (s_timeoutCfg s))) err with
               | Some apiErr => apiErr
               | None => NewAPIErrUnknownInternal err
               end
           end)
  end.

(** Locks the session while it adds the channel; returns its index. *)
Definition addCh (ch : Channel Out) : sprog nat :=
  with_slock (
    s ← get_state;
    modify (λ s, set_chs (put ID ch (s_chs s)) s);;
    mret (count (s_chs s))).

(** [newCh] starts the watcher of the channel. *)
Definition s_newCh (p : pch) (currencies : list (option Currency)) (parts : list string)
    (challengeDurSecs : Z) : sprog (Channel Out) :=
  s ← get_state;
  ch ← lift (newCh p (s_chainURL s) currencies parts (s_timeoutCfg s) challengeDurSecs);
  emit (SEvWatch (ID ch));;
  mret ch.

Definition OpenCh (E : env) (openingBalInfo : BalInfo) (app : App) (challengeDurSecs : Z)
    : sprog (ChInfo * option APIError) :=
  s ← get_state;
  if negb (s_isOpen s) then mret (ChInfo_zero, Some ErrClosedSession)
  else
    openingBalInfo ← lift (sanitizeBalInfo openingBalInfo);
    match retrievePartIDs (bi_Parts openingBalInfo) (s_idProvider s) with
    | inr apiErr => mret (ChInfo_zero, Some apiErr)
    | inl parts =>
        c ← lift (registerParts parts (s_chClient s));
        modify (set_chClient c);;
        r ← lift (makeAllocation openingBalInfo (e_contracts E) (e_currencies E));
        match r with
        | inr apiErr => mret (ChInfo_zero, Some apiErr)
        | inl (currencies, allocation) =>
            s ← get_state;
            f ← lift (updateAssetsInFunder currencies (e_contracts E) (s_funder s)
                        (cred_Addr (u_OnChain (s_user s))));
            modify (set_funder f);;
            match NewLedgerChannelProposal challengeDurSecs (pid_OffChainAddr (u_PeerID (s_user s)))
                    allocation (makeOffChainAddrs parts) (app_Def app) (app_Data app) with
            | inr err =>
                mret (ChInfo_zero,
                      Some (NewAPIErrUnknownInternal (ErrWithMessage "constructing channel proposal" err)))
            | inl proposal =>
                let timeout := proposeCh (s_timeoutCfg s) challengeDurSecs in
                emit (SEvPropose timeout proposal);;
                s ← get_state;
                let '(c, res) := cc_ProposeChannel timeout proposal (s_chClient s) in
                modify (set_chClient c);;
                match res with
                | inr err =>
                    apiErr ← lift (handleProposeChError s (bi_Parts openingBalInfo)
                                     (ErrWithMessage "proposing channel" err));
                    mret (ChInfo_zero, Some apiErr)
                | inl p =>
                    ch ← s_newCh p currencies (bi_Parts openingBalInfo) challengeDurSecs;
                    i ← addCh ch;
                    info ← zoom_ch i GetChInfo;
                    mret (info, None)
                end
            end
        end
    end.

(** ** Incoming channel proposals *)

(** Errors of the call are returned; the automatic rejections ignore them. *)
Definition rejectChProposal (responder : propResponder) (reason : string) : sprog (option APIError) :=
  s ← get_state;
  let timeout := respChProposalReject (s_timeoutCfg s) in
  emit (SEvReject timeout responder reason);;
  mret (NewAPIErrUnknownInternal <$> prop_Reject timeout responder reason).

(** The aliases of the peers, up to the first unknown one: the entries from there
    on keep the zero value. *)
Fixpoint peerAliases (idp : I) (peers : list address) : list string * bool :=
  match peers with
  | [] => ([], true)
  | p :: peers' =>
      match idp_ReadByOffChainAddr idp (Some p) with
      | None => ("" :: replicate (length peers') "", false)
      | Some peerID => let '(aliases, ok) := peerAliases idp peers' in (pid_Alias peerID :: aliases, ok)
      end
  end.

Definition chProposalNotif (parts : list string) (currencies : list (option Currency))
    (chProposal : LedgerChannelProposal) (expiry : Z) : outcome ChProposalNotif :=
  bal ← makeBalInfoFromRawBal parts currencies (al_Balances (lcp_InitBals chProposal));
  Ret (mkChProposalNotif (hex (lcp_ProposalID chProposal)) bal
         (makeApp (lcp_App chProposal) (lcp_InitData chProposal))
         (lcp_ChallengeDuration chProposal) expiry).

(** The part of the handler that holds the mutex. *)
Definition storeProposal (entry : chProposalResponderEntry) (expiry : Z) : sprog unit :=
  with_slock (
    let notif := pe_notif entry in
    (if expiry =? 0 then mret tt
     else modify (λ s, set_chProposalResponders
            (<[cpn_ProposalID notif := entry]> (s_chProposalResponders s)) s));;
    s ← get_state;
    match s_chProposalNotifier s with
    | None => modify (λ s, set_chProposalNotifsCache (s_chProposalNotifsCache s ++ [notif]) s)
    | Some n => emit (SEvGoNotify n notif)
    end).

Definition HandleProposal (E : env) (chProposal : ChannelProposal) (responder : propResponder)
    (now : Z) : sprog unit :=
  match chProposal with
  | OtherProposal => mret tt
  | LedgerProposal ledgerChProposal =>
      s ← get_state;
      if negb (s_isOpen s) then mret tt
      else
        let '(parts, ok) := peerAliases (s_idProvider s) (lcp_Peers ledgerChProposal) in
        (if ok then mret None else rejectChProposal responder "unrecogonized peer ID");;
        let expiry := if ok then unix (now + response (s_timeoutCfg s)) else 0 in
        let cs := getCurrencies (al_Assets (lcp_InitBals ledgerChProposal)) (e_contracts E)
                    (e_currencies E) in
        (match cs with
         | inr _ => rejectChProposal responder "unrecogonized currency"
         | inl _ => mret None
         end);;
        let currencies := match cs with inl cs => cs | inr _ => [] end in
        notif ← lift (chProposalNotif parts currencies ledgerChProposal expiry);
        storeProposal (mkPropEntry ledgerChProposal notif responder currencies) expiry
  end.

(** ** Subscriptions *)
Fixpoint sendCachedProposals (i : nat) (notifier : ChProposalNotifier) : sprog unit :=
  match i with
  | O => mret tt
  | S i' =>
      s ← get_state;
      n ← lift (go_index (s_chProposalNotifsCache s) 0);
      emit (SEvGoNotify notifier n);;
      rest ← lift (go_slice (s_chProposalNotifsCache s) 1 i);
      modify (set_chProposalNotifsCache rest);;
      sendCachedProposals i' notifier
  end.

Definition SubChProposals (notifier : ChProposalNotifier) : sprog (option APIError) :=
  with_slock (
    s ← get_state;
    if negb (s_isOpen s) then mret (Some ErrClosedSession)
    else match s_chProposalNotifier s with
    | Some _ => mret (Some (NewAPIErrResourceExists ResTypeProposalSub (s_id s)))
    | None =>
        modify (set_chProposalNotifier (Some notifier));;
        sendCachedProposals (length (s_chProposalNotifsCache s)) notifier;;
        mret None
    end).

Definition UnsubChProposals : sprog (option APIError) :=
  with_slock (
    s ← get_state;
    if negb (s_isOpen s) then mret (Some ErrClosedSession)
    else match s_chProposalNotifier s with
    | None => mret (Some (NewAPIErrResourceNotFound ResTypeProposalSub (s_id s)))
    | Some _ => modify (set_chProposalNotifier None);; mret None
    end).
(** ** Responding to a proposal *)
Definition handleChProposalAcceptError (s : Session) (parts : list string) (err : goerror)
    : outcome APIError :=
  match handleChainError (s_chainURL s) (onChainTxTimeout_String s) err with
  | Some apiErr => Ret apiErr
  | None =>
      peer ← go_index parts 0;
      Ret (match handleFundingTimeoutError peer 0 err with
           | Some apiErr => apiErr
           | None => NewAPIErrUnknownInternal err
           end)
  end.

(** The information is read from the channel the call has made. *)
Definition acceptChProposal (E : env) (entry : chProposalResponderEntry)
    : sprog (ChInfo * option APIError) :=
  s ← get_state;
  let challengeDurSecs := cpn_ChallengeDurSecs (pe_notif entry) in
  let timeout := respChProposalAccept (s_timeoutCfg s) challengeDurSecs in
  let resp := lcp_Accept (pe_proposal entry) (pid_OffChainAddr (u_PeerID (s_user s))) in
  f ← lift (updateAssetsInFunder (pe_currencies entry) (e_contracts E) (s_funder s)
              (cred_Addr (u_OnChain (s_user s))));
  modify (set_funder f);;
  emit (SEvAccept timeout (pe_responder entry) resp);;
  let parts := bi_Parts (cpn_OpeningBalInfo (pe_notif entry)) in
  match prop_Accept timeout (pe_responder entry) resp with
  | inr err =>
      apiErr ← lift (handleChProposalAcceptError s parts (ErrWithMessage "accepting channel proposal" err));
      mret (ChInfo_zero, Some apiErr)
  | inl p =>
      ch ← s_newCh p (pe_currencies entry) parts challengeDurSecs;
      i ← addCh ch;
      info ← zoom_ch i getChInfo;
      mret (info, None)
  end.

(** The part of [RespondChProposal] under the mutex: takes the entry out. *)
Definition takeProposal (chProposalID : string) : sprog (option chProposalResponderEntry) :=
  with_slock (
    s ← get_state;
    match s_chProposalResponders s !! chProposalID with
    | None => mret None
    | Some entry =>
        modify (λ s, set_chProposalResponders
                       (delete chProposalID (s_chProposalResponders s)) s);;
        mret (Some entry)
    end).

Definition answerProposal (E : env) (entry : chProposalResponderEntry) (accept : bool) (now : Z)
    : sprog (ChInfo * option APIError) :=
  let currTime := unix now in
  let expiry := cpn_Expiry (pe_notif entry) in
  if expiry <? currTime then
    mret (ChInfo_zero, Some (NewAPIErrUserResponseTimedOut expiry currTime))
  else if accept then acceptChProposal E entry
  else
    apiErr ← rejectChProposal (pe_responder entry) "rejected by user";
    mret (ChInfo_zero, apiErr).

Definition RespondChProposal (E : env) (chProposalID : string) (accept : bool) (now : Z)
    : sprog (ChInfo * option APIError) :=
  s ← get_state;
  if negb (s_isOpen s) then mret (ChInfo_zero, Some ErrClosedSession)
  else
    entry ← takeProposal chProposalID;
    match entry with
    | None => mret (ChInfo_zero, Some (NewAPIErrResourceNotFound ResTypeProposal chProposalID))
    | Some entry => answerProposal E entry accept now
    end.

(** ** Channels *)
Definition GetChsInfo : sprog (list ChInfo) :=
  with_slock (
    s ← get_state;
    forEach (chIndices s) (λ i, zoom_ch i GetChInfo)).

(** Returns the index of the channel: the pointer the caller gets. *)
Definition GetCh (chID : string) : sprog (option nat * option APIError) :=
  idx ← with_slock (
    s ← get_state;
    _ ← lift (get (s_chs s) chID);
    mret (get_idx (s_chs s) chID));
  match idx with
  | None => mret (None, Some (NewAPIErrResourceNotFound ResTypeChannel chID))
  | Some i => mret (Some i, None)
  end.

(** The result of rejecting an update for an unknown channel is only logged; the
    handler of a known channel runs in a goroutine of its own. *)
Definition HandleUpdate (currState : option PState) (proposed : PState) (responder : updResponder)
    : sprog unit :=
  with_slock (
    s ← get_state;
    if negb (s_isOpen s) then mret tt
    else
      let chID := hex (st_ID proposed) in
      ch ← lift (get (s_chs s) chID);
      match ch, get_idx (s_chs s) chID with
      | Some _, Some i => emit (SEvGoHandleUpdate i currState proposed responder)
      | _, _ => emit (SEvRejectUpdate responder "unknown channel for this session")
      end).

(** ** Closing *)
Definition unlockAllChs : sprog unit :=
  s ← get_state; _ ← forEach (chIndices s) (λ i, zoom_ch i Unlock); mret tt.

Definition closeClient : sprog (option APIError) :=
  s ← get_state;
  emit (SEvLockAll (cred_Wallet (u_OnChain (s_user s))));;
  emit (SEvLockAll (cred_Wallet (u_OffChain (s_user s))));;
  emit SEvCloseClient;;
  let '(c, res) := cc_Close (s_chClient s) in
  modify (set_chClient c);;
  err ← lift res;
  mret ((λ err, NewAPIErrUnknownInternal (ErrWithMessage "closing session" err)) <$> err).

(** What [Close] does to a channel of the list: it takes its mutex, and tells
    whether its phase is unexpected and whether it is open. *)
Definition inspectCh : chprog Out (option ChInfo * option ChInfo) :=
  Lock;;
  ch ← get_state;
  let phase := pch_Phase (ch_pch ch) in
  unexpected ← (if decide (phase ≠ Acting ∧ phase ≠ Withdrawn)
                then info ← getChInfo; mret (Some info) else mret None);
  opened ← (if decide (ch_status ch = open) then info ← getChInfo; mret (Some info) else mret None);
  mret (unexpected, opened).

Definition Close (force : bool) : sprog (list ChInfo * option APIError) :=
  with_slock (
    s ← get_state;
    if negb (s_isOpen s) then mret ([], Some ErrClosedSession)
    else
      infos ← forEach (chIndices s) (λ i, zoom_ch i inspectCh);
      let unexpectedPhaseChs := omap fst infos in
      let openChsInfo := omap snd infos in
      if decide (unexpectedPhaseChs ≠ []) then
        unlockAllChs;;
        mret ([], Some (NewAPIErrFailedPreConditionUnclosedChs
                     (ErrText "session cannot be closed with channels in unexpected phase")
                     unexpectedPhaseChs))
      else if negb force && bool_decide (openChsInfo ≠ []) then
        unlockAllChs;;
        mret ([], Some (NewAPIErrFailedPreConditionUnclosedChs
                     (ErrText "session cannot be closed with channels in open phase without force option")
                     openChsInfo))
      else
        modify (set_isOpen false);;
        apiErr ← closeClient;
        mret (openChsInfo, apiErr)).

(** ** Deploying an asset contract *)
Definition DeployAssetERC20 (E : env) (tokenAddr : string) : sprog (string * option APIError) :=
  with_slock (
    s ← get_state;
    if negb (s_isOpen s) then mret ("", Some ErrClosedSession)
    else
      match wb_ParseAddr (e_walletBackend E) tokenAddr with
      | inr err => mret ("", Some (NewAPIErrInvalidArgument err ArgNameToken tokenAddr))
      | inl token =>
          match Contracts.DeployAssetERC20 (Cb (s_chain s)) (Adjudicator (e_contracts E)) token
                  (cred_Addr (u_OnChain (s_user s))) with
          | (_, Some err) =>
              mret ("", Some (match handleChainError (s_chainURL s) (onChainTxTimeout_String s) err with
                              | Some apiErr => apiErr
                              | None => NewAPIErrUnknownInternal err
                              end))
          | (asset, None) => mret (addr_String asset, None)
          end
      end).

(** ** Restoring channels *)

(** The peer IDs of the participants, unless one is unknown. *)
Fixpoint restoredParts (idp : I) (addrs : list address) : option (list PeerID) :=
  match addrs with
  | [] => Some []
  | a :: addrs' =>
      match idp_ReadByOffChainAddr idp (Some a) with
      | None => None
      | Some p => (p ::.) <$> restoredParts idp addrs'
      end
  end.

Definition handleRestoredCh (E : env) (p : pch) : sprog unit :=
  s ← get_state;
  if decide (pch_Phase p ≠ Acting) then mret tt
  else
    match restoredParts (s_idProvider s) (pch_Peers p) with
    | None => mret tt
    | Some partIDs =>
        c ← lift (registerParts partIDs (s_chClient s));
        modify (set_chClient c);;
        match getCurrencies (al_Assets (st_Allocation (pch_State p))) (e_contracts E) (e_currencies E) with
        | inr _ => mret tt
        | inl currencies =>
            ch ← s_newCh p currencies (pid_Alias <$> partIDs) (pch_ChallengeDuration p);
            i ← addCh ch;
            _ ← zoom_ch i getChInfo;
            mret tt
        end
    end.
End session.
Arguments Session {_ _ _} _ _ _.
Arguments SEvent {_ _} _.
Arguments sprog {_ _ _} _ _ _ _.
Arguments ChProposalNotifier {_} _.

(** ** Creating a session

    A session of the node uses the client of [Client] and the local ID provider. *)
Section new.
Context {GT : GoTypes} {GP : GoPerun} {EL : EthLib} {DL : DecimalLib} {Out : Type}.

(** What opening and decoding the file of the ID provider yields (see
    [NewIDprovider]). *)
Record id_file := mkIDFile {
  if_openErr : option goerror;
  if_decoded : gmap string PeerID;
  if_decodeErr : option goerror;
  if_order : list (string * PeerID);
}.

Definition set_Alias (alias : string) (p : PeerID) : PeerID :=
  mkPeerID alias (pid_OffChainAddr p) (pid_OffChainAddrString p) (pid_CommAddr p) (pid_CommType p).

Definition initIDProvider (idProviderType idProviderURL : string) (file : id_file)
    (wb : WalletBackend) (own : PeerID) : idProviderCache + APIError :=
  if negb (bool_decide (idProviderType = "local")) then
    inr (NewAPIErrInvalidConfig (ErrConst ErrUnsupportedType) "idProviderType" idProviderType)
  else
    match NewIDprovider idProviderURL wb (if_openErr file) (if_decoded file) (if_decodeErr file)
            (if_order file) with
    | inr err => inr (NewAPIErrInvalidConfig err "idProviderURL" idProviderURL)
    | inl idProvider =>
        match Write OwnAlias (set_Alias OwnAlias own) (ip_cache idProvider) with
        | (_, Some err) =>
            inr (NewAPIErrInvalidConfig (ErrWithMessage "registering own user in ID Provider" err)
                   "idProviderURL" idProviderURL)
        | (cache, None) => inl cache
        end
    end.

Definition tcptest_DialerTimeout : Z := 10 * Second.

(** The handler is called for each channel while the client restores it. *)
Fixpoint restoreAll (E : env) (ps : list pch) : sprog Out client idProviderCache unit :=
  match ps with
  | [] => mret tt
  | p :: ps' => handleRestoredCh E p;; restoreAll E ps'
  end.

(** The session ID is a hash over the off-chain address and the time. *)
Definition New (E : env) (cfg : Config) (file : id_file) (sessionID : string)
    : outcome (Session Out client idProviderCache + APIError) :=
  match NewUnlockedUser (e_walletBackend E) (cfg_User cfg) with
  | inr apiErr => Ret (inr apiErr)
  | inl user =>
  if negb (bool_decide (uc_CommType (cfg_User cfg) = "tcp")) then
    Ret (inr (NewAPIErrInvalidConfig (ErrConst ErrUnsupportedType) "commType" (uc_CommType (cfg_User cfg))))
  else
  match initIDProvider (cfg_IDProviderType cfg) (cfg_IDProviderURL cfg) file (e_walletBackend E)
          (u_PeerID user) with
  | inr apiErr => Ret (inr apiErr)
  | inl idProvider =>
  match NewChainBackend (cfg_ChainURL cfg) (cfg_ChainID cfg) (cfg_ChainConnTimeout cfg)
          (cfg_OnChainTxTimeout cfg) (u_OnChain user) with
  | inr err =>
      Ret (inr (NewAPIErrInvalidConfig (ErrWithMessage "connecting to blockchain" err) "chainURL"
                  (cfg_ChainURL cfg)))
  | inl chain =>
      assetETH ← AssetETH (e_contracts E);
      let funder := NewFunder (Cb chain) assetETH (cred_Addr (u_OnChain user)) in
      match newEthereumPaymentClient (NewTCPBackend tcptest_DialerTimeout) (uc_CommAddr (cfg_User cfg))
              (u_OffChain user) with
      | inr apiErr => Ret (inr apiErr)
      | inl chClient =>
          let timeoutCfg := mkTimeoutConfig (cfg_OnChainTxTimeout cfg) (cfg_ResponseTimeout cfg) in
          let '(chClient, restored, err) :=
            RestoreChs (cfg_DatabaseDir cfg) (cfg_PeerReconnTimeout cfg) chClient in
          let sess := mkSession sessionID true user chClient idProvider timeoutCfg (cfg_ChainURL cfg)
                        chain funder (newChRegistry (C := Channel Out)) None [] ∅ false in
          let '(_, sess, done) := restoreAll E restored sess in
          _ ← done;
          match err with
          | Some err =>
              Ret (inr (NewAPIErrInvalidConfig (ErrWithMessage "restoring channels" err) "databaseDir"
                          (cfg_DatabaseDir cfg)))
          | None => Ret (inl (set_chClient (Handle (s_chClient sess)) sess))
          end
      end
  end end end.
End new.
