(* ===== verification/SessionProps.v ===== *)
(** * Properties of sessions *)
From S2P Require Import Prelude Perun Errors SessionErrors Currency IDProvider Contracts Sdk Timeout.
From S2P Require Import ChRegistry Client User Channel ChannelProps SessionHelpers Session.

Section session_props.
Context {GT : GoTypes} {GP : GoPerun} {EL : EthLib} {DL : DecimalLib}.
Context {Out C I : Type} {CC : ChClient C} {II : IDProviderI I}.
Implicit Types (s : Session Out C I) (es : list (SEvent Out)).
Local Abbreviation sprog := (sprog Out C I).

(** ** Helpers *)
Lemma with_slock_ret {A} (m : sprog A) s es s' a :
  with_slock m s = (es, s', Ret a) ↔
  s_locked s = false ∧
  ∃ s1, m (set_slocked true s) = (es, s1, Ret a) ∧ s' = set_slocked false s1.
Proof.
  unfold with_slock, sLock, sUnlock, mbind, prog_mbind, mret, prog_mret, get_state, modify, block.
  destruct (s_locked s).
  { split; [discriminate | intros [? _]; discriminate]. }
  destruct (m _) as [[es1 s1] [x|x|]]; cbn; rewrite ?app_nil_r.
  - split; [intros [= <- <- <-]; eauto | intros (_ & s2 & [= -> -> ->] & ->); done].
  - split; [discriminate | by intros (_ & s2 & ? & _)].
  - split; [discriminate | by intros (_ & s2 & ? & _)].
Qed.

Lemma with_slock_run {A} (m : sprog A) s :
  s_locked s = false →
  with_slock m s =
    let '(es, s1, o) := m (set_slocked true s) in
    (es, match o with Ret _ => set_slocked false s1 | _ => s1 end, o).
Proof.
  unfold with_slock, sLock, sUnlock, mbind, prog_mbind, mret, prog_mret, get_state, modify, block.
  intros ->. destruct (m _) as [[es1 s1] [x|x|]]; cbn; by rewrite ?app_nil_r.
Qed.

Ltac srun :=
  unfold set_isOpen, set_chClient, set_idProvider, set_funder, set_chs, set_chProposalNotifier,
    set_chProposalNotifsCache, set_chProposalResponders, set_slocked in *;
  unfold mbind, prog_mbind, mret, prog_mret, get_state, modify, emit, lift, gets, panic, block in *;
  cbn in *;
  rewrite ?app_nil_r in *.

(** ** The invariant *)

Definition wf_pentry (id : string) (e : chProposalResponderEntry) : Prop :=
  id = cpn_ProposalID (pe_notif e) ∧ cpn_Expiry (pe_notif e) ≠ 0.

(** The registry is indexed by the IDs of its channels, with a subscription no
    notification stays cached, and every pending proposal waits under its own ID. *)
Record wf_session s : Prop := {
  wfs_chs : wf_registry ID (s_chs s);
  wfs_cache : is_Some (s_chProposalNotifier s) → s_chProposalNotifsCache s = [];
  wfs_responders : map_Forall wf_pentry (s_chProposalResponders s);
}.

Local Abbreviation keeps_wf := (keeps (E := SEvent Out) (invariant wf_session)).

(** Assignments to the fields the invariant does not mention. *)
Lemma wf_session_ext s s' :
  s_chs s' = s_chs s → s_chProposalNotifier s' = s_chProposalNotifier s →
  s_chProposalNotifsCache s' = s_chProposalNotifsCache s →
  s_chProposalResponders s' = s_chProposalResponders s → wf_session s → wf_session s'.
Proof. intros E1 E2 E3 E4 [H1 H2 H3]. split; by rewrite ?E1, ?E2, ?E3, ?E4. Qed.

Lemma keeps_wf_emit e : keeps_wf (emit e).
Proof. apply keeps_emit. intros s Hwf. exact Hwf. Qed.
Lemma keeps_wf_modify f :
  (∀ s, s_chs (f s) = s_chs s ∧ s_chProposalNotifier (f s) = s_chProposalNotifier s ∧
        s_chProposalNotifsCache (f s) = s_chProposalNotifsCache s ∧
        s_chProposalResponders (f s) = s_chProposalResponders s) →
  keeps_wf (modify f).
Proof.
  intros H. apply keeps_modify. intros s Hwf. destruct (H s) as (?&?&?&?).
  by eapply wf_session_ext.
Qed.
Hint Resolve keeps_wf_emit : keeps.
Hint Extern 2 (keeps_wf (modify _)) => apply keeps_wf_modify; done : keeps.

Lemma keeps_wf_with_slock {A} (m : sprog A) : keeps_wf m → keeps_wf (with_slock m).
Proof.
  intros Hm s es s' a (_ & s1 & Hr & ->)%with_slock_ret Hwf.
  apply Hm in Hr. eapply (wf_session_ext s1); try done. apply Hr. by eapply (wf_session_ext s).
Qed.
Hint Resolve keeps_wf_with_slock : keeps.

(** Operations on a channel do not change its parameters. *)
Definition same_params (ch : Channel Out) (_ : list (ChEvent Out)) (ch' : Channel Out) : Prop :=
  ch_params ch' = ch_params ch.

#[local] Instance same_params_trace : TraceRel same_params.
Proof. split; unfold same_params; [done|congruence]. Qed.

Lemma keeps_wf_zoom_ch {A} i (m : chprog Out A) : keeps same_params m → keeps_wf (zoom_ch i m).
Proof.
  intros Hm s es s' a. unfold zoom_ch, zoom, go_index.
  destruct (chs (s_chs s) !! i) as [ch|] eqn:Hi; [|done].
  destruct (m ch) as [[es1 ch'] o] eqn:Er. intros [= <- <- ->] [H1 H2 H3].
  split; cbn; [|done..]. eapply update_wf; [done| |done].
  apply Hm in Er. unfold ID. by rewrite Er.
Qed.

Lemma same_params_silent {A} (m : chprog Out A) : keeps silent m → keeps same_params m.
Proof. intros Hm ch es ch' a Hr. by apply Hm in Hr as (? & _). Qed.

Lemma same_params_run_op o : keeps same_params (run_op o).
Proof. intros ch es ch' [] Hr. by apply step_refines in Hr as (? & _). Qed.

Lemma keeps_wf_forEach {A} idxs (f : nat → sprog A) :
  (∀ i, keeps_wf (f i)) → keeps_wf (forEach idxs f).
Proof. intros Hf. induction idxs; cbn; keeps_tac. Qed.
Hint Resolve keeps_wf_forEach : keeps.

Lemma keeps_wf_addCh ch : keeps_wf (addCh ch).
Proof.
  apply keeps_wf_with_slock. keeps_tac. intros [H1 H2 H3]. split; cbn; [by apply put_wf|done..].
Qed.
Hint Resolve keeps_wf_addCh : keeps.

(** Storing a proposal, in one step. *)
Definition stored (entry : chProposalResponderEntry) s : Session Out C I :=
  let notif := pe_notif entry in
  let s := if cpn_Expiry notif =? 0 then s
           else set_chProposalResponders
                  (<[cpn_ProposalID notif := entry]> (s_chProposalResponders s)) s in
  match s_chProposalNotifier s with
  | None => set_chProposalNotifsCache (s_chProposalNotifsCache s ++ [notif]) s
  | Some _ => s
  end.

Definition store_events (entry : chProposalResponderEntry) s : list (SEvent Out) :=
  match s_chProposalNotifier s with
  | None => []
  | Some n => [SEvGoNotify n (pe_notif entry)]
  end.

Lemma storeProposal_run entry s :
  s_locked s = false →
  storeProposal entry (cpn_Expiry (pe_notif entry)) s = (store_events entry s, stored entry s, Ret tt).
Proof.
  destruct s. cbn. intros ->. unfold storeProposal. rewrite with_slock_run by done.
  unfold stored, store_events. srun. destruct (_ =? 0); cbn; by destruct s_chProposalNotifier.
Qed.

Lemma stored_wf entry s : wf_session s → wf_session (stored entry s).
Proof.
  destruct s. intros [H1 H2 H3]. unfold stored. cbn in *. srun.
  assert ((cpn_Expiry (pe_notif entry) =? 0) = false →
    map_Forall wf_pentry (<[cpn_ProposalID (pe_notif entry):=entry]> s_chProposalResponders)) as Hm.
  { intros Hx%Z.eqb_neq. by apply map_Forall_insert_2. }
  destruct (cpn_Expiry (pe_notif entry) =? 0) eqn:Hx; cbn;
    destruct s_chProposalNotifier; (split; [done| |by auto]); cbn; try done; intros Hn;
    try (by apply H2); by destruct (is_Some_None Hn).
Qed.

Lemma keeps_wf_storeProposal entry expiry :
  cpn_Expiry (pe_notif entry) = expiry → keeps_wf (storeProposal entry expiry).
Proof.
  intros <- s es s' a Hr. assert (s_locked s = false) as Hl by (by eapply with_slock_ret).
  rewrite storeProposal_run in Hr by done. injection Hr as <- <- <-. intros Hwf. by apply stored_wf.
Qed.

(** Sending the cached notifications: all of them, oldest first. *)
Lemma sendCachedProposals_run n s :
  sendCachedProposals (length (s_chProposalNotifsCache s)) n s =
  (SEvGoNotify n <$> s_chProposalNotifsCache s, set_chProposalNotifsCache [] s, Ret tt).
Proof.
  destruct s. cbn. induction s_chProposalNotifsCache as [|x ca IH]; [done|].
  cbn [length sendCachedProposals]. srun. unfold go_slice.
  rewrite decide_True by (cbn; lia). cbn.
  rewrite Nat.sub_0_r, drop_0, firstn_all. srun. by rewrite IH.
Qed.

Lemma SubChProposals_run n s :
  s_locked s = false →
  SubChProposals n s =
    if negb (s_isOpen s) then ([], s, Ret (Some ErrClosedSession))
    else match s_chProposalNotifier s with
    | Some _ => ([], s, Ret (Some (NewAPIErrResourceExists ResTypeProposalSub (s_id s))))
    | None =>
        (SEvGoNotify n <$> s_chProposalNotifsCache s,
         set_chProposalNotifsCache [] (set_chProposalNotifier (Some n) s), Ret None)
    end.
Proof.
  destruct s. cbn. intros ->. unfold SubChProposals. rewrite with_slock_run by done.
  srun. destruct s_isOpen; [|done]. srun. destruct s_chProposalNotifier; [done|]. srun.
  match goal with |- context [sendCachedProposals _ n ?s0] =>
    pose proof (sendCachedProposals_run n s0) as E end.
  cbn in E. rewrite E. by srun.
Qed.

Lemma keeps_wf_SubChProposals n : keeps_wf (SubChProposals n).
Proof.
  intros s es s' a Hr. assert (s_locked s = false) as Hl by (by eapply with_slock_ret).
  rewrite SubChProposals_run in Hr by done. intros Hwf.
  destruct (negb (s_isOpen s)); [by simplify_eq|].
  destruct (s_chProposalNotifier s); simplify_eq; [done|]. destruct Hwf. by split.
Qed.

Lemma same_params_inspectCh : keeps same_params inspectCh.
Proof.
  unfold inspectCh, Lock. keeps_tac; try done; by apply same_params_silent, silent_getChInfo.
Qed.
Lemma same_params_Unlock : keeps same_params (Unlock : chprog Out unit).
Proof. unfold Unlock. by keeps_tac. Qed.
Lemma chProposalNotif_expiry parts cs p expiry n :
  chProposalNotif parts cs p expiry = Ret n → cpn_Expiry n = expiry.
Proof.
  unfold chProposalNotif. destruct (makeBalInfoFromRawBal _ _ _); [|discriminate..]. by intros [= <-].
Qed.
Hint Extern 1 (keeps_wf (storeProposal _ _)) =>
  apply keeps_wf_storeProposal; eapply chProposalNotif_expiry; eassumption : keeps.
Hint Resolve keeps_wf_SubChProposals : keeps.
Hint Extern 1 (keeps_wf (zoom_ch _ _)) => apply keeps_wf_zoom_ch;
  first [ apply same_params_silent; first [apply silent_GetChInfo | apply silent_getChInfo]
        | apply same_params_inspectCh | apply same_params_Unlock | apply same_params_run_op ] : keeps.

(** ** Entry points *)
Inductive s_op :=
| SOpAddPeerID (p : PeerID)
| SOpGetPeerID (alias : string)
| SOpOpenCh (E : env) (bal : BalInfo) (app : App) (challengeDurSecs : Z)
| SOpHandleProposal (E : env) (p : ChannelProposal) (r : propResponder) (now : Z)
| SOpSubChProposals (n : ChProposalNotifier Out)
| SOpUnsubChProposals
| SOpRespondChProposal (E : env) (id : string) (accept : bool) (now : Z)
| SOpGetChsInfo
| SOpGetCh (id : string)
| SOpHandleUpdate (currState : option PState) (proposed : PState) (r : updResponder)
| SOpClose (force : bool)
| SOpDeployAssetERC20 (E : env) (token : string)
| SOpHandleRestoredCh (E : env) (p : pch)
| SOpCh (i : nat) (o : ch_op (Out := Out)).

Definition run_sop (o : s_op) : sprog unit :=
  match o with
  | SOpAddPeerID p => AddPeerID p;; mret tt
  | SOpGetPeerID a => GetPeerID a;; mret tt
  | SOpOpenCh E b a d => OpenCh E b a d;; mret tt
  | SOpHandleProposal E p r now => HandleProposal E p r now
  | SOpSubChProposals n => SubChProposals n;; mret tt
  | SOpUnsubChProposals => UnsubChProposals;; mret tt
  | SOpRespondChProposal E id a now => RespondChProposal E id a now;; mret tt
  | SOpGetChsInfo => GetChsInfo;; mret tt
  | SOpGetCh id => GetCh id;; mret tt
  | SOpHandleUpdate c p r => Session.HandleUpdate c p r
  | SOpClose f => Session.Close f;; mret tt
  | SOpDeployAssetERC20 E t => Session.DeployAssetERC20 E t;; mret tt
  | SOpHandleRestoredCh E p => handleRestoredCh E p
  | SOpCh i o => zoom_ch i (run_op o)
  end.

Lemma keeps_wf_UnsubChProposals : keeps_wf UnsubChProposals.
Proof.
  apply keeps_wf_with_slock. keeps_tac.
  intros [H1 H2 H3]. split; [done| |done]. intros Hn. by destruct (is_Some_None Hn).
Qed.

Lemma keeps_wf_takeProposal id : keeps_wf (takeProposal id).
Proof.
  apply keeps_wf_with_slock. keeps_tac.
  intros [H1 H2 H3]. split; [done|done|]. by apply map_Forall_delete.
Qed.

Lemma keeps_wf_newCh p cs parts d : keeps_wf (s_newCh p cs parts d).
Proof. unfold s_newCh. keeps_tac. Qed.
Lemma keeps_wf_reject r reason : keeps_wf (rejectChProposal r reason).
Proof. unfold rejectChProposal. keeps_tac. Qed.
Hint Resolve keeps_wf_UnsubChProposals keeps_wf_takeProposal keeps_wf_newCh keeps_wf_reject : keeps.

Lemma keeps_wf_OpenCh E b a d : keeps_wf (OpenCh E b a d).
Proof. unfold OpenCh. keeps_tac. Qed.

Lemma keeps_wf_HandleProposal E p r now : keeps_wf (HandleProposal E p r now).
Proof.
  destruct p as [p|]; [|keeps_tac]. cbn [HandleProposal]. keeps_tac.
Qed.

Lemma keeps_wf_acceptChProposal E e : keeps_wf (acceptChProposal E e).
Proof. unfold acceptChProposal. keeps_tac. Qed.
Hint Resolve keeps_wf_OpenCh keeps_wf_HandleProposal keeps_wf_acceptChProposal : keeps.
Lemma keeps_wf_RespondChProposal E id acc now : keeps_wf (RespondChProposal E id acc now).
Proof. unfold RespondChProposal, answerProposal. keeps_tac. Qed.

Lemma keeps_wf_closeClient : keeps_wf closeClient.
Proof. unfold closeClient. keeps_tac. Qed.
Lemma keeps_wf_unlockAllChs : keeps_wf unlockAllChs.
Proof. unfold unlockAllChs. keeps_tac. Qed.
Hint Resolve keeps_wf_RespondChProposal keeps_wf_closeClient keeps_wf_unlockAllChs : keeps.

Lemma keeps_wf_Close f : keeps_wf (Session.Close f).
Proof. apply keeps_wf_with_slock. keeps_tac. Qed.
Lemma keeps_wf_handleRestoredCh E p : keeps_wf (handleRestoredCh E p).
Proof. unfold handleRestoredCh. keeps_tac. Qed.
Hint Resolve keeps_wf_Close keeps_wf_handleRestoredCh : keeps.

Lemma keeps_wf_run_sop o : keeps_wf (run_sop o).
Proof.
  destruct o; cbn [run_sop]; try solve [keeps_tac];
    unfold AddPeerID, GetPeerID, GetChsInfo, GetCh, Session.HandleUpdate, Session.DeployAssetERC20.
  all: keeps_tac; apply keeps_wf_with_slock; keeps_tac.
Qed.

(** ** Critical sections

    The handlers of proposals run concurrently: [OpenCh], [RespondChProposal] and
    [HandleProposal] hold the mutex only around their access to the tables.  A run
    is any sequence of these critical sections, of any number of goroutines. *)
Inductive section_op :=
| SecStore (entry : chProposalResponderEntry)
| SecTake (chProposalID : string)
| SecSub (n : ChProposalNotifier Out)
| SecUnsub
| SecAddCh (ch : Channel Out).

Definition run_section (o : section_op) : sprog (option chProposalResponderEntry) :=
  match o with
  | SecStore e => storeProposal e (cpn_Expiry (pe_notif e));; mret None
  | SecTake id => takeProposal id
  | SecSub n => SubChProposals n;; mret None
  | SecUnsub => UnsubChProposals;; mret None
  | SecAddCh ch => addCh ch;; mret None
  end.

(** A goroutine [go notifier(notif)]: it captures the subscriber. *)
Definition goroutine : Type := ChProposalNotifier Out * ChProposalNotif.

Definition started es : list goroutine :=
  omap (λ e, match e with SEvGoNotify n x => Some (n, x) | _ => None end) es.

(** A run of the session together with the goroutines started and not yet run:
    the scheduler chooses between a critical section and any of these
    goroutines, which then calls its subscriber.  The indices are the sections
    run, the goroutines started, the calls of subscribers and the entries that
    responding goroutines have taken. *)
Inductive sched : Session Out C I → list goroutine → list section_op → list goroutine →
    list goroutine → list chProposalResponderEntry → Session Out C I → list goroutine → Prop :=
| sched_done s pool : sched s pool [] [] [] [] s pool
| sched_section s pool o es r s1 os gs ds rs s2 pool2 :
    run_section o s = (es, s1, Ret r) → sched s1 (pool ++ started es) os gs ds rs s2 pool2 →
    sched s pool (o :: os) (started es ++ gs) ds (option_list r ++ rs) s2 pool2
| sched_go s pool1 g pool2 os gs ds rs s2 pool' :
    sched s (pool1 ++ pool2) os gs ds rs s2 pool' →
    sched s (pool1 ++ g :: pool2) os gs (g :: ds) rs s2 pool'.

Definition stored_by (o : section_op) : option chProposalResponderEntry :=
  match o with SecStore e => Some e | _ => None end.

Definition pending s : list chProposalResponderEntry := map_vals (s_chProposalResponders s).

Lemma UnsubChProposals_ret s es s' a :
  UnsubChProposals s = (es, s', Ret a) →
  es = [] ∧ s_chProposalNotifsCache s' = s_chProposalNotifsCache s ∧ pending s' = pending s.
Proof.
  unfold UnsubChProposals. intros (Hl & s1 & Hr & ->)%with_slock_ret. destruct s. srun.
  destruct s_isOpen; srun; [destruct s_chProposalNotifier; srun|]; by injection Hr as <- <- <-.
Qed.

Lemma takeProposal_run id s :
  s_locked s = false →
  takeProposal id s =
    ([], set_chProposalResponders (delete id (s_chProposalResponders s)) s,
     Ret (s_chProposalResponders s !! id)).
Proof.
  destruct s. cbn. intros ->. unfold takeProposal. rewrite with_slock_run by done. srun.
  destruct (s_chProposalResponders !! id) eqn:E; srun; [done|]. by rewrite delete_id.
Qed.

Lemma addCh_run ch s :
  s_locked s = false →
  addCh ch s = ([], set_chs (put ID ch (s_chs s)) s, Ret (count (s_chs s))).
Proof. destruct s. cbn. intros ->. unfold addCh. rewrite with_slock_run by done. by srun. Qed.

(** What one critical section does to the queue and to the table. *)
Lemma run_section_spec o s es s' r :
  wf_session s → run_section o s = (es, s', Ret r) →
  s_chProposalNotifsCache s ++ (pe_notif <$> omap stored_by [o]) =
    (started es).*2 ++ s_chProposalNotifsCache s' ∧
  option_list r ++ pending s' ⊆+ pending s ++ omap stored_by [o].
Proof.
  intros [_ Hc _]. destruct o as [e|id|n| |ch]; cbn [run_section]; intros Hr.
  - apply bind_ret in Hr as (es1 & s1 & [] & es2 & Hr & [= <- <- <-] & ->). rewrite app_nil_r.
    assert (s_locked s = false) as Hl by (by eapply with_slock_ret).
    rewrite storeProposal_run in Hr by done. injection Hr as <- <-. unfold store_events, stored, pending.
    destruct s. cbn in *. destruct (cpn_Expiry (pe_notif e) =? 0), s_chProposalNotifier; cbn;
      (split; [|]); try done; try (by rewrite Hc by eauto); try (by apply submseteq_inserts_r);
      rewrite (Permutation_app_comm _ [e]); apply map_vals_insert.
  - assert (s_locked s = false) as Hl by (by eapply with_slock_ret).
    rewrite takeProposal_run in Hr by done. injection Hr as <- <- <-. cbn. rewrite !app_nil_r.
    split; [done|]. unfold pending. cbn. destruct (s_chProposalResponders s !! id) as [e|] eqn:E; cbn.
    + by rewrite <-(map_vals_delete _ _ _ E).
    + by rewrite delete_id.
  - apply bind_ret in Hr as (es1 & s1 & a & es2 & Hr & [= <- <- <-] & ->). rewrite !app_nil_r.
    assert (s_locked s = false) as Hl by (by eapply with_slock_ret).
    rewrite SubChProposals_run in Hr by done. destruct (negb (s_isOpen s)); [by simplify_eq|].
    destruct (s_chProposalNotifier s); simplify_eq; [done|]. cbn. split; [|done].
    clear. rewrite app_nil_r. by induction (s_chProposalNotifsCache s); f_equal/=.
  - apply bind_ret in Hr as (es1 & s1 & a & es2 & Hr & [= <- <- <-] & ->). rewrite !app_nil_r.
    apply UnsubChProposals_ret in Hr as (-> & -> & ->). done.
  - apply bind_ret in Hr as (es1 & s1 & a & es2 & Hr & [= <- <- <-] & ->). rewrite !app_nil_r.
    assert (s_locked s = false) as Hl by (by eapply with_slock_ret).
    rewrite addCh_run in Hr by done. by injection Hr as <- <- <-.
Qed.

Lemma keeps_wf_section o : keeps_wf (run_section o).
Proof. destruct o; cbn [run_section]; keeps_tac. by apply keeps_wf_storeProposal. Qed.

(** C13: In every interleaving of the handlers of proposals with the goroutines
    that call the subscriber, no notification of a proposal is lost or repeated:
    those cached at the start followed by those stored during the run are, in
    this order, the ones whose goroutines were started followed by those still
    cached, and the goroutines that were waiting for the scheduler and those
    started are, counted with multiplicity, those that called their subscriber
    and those still waiting (in which order they run is the scheduler's).  And the
    entries taken out by responding goroutines together with those still pending
    are, counted with multiplicity, among those that were pending and those that
    arrived: no proposal is answered twice, however many calls race for it. *)
Theorem proposals_once s pool os gs ds rs s' pool' (Hwf : wf_session s)
    (Hrun : sched s pool os gs ds rs s' pool') :
  s_chProposalNotifsCache s ++ (pe_notif <$> omap stored_by os) =
    gs.*2 ++ s_chProposalNotifsCache s' ∧
  pool ++ gs ≡ₚ ds ++ pool' ∧
  rs ++ pending s' ⊆+ pending s ++ omap stored_by os.
Proof.
  induction Hrun as [s pool|s pool o es r s1 os gs ds rs s2 pool2 Hstep _ IH
    |s pool1 g pool2 os gs ds rs s2 pool' _ IH]; [by rewrite !app_nil_r| |].
  - destruct (run_section_spec _ _ _ _ _ Hwf Hstep) as [Hq Ht].
    destruct IH as (IHq & IHp & IHt); [by eapply (keeps_wf_section o)|].
    change (omap stored_by (o :: os)) with (omap stored_by ([o] ++ os)). rewrite omap_app.
    rewrite !fmap_app, !app_assoc, Hq, <-!app_assoc, IHq. split_and!; [done|by rewrite app_assoc|].
    etrans; [apply submseteq_skips_l, IHt|]. rewrite app_assoc.
    etrans; [apply submseteq_skips_r, Ht|]. by rewrite <-app_assoc.
  - destruct (IH Hwf) as (? & Hp & ?). split_and!; [done| |done]. cbn. rewrite <-Hp.
    rewrite <-!app_assoc. cbn. by rewrite <-Permutation_middle.
Qed.

(** ** Responding to a proposal *)

Lemma s_newCh_run p cs parts d s (ch : Channel Out) :
  newCh p (s_chainURL s) cs parts (s_timeoutCfg s) d = Ret ch →
  s_newCh p cs parts d s = ([SEvWatch (ID ch)], s, Ret ch).
Proof. intros H. unfold s_newCh. srun. by rewrite H. Qed.

Lemma newCh_spec p url cs parts t d (ch : Channel Out) :
  newCh p url cs parts t d = Ret ch →
  ch_pch ch = p ∧ ch_status ch = open ∧ ch_locked ch = false ∧ ch_chUpdateNotifier ch = None ∧
  ch_chUpdateNotifCache ch = [] ∧ ch_chUpdateResponders ch = ∅ ∧ ch_wasCloseInitiated ch = false ∧
  ID ch = hex (pch_ID p) ∧ Parts ch = parts ∧ Currencies ch = cs ∧ ChallengeDurSecs ch = d.
Proof. unfold newCh. destruct (newCh_symbols cs); [|discriminate..]. by intros [= <-]. Qed.

(** Reading a channel just added to the registry. *)
Lemma zoom_put_run {A} (m : chprog Out A) (ch : Channel Out) s a :
  m ch = ([], ch, Ret a) →
  zoom_ch (count (s_chs s)) m (set_chs (put ID ch (s_chs s)) s) =
    ([], set_chs (put ID ch (s_chs s)) s, Ret a).
Proof.
  intros H. unfold zoom_ch, zoom, go_index, count. destruct s. cbn. unfold put. cbn.
  rewrite list_lookup_middle by done. rewrite H. cbn. unfold update, set_chs. cbn.
  do 3 f_equal. rewrite list_insert_id; [done|]. by apply list_lookup_middle.
Qed.

Lemma getChInfo_run (ch : Channel Out) i :
  info_of ch (ch_pch ch) i → getChInfo ch = ([], ch, Ret i).
Proof. unfold info_of, getChInfo. intros H. srun. by rewrite H. Qed.

Lemma GetChInfo_run (ch : Channel Out) i :
  ch_locked ch = false → info_of ch (ch_pch ch) i → GetChInfo ch = ([], ch, Ret i).
Proof.
  intros Hl H. unfold GetChInfo. rewrite with_lock_run by done.
  rewrite (getChInfo_run (Channel.set_locked true ch) i H). destruct ch. cbn in *. by subst.
Qed.

Lemma RespondChProposal_take E id acc now s :
  s_locked s = false → s_isOpen s = true →
  RespondChProposal E id acc now s =
  match s_chProposalResponders s !! id with
  | None => ([], s, Ret (ChInfo_zero, Some (NewAPIErrResourceNotFound ResTypeProposal id)))
  | Some e =>
      answerProposal E e acc now
        (set_chProposalResponders (delete id (s_chProposalResponders s)) s)
  end.
Proof.
  destruct s as [sid op u c idp tc url chn fd cs no ca re l]. cbn. intros -> ->.
  unfold RespondChProposal. srun. rewrite takeProposal_run by done. cbn.
  destruct (re !! id) as [e|] eqn:He; cbn; [|by rewrite delete_id].
  by destruct (answerProposal _ _ _ _ _) as [[??]?].
Qed.

(** The channel made of a controller is added to the session and read. *)
Lemma add_new_channel {B} (f : nat → ChInfo → B) p cs parts d s ch i (m : chprog Out ChInfo) :
  s_locked s = false →
  newCh p (s_chainURL s) cs parts (s_timeoutCfg s) d = Ret ch →
  m ch = ([], ch, Ret i) →
  (ch ← s_newCh p cs parts d; idx ← addCh ch; info ← zoom_ch idx m; mret (f idx info)) s =
    ([SEvWatch (hex (pch_ID p))], set_chs (put ID ch (s_chs s)) s, Ret (f (count (s_chs s)) i)).
Proof.
  intros Hl Hch Hm. pose proof (newCh_spec _ _ _ _ _ _ _ Hch) as (_&_&_&_&_&_&_&Hid&_).
  etrans; [by eapply run_bind, s_newCh_run|]. cbv beta.
  assert ((idx ← addCh ch; info ← zoom_ch idx m; mret (f idx info)) s =
    ([], set_chs (put ID ch (s_chs s)) s, Ret (f (count (s_chs s)) i))) as ->.
  { etrans; [by eapply run_bind, addCh_run|]. cbv beta.
    assert ((info ← zoom_ch (count (s_chs s)) m; mret (f (count (s_chs s)) info))
              (set_chs (put ID ch (s_chs s)) s) =
      ([], set_chs (put ID ch (s_chs s)) s, Ret (f (count (s_chs s)) i))) as ->; [|done].
    etrans; [by eapply run_bind, zoom_put_run|]. done. }
  by rewrite Hid.
Qed.

Lemma acceptChProposal_run E e s f :
  s_locked s = false →
  updateAssetsInFunder (pe_currencies e) (e_contracts E) (s_funder s)
    (cred_Addr (u_OnChain (s_user s))) = Ret f →
  let parts := bi_Parts (cpn_OpeningBalInfo (pe_notif e)) in
  let d := cpn_ChallengeDurSecs (pe_notif e) in
  let t := respChProposalAccept (s_timeoutCfg s) d in
  let resp := lcp_Accept (pe_proposal e) (pid_OffChainAddr (u_PeerID (s_user s))) in
  acceptChProposal E e s =
    let '(es, s', o) :=
      match prop_Accept t (pe_responder e) resp with
      | inr err =>
          ([], set_funder f s,
           apiErr ← handleChProposalAcceptError (set_funder f s) parts
                      (ErrWithMessage "accepting channel proposal" err);
           Ret (ChInfo_zero, Some apiErr))
      | inl p =>
          (ch ← s_newCh p (pe_currencies e) parts d; idx ← addCh ch;
           info ← zoom_ch idx getChInfo; mret (info, None)) (set_funder f s)
      end in
    (SEvAccept t (pe_responder e) resp :: es, s', o).
Proof.
  intros Hl Hf parts d t resp. unfold acceptChProposal.
  destruct s. cbn in *. srun. rewrite Hf. srun. fold d t resp parts.
  destruct (prop_Accept t (pe_responder e) resp) as [p|err]; srun.
  - destruct (s_newCh _ _ _ _ _) as [[es1 s1] [ch|w|]]; [|done..].
    destruct (addCh ch s1) as [[es2 s2] [i|w|]]; [|done..].
    by destruct (zoom_ch i _ s2) as [[es3 s3] [info|w|]].
  - by destruct (handleChProposalAcceptError _ _ _).
Qed.

Lemma handleChProposalAcceptError_codes s parts peer err :
  parts !! 0%nat = Some peer →
  ∃ e, handleChProposalAcceptError s parts err = Ret e ∧
  errs_in [ErrTxTimedOut; ErrChainNotReachable; ErrPeerNotFunded; ErrUnknownInternal] (Some e).
Proof.
  intros Hp. unfold handleChProposalAcceptError.
  pose proof (handleChainError_codes (s_chainURL s) (onChainTxTimeout_String s) err) as H1.
  destruct (handleChainError _ _ _) as [e|].
  { exists e. split; [done|]. apply (errs_in_mono _ _ (Some e) H1). set_solver. }
  unfold go_index. rewrite Hp. cbn.
  pose proof (handleFundingTimeoutError_codes peer 0 err) as H2.
  destruct (handleFundingTimeoutError _ _ _) as [e|]; eexists; (split; [done|]).
  - apply (errs_in_mono _ _ (Some e) H2). set_solver.
  - errs_in_tac.
Qed.

(** Answering a proposal that is kept, branch by branch.  The entry is taken out. *)
Definition taken (id : string) s : Session Out C I :=
  set_chProposalResponders (delete id (s_chProposalResponders s)) s.

Section answer.
Context (E : env) (id : string) (now : Z) (s : Session Out C I) (e : chProposalResponderEntry).
Context (Hl : s_locked s = false) (Ho : s_isOpen s = true) (He : s_chProposalResponders s !! id = Some e).
Let n := pe_notif e.
Let d := cpn_ChallengeDurSecs n.
Let parts := bi_Parts (cpn_OpeningBalInfo n).
Let resp := lcp_Accept (pe_proposal e) (pid_OffChainAddr (u_PeerID (s_user s))).
Let ta := respChProposalAccept (s_timeoutCfg s) d.
Let tr := respChProposalReject (s_timeoutCfg s).

Lemma RespondChProposal_late acc :
  cpn_Expiry n < unix now →
  RespondChProposal E id acc now s =
    ([], taken id s, Ret (ChInfo_zero, Some (NewAPIErrUserResponseTimedOut (cpn_Expiry n) (unix now)))).
Proof using Hl Ho He.
  intros Hx. rewrite RespondChProposal_take, He by done. unfold answerProposal. fold n.
  by rewrite (proj2 (Z.ltb_lt _ _)).
Qed.

Lemma RespondChProposal_in_time acc :
  unix now ≤ cpn_Expiry n →
  RespondChProposal E id acc now s =
    (if acc : bool then acceptChProposal E e
     else apiErr ← rejectChProposal (pe_responder e) "rejected by user"; mret (ChInfo_zero, apiErr)) (taken id s).
Proof using Hl Ho He.
  intros Hx. rewrite RespondChProposal_take, He by done. unfold answerProposal. fold n.
  by rewrite (proj2 (Z.ltb_ge _ _)).
Qed.

Lemma RespondChProposal_rejected :
  unix now ≤ cpn_Expiry n →
  RespondChProposal E id false now s =
    ([SEvReject tr (pe_responder e) "rejected by user"], taken id s,
     Ret (ChInfo_zero, NewAPIErrUnknownInternal <$> prop_Reject tr (pe_responder e) "rejected by user")).
Proof using Hl Ho He. intros Hx. rewrite RespondChProposal_in_time by done. unfold rejectChProposal. srun. by fold tr. Qed.

Context (f : libfunder).
Context (Hf : updateAssetsInFunder (pe_currencies e) (e_contracts E) (s_funder s)
                (cred_Addr (u_OnChain (s_user s))) = Ret f).

Lemma RespondChProposal_accepted p ch i :
  unix now ≤ cpn_Expiry n → prop_Accept ta (pe_responder e) resp = inl p →
  newCh p (s_chainURL s) (pe_currencies e) parts (s_timeoutCfg s) d = Ret ch → info_of ch p i →
  RespondChProposal E id true now s =
    ([SEvAccept ta (pe_responder e) resp; SEvWatch (hex (pch_ID p))],
     set_chs (put ID ch (s_chs s)) (set_funder f (taken id s)), Ret (i, None)).
Proof using Hl Ho He Hf.
  intros Hx Hacc Hch Hi. rewrite RespondChProposal_in_time by done.
  rewrite (acceptChProposal_run E e (taken id s) f) by done. cbn zeta.
  change (s_timeoutCfg (taken id s)) with (s_timeoutCfg s). change (s_user (taken id s)) with (s_user s).
  fold n d parts ta resp. rewrite Hacc.
  rewrite (add_new_channel (λ _ info, (info, None)) p (pe_currencies e) parts d (set_funder f (taken id s)) ch i);
    [done..|]. apply getChInfo_run. by apply newCh_spec in Hch as (-> & _).
Qed.

Lemma RespondChProposal_not_accepted err peer :
  unix now ≤ cpn_Expiry n → prop_Accept ta (pe_responder e) resp = inr err → parts !! 0%nat = Some peer →
  ∃ apiErr, RespondChProposal E id true now s =
    ([SEvAccept ta (pe_responder e) resp], set_funder f (taken id s), Ret (ChInfo_zero, Some apiErr)) ∧
    errs_in [ErrTxTimedOut; ErrChainNotReachable; ErrPeerNotFunded; ErrUnknownInternal] (Some apiErr).
Proof using Hl Ho He Hf.
  intros Hx Hacc Hpeer.
  destruct (handleChProposalAcceptError_codes (set_funder f (taken id s)) parts peer
    (ErrWithMessage "accepting channel proposal" err) Hpeer) as (apiErr & Herr & Hc).
  exists apiErr. split; [|done]. rewrite RespondChProposal_in_time by done.
  rewrite (acceptChProposal_run E e (taken id s) f) by done. cbn zeta.
  change (s_timeoutCfg (taken id s)) with (s_timeoutCfg s). change (s_user (taken id s)) with (s_user s).
  fold n d parts ta resp. rewrite Hacc. by rewrite Herr.
Qed.
End answer.

(** C18: Answering a proposal, on every branch.  A closed session refuses; an unknown
    ID is reported; in every other case the entry is taken out first.  An expired
    entry is not answered; a rejection reaches the proposer; an acceptance tells
    the funder about the assets and reaches the proposer, and exactly when the
    channel is then opened it is added to the session, under its ID, with the
    participants and currencies of the proposal, and its watcher is started. *)
Theorem RespondChProposal_spec E id now s (Hl : s_locked s = false) :
  if negb (s_isOpen s) then
    ∀ acc, RespondChProposal E id acc now s = ([], s, Ret (ChInfo_zero, Some ErrClosedSession))
  else match s_chProposalResponders s !! id with
  | None =>
      ∀ acc, RespondChProposal E id acc now s =
        ([], s, Ret (ChInfo_zero, Some (NewAPIErrResourceNotFound ResTypeProposal id)))
  | Some e =>
      let s0 := set_chProposalResponders (delete id (s_chProposalResponders s)) s in
      let n := pe_notif e in
      let d := cpn_ChallengeDurSecs n in
      let parts := bi_Parts (cpn_OpeningBalInfo n) in
      let resp := lcp_Accept (pe_proposal e) (pid_OffChainAddr (u_PeerID (s_user s))) in
      let ta := respChProposalAccept (s_timeoutCfg s) d in
      let tr := respChProposalReject (s_timeoutCfg s) in
      (cpn_Expiry n < unix now → ∀ acc,
        RespondChProposal E id acc now s =
          ([], s0, Ret (ChInfo_zero, Some (NewAPIErrUserResponseTimedOut (cpn_Expiry n) (unix now))))) ∧
      (unix now ≤ cpn_Expiry n →
        RespondChProposal E id false now s =
          ([SEvReject tr (pe_responder e) "rejected by user"], s0,
           Ret (ChInfo_zero, NewAPIErrUnknownInternal <$>
                               prop_Reject tr (pe_responder e) "rejected by user")) ∧
        ∀ f, updateAssetsInFunder (pe_currencies e) (e_contracts E) (s_funder s)
               (cred_Addr (u_OnChain (s_user s))) = Ret f →
        match prop_Accept ta (pe_responder e) resp with
        | inr err =>
            ∀ peer, parts !! 0%nat = Some peer →
            ∃ apiErr, RespondChProposal E id true now s =
              ([SEvAccept ta (pe_responder e) resp], set_funder f s0, Ret (ChInfo_zero, Some apiErr)) ∧
              errs_in [ErrTxTimedOut; ErrChainNotReachable; ErrPeerNotFunded; ErrUnknownInternal]
                (Some apiErr)
        | inl p =>
            ∀ ch i, newCh p (s_chainURL s) (pe_currencies e) parts (s_timeoutCfg s) d = Ret ch →
            info_of ch p i →
            RespondChProposal E id true now s =
              ([SEvAccept ta (pe_responder e) resp; SEvWatch (hex (pch_ID p))],
               set_chs (put ID ch (s_chs s)) (set_funder f s0), Ret (i, None))
        end)
  end.
Proof.
  destruct (s_isOpen s) eqn:Ho; cbv beta iota delta [negb].
  2:{ intros acc. unfold RespondChProposal. srun. by rewrite Ho. }
  destruct (s_chProposalResponders s !! id) as [e|] eqn:He.
  2:{ intros acc. by rewrite RespondChProposal_take, He. }
  intros s0 n d parts resp ta tr. change s0 with (taken id s). split.
  { intros Hx acc. by apply RespondChProposal_late. }
  intros Hx. split; [by apply RespondChProposal_rejected|].
  intros f Hf. destruct (prop_Accept ta (pe_responder e) resp) as [p|err] eqn:Hacc.
  - intros ch i Hch Hi. by apply RespondChProposal_accepted.
  - intros peer Hpeer. by eapply RespondChProposal_not_accepted.
Qed.

(** ** Incoming proposals *)

Lemma peerAliases_spec (idp : I) peers :
  let '(aliases, ok) := peerAliases idp peers in
  length aliases = length peers ∧
  (ok = true ↔ Forall (λ p, is_Some (idp_ReadByOffChainAddr idp (Some p))) peers) ∧
  (ok = true → Forall2 (λ p a, ∃ pid, idp_ReadByOffChainAddr idp (Some p) = Some pid ∧ pid_Alias pid = a)
                 peers aliases).
Proof.
  induction peers as [|p peers IH]; cbn; [by split_and!|].
  destruct (idp_ReadByOffChainAddr idp (Some p)) as [pid|] eqn:E; cbn.
  - destruct (peerAliases idp peers) as [aliases ok]. destruct IH as (Hlen & Hok & Hall). cbn.
    split_and!; [by rewrite Hlen| |].
    + rewrite Hok, Forall_cons, E. naive_solver.
    + intros Ht. constructor; [by exists pid|by apply Hall].
  - rewrite length_replicate. split_and!; [done| |done]. split; [done|].
    intros Hf. inversion_clear Hf as [|?? Hs _]. rewrite E in Hs. by destruct (is_Some_None Hs).
Qed.

(** From the first unknown participant on, the aliases are left empty. *)
Lemma peerAliases_unknown (idp : I) peers aliases :
  peerAliases idp peers = (aliases, false) →
  ∃ k, (∃ peer, peers !! k = Some peer ∧ idp_ReadByOffChainAddr idp (Some peer) = None) ∧
       (∀ j, (k ≤ j < length peers)%nat → aliases !! j = Some "").
Proof.
  revert aliases. induction peers as [|p peers IH]; intros aliases; cbn; [done|].
  destruct (idp_ReadByOffChainAddr idp (Some p)) as [pid|] eqn:E.
  - destruct (peerAliases idp peers) as [as1 ok]. intros [= <- ->].
    destruct (IH as1 eq_refl) as (k & Hk & Hj). exists (S k). split; [done|].
    intros [|j] ?; cbn; [lia|apply Hj; lia].
  - intros [= <-]. exists 0%nat. split; [by exists p|]. intros j ?.
    change ("" :: replicate (length peers) "") with (replicate (S (length peers)) "").
    apply lookup_replicate_2. lia.
Qed.

(** The notification, and what the handler does once it is made. *)
Lemma chProposalNotif_spec parts cs p x n :
  chProposalNotif parts cs p x = Ret n →
  cpn_ProposalID n = hex (lcp_ProposalID p) ∧ bi_Parts (cpn_OpeningBalInfo n) = parts.
Proof.
  unfold chProposalNotif, makeBalInfoFromRawBal. intros Hn. destruct (balRows _ _); [|discriminate..].
  by injection Hn as <-.
Qed.

Lemma HandleProposal_run E p r now s cs n parts known :
  s_locked s = false → s_isOpen s = true →
  getCurrencies (al_Assets (lcp_InitBals p)) (e_contracts E) (e_currencies E) = inl cs →
  peerAliases (s_idProvider s) (lcp_Peers p) = (parts, known) →
  chProposalNotif parts cs p (if known then unix (now + response (s_timeoutCfg s)) else 0) = Ret n →
  HandleProposal E (LedgerProposal p) r now s =
    ((if known then [] else [SEvReject (respChProposalReject (s_timeoutCfg s)) r "unrecogonized peer ID"]) ++
       store_events (mkPropEntry p n r cs) s,
     stored (mkPropEntry p n r cs) s, Ret tt).
Proof.
  intros Hl Ho Hcs Ep Hn. pose proof (chProposalNotif_expiry _ _ _ _ _ Hn) as Hx.
  unfold HandleProposal, rejectChProposal. destruct s. cbn in *. subst. srun. rewrite Ep, Hcs.
  destruct known; srun; rewrite Hn; srun; rewrite <-Hx; rewrite (storeProposal_run (mkPropEntry p n r cs)) by done; done.
Qed.

(** C19: An incoming proposal for known currencies.  If every participant is known,
    it waits for the answer of the user, who is notified of it with its aliases,
    the currencies' printed amounts and the time limit.  If one is not, the
    proposal is rejected at once; the user is still notified, with an expiry of
    zero, and the proposal is not kept, so it cannot be answered.  In that
    notification the alias of the first unknown participant, and of every
    participant after it, is empty: it is not the hex form of the off-chain
    address that the documentation of SubChProposals promises. *)
Theorem HandleProposal_spec E p r now s cs n
    (Hl : s_locked s = false) (Ho : s_isOpen s = true)
    (Hcs : getCurrencies (al_Assets (lcp_InitBals p)) (e_contracts E) (e_currencies E) = inl cs)
    (Hexp : unix (now + response (s_timeoutCfg s)) ≠ 0) :
  let '(parts, known) := peerAliases (s_idProvider s) (lcp_Peers p) in
  let expiry := if known then unix (now + response (s_timeoutCfg s)) else 0 in
  chProposalNotif parts cs p expiry = Ret n →
  let tr := respChProposalReject (s_timeoutCfg s) in
  let entry := mkPropEntry p n r cs in
  let '(es, s', res) := HandleProposal E (LedgerProposal p) r now s in
  res = Ret tt ∧
  es = (if known then [] else [SEvReject tr r "unrecogonized peer ID"]) ++ store_events entry s ∧
  cpn_Expiry n = expiry ∧ cpn_ProposalID n = hex (lcp_ProposalID p) ∧
  bi_Parts (cpn_OpeningBalInfo n) = parts ∧
  (if known
   then Forall2 (λ peer a, ∃ pid, idp_ReadByOffChainAddr (s_idProvider s) (Some peer) = Some pid ∧
                                  pid_Alias pid = a) (lcp_Peers p) parts
   else ∃ k, (∃ peer, lcp_Peers p !! k = Some peer ∧
                      idp_ReadByOffChainAddr (s_idProvider s) (Some peer) = None) ∧
             ∀ j, (k ≤ j < length (lcp_Peers p))%nat → parts !! j = Some "") ∧
  s_chProposalResponders s' =
    (if known then <[cpn_ProposalID n := entry]> (s_chProposalResponders s)
     else s_chProposalResponders s) ∧
  s_chProposalNotifsCache s' =
    (match s_chProposalNotifier s with
     | Some _ => s_chProposalNotifsCache s
     | None => s_chProposalNotifsCache s ++ [n]
     end) ∧
  s_chs s' = s_chs s.
Proof.
  destruct (peerAliases (s_idProvider s) (lcp_Peers p)) as [parts known] eqn:Ep.
  intros expiry Hn tr entry. rewrite (HandleProposal_run E p r now s cs n parts known) by done.
  destruct (chProposalNotif_spec _ _ _ _ _ Hn) as [Hid Hparts].
  pose proof (chProposalNotif_expiry _ _ _ _ _ Hn) as Hx. fold tr entry.
  unfold stored, entry. cbn [pe_notif]. rewrite Hx. unfold expiry. split_and!; try done.
  { destruct known; [|by apply peerAliases_unknown].
    pose proof (peerAliases_spec (s_idProvider s) (lcp_Peers p)) as H. rewrite Ep in H. by apply H. }
  all: destruct known; [rewrite (proj2 (Z.eqb_neq _ _)) by done|]; by destruct s; cbn; case_match.
Qed.

(** A proposal naming an asset the node does not know is rejected, but the
    handler goes on without currencies and crashes the node, whoever proposed it. *)
Theorem HandleProposal_unknown_asset_panics E p r now s e row rows
    (Ho : s_isOpen s = true)
    (Hcs : getCurrencies (al_Assets (lcp_InitBals p)) (e_contracts E) (e_currencies E) = inr e)
    (Hb : al_Balances (lcp_InitBals p) = row :: rows) :
  let '(es, s', res) := HandleProposal E (LedgerProposal p) r now s in
  res = Panic "index out of range" ∧ s' = s ∧
  SEvReject (respChProposalReject (s_timeoutCfg s)) r "unrecogonized currency" ∈ es.
Proof.
  unfold HandleProposal, rejectChProposal, chProposalNotif, makeBalInfoFromRawBal. destruct s. cbn in *. subst.
  srun. destruct (peerAliases _ _) as [parts known]. rewrite Hcs, Hb.
  destruct known; srun; split_and!; try done; set_solver.
Qed.

(** ** Closing *)

(** Running a program that performs no action on every channel of the list. *)
Lemma forEach_zoom_ch {A} (m : chprog Out A) g h idxs l1 l2 s :
  Forall (λ ch, m ch = ([], g ch, Ret (h ch))) l2 →
  forEach (seq (length l1) (length l2)) (λ i, zoom_ch i m) (set_chs (mkChRegistry idxs (l1 ++ l2)) s) =
    ([], set_chs (mkChRegistry idxs (l1 ++ (g <$> l2))) s, Ret (h <$> l2)).
Proof.
  revert l1. induction l2 as [|ch l2 IH]; intros l1 Hall; [done|].
  apply Forall_cons in Hall as [Hch Hall]. cbn [length seq forEach].
  assert (zoom_ch (length l1) m (set_chs (mkChRegistry idxs (l1 ++ ch :: l2)) s) =
    ([], set_chs (mkChRegistry idxs ((l1 ++ [g ch]) ++ l2)) s, Ret (h ch))) as Hz.
  { unfold zoom_ch, zoom, go_index. destruct s. cbn. rewrite list_lookup_middle by done.
    rewrite Hch. unfold update. cbn. rewrite <-app_assoc.
    rewrite insert_app_r_alt by done. by rewrite Nat.sub_diag. }
  unfold mbind at 1, prog_mbind at 1. rewrite Hz.
  specialize (IH (l1 ++ [g ch]) Hall). rewrite length_app, Nat.add_1_r in IH.
  unfold mbind, prog_mbind. rewrite IH. cbn. by rewrite <-app_assoc.
Qed.

Lemma forEach_channels {A} (m : chprog Out A) g h s :
  Forall (λ ch, m ch = ([], g ch, Ret (h ch))) (chs (s_chs s)) →
  forEach (chIndices s) (λ i, zoom_ch i m) s =
    ([], set_chs (mkChRegistry (chIdxs (s_chs s)) (g <$> chs (s_chs s))) s, Ret (h <$> chs (s_chs s))).
Proof.
  intros Hall. pose proof (forEach_zoom_ch m g h (chIdxs (s_chs s)) [] (chs (s_chs s)) s Hall) as H.
  destruct s as [??????????? ?? ?]; cbn in *. by destruct s_chs.
Qed.

Definition info_val (ch : Channel Out) : ChInfo :=
  match makeChInfo (ch_params ch) (Some (pch_State (ch_pch ch))) with
  | Ret i => i
  | _ => ChInfo_zero
  end.

(** A channel no operation is running on, whose balances can be printed. *)
Definition idle (ch : Channel Out) : Prop :=
  ch_locked ch = false ∧ info_of ch (ch_pch ch) (info_val ch).

Definition unexpected_phase (ch : Channel Out) : option ChInfo :=
  if decide (pch_Phase (ch_pch ch) ≠ Acting ∧ pch_Phase (ch_pch ch) ≠ Withdrawn)
  then Some (info_val ch) else None.
Definition still_open (ch : Channel Out) : option ChInfo :=
  if decide (ch_status ch = open) then Some (info_val ch) else None.

Lemma inspectCh_run ch :
  idle ch → inspectCh ch = ([], Channel.set_locked true ch, Ret (unexpected_phase ch, still_open ch)).
Proof.
  intros [Hl Hi]. destruct ch as [p c st w n ca re l]. cbn in Hl. subst.
  assert (getChInfo (mkChannel p c st w n ca re true) =
    ([], mkChannel p c st w n ca re true, Ret (info_val (mkChannel p c st w n ca re false)))) as Hg
    by (by apply getChInfo_run).
  unfold inspectCh, Lock, unexpected_phase, still_open, Channel.set_locked. srun.
  repeat case_decide; srun; rewrite ?Hg; srun; rewrite ?Hg; done.
Qed.

Definition lock_channels (s : Session Out C I) : Session Out C I :=
  set_chs (mkChRegistry (chIdxs (s_chs s)) (Channel.set_locked true <$> chs (s_chs s))) s.

Lemma unlockAllChs_run s :
  Forall idle (chs (s_chs s)) → unlockAllChs (lock_channels s) = ([], s, Ret tt).
Proof.
  intros Hall.
  assert (forEach (chIndices (lock_channels s)) (λ i, zoom_ch i Unlock) (lock_channels s) =
    ([], s, Ret ((λ _, tt) <$> chs (s_chs (lock_channels s))))) as E.
  { rewrite (forEach_channels Unlock (Channel.set_locked false) (λ _, tt)) by (by apply Forall_true).
    destruct s as [??????????? ?? ?]; cbn in *. destruct s_chs as [ix l]. cbn in *.
    replace (Channel.set_locked false <$> (Channel.set_locked true <$> l)) with l; [done|].
    induction Hall as [|ch l [Hl _] _ IH]; [done|]. cbn. rewrite <-IH. f_equal.
    destruct ch; cbn in *; by subst. }
  unfold unlockAllChs. cbv beta iota delta [mbind prog_mbind get_state]. by rewrite E.
Qed.

Lemma session_Close_run force s c' err
    (Hl : s_locked s = false) (Ho : s_isOpen s = true) (Hidle : Forall idle (chs (s_chs s)))
    (Hc : cc_Close (s_chClient s) = (c', Ret err)) :
  let unexpected := omap unexpected_phase (chs (s_chs s)) in
  let opened := omap still_open (chs (s_chs s)) in
  Session.Close force s =
    if decide (unexpected ≠ []) then
      ([], s, Ret ([], Some (NewAPIErrFailedPreConditionUnclosedChs
                     (ErrText "session cannot be closed with channels in unexpected phase") unexpected)))
    else if negb force && bool_decide (opened ≠ []) then
      ([], s, Ret ([], Some (NewAPIErrFailedPreConditionUnclosedChs
         (ErrText "session cannot be closed with channels in open phase without force option") opened)))
    else
      ([SEvLockAll (cred_Wallet (u_OnChain (s_user s)));
        SEvLockAll (cred_Wallet (u_OffChain (s_user s))); SEvCloseClient],
       set_chClient c' (set_isOpen false (lock_channels s)),
       Ret (opened, (λ err, NewAPIErrUnknownInternal (ErrWithMessage "closing session" err)) <$> err)).
Proof.
  intros unexpected opened. unfold Session.Close. rewrite with_slock_run by done.
  set (s1 := set_slocked true s).
  assert (forEach (chIndices s1) (λ i, zoom_ch i inspectCh) s1 =
    ([], lock_channels s1, Ret ((λ ch, (unexpected_phase ch, still_open ch)) <$> chs (s_chs s)))) as E.
  { etrans; [apply (forEach_channels inspectCh (Channel.set_locked true)
                     (λ ch, (unexpected_phase ch, still_open ch)) s1)|reflexivity].
    eapply Forall_impl; [exact Hidle|]. intros ch. apply inspectCh_run. }
  cbv beta iota delta [mbind prog_mbind get_state].
  replace (negb (s_isOpen s1)) with false by (cbn; by rewrite Ho). rewrite E.
  rewrite !omap_map. cbn [fst snd]. subst unexpected opened.
  assert (unlockAllChs (lock_channels s1) = ([], s1, Ret tt)) as Eu by (by apply unlockAllChs_run).
  assert (set_slocked false s1 = s) as Es by (destruct s; cbn in *; by subst).
  case_decide; [rewrite Eu; cbn; by rewrite Es|].
  destruct (negb force && bool_decide _); [rewrite Eu; cbn; by rewrite Es|].
  destruct s; cbn in *; subst. unfold closeClient. srun. rewrite Hc. by srun.
Qed.

(** C22: Closing a session whose channels are idle.  A channel in the middle of a
    protocol step, or without force an open one, refuses it: the error lists these
    channels and the session is exactly as before, with every channel usable.
    Otherwise the session is closed, both wallets are locked and the client is
    closed, and the open channels are returned. *)
Theorem session_Close_spec force s c' err
    (Hl : s_locked s = false) (Ho : s_isOpen s = true) (Hidle : Forall idle (chs (s_chs s)))
    (Hc : cc_Close (s_chClient s) = (c', Ret err)) :
  let unexpected := omap unexpected_phase (chs (s_chs s)) in
  let opened := omap still_open (chs (s_chs s)) in
  Session.Close force s =
    if decide (unexpected ≠ []) then
      ([], s, Ret ([], Some (NewAPIErrFailedPreConditionUnclosedChs
                     (ErrText "session cannot be closed with channels in unexpected phase") unexpected)))
    else if negb force && bool_decide (opened ≠ []) then
      ([], s, Ret ([], Some (NewAPIErrFailedPreConditionUnclosedChs
         (ErrText "session cannot be closed with channels in open phase without force option") opened)))
    else
      ([SEvLockAll (cred_Wallet (u_OnChain (s_user s)));
        SEvLockAll (cred_Wallet (u_OffChain (s_user s))); SEvCloseClient],
       set_chClient c' (set_isOpen false (lock_channels s)),
       Ret (opened, (λ err, NewAPIErrUnknownInternal (ErrWithMessage "closing session" err)) <$> err)).
Proof. by apply session_Close_run. Qed.

Lemma GetChsInfo_blocks s ch l :
  s_locked s = false → chs (s_chs s) = ch :: l → ch_locked ch = true →
  ∃ s', GetChsInfo s = ([], s', Block) ∧ s_locked s' = true.
Proof.
  intros Hl Hch Hk. unfold GetChsInfo. rewrite with_slock_run by done.
  destruct s as [??????????? ?? ?]; cbn in *; subst. destruct s_chs as [ix cs]; cbn in *; subst.
  unfold chIndices, count. srun. unfold zoom_ch, zoom. cbn. unfold GetChInfo, with_lock, Lock. srun.
  rewrite Hk. cbn. eexists. split; [done|]. done.
Qed.

(** A closed session keeps the mutexes of its channels: asking for the channel
    information afterwards never returns, and it keeps the mutex of the session,
    so every later call on the session hangs too. *)
Theorem session_deadlock_after_Close s c' err ch l
    (Hl : s_locked s = false) (Ho : s_isOpen s = true) (Hidle : Forall idle (chs (s_chs s)))
    (Hc : cc_Close (s_chClient s) = (c', Ret err))
    (Hu : omap unexpected_phase (chs (s_chs s)) = []) (Hch : chs (s_chs s) = ch :: l) :
  let s1 := final (Session.Close true s) in
  s_isOpen s1 = false ∧ s_locked s1 = false ∧ value (GetChsInfo s1) = Block ∧
  ∀ (A : Type) (m : sprog A), value (with_slock m (final (GetChsInfo s1))) = Block.
Proof.
  pose proof (session_Close_run true s c' err Hl Ho Hidle Hc) as E. cbn zeta in E.
  rewrite Hu in E. rewrite decide_False in E by (by intros ?). cbn [negb andb] in E. rewrite E. clear E.
  intros s1. set (s2 := set_chClient c' (set_isOpen false (lock_channels s))) in *.
  destruct (GetChsInfo_blocks s2 (Channel.set_locked true ch) (Channel.set_locked true <$> l))
    as (s3 & E3 & H3).
  { destruct s; cbn in *; by subst. }
  { cbn. by rewrite Hch. }
  { by destruct ch. }
  change s1 with s2. rewrite E3. split_and!; [done|by destruct s|done|].
  intros A m. unfold with_slock, sLock. srun. by rewrite H3.
Qed.

(** ** Refusals of a closed session *)

(** A closed session refuses every request with the failed-precondition error and
    drops every callback, without changing anything or calling the SDK. *)
Theorem closed_session_refuses s (Hl : s_locked s = false) (Hc : s_isOpen s = false) :
  let refused := Some ErrClosedSession in
  (∀ p, AddPeerID p s = ([], s, Ret refused)) ∧
  (∀ a, GetPeerID a s = ([], s, Ret (PeerID_zero, refused))) ∧
  (∀ E b a d, OpenCh E b a d s = ([], s, Ret (ChInfo_zero, refused))) ∧
  (∀ n, SubChProposals n s = ([], s, Ret refused)) ∧
  UnsubChProposals s = ([], s, Ret refused) ∧
  (∀ E id acc now, RespondChProposal E id acc now s = ([], s, Ret (ChInfo_zero, refused))) ∧
  (∀ force, Session.Close force s = ([], s, Ret ([], refused))) ∧
  (∀ E t, Session.DeployAssetERC20 E t s = ([], s, Ret ("", refused))) ∧
  (∀ E p r now, HandleProposal E p r now s = ([], s, Ret tt)) ∧
  (∀ c p r, Session.HandleUpdate c p r s = ([], s, Ret tt)).
Proof.
  destruct s. cbn in *. subst.
  split_and!; intros;
    unfold AddPeerID, GetPeerID, OpenCh, SubChProposals, UnsubChProposals, RespondChProposal,
      Session.Close, Session.DeployAssetERC20, HandleProposal, Session.HandleUpdate;
    rewrite ?with_slock_run by done; try by srun. by destruct p; srun.
Qed.

(** ** Peer IDs *)

(** Adding a peer ID to an open session.  When the ID provider accepts it, it can be
    read back under its alias, with the fields given, and no other alias changes.
    When it refuses, the session is unchanged and the error code tells an alias in
    use and an unreadable address (invalid argument) from an ID registered twice. *)
Theorem AddPeerID_spec {IL : IDProviderLaws I} p s
    (Hl : s_locked s = false) (Ho : s_isOpen s = true) :
  let '(es, s', res) := AddPeerID p s in
  es = [] ∧
  match (idp_Write (pid_Alias p) p (s_idProvider s)).2 with
  | None =>
      res = Ret None ∧
      (∃ q, GetPeerID (pid_Alias p) s' = ([], s', Ret (q, None)) ∧ same_but_addr q p ∧
            is_Some (pid_OffChainAddr q)) ∧
      (∀ a, a ≠ pid_Alias p → value (GetPeerID a s') = value (GetPeerID a s))
  | Some err =>
      s' = s ∧ ∃ e, res = Ret (Some e) ∧
      errs_in [ErrInvalidArgument; ErrResourceExists; ErrUnknownInternal] (Some e) ∧
      (errors_Is err ErrPeerAliasAlreadyUsed = true → Code e = ErrInvalidArgument) ∧
      (errors_Is err ErrPeerAliasAlreadyUsed = false → errors_Is err ErrPeerIDAlreadyRegistered = true →
       Code e = ErrResourceExists)
  end.
Proof.
  destruct (idp_Write (pid_Alias p) p (s_idProvider s)) as [idp' err] eqn:Ew. cbn [snd].
  assert (AddPeerID p s = ([], set_idProvider idp' s, Ret (AddPeerID_error p <$> err))) as ->.
  { unfold AddPeerID. rewrite with_slock_run by done. destruct s. cbn in *. subst. srun. rewrite Ew. by srun. }
  assert (∀ s a, s_locked s = false → s_isOpen s = true → GetPeerID a s =
    ([], s, Ret (match idp_ReadByAlias (s_idProvider s) a with
                 | None => (PeerID_zero, Some (NewAPIErrResourceNotFound ResTypePeerID a))
                 | Some q => (q, None) end))) as Hget.
  { intros s0 a H1 H2. unfold GetPeerID. rewrite with_slock_run by done. destruct s0. cbn in *. subst. srun.
    by destruct (idp_ReadByAlias _ _). }
  split; [done|]. destruct err as [err|].
  - apply idp_Write_err in Ew as ->. split; [by destruct s|]. eexists. split; [done|].
    unfold AddPeerID_error. split_and!.
    + repeat case_match; errs_in_tac.
    + by intros ->.
    + by intros -> ->.
  - apply idp_Write_ok in Ew as (_ & (q & Hq & Hqp & Ha) & Hother). split; [done|].
    rewrite !Hget by (by destruct s). split.
    + exists q. cbn. by rewrite Hq.
    + intros a Ha'. rewrite !Hget by (by destruct s). cbn. by rewrite Hother.
Qed.
End session_props.
