(* ===== verification/SessionLife.v ===== *)
(** * Opening channels, and sessions from their creation on

    [OpenCh] from the request to the channel in the registry, what [New] makes,
    and the invariant of every session reached from it. *)
From S2P Require Import Prelude Perun Errors SessionErrors Currency IDProvider Contracts Sdk Timeout.
From S2P Require Import ChRegistry Client User Channel ChannelProps SessionHelpers Session SessionProps.

(** ** The funder

    Registering an asset makes it known and forgets none of those registered before. *)
Class FunderLaws `{EthLib} : Prop := {
  RegisterAsset_keeps f a t acc b :
    lib_IsAssetRegistered f b = true → lib_IsAssetRegistered (lib_RegisterAsset f a t acc).1 b = true;
  RegisterAsset_registers f a t acc : lib_IsAssetRegistered (lib_RegisterAsset f a t acc).1 a = true;
}.

(** What the proposer relies on: the proposal is for the allocation it was made
    with, the controller of an opened channel has its balances, and the proposer is
    its first participant. *)
Class ProposalLaws `{GoPerun} (C : Type) `{ChClient C} : Prop := {
  proposal_bals d own al addrs def data p :
    NewLedgerChannelProposal d own al addrs def data = inl p → lcp_InitBals p = al;
  propose_bals t p (c c' : C) ch :
    cc_ProposeChannel t p c = (c', inl ch) →
    al_Balances (st_Allocation (pch_State ch)) = al_Balances (lcp_InitBals p);
  propose_idx t p (c c' : C) ch : cc_ProposeChannel t p c = (c', inl ch) → pch_Idx ch = 0;
}.

Section life.
Context {GT : GoTypes} {GP : GoPerun} {EL : EthLib} {DL : DecimalLib} {GL : GoTypesLaws}.

(** The ETH asset of the registry is known to the funder. *)
Definition funder_ready (contracts : contractRegistry) (f : libfunder) : Prop :=
  ∀ a, Asset contracts "ETH" = Some a → is_eth_address a = true → IsAssetRegistered f a = true.

Lemma RegisterAssetERC20_keeps {FL : FunderLaws} f asset token acc b :
  IsAssetRegistered f b = true →
  IsAssetRegistered (RegisterAssetERC20_funder f asset token acc).1 b = true.
Proof.
  unfold RegisterAssetERC20_funder, IsAssetRegistered.
  destruct (is_eth_address b), (is_eth_address asset); try done. apply RegisterAsset_keeps.
Qed.

Lemma funder_ready_register {FL : FunderLaws} contracts f asset token acc :
  funder_ready contracts f → funder_ready contracts (RegisterAssetERC20_funder f asset token acc).1.
Proof.
  intros Hf a Ha He. apply RegisterAssetERC20_keeps. by apply Hf.
Qed.

(** On the registries of a node the funder is told about every asset: no nil
    currency and no nil token is dereferenced. *)
Lemma updateAssetsInFunder_ret {FL : FunderLaws} cs contracts f acc :
  wf_contracts contracts → Forall is_Some cs → funder_ready contracts f →
  ∃ f', updateAssetsInFunder cs contracts f acc = Ret f' ∧ funder_ready contracts f'.
Proof.
  intros Hwf Hcs. revert f. induction Hcs as [|c cs [c' ->] _ IH]; intros f Hf; [by exists f|].
  cbn. destruct (Asset contracts (Currency_Symbol c')) as [a|] eqn:Ha; cbn; [|by apply IH].
  destruct (IsAssetRegistered f a) eqn:Hr; cbn; [by apply IH|].
  destruct (is_eth_address a) eqn:He; cbn; [|by apply IH].
  destruct (decide (Currency_Symbol c' = "ETH")) as [Heq|Hne].
  { rewrite Heq in Ha. rewrite (Hf a Ha He) in Hr. done. }
  assert (is_Some (Token contracts (Currency_Symbol c'))) as [t ->].
  { apply Token_spec; [done|]. split; [done|by eexists]. }
  cbn. by apply IH, funder_ready_register.
Qed.

Lemma updateAssetsInFunder_keeps {FL : FunderLaws} cs contracts f acc f' a :
  updateAssetsInFunder cs contracts f acc = Ret f' →
  IsAssetRegistered f a = true → IsAssetRegistered f' a = true.
Proof.
  revert f. induction cs as [|[c|] cs IH]; intros f; cbn; [by intros [= ->]| |done].
  destruct (Asset _ _) as [b|]; cbn; [|by apply IH].
  destruct (IsAssetRegistered f b); cbn; [by apply IH|].
  destruct (is_eth_address b); cbn; [|by apply IH].
  destruct (Token _ _) as [t|]; cbn; [|done]. intros H Ha. apply (IH _ H). by apply RegisterAssetERC20_keeps.
Qed.

Lemma newCh_ret {Out : Type} p url cs parts t d :
  Forall is_Some cs → ∃ ch : Channel Out, newCh p url cs parts t d = Ret ch.
Proof.
  intros Hcs. unfold newCh. assert (∃ m, newCh_symbols cs = Ret m) as [m ->]; [|by eexists].
  unfold newCh_symbols. induction cs as [|c cs IH] using rev_ind; [by eexists|].
  apply Forall_app in Hcs as [Hcs Hc]. destruct (IH Hcs) as [m Hm].
  apply Forall_singleton in Hc as [c' ->]. rewrite imap_app, foldl_app, Hm. by eexists.
Qed.

Lemma balRows_ret cs rows :
  Forall is_Some cs → (length rows ≤ length cs)%nat → ∃ r, balRows cs rows = Ret r.
Proof.
  intros Hcs. revert rows. induction Hcs as [|c cs [c' ->] _ IH]; intros [|row rows] Hlen; cbn in *;
    try lia; try by eexists.
  destruct (IH rows) as [r ->]; [lia|]. by eexists.
Qed.

(** A channel whose currencies are known and cover its balances can be read. *)
Lemma info_ret {Out : Type} (ch : Channel Out) p :
  Forall is_Some (Currencies ch) →
  (length (al_Balances (st_Allocation (pch_State p))) ≤ length (Currencies ch))%nat →
  ∃ i, info_of ch p i.
Proof.
  intros Hcs Hlen. unfold info_of, makeChInfo, makeBalInfoFromState, makeBalInfoFromRawBal.
  destruct (balRows_ret _ _ Hcs Hlen) as [r Hr]. unfold Currencies in Hr. rewrite Hr. by eexists.
Qed.

Lemma alloc_rows_length contracts currencies ss rows cs az nss :
  alloc_rows contracts currencies ss rows cs az nss → length nss = length cs.
Proof. induction 1; cbn; congruence. Qed.

(** ** Opening a channel *)
Section open.
Context {Out C I : Type} {CC : ChClient C} {II : IDProviderI I}.
Implicit Types (s : Session Out C I) (es : list (SEvent Out)).

Definition OpenCh_codes : list ErrorCode :=
  [ErrResourceNotFound; ErrInvalidArgument; ErrTxTimedOut; ErrChainNotReachable; ErrPeerNotFunded;
   ErrPeerRequestTimedOut; ErrPeerRejected; ErrUnknownInternal].

(** The errors of proposing a channel to the peer. *)
Definition propose_codes : list ErrorCode :=
  [ErrTxTimedOut; ErrChainNotReachable; ErrPeerNotFunded; ErrPeerRequestTimedOut; ErrPeerRejected;
   ErrUnknownInternal].

Lemma handleProposeChError_codes s parts err :
  (2 ≤ length parts)%nat →
  ∃ e, handleProposeChError s parts err = Ret e ∧ errs_in propose_codes (Some e).
Proof.
  intros Hp. unfold handleProposeChError.
  pose proof (handleChainError_codes (s_chainURL s) (onChainTxTimeout_String s) err) as H1.
  destruct (handleChainError _ _ _) as [e|].
  { exists e. split; [done|]. apply (errs_in_mono _ _ (Some e) H1). set_solver. }
  destruct (lookup_lt_is_Some_2 parts 1%nat) as [peer Hpeer]; [lia|].
  unfold go_index. rewrite Hpeer. cbn.
  pose proof (handleFundingTimeoutError_codes peer 1 err) as H2.
  destruct (handleFundingTimeoutError _ _ _) as [e|].
  { exists e. split; [done|]. apply (errs_in_mono _ _ (Some e) H2). set_solver. }
  pose proof (handleProposalError_codes peer (Duration_String (response (s_timeoutCfg s))) err) as H3.
  destruct (handleProposalError _ _ _) as [e|]; eexists; (split; [done|]).
  - apply (errs_in_mono _ _ (Some e) H3). set_solver.
  - unfold propose_codes. errs_in_tac.
Qed.

(** What a request to open a channel leaves in the session. *)
Definition opened (E : env) (bal : BalInfo) (d : Z) s (es : list (SEvent Out)) s'
    (r : ChInfo * option APIError) : Prop :=
  match r with
  | (info, Some e) =>
      info = ChInfo_zero ∧ errs_in OpenCh_codes (Some e) ∧ s_chs s' = s_chs s ∧
      (es = [] ∨ ∃ t p, es = [SEvPropose t p])
  | (info, None) =>
      ∃ proposal c c' p cs ch,
        cc_ProposeChannel (proposeCh (s_timeoutCfg s) d) proposal c = (c', inl p) ∧
        alloc_rows (e_contracts E) (e_currencies E) (bi_Currencies bal) (bi_Bals bal) cs
          (al_Assets (lcp_InitBals proposal)) (al_Balances (lcp_InitBals proposal)) ∧
        newCh p (s_chainURL s) cs (bi_Parts bal) (s_timeoutCfg s) d = Ret ch ∧ info_of ch p info ∧
        s_chs s' = put ID ch (s_chs s) ∧
        es = [SEvPropose (proposeCh (s_timeoutCfg s) d) proposal; SEvWatch (hex (pch_ID p))]
  end.

(** A request that is refused leaves no channel and no proposal. *)
Definition refused (code : ErrorCode) s (es : list (SEvent Out)) s' (r : ChInfo * option APIError) : Prop :=
  es = [] ∧ s_chs s' = s_chs s ∧ ∃ e, r = (ChInfo_zero, Some e) ∧ Code e = code.

(** The outcome of a request, check by check; first with the participants [ids]
    resolved and registered in the client [c]. *)
Definition open_resolved (E : env) (bal : BalInfo) (app : App) (d : Z) (ids : list PeerID) (c : C) s
    (es : list (SEvent Out)) s' (r : ChInfo * option APIError) : Prop :=
  (∃ e, alloc_error (e_contracts E) (e_currencies E) bal e ∧ refused (Code e) s es s' r) ∨
  ∃ cs al, alloc_rows (e_contracts E) (e_currencies E) (bi_Currencies bal) (bi_Bals bal) cs
             (al_Assets al) (al_Balances al) ∧
    match NewLedgerChannelProposal d (pid_OffChainAddr (u_PeerID (s_user s))) al (makeOffChainAddrs ids)
            (app_Def app) (app_Data app) with
    | inr err => refused ErrUnknownInternal s es s' r
    | inl proposal =>
        let t := proposeCh (s_timeoutCfg s) d in
        match (cc_ProposeChannel t proposal c).2 with
        | inr err =>
            es = [SEvPropose t proposal] ∧ s_chs s' = s_chs s ∧
            ∃ e, r = (ChInfo_zero, Some e) ∧ errs_in propose_codes (Some e)
        | inl p =>
            ∃ ch info, newCh p (s_chainURL s) cs (bi_Parts bal) (s_timeoutCfg s) d = Ret ch ∧
              info_of ch p info ∧ s_chs s' = put ID ch (s_chs s) ∧
              es = [SEvPropose t proposal; SEvWatch (hex (pch_ID p))] ∧ r = (info, None)
        end
    end.

Definition open_outcome (E : env) (bal : BalInfo) (app : App) (d : Z) s (es : list (SEvent Out)) s'
    (r : ChInfo * option APIError) : Prop :=
  let known := idp_ReadByAlias (s_idProvider s) in
  if decide (¬ Forall (λ a, is_Some (known a)) (bi_Parts bal)) then refused ErrResourceNotFound s es s' r
  else if decide (¬ NoDup (bi_Parts bal) ∨ OwnAlias ∉ bi_Parts bal) then refused ErrInvalidArgument s es s' r
  else ∃ ids c, Forall2 (λ a p, known a = Some p) (bi_Parts bal) ids ∧
         registerParts ids (s_chClient s) = Ret c ∧ open_resolved E bal app d ids c s es s' r.

(** The error of a refusal is a documented one. *)
Definition documented (r : ChInfo * option APIError) : Prop :=
  match r with (_, Some e) => errs_in OpenCh_codes (Some e) | _ => True end.

Lemma OpenCh_run {FL : FunderLaws} {PL : ProposalLaws C} E bal bal' app d s :
  s_locked s = false → s_isOpen s = true → wf_registries (e_contracts E) (e_currencies E) →
  funder_ready (e_contracts E) (s_funder s) →
  (∀ a p, idp_ReadByAlias (s_idProvider s) a = Some p → is_Some (pid_OffChainAddr p)) →
  sanitizeBalInfo bal = Ret bal' → (2 ≤ length (bi_Parts bal'))%nat →
  wp (OpenCh E bal app d) s (λ es s' r, open_outcome E bal' app d s es s' r ∧ documented r ∧
    s_locked s' = false ∧ s_isOpen s' = true).
Proof.
  intros Hl Ho Hreg Hfund Haddr Hbal Hparts.
  unfold OpenCh. wp_steps. rewrite Ho. cbn [negb]. rewrite Hbal. wp_steps.
  pose proof (retrievePartIDs_codes (s_idProvider s) (bi_Parts bal')) as Hids.
  pose proof (retrievePartIDs_spec (s_idProvider s) (bi_Parts bal')) as Hspec.
  destruct (retrievePartIDs _ _) as [ids|e].
  2:{ wp_steps. split; [|split_and!; [apply (errs_in_mono _ _ (Some e) Hids); set_solver|done..]].
      unfold open_outcome. destruct Hspec as [[Hc (a & Ha & Hn)]|(Hc & Hk & Hbad)].
      - rewrite decide_True; [split_and!; eauto|].
        intros Hall. rewrite Forall_forall in Hall. specialize (Hall a Ha). rewrite Hn in Hall. by destruct Hall.
      - rewrite decide_False by tauto. rewrite decide_True by done. split_and!; eauto. }
  destruct (registerParts_ret ids (s_chClient s)) as [c Hc].
  { clear -Hids Haddr. induction Hids; constructor; [by eapply Haddr|done]. }
  destruct Hspec as (Hnd & Hown & _).
  assert (Hgo : ∀ es s' r, open_resolved E bal' app d ids c s es s' r → open_outcome E bal' app d s es s' r).
  { intros es s' r H. unfold open_outcome. rewrite decide_False, decide_False; [by exists ids, c| |].
    - tauto.
    - intros Hn. apply Hn. clear -Hids. induction Hids; constructor; eauto. }
  rewrite Hc. wp_steps.
  destruct (makeAllocation_run bal' _ _ Hreg) as (r & Hr0 & Hr). rewrite Hr0. wp_steps.
  destruct r as [[cs al]|e].
  2:{ wp_steps. split; [|split_and!; [apply (errs_in_mono _ _ (Some e) Hr); set_solver|by destruct s..]].
      apply Hgo. left. exists e.
      split; [by apply makeAllocation_error|]. split_and!; [done..|eauto]. }
  wp_steps. pose proof (alloc_rows_currencies _ _ _ _ _ _ _ Hr) as [Hcs _].
  destruct (updateAssetsInFunder_ret cs (e_contracts E) (s_funder s)
    (cred_Addr (u_OnChain (s_user s))) (wfr_contracts _ _ Hreg) Hcs Hfund) as (f & Hf & _).
  replace (updateAssetsInFunder cs (e_contracts E) (s_funder (set_chClient c s)) _) with (Ret f)
    by (destruct s; cbn in *; by rewrite <-Hf).
  wp_steps. set (s1 := set_funder f (set_chClient c s)).
  change (s_user (set_chClient c s)) with (s_user s).
  destruct (NewLedgerChannelProposal _ _ _ _ _ _) as [proposal|err] eqn:Hprop.
  2:{ wp_steps. split; [|split_and!; [unfold documented, OpenCh_codes; errs_in_tac|by destruct s..]].
      apply Hgo. right. exists cs, al. split; [done|]. rewrite Hprop.
      split_and!; [done|by destruct s|eauto]. }
  wp_steps. destruct (cc_ProposeChannel _ proposal (s_chClient s1)) as [c' res] eqn:Hres. wp_steps.
  destruct res as [p|err].
  2:{ destruct (handleProposeChError_codes s1 (bi_Parts bal') (ErrWithMessage "proposing channel" err) Hparts)
        as (e & -> & He).
      wp_steps. split; [|split_and!; [apply (errs_in_mono _ _ (Some e) He); set_solver|by destruct s..]].
      apply Hgo. right. exists cs, al. split; [done|]. rewrite Hprop.
      cbv zeta. assert (cc_ProposeChannel (proposeCh (s_timeoutCfg s) d) proposal c = (c', inr err)) as -> by by destruct s.
      split_and!; [by destruct s..|eauto]. }
  set (s2 := set_chClient c' s1).
  destruct (newCh_ret (Out := Out) p (s_chainURL s) cs (bi_Parts bal') (s_timeoutCfg s) d Hcs) as [ch Hch].
  pose proof (proposal_bals _ _ _ _ _ _ _ Hprop) as Hal.
  destruct (newCh_spec _ _ _ _ _ _ _ Hch) as (Hp & _ & Hlk & _ & _ & _ & _ & Hid & _ & HC & _).
  destruct (info_ret ch p) as [i Hi].
  { by rewrite HC. }
  { rewrite HC, (propose_bals _ _ _ _ _ Hres), Hal. by rewrite (alloc_rows_length _ _ _ _ _ _ _ Hr). }
  eapply wp_run.
  { apply (add_new_channel (λ _ info, (info, None)) p cs (bi_Parts bal') d s2 ch i); [by destruct s|by destruct s|].
    apply GetChInfo_run; [done|by rewrite Hp]. }
  cbn [Datatypes.app]. split; [|split_and!; by destruct s].
  apply Hgo. right. exists cs, al. split; [done|]. rewrite Hprop.
  cbv zeta. assert (cc_ProposeChannel (proposeCh (s_timeoutCfg s) d) proposal c = (c', inl p)) as -> by by destruct s.
  exists ch, i. split_and!; try done; by destruct s.
Qed.

Lemma OpenCh_wp {FL : FunderLaws} {PL : ProposalLaws C} E bal bal' app d s :
  s_locked s = false → s_isOpen s = true → wf_registries (e_contracts E) (e_currencies E) →
  funder_ready (e_contracts E) (s_funder s) →
  (∀ a p, idp_ReadByAlias (s_idProvider s) a = Some p → is_Some (pid_OffChainAddr p)) →
  sanitizeBalInfo bal = Ret bal' → (2 ≤ length (bi_Parts bal'))%nat →
  wp (OpenCh E bal app d) s (λ es s' r, opened E bal' d s es s' r ∧ s_locked s' = false ∧ s_isOpen s' = true).
Proof.
  intros Hl Ho Hreg Hfund Haddr Hbal Hparts.
  eapply wp_mono; [|by eapply (OpenCh_run E bal bal' app d s)].
  intros es s' [info err] (Hout & Hdoc & Hl' & Ho'). split; [|by split].
  assert (Href : ∀ code, refused code s es s' (info, err) → opened E bal' d s es s' (info, err)).
  { intros code (-> & Hchs & e & [= -> ->] & _). split_and!; [done..|by left]. }
  revert Hout. unfold open_outcome. destruct (decide _) as [_|_]; [apply Href|].
  destruct (decide _) as [_|_]; [apply Href|].
  intros (ids & c & _ & _ & [(e & _ & H)|(cs & al & Hal & H)]); [by eapply Href|].
  destruct (NewLedgerChannelProposal _ _ _ _ _ _) as [proposal|] eqn:Hprop; [|by eapply Href].
  cbv zeta in H. destruct (cc_ProposeChannel _ proposal c) as [c' [p|err']] eqn:Hres; cbn [snd] in H.
  - destruct H as (ch & i & Hch & Hi & Hchs & -> & [= -> ->]).
    exists proposal, c, c', p, cs, ch. by rewrite (proposal_bals _ _ _ _ _ _ _ Hprop).
  - destruct H as (-> & Hchs & e & [= -> ->] & _). split_and!; [done..|by right; eexists _, _].
Qed.

(** C12: Opening a channel in an open session, check by check, for a request of at least
    two participants whose balances can be brought into the order that has the own alias first (a
    row that is too short for that crashes), on the registries of a node and with an
    ID provider whose entries have addresses.  It always answers.  An unknown alias is
    reported as such; an alias that is repeated and a missing own alias are invalid
    arguments; then an unknown currency, or amounts that do not fit the currencies
    or cannot be parsed, are refused with the code of their rule; then the SDK may
    refuse to make the proposal.  None of these sends anything, and no channel is
    added.  Otherwise exactly one proposal, with the addresses of the participants
    and the amounts the interpreters of the currencies parse, goes to the peer, and
    the SDK's result decides: an error gives the information zero, one of the codes
    of proposing and no channel; on success exactly one channel, made of the peer's
    controller, is added, with the participants in the normalised order and the
    currencies of the request; its watcher is started and its information is
    returned. *)
Theorem OpenCh_spec {FL : FunderLaws} {PL : ProposalLaws C} E bal bal' app d s
    (Hl : s_locked s = false) (Ho : s_isOpen s = true)
    (Hreg : wf_registries (e_contracts E) (e_currencies E))
    (Hfund : funder_ready (e_contracts E) (s_funder s))
    (Haddr : ∀ a p, idp_ReadByAlias (s_idProvider s) a = Some p → is_Some (pid_OffChainAddr p))
    (Hbal : sanitizeBalInfo bal = Ret bal') (Hparts : (2 ≤ length (bi_Parts bal'))%nat) :
  wp (OpenCh E bal app d) s (λ es s' r, open_outcome E bal' app d s es s' r ∧ documented r ∧
    s_locked s' = false ∧ s_isOpen s' = true).
Proof. by apply OpenCh_run. Qed.
End open.

(** ** The history of a session *)
Section history.
Context {Out C I : Type} {CC : ChClient C} {II : IDProviderI I} {IL : IDProviderLaws I} {FL : FunderLaws}.
Implicit Types (s : Session Out C I) (es : list (SEvent Out)).
Local Abbreviation sprog := (sprog Out C I).

(** Every peer ID of the provider has a parsed address. *)
Definition addrs_known (idp : I) : Prop :=
  ∀ a p, idp_ReadByAlias idp a = Some p → is_Some (pid_OffChainAddr p).

Definition ch_ids s : list string := ID <$> chs (s_chs s).

(** What never changes and what only grows. *)
Record evolves s es s' : Prop := {
  ev_static : s_id s' = s_id s ∧ s_user s' = s_user s ∧ s_timeoutCfg s' = s_timeoutCfg s ∧
              s_chainURL s' = s_chainURL s ∧ s_chain s' = s_chain s;
  ev_closed : s_isOpen s = false → s_isOpen s' = false;
  ev_chs : ch_ids s `prefix_of` ch_ids s';
  ev_funder a : IsAssetRegistered (s_funder s) a = true → IsAssetRegistered (s_funder s') a = true;
  ev_addrs : addrs_known (s_idProvider s) → addrs_known (s_idProvider s');
}.

#[local] Instance evolves_trace : TraceRel evolves.
Proof.
  split; [by split|].
  intros s es s1 es' s2 [(?&?&?&?&?) ? ? ? ?] [(?&?&?&?&?) ? ? ? ?].
  split; [split_and!; congruence|by auto|by etrans|by auto|by auto].
Qed.

Local Abbreviation keeps_ev := (keeps evolves).

(** Assignments to the other fields. *)
Lemma evolves_ext s es s' :
  s_id s' = s_id s → s_user s' = s_user s → s_timeoutCfg s' = s_timeoutCfg s →
  s_chainURL s' = s_chainURL s → s_chain s' = s_chain s → s_isOpen s' = s_isOpen s →
  s_chs s' = s_chs s → s_funder s' = s_funder s → s_idProvider s' = s_idProvider s → evolves s es s'.
Proof. intros E1 E2 E3 E4 E5 E6 E7 E8 E9. split; unfold ch_ids; rewrite ?E1, ?E2, ?E3, ?E4, ?E5, ?E6, ?E7, ?E8, ?E9; done. Qed.

Hint Extern 1 (keeps_ev (emit _)) => apply keeps_emit; intros; by apply evolves_ext : keeps.
Hint Extern 2 (keeps_ev (modify _)) => apply keeps_modify; intros; by apply evolves_ext : keeps.

Lemma keeps_ev_with_slock {A} (m : sprog A) : keeps_ev m → keeps_ev (with_slock m).
Proof.
  intros Hm s es s' a (_ & s1 & Hr & ->)%with_slock_ret. apply Hm in Hr.
  destruct Hr as [(?&?&?&?&?) ? ? ? ?]. by split.
Qed.
Hint Resolve keeps_ev_with_slock : keeps.

Lemma keeps_ev_zoom_ch {A} i (m : chprog Out A) : keeps same_params m → keeps_ev (zoom_ch i m).
Proof.
  intros Hm s es s' a. unfold zoom_ch, zoom, go_index.
  destruct (chs (s_chs s) !! i) as [ch|] eqn:Hi; [|done].
  destruct (m ch) as [[es1 ch'] o] eqn:Er. intros [= <- <- ->].
  split; try done. unfold ch_ids. cbn. rewrite list_fmap_insert, list_insert_id; [done|].
  rewrite list_lookup_fmap, Hi. cbn. apply Hm in Er. unfold ID. by rewrite Er.
Qed.
Hint Extern 1 (keeps_ev (zoom_ch _ _)) => apply keeps_ev_zoom_ch;
  first [ apply same_params_silent; first [apply silent_GetChInfo | apply silent_getChInfo]
        | apply same_params_inspectCh | apply same_params_Unlock | apply same_params_run_op ] : keeps.

Lemma keeps_ev_forEach {A} idxs (f : nat → sprog A) :
  (∀ i, keeps_ev (f i)) → keeps_ev (forEach idxs f).
Proof. intros Hf. induction idxs; cbn; keeps_tac. Qed.
Hint Resolve keeps_ev_forEach : keeps.

Lemma keeps_ev_addCh ch : keeps_ev (addCh ch).
Proof.
  apply keeps_ev_with_slock. keeps_tac. split; try done. unfold ch_ids. cbn.
  rewrite fmap_app. by eexists.
Qed.
Lemma keeps_ev_newCh p cs parts d : keeps_ev (s_newCh p cs parts d).
Proof. unfold s_newCh. keeps_tac. Qed.
Lemma keeps_ev_reject r reason : keeps_ev (rejectChProposal r reason).
Proof. unfold rejectChProposal. keeps_tac. Qed.
Lemma keeps_ev_storeProposal e x : keeps_ev (storeProposal e x).
Proof. apply keeps_ev_with_slock. keeps_tac. Qed.
Lemma keeps_ev_takeProposal id : keeps_ev (takeProposal id).
Proof. apply keeps_ev_with_slock. keeps_tac. Qed.
Lemma keeps_ev_sendCached i n : keeps_ev (sendCachedProposals i n).
Proof. induction i; cbn; keeps_tac. Qed.
Hint Resolve keeps_ev_addCh keeps_ev_newCh keeps_ev_reject keeps_ev_storeProposal keeps_ev_takeProposal
  keeps_ev_sendCached : keeps.

(** The funder is only ever told about more assets. *)
Lemma keeps_ev_funder {A} cs contracts acc (k : Session Out C I → sprog A) :
  (∀ s, keeps_ev (k s)) →
  keeps_ev (s ← get_state; f ← lift (updateAssetsInFunder cs contracts (s_funder s) (acc s));
            modify (set_funder f);; k s).
Proof.
  intros Hk s es s' a (es1 & s1 & s0 & es2 & [= <- <- <-] & H & ->)%bind_ret.
  apply bind_ret in H as (es3 & s2 & f & es4 & [= <- <- Hf] & H & ->).
  apply bind_ret in H as (es5 & s3 & [] & es6 & [= <- <-] & H & ->).
  eapply (trace_app s [] (set_funder f s)); [|by eapply Hk in H].
  split; try done. cbn. intros b. by eapply updateAssetsInFunder_keeps.
Qed.

Ltac ev_tac := repeat first [solve [eauto with keeps] | apply keeps_ev_with_slock | apply keeps_ev_funder; intros | keeps_step].

Lemma keeps_ev_AddPeerID p : keeps_ev (AddPeerID p).
Proof.
  apply keeps_ev_with_slock. intros s es s' a.
  unfold mbind, prog_mbind, get_state. destruct (negb (s_isOpen s)); cbn.
  { intros [= <- <- _]. apply trace_nil. }
  destruct (idp_Write _ _ _) as [idp err] eqn:Ew. cbn. intros [= <- <- _].
  split; try done. cbn. destruct err as [err|].
  { by apply idp_Write_err in Ew as ->. }
  apply idp_Write_ok in Ew as (_ & (q & Hq & _ & Hqa) & Hother). intros Ha b r.
  destruct (decide (b = pid_Alias p)) as [->|Hne]; [rewrite Hq; by intros [= <-]|].
  rewrite Hother by done. apply Ha.
Qed.

Lemma keeps_ev_Close f : keeps_ev (Session.Close f).
Proof.
  unfold Session.Close, unlockAllChs, closeClient. apply keeps_ev_with_slock. keeps_tac. by split.
Qed.

Lemma keeps_ev_run_sop o : keeps_ev (run_sop o).
Proof.
  destruct o as [| | |E [] | | | | | | | | | |]; cbn [run_sop];
    try (apply keeps_bind; [exact _| |intros; apply keeps_mret; exact _]);
    first [ apply keeps_ev_AddPeerID | apply keeps_ev_Close
          | unfold GetPeerID, OpenCh, HandleProposal, SubChProposals, UnsubChProposals, RespondChProposal,
              answerProposal, acceptChProposal, GetChsInfo, GetCh, Session.HandleUpdate,
              Session.DeployAssetERC20, handleRestoredCh; ev_tac ].
Qed.

(** Any sequence of calls and callbacks. *)
Inductive s_steps : Session Out C I → list (s_op (Out := Out)) → list (SEvent Out) → Session Out C I → Prop :=
| s_steps_nil s : s_steps s [] [] s
| s_steps_cons s o es s' os es' s'' :
    run_sop o s = (es, s', Ret tt) → s_steps s' os es' s'' →
    s_steps s (o :: os) (es ++ es') s''.

(** What every session of a node satisfies. *)
Record session_inv (contracts : contractRegistry) s : Prop := {
  si_wf : wf_session s;
  si_addrs : addrs_known (s_idProvider s);
  si_funder : funder_ready contracts (s_funder s);
}.

Lemma evolves_inv contracts s es s' :
  evolves s es s' → wf_session s' → session_inv contracts s → session_inv contracts s'.
Proof.
  intros [_ _ _ Hf Ha] Hwf [_ ? Hr]. split; [done|by auto|]. intros a H1 H2. by apply Hf, Hr.
Qed.

(** C2: Over any sequence of calls, SDK callbacks and channel operations, a session
    stays well-formed: its registry indexes exactly its channels, with a
    subscription nothing stays cached, proposals wait under their own IDs, all
    peer IDs have parsed addresses and the funder knows the ETH asset.  Its
    identity never changes, a closed session is never open again, channels are
    never removed or reordered (so the channels handed out stay valid) and the
    funder never forgets an asset. *)
Theorem session_invariant contracts s os es s'
    (Hinv : session_inv contracts s) (Hsteps : s_steps s os es s') :
  session_inv contracts s' ∧ evolves s es s'.
Proof.
  induction Hsteps as [s|s o es s' os es' s'' Hstep _ IH]; [split; [done|apply trace_nil]|].
  pose proof (keeps_ev_run_sop o _ _ _ _ Hstep) as He.
  pose proof (keeps_wf_run_sop o _ _ _ _ Hstep (si_wf _ _ Hinv)) as Hw.
  destruct IH as [Hi Hev]; [by eapply evolves_inv|]. split; [done|by eapply trace_app].
Qed.
End history.

(** ** Creating a session *)
Section new.
Context {Out : Type} {FL : FunderLaws}.
Implicit Types (s : Session Out client idProviderCache).

Lemma indexPeers_addrs backend order peers byAddr peers' byAddr' :
  indexPeers backend order peers byAddr = inl (peers', byAddr') →
  (∀ a p, peers !! a = Some p → is_Some (pid_OffChainAddr p) ∨ a ∈ order.*1) →
  ∀ a p, peers' !! a = Some p → is_Some (pid_OffChainAddr p).
Proof.
  revert peers byAddr. induction order as [|[al q] order IH]; intros peers byAddr; cbn.
  { intros [= <- <-] H a p Hp. destruct (H a p Hp) as [?|Hin]; [done|]. by apply elem_of_nil in Hin. }
  destruct (wb_ParseAddr _ _) as [addr|]; [|done]. intros Hi H. apply (IH _ _ Hi). intros a p.
  destruct (decide (al = a)) as [<-|Hne]; [rewrite lookup_insert_eq; intros [= <-]; by left; eexists|].
  rewrite lookup_insert_ne by done. intros Hp. destruct (H a p Hp) as [?|Hin]; [by left|].
  right. apply elem_of_cons in Hin as [->|?]; done.
Qed.

(** The provider of a new session gives every peer an address. *)
Lemma initIDProvider_addrs ty url file wb own idp :
  if_order file ≡ₚ map_to_list (if_decoded file) →
  initIDProvider ty url file wb own = inl idp → addrs_known idp.
Proof.
  intros Horder. unfold initIDProvider, NewIDprovider, newIDProviderCache.
  destruct (negb _); [done|]. destruct (if_openErr file); [done|].
  destruct (match if_decodeErr file with Some _ => _ | None => _ end); [done|].
  destruct (indexPeers _ _ _ _) as [[peers byAddr]|] eqn:Ei; [|done]. cbn.
  assert (addrs_known (mkCache wb peers byAddr)) as Ha.
  { intros a p Hp. eapply (indexPeers_addrs _ _ _ _ _ _ Ei); [|exact Hp].
    intros b q Hq. right. rewrite Horder. apply list_elem_of_fmap.
    exists (b, q). split; [done|]. by apply elem_of_map_to_list. }
  pose proof (Write_run OwnAlias (set_Alias OwnAlias own) (mkCache wb peers byAddr)) as Hw.
  destruct (Write _ _ _) as [c [err|]] eqn:Ew; [done|]. intros [= <-] b q Hq.
  change (idp_Write OwnAlias (set_Alias OwnAlias own) (mkCache wb peers byAddr) = (c, None)) in Ew.
  apply idp_Write_ok in Ew as (_ & (r & Hr & _ & Hra) & Hother).
  destruct (decide (b = OwnAlias)) as [->|Hne]; [rewrite Hr in Hq; by injection Hq as <-|].
  rewrite Hother in Hq by done. by apply (Ha b).
Qed.

(** Whether a channel found in the database is added to the session. *)
Definition restorable (E : env) (idp : idProviderCache) (p : pch) : bool :=
  bool_decide (pch_Phase p = Acting)
  && match restoredParts idp (pch_Peers p) with Some _ => true | None => false end
  && match getCurrencies (al_Assets (st_Allocation (pch_State p))) (e_contracts E) (e_currencies E) with
     | inl _ => true
     | inr _ => false
     end.

(** The state of a restored channel has balances for its assets only. *)
Definition bals_match (p : pch) : Prop :=
  (length (al_Balances (st_Allocation (pch_State p))) ≤
   length (al_Assets (st_Allocation (pch_State p))))%nat.

Lemma getCurrencies_known contracts currencies az cs :
  wf_registries contracts currencies → getCurrencies az contracts currencies = inl cs →
  Forall is_Some cs ∧ length cs = length az.
Proof.
  intros Hwf. revert cs. induction az as [|a az IH]; intros cs; cbn; [intros [= <-]; by split|].
  destruct (Symbol_of contracts a) as [sym|] eqn:Ha; [|done].
  destruct (getCurrencies az _ _) as [cs'|]; [|done]. intros [= <-].
  destruct (IH cs' eq_refl) as [Hf Hlen]. cbn. rewrite Hlen. split; [|done]. constructor; [|done].
  apply isAssetRegistered_spec in Ha as (j & Hj & Hs); [|apply Hwf].
  destruct (registered_Currency_spec currencies sym) as (c & -> & _); [apply Hwf| |by eexists].
  apply (wfr_symbols _ _ Hwf). unfold Asset, isSymbolRegistered. rewrite Hs, Hj. by eexists.
Qed.

Lemma restoredParts_addrs idp addrs ps :
  addrs_known idp → restoredParts idp addrs = Some ps → Forall (λ p, is_Some (pid_OffChainAddr p)) ps.
Proof.
  intros Ha. revert ps. induction addrs as [|a addrs IH]; intros ps; cbn; [by intros [= <-]|].
  destruct (aliasByAddr idp !! addr_String a) as [al|]; [|done].
  destruct (readByAlias idp al) as [p|] eqn:Hp; [|done].
  destruct (restoredParts idp addrs) as [ps'|]; [|done]. intros [= <-].
  constructor; [by eapply Ha|by apply IH].
Qed.

Lemma registerParts_db parts (c c' : client) :
  registerParts parts c = Ret c' → cl_dbConn c' = cl_dbConn c.
Proof.
  revert c. induction parts as [|p parts IH]; intros c; cbn; [by intros [= ->]|].
  case_decide; [apply IH|]. destruct (pid_OffChainAddr p); cbn; [|done]. intros Hc. by rewrite (IH _ Hc).
Qed.

Lemma info_idle (ch : Channel Out) i :
  ch_locked ch = false → info_of ch (ch_pch ch) i → idle ch.
Proof. intros Hl Hi. split; [done|]. unfold info_val, info_of in *. by rewrite Hi. Qed.

(** Restoring one channel: only the registry and the dialer of the client change. *)
Lemma handleRestoredCh_wp E p s :
  wf_registries (e_contracts E) (e_currencies E) → addrs_known (s_idProvider s) → bals_match p →
  s_locked s = false →
  wp (handleRestoredCh E p) s (λ _ s' _,
    (∃ c r, s' = set_chs r (set_chClient c s) ∧ cl_dbConn c = cl_dbConn (s_chClient s)) ∧
    (Forall idle (chs (s_chs s)) → Forall idle (chs (s_chs s'))) ∧
    ch_ids s' = ch_ids s ++ (if restorable E (s_idProvider s) p then [hex (pch_ID p)] else [])).
Proof.
  intros Hreg Ha Hbals Hl. unfold handleRestoredCh, restorable. wp_steps.
  destruct (decide (pch_Phase p ≠ Acting)) as [Hph|Hph].
  { rewrite bool_decide_eq_false_2 by done. wp_steps. rewrite app_nil_r. split; [|done].
    exists (s_chClient s), (s_chs s). split; [by destruct s|done]. }
  rewrite bool_decide_eq_true_2 by (by destruct (decide (pch_Phase p = Acting))). cbn [andb].
  destruct (restoredParts _ _) as [ps|] eqn:Hps.
  2:{ wp_steps. rewrite app_nil_r. split; [|done]. exists (s_chClient s), (s_chs s). split; [by destruct s|done]. }
  destruct (registerParts_ret ps (s_chClient s)) as [c Hc]; [by eapply restoredParts_addrs|].
  apply registerParts_db in Hc as Hdb. rewrite Hc. wp_steps.
  destruct (getCurrencies _ _ _) as [cs|] eqn:Hcs.
  2:{ wp_steps. rewrite app_nil_r. split; [|done]. exists c, (s_chs s). by destruct s. }
  destruct (getCurrencies_known _ _ _ _ Hreg Hcs) as [Hf Hlen].
  destruct (newCh_ret (Out := Out) p (s_chainURL s) cs (pid_Alias <$> ps) (s_timeoutCfg s)
    (pch_ChallengeDuration p) Hf) as [ch Hch].
  destruct (newCh_spec _ _ _ _ _ _ _ Hch) as (Hp & _ & Hlk & _ & _ & _ & _ & Hid & _ & HC & _).
  destruct (info_ret ch p) as [i Hi]; [by rewrite HC|rewrite HC, Hlen; apply Hbals|].
  eapply wp_run.
  { apply (add_new_channel (λ _ _, tt) p cs (pid_Alias <$> ps) (pch_ChallengeDuration p)
      (set_chClient c s) ch i); [by destruct s|by destruct s|].
    apply getChInfo_run. by rewrite Hp. }
  split; [by eexists c, _|]. split.
  { intros Hid'. destruct s. cbn in *. apply Forall_app. split; [done|]. apply Forall_singleton.
    by apply (info_idle ch i); [|rewrite Hp]. }
  unfold ch_ids. destruct s. cbn. rewrite fmap_app. cbn. by rewrite Hid.
Qed.

Lemma restoreAll_wp E ps s :
  wf_registries (e_contracts E) (e_currencies E) → addrs_known (s_idProvider s) → Forall bals_match ps →
  s_locked s = false →
  wp (restoreAll E ps) s (λ _ s' _,
    (∃ c r, s' = set_chs r (set_chClient c s) ∧ cl_dbConn c = cl_dbConn (s_chClient s)) ∧
    (Forall idle (chs (s_chs s)) → Forall idle (chs (s_chs s'))) ∧
    ch_ids s' = ch_ids s ++ (hex ∘ pch_ID <$> filter (restorable E (s_idProvider s)) ps)).
Proof.
  intros Hreg. revert s. induction ps as [|p ps IH]; intros s Ha Hall Hl; cbn [restoreAll].
  { wp_steps. split; [exists (s_chClient s), (s_chs s); split; [by destruct s|done]|]. by rewrite app_nil_r. }
  apply Forall_cons in Hall as [Hp Hall]. wp_steps.
  eapply wp_mono; [|by apply handleRestoredCh_wp]. intros es s1 [] [(c & r & -> & Hdb) [Hidle Hids]].
  set (s1 := set_chs r (set_chClient c s)) in *.
  eapply wp_mono; [|apply (IH s1); done]. intros es2 s2 [] [(c2 & r2 & -> & Hdb2) [Hidle2 Hids2]].
  split; [exists c2, r2; split; [by destruct s|by rewrite Hdb2]|].
  split; [by auto|]. rewrite Hids2, Hids, <-app_assoc. f_equal.
  change (s_idProvider s1) with (s_idProvider s). rewrite filter_cons.
  destruct (restorable E (s_idProvider s) p) eqn:Hr; by case_decide.
Qed.

Lemma restoreAll_wf E ps : keeps (invariant wf_session) (restoreAll (Out := Out) E ps).
Proof.
  induction ps as [|p ps IH]; cbn [restoreAll]; [apply keeps_mret; exact _|].
  apply keeps_bind; [exact _|apply keeps_wf_handleRestoredCh|done].
Qed.

Lemma initIDProvider_codes ty url file wb own e :
  initIDProvider ty url file wb own = inr e → errs_in [ErrInvalidConfig; ErrUnknownInternal] (Some e).
Proof.
  unfold initIDProvider. destruct (negb _); [intros [= <-]; errs_in_tac|].
  destruct (NewIDprovider _ _ _ _ _ _); [|intros [= <-]; errs_in_tac].
  destruct (Write _ _ _) as [c [err|]]; [intros [= <-]; errs_in_tac|done].
Qed.

Lemma newEthereumPaymentClient_codes comm addr cred e :
  newEthereumPaymentClient comm addr cred = inr e →
  errs_in [ErrInvalidConfig; ErrUnknownInternal] (Some e).
Proof.
  unfold newEthereumPaymentClient. destruct (wallet_Unlock _ _); [intros [= <-]; errs_in_tac|].
  destruct (NewClient _ _); [|intros [= <-]; errs_in_tac].
  destruct (NewListener _ _); [intros [= <-]; errs_in_tac|done].
Qed.

Lemma AssetETH_ret r : wf_contracts r → ∃ a, AssetETH r = Ret a ∧ Asset r "ETH" = Some a.
Proof.
  intros Hwf. unfold AssetETH, Asset, isSymbolRegistered, go_index. rewrite (wfc_eth _ Hwf). cbn.
  destruct (lookup_lt_is_Some_2 (cr_assets r) 0%nat) as [a Ha]; [by eapply wfc_range, wfc_eth|].
  exists a. by rewrite Ha.
Qed.

(** What the client restores are channels of the SDK; without an error its
    database is open. *)
Lemma RestoreChs_restored dir t c c' ps err :
  RestoreChs dir t c = (c', ps, err) →
  (∀ P : pch → Prop, (∀ p, Forall P (pcl_Restore t p).1.2) → Forall P ps) ∧
  (err = None → client_ready c' ∧ ∃ p, ps = (pcl_Restore t p).1.2).
Proof.
  unfold RestoreChs. destruct (LoadDatabase dir); [|by intros [= <- <- <-]].
  destruct (pcl_Restore _ _) as [[p l] e] eqn:E. intros [= <- <- <-].
  assert (l = (pcl_Restore t (cl_pClient c)).1.2) as Hl by (cbn in E; by rewrite E).
  split; [intros P HP; rewrite Hl; apply HP|]. intros _. split; [by eexists|by eexists].
Qed.

(** The session that [New] makes. *)
Record created (E : env) (cfg : Config) (id : string) s : Prop := {
  cr_inv : session_inv (e_contracts E) s;
  cr_open : s_isOpen s = true ∧ s_locked s = false ∧ s_id s = id;
  cr_nothing : s_chProposalNotifier s = None ∧ s_chProposalNotifsCache s = [] ∧ pending s = [];
  cr_client : WgHandle ∈ cl_goroutines (s_chClient s) ∧ client_ready (s_chClient s);
  cr_chs : ∃ c, ch_ids s = hex ∘ pch_ID <$>
    filter (restorable E (s_idProvider s)) (pcl_Restore (cfg_PeerReconnTimeout cfg) c).1.2;
  cr_idle : Forall idle (chs (s_chs s));
}.

Lemma New_run E cfg file id :
  wf_registries (e_contracts E) (e_currencies E) →
  if_order file ≡ₚ map_to_list (if_decoded file) →
  (∀ t c, Forall bals_match (pcl_Restore t c).1.2) →
  ∃ r, New (Out := Out) E cfg file id = Ret r ∧
  match r with
  | inr e => errs_in [ErrInvalidConfig; ErrUnknownInternal] (Some e)
  | inl s => created E cfg id s
  end.
Proof.
  intros Hreg Horder Hrest.
  unfold New. pose proof (NewUnlockedUser_spec (e_walletBackend E) (cfg_User cfg)) as Hu.
  destruct (NewUnlockedUser _ _) as [user|e].
  2:{ eexists. split; [done|]. apply (errs_in_mono _ _ (Some e) Hu). set_solver. }
  clear Hu. destruct (negb _); [eexists; split; [done|errs_in_tac]|].
  destruct (initIDProvider _ _ _ _ _) as [idp|e] eqn:Hidp.
  2:{ eexists. split; [done|]. by eapply initIDProvider_codes. }
  apply initIDProvider_addrs in Hidp as Haddr; [|done].
  destruct (NewChainBackend _ _ _ _ _) as [chain|err]; [|eexists; split; [done|errs_in_tac]].
  destruct (AssetETH_ret (e_contracts E) (wfr_contracts _ _ Hreg)) as (eth & Heth & Hasset).
  rewrite Heth. cbn [mbind outcome_mbind].
  destruct (newEthereumPaymentClient _ _ _) as [cl|e] eqn:Hcl.
  2:{ eexists. split; [done|]. by eapply newEthereumPaymentClient_codes. }
  destruct (RestoreChs _ _ cl) as [[cl' ps] err] eqn:Hr.
  destruct (RestoreChs_restored _ _ _ _ _ _ Hr) as [HP Hok].
  match goal with |- context [mkSession id true user cl' idp ?tc ?url chain ?f ?r None [] ∅ false] =>
    set (s0 := mkSession id true user cl' idp tc url chain f r None [] ∅ false) end.
  destruct (restoreAll_wp E ps s0 Hreg Haddr (HP _ (Hrest _)) eq_refl)
    as (es & s1 & [] & Hrun & (c & r & -> & Hdb) & Hidle & Hids).
  rewrite Hrun. cbn [mbind outcome_mbind].
  destruct err as [err|]; [eexists; split; [done|errs_in_tac]|].
  assert (wf_session (Out := Out) s0) as Hwf0.
  { split; cbn; [apply newChRegistry_wf|done|apply map_Forall_empty]. }
  pose proof (restoreAll_wf E ps _ _ _ _ Hrun Hwf0) as Hwf.
  destruct (Hok eq_refl) as [Hready [p ->]].
  eexists. split; [done|]. split; try done.
  - split; [by destruct Hwf|done|]. intros a Ha He.
    rewrite Hasset in Ha. injection Ha as <-. cbn. unfold NewFunder, IsAssetRegistered. rewrite He.
    apply RegisterAsset_registers.
  - split; [apply elem_of_app; right; by left|]. unfold client_ready. cbn. by rewrite Hdb.
  - exists p. exact Hids.
  - apply Hidle. constructor.
Qed.

End new.
End life.
