(* ===== verification/Node.v ===== *)
(** * The node (node/node.go)

    The node owns the contract and the currency registry and the sessions.  A
    session is found by its ID and used through the reference [GetSession]
    returns; entries are never removed, so a call on it is run on the entry of
    the map ([zoom_s]), without the mutex of the node. *)
From S2P Require Import Prelude Perun Errors SessionErrors Currency IDProvider Contracts Sdk Timeout.
From S2P Require Import ChRegistry Client User Channel ChannelProps SessionHelpers Session SessionProps SessionLife.

Section node.
Context {GT : GoTypes} {GP : GoPerun} {EL : EthLib} {DL : DecimalLib} {Out : Type}.

Local Abbreviation session := (Session Out client idProviderCache).

Record node := mkNode {
  n_cfg : NodeConfig;
  n_sessions : gmap string session;
  n_contractRegistry : contractRegistry;
  n_currencyRegistry : Registry;
  n_locked : bool;
}.

(** Actions of the sessions. *)
Inductive NEvent := NEvSession (id : string) (e : SEvent Out).

Definition nprog (A : Type) : Type := prog node NEvent A.

Definition set_sessions (m : gmap string session) (n : node) : node :=
  mkNode (n_cfg n) m (n_contractRegistry n) (n_currencyRegistry n) (n_locked n).
Definition set_contractRegistry (r : contractRegistry) (n : node) : node :=
  mkNode (n_cfg n) (n_sessions n) r (n_currencyRegistry n) (n_locked n).
Definition set_currencyRegistry (r : Registry) (n : node) : node :=
  mkNode (n_cfg n) (n_sessions n) (n_contractRegistry n) r (n_locked n).
Definition set_nlocked (b : bool) (n : node) : node :=
  mkNode (n_cfg n) (n_sessions n) (n_contractRegistry n) (n_currencyRegistry n) b.

Definition with_nlock {A} (m : nprog A) : nprog A :=
  n ← get_state;
  if n_locked n then block
  else modify (set_nlocked true);; a ← m; modify (set_nlocked false);; mret a.

(** ** Starting the node *)
Definition initContractRegistry (chain : cb) (adjudicator assetETH : string)
    : contractRegistry + goerror :=
  match wb_ParseAddr NewWalletBackend adjudicator with
  | inr err => inr (ErrWithMessage "parsing adjudicator address" err)
  | inl adjudicatorAddr =>
      match wb_ParseAddr NewWalletBackend assetETH with
      | inr err => inr (ErrWithMessage "parsing asset ETH address" err)
      | inl assetETHAddr =>
          match NewContractRegistry chain adjudicatorAddr assetETHAddr with
          | inr err => inr (ErrWithMessage "initialing contract registry" err)
          | inl r => inl r
          end
      end
  end.

(** The list is the map of the configuration in the order the runtime ranges
    over it; both registries are changed in place. *)
Fixpoint registerAssetERC20s (assetERC20s : list (string * string)) (contracts : contractRegistry)
    (currencies : Registry) : contractRegistry * Registry * option goerror :=
  match assetERC20s with
  | [] => (contracts, currencies, None)
  | (tokenERC20, assetERC20) :: rest =>
      match wb_ParseAddr NewWalletBackend tokenERC20 with
      | inr err => (contracts, currencies, Some (ErrWithMessage "token ERC20 address" err))
      | inl tokenERC20Addr =>
      match wb_ParseAddr NewWalletBackend assetERC20 with
      | inr err => (contracts, currencies, Some (ErrWithMessage "asset ERC20 address" err))
      | inl assetERC20Addr =>
      match RegisterAssetERC20 contracts tokenERC20Addr assetERC20Addr with
      | (contracts, inr err) =>
          (contracts, currencies, Some (ErrWithMessage "registering ERC20 asset contract" err))
      | (contracts, inl (symbol, maxDecimals)) =>
      match Currency.Register currencies symbol maxDecimals with
      | (currencies, inr err) =>
          (contracts, currencies, Some (ErrWithMessage "registering ERC20 asset currency" err))
      | (currencies, inl _) => registerAssetERC20s rest contracts currencies
      end end end end
  end.

(** [logErr] is the result of initialising the logger. *)
Definition New (cfg : NodeConfig) (logErr : option goerror) : node + goerror :=
  match NewROChainBackend (nc_ChainURL cfg) (nc_ChainID cfg) (nc_ChainConnTimeout cfg) with
  | inr err => inr (ErrWithMessage "connecting to blockchain" err)
  | inl chain =>
      match initContractRegistry (Cb chain) (nc_Adjudicator cfg) (nc_AssetETH cfg) with
      | inr err => inr err
      | inl contracts =>
          match Currency.Register NewRegistry ETHSymbol ETHMaxDecimals with
          | (_, inr err) => inr (ErrWithMessage "registering ETH currency" err)
          | (currencies, inl _) =>
              match registerAssetERC20s (nc_AssetERC20s cfg) contracts currencies with
              | (_, _, Some err) => inr err
              | (contracts, currencies, None) =>
                  match logErr with
                  | Some err => inr (ErrWithMessage "initializing logger for node" err)
                  | None => inl (mkNode cfg ∅ contracts currencies false)
                  end
              end
          end
      end
  end.

(** ** Requests *)
Definition Time (now : Z) : Z := unix now.
Definition GetConfig (n : node) : NodeConfig := n_cfg n.
Definition Help : list string := ["payment"].

Definition node_env (n : node) : env :=
  mkEnv (n_contractRegistry n) (n_currencyRegistry n) NewWalletBackend.

(** A method call on a session. *)
Definition zoom_s {A} (id : string) (m : Session.sprog Out client idProviderCache A) : nprog A :=
  zoom (λ n, go_deref (n_sessions n !! id))
    (λ s n, set_sessions (<[id := s]> (n_sessions n)) n) (NEvSession id) m.

Definition set_contracts (adjudicator assetETH : address) (cfg : Config) : Config :=
  mkConfig (cfg_User cfg) (cfg_IDProviderType cfg) (cfg_IDProviderURL cfg) (cfg_ChainURL cfg)
    (cfg_ChainID cfg) (cfg_ChainConnTimeout cfg) (cfg_OnChainTxTimeout cfg) (cfg_ResponseTimeout cfg)
    (cfg_DatabaseDir cfg) (cfg_PeerReconnTimeout cfg) (Some assetETH) (Some adjudicator).

(** [parsed] is what [ParseConfig] makes of the file; [file] and [sessionID] are
    the further inputs of [Session.New]. *)
Definition OpenSession (configFile : string) (parsed : Config + goerror) (file : id_file)
    (sessionID : string) : nprog (string * list ChInfo * option APIError) :=
  with_nlock (
    match parsed with
    | inr err =>
        mret ("", [], Some (NewAPIErrInvalidArgument (ErrWithMessage "parsing config" err)
                              ArgNameConfigFile configFile))
    | inl sessionConfig =>
        n ← get_state;
        assetETH ← lift (AssetETH (n_contractRegistry n));
        let sessionConfig := set_contracts (Adjudicator (n_contractRegistry n)) assetETH sessionConfig in
        r ← lift (Session.New (node_env n) sessionConfig file sessionID);
        match r with
        | inr apiErr => mret ("", [], Some apiErr)
        | inl sess =>
            modify (λ n, set_sessions (<[s_id sess := sess]> (n_sessions n)) n);;
            infos ← zoom_s (s_id sess) GetChsInfo;
            mret (s_id sess, infos, None)
        end
    end).

Definition RegisterCurrency_error (err : goerror) : APIError :=
  match errors_As as_AssetERC20RegisteredError err with
  | Some (_, symbol) => NewAPIErrResourceExists ResTypeCurrency symbol
  | None =>
      match errors_As as_InvalidContractError err with
      | Some (name, addr, cause) =>
          NewAPIErrInvalidContracts [mkContractErrInfo name addr (error_Error cause)]
      | None => NewAPIErrUnknownInternal err
      end
  end.

Definition RegisterCurrency (tokenERC20Addr assetERC20Addr : string) : nprog (string * option APIError) :=
  with_nlock (
    match wb_ParseAddr NewWalletBackend assetERC20Addr with
    | inr err => mret ("", Some (NewAPIErrInvalidArgument err ArgNameAsset assetERC20Addr))
    | inl assetERC20 =>
    match wb_ParseAddr NewWalletBackend tokenERC20Addr with
    | inr err => mret ("", Some (NewAPIErrInvalidArgument err ArgNameToken tokenERC20Addr))
    | inl tokenERC20 =>
        n ← get_state;
        let '(contracts, res) := RegisterAssetERC20 (n_contractRegistry n) tokenERC20 assetERC20 in
        modify (set_contractRegistry contracts);;
        match res with
        | inr err => mret ("", Some (RegisterCurrency_error err))
        | inl (symbol, maxDecimals) =>
            let '(currencies, res) := Currency.Register (n_currencyRegistry n) symbol maxDecimals in
            modify (set_currencyRegistry currencies);;
            match res with
            | inr _ => mret ("", Some (NewAPIErrResourceExists ResTypeCurrency symbol))
            | inl _ => mret (symbol, None)
            end
        end
    end end).

(** Returns the ID as the reference to the session. *)
Definition GetSession (sessionID : string) : nprog (option string * option APIError) :=
  n ← with_nlock get_state;
  match n_sessions n !! sessionID with
  | None => mret (None, Some (NewAPIErrResourceNotFound ResTypeSession sessionID))
  | Some _ => mret (Some sessionID, None)
  end.
End node.
Arguments node {_ _ _ _} _.
Arguments NEvent {_ _} _.
Arguments nprog {_ _ _ _} _ _.

(** ** The registries move in step *)
Section node_properties.
Context {GT : GoTypes} {GP : GoPerun} {EL : EthLib} {DL : DecimalLib} {GL : GoTypesLaws} {FL : FunderLaws}.
Context {Out : Type}.
Implicit Types (n : node Out).

(** Both registries list the same symbols. *)
Record in_step (contracts : contractRegistry) (currencies : Registry) : Prop := {
  is_wf : wf_registries contracts currencies;
  is_assets s : isRegistered currencies s = true → is_Some (Asset contracts s);
}.

Lemma Register_fresh r s d :
  isRegistered r s = false →
  ∃ r' c, Currency.Register r s d = (r', inl c) ∧ Symbols r' = Symbols r ++ [s] ∧
    ∀ s', isRegistered r' s' = true ↔ s' = s ∨ isRegistered r s' = true.
Proof.
  intros Hs. unfold Currency.Register. rewrite Hs. eexists _, _. split; [done|]. split; [done|].
  intros s'. apply isRegistered_insert.
Qed.

(** A symbol the contract registry accepts is new to the currency registry. *)
Lemma RegisterAssetERC20_in_step contracts currencies token asset contracts' symbol d :
  in_step contracts currencies →
  RegisterAssetERC20 contracts token asset = (contracts', inl (symbol, d)) →
  ∃ currencies' c, Currency.Register currencies symbol d = (currencies', inl c) ∧
    in_step contracts' currencies' ∧ Symbols currencies' = Symbols currencies ++ [symbol] ∧
    Asset contracts' symbol = Some asset ∧ Token contracts' symbol = Some token ∧
    isRegistered currencies symbol = false ∧
    ∀ s, s ≠ symbol → Asset contracts' s = Asset contracts s ∧ Token contracts' s = Token contracts s.
Proof.
  intros [Hwf Ha] Hr. pose proof (RegisterAssetERC20_run contracts token asset (wfr_contracts _ _ Hwf)) as Hrun.
  pose proof (RegisterAssetERC20_wf contracts token asset (wfr_contracts _ _ Hwf)) as Hwf'.
  rewrite Hr in Hrun, Hwf'. cbn in Hwf'.
  destruct (Symbol_of contracts asset); [by destruct Hrun as [_ [=]]|].
  destruct (ValidateAssetERC20 _ _ _ _) as [[s0 d0] [err|]]; [by destruct Hrun as [_ [=]]|].
  destruct (Asset contracts s0) eqn:Hs0; [by destruct Hrun as [_ [=]]|].
  destruct Hrun as ([= -> ->] & HA & HT & _ & Hother).
  destruct (isRegistered currencies s0) eqn:Hnew.
  { apply Ha in Hnew. rewrite Hs0 in Hnew. by destruct (is_Some_None Hnew). }
  destruct (Register_fresh currencies s0 d0 Hnew) as (r' & c & Hreg & Hsym & Hdom).
  exists r', c. split; [done|]. split; [|split_and!; try done; intros s Hs; by apply Hother].
  split; [split|].
  - done.
  - pose proof (Register_wf currencies s0 d0 (wfr_currencies _ _ Hwf)) as H. by rewrite Hreg in H.
  - intros s Hs. apply Hdom. destruct (decide (s = s0)) as [->|Hne]; [by left|]. right.
    apply (wfr_symbols _ _ Hwf). by rewrite <-(proj1 (Hother s Hne)).
  - intros s Hs. apply Hdom in Hs as [->|Hs]; [by eexists|].
    destruct (decide (s = s0)) as [->|Hne]; [by eexists|]. rewrite (proj1 (Hother s Hne)). by apply Ha.
Qed.

(** An error leaves the contract registry as it was. *)
Lemma RegisterAssetERC20_err contracts token asset contracts' err :
  RegisterAssetERC20 contracts token asset = (contracts', inr err) → contracts' = contracts.
Proof. unfold RegisterAssetERC20. intros H. by split_cases. Qed.

(** ** Well-formed nodes *)
Record wf_node n : Prop := {
  wn_registries : in_step (n_contractRegistry n) (n_currencyRegistry n);
  wn_sessions : map_Forall (λ id s, s_id s = id ∧ session_inv (n_contractRegistry n) s) (n_sessions n);
}.

(** Every entry of the configuration is registered. *)
Definition asset_registered (contracts : contractRegistry) (e : string * string) : Prop :=
  ∃ symbol t a, ParseAddr e.1 = inl t ∧ ParseAddr e.2 = inl a ∧
    Asset contracts symbol = Some a ∧ Token contracts symbol = Some t.

Lemma registerAssetERC20s_spec l contracts currencies :
  in_step contracts currencies →
  match registerAssetERC20s l contracts currencies with
  | (contracts', currencies', None) =>
      in_step contracts' currencies' ∧ Forall (asset_registered contracts') l ∧
      (∀ s, is_Some (Asset contracts s) →
            Asset contracts' s = Asset contracts s ∧ Token contracts' s = Token contracts s)
  | (_, _, Some _) => True
  end.
Proof.
  revert contracts currencies. induction l as [|[t a] l IH]; intros contracts currencies Hin;
    cbn [registerAssetERC20s]; [by split_and!|].
  change (wb_ParseAddr NewWalletBackend) with ParseAddr.
  destruct (ParseAddr t) as [ta|] eqn:Et; [|done]. destruct (ParseAddr a) as [aa|] eqn:Ea; [|done].
  destruct (RegisterAssetERC20 contracts ta aa) as [contracts1 [[sym d]|]] eqn:Hr; [|done].
  destruct (RegisterAssetERC20_in_step _ _ _ _ _ _ _ Hin Hr) as (currencies1 & c & -> & Hin1 & _ & HA & HT & Hnew & Hother).
  specialize (IH _ _ Hin1).
  destruct (registerAssetERC20s l contracts1 currencies1) as [[contracts' currencies'] [err|]]; [done|].
  destruct IH as (Hin' & Hall & Hkeep). split; [done|]. split.
  - constructor; [|done]. destruct (Hkeep sym) as [HA' HT']; [by eexists|].
    exists sym, ta, aa. by rewrite HA', HT'.
  - intros s Hs. assert (s ≠ sym) as Hne.
    { intros ->. apply (wfr_symbols _ _ (is_wf _ _ Hin)) in Hs. congruence. }
    destruct (Hother s Hne) as [HA' HT'].
    destruct (Hkeep s) as [-> ->]; [by rewrite HA'|]. done.
Qed.

Lemma initContractRegistry_in_step chain adj eth contracts :
  initContractRegistry chain adj eth = inl contracts →
  ∃ currencies c, Currency.Register NewRegistry ETHSymbol ETHMaxDecimals = (currencies, inl c) ∧
    in_step contracts currencies ∧
    ∃ adjA ethA, ParseAddr adj = inl adjA ∧ ParseAddr eth = inl ethA ∧ Adjudicator contracts = adjA ∧
      Asset contracts "ETH" = Some ethA.
Proof.
  unfold initContractRegistry. change (wb_ParseAddr NewWalletBackend) with ParseAddr.
  destruct (ParseAddr adj) as [adjA|]; [|done]. destruct (ParseAddr eth) as [ethA|]; [|done].
  destruct (NewContractRegistry chain adjA ethA) as [r|] eqn:Hn; [|done]. intros [= <-].
  pose proof (NewContractRegistry_wf _ _ _ _ Hn) as Hwf.
  assert (r = mkContractRegistry chain adjA {[ "ETH" := 0%nat ]} [ethA] [None]) as ->.
  { unfold NewContractRegistry in Hn. by split_cases. }
  destruct (Register_fresh NewRegistry ETHSymbol ETHMaxDecimals eq_refl) as (cs & c & Hr & _ & Hdom).
  assert (∀ s, is_Some (Asset (mkContractRegistry chain adjA {[ "ETH" := 0%nat ]} [ethA] [None]) s) ↔ s = "ETH") as HA.
  { intros s. unfold Asset, isSymbolRegistered. cbn [cr_currencies cr_assets].
    destruct (decide (s = "ETH")) as [->|Hne]; [rewrite lookup_singleton_eq; split; [done|by eexists]|].
    rewrite lookup_singleton_ne by done. split; [by intros [? [=]]|done]. }
  exists cs, c. split; [done|]. split; [split; [split|]|].
  - done.
  - pose proof (Register_wf NewRegistry ETHSymbol ETHMaxDecimals NewRegistry_wf) as H. by rewrite Hr in H.
  - intros s ->%HA. apply Hdom. by left.
  - intros s [->|Hs]%Hdom; [by apply HA|done].
  - by exists adjA, ethA.
Qed.

(** A node that starts, see [node_New_spec]. *)
Record started (cfg : NodeConfig) n : Prop := {
  st_wf : wf_node n;
  st_sessions : n_sessions n = ∅;
  st_unlocked : n_locked n = false;
  st_config : GetConfig n = cfg;
  st_assets : Forall (asset_registered (n_contractRegistry n)) (nc_AssetERC20s cfg);
  st_eth : ∃ eth, ParseAddr (nc_AssetETH cfg) = inl eth ∧ Asset (n_contractRegistry n) "ETH" = Some eth;
  st_currency : IsRegistered (n_currencyRegistry n) "ETH" = true;
}.

Lemma New_started cfg logErr n : New cfg logErr = inl n → started cfg n.
Proof.
  intros Hnew. unfold New in Hnew. destruct (NewROChainBackend _ _ _) as [chain|]; [|done].
  destruct (initContractRegistry _ _ _) as [contracts|] eqn:Hi; [|done].
  destruct (initContractRegistry_in_step _ _ _ _ Hi) as (cs & c & Hr & Hin & adj & eth & _ & Hp & _ & He).
  rewrite Hr in Hnew. pose proof (registerAssetERC20s_spec (nc_AssetERC20s cfg) _ _ Hin) as Hs.
  destruct (registerAssetERC20s _ _ _) as [[contracts' cs'] [err|]]; [done|]. destruct logErr; [done|].
  injection Hnew as <-. destruct Hs as (Hin' & Hall & Hkeep).
  assert (Asset contracts' "ETH" = Some eth) as He' by (rewrite <-He; apply Hkeep; by eexists).
  split; cbn; try done.
  - by exists eth.
  - apply (wfr_symbols _ _ (is_wf _ _ Hin')). by eexists.
Qed.

(** Why registering the ERC20 entries fails: up to some entry all are registered,
    and that entry has an invalid address or is refused by the contract registry. *)
Definition register_failure (l : list (string * string)) contracts currencies (err : goerror) : Prop :=
  ∃ pre token asset post contracts1 currencies1,
    l = pre ++ (token, asset) :: post ∧
    registerAssetERC20s pre contracts currencies = (contracts1, currencies1, None) ∧
    in_step contracts1 currencies1 ∧
    ((∃ e, ParseAddr token = inr e ∧ err = ErrWithMessage "token ERC20 address" e) ∨
     (∃ e, ParseAddr asset = inr e ∧ err = ErrWithMessage "asset ERC20 address" e) ∨
     (∃ t a e, ParseAddr token = inl t ∧ ParseAddr asset = inl a ∧
        (RegisterAssetERC20 contracts1 t a).2 = inr e ∧
        err = ErrWithMessage "registering ERC20 asset contract" e)).

Lemma registerAssetERC20s_failure l contracts currencies contracts' currencies' err :
  in_step contracts currencies →
  registerAssetERC20s l contracts currencies = (contracts', currencies', Some err) →
  register_failure l contracts currencies err.
Proof.
  revert contracts currencies. induction l as [|[t a] l IH]; intros contracts currencies Hin;
    cbn [registerAssetERC20s]; [done|].
  change (wb_ParseAddr NewWalletBackend) with ParseAddr.
  destruct (ParseAddr t) as [ta|e] eqn:Et.
  2:{ intros [= _ _ <-]. exists [], t, a, l, contracts, currencies. eauto 10. }
  destruct (ParseAddr a) as [aa|e] eqn:Ea.
  2:{ intros [= _ _ <-]. exists [], t, a, l, contracts, currencies. eauto 10. }
  destruct (RegisterAssetERC20 contracts ta aa) as [contracts1 [[sym d]|e]] eqn:Hr.
  2:{ intros [= _ _ <-]. exists [], t, a, l, contracts, currencies. split_and!; [done..|].
      right. right. exists ta, aa, e. by rewrite Hr. }
  destruct (RegisterAssetERC20_in_step _ _ _ _ _ _ _ Hin Hr) as (currencies1 & c & Hc & Hin1 & _).
  rewrite Hc. intros H. destruct (IH _ _ Hin1 H) as (pre & t2 & a2 & post & c2 & cs2 & -> & Hpre & Hin2 & Hf).
  exists ((t, a) :: pre), t2, a2, post, c2, cs2. split_and!; [done| |done|done].
  cbn [registerAssetERC20s]. change (wb_ParseAddr NewWalletBackend) with ParseAddr. by rewrite Et, Ea, Hr, Hc.
Qed.

(** Why a node does not start. *)
Definition start_failure (cfg : NodeConfig) (logErr : option goerror) (err : goerror) : Prop :=
  match NewROChainBackend (nc_ChainURL cfg) (nc_ChainID cfg) (nc_ChainConnTimeout cfg) with
  | inr e => err = ErrWithMessage "connecting to blockchain" e
  | inl chain =>
      match initContractRegistry (Cb chain) (nc_Adjudicator cfg) (nc_AssetETH cfg) with
      | inr e => err = e
      | inl contracts =>
          register_failure (nc_AssetERC20s cfg) contracts
            (Currency.Register NewRegistry ETHSymbol ETHMaxDecimals).1 err ∨
          ∃ e, logErr = Some e ∧ err = ErrWithMessage "initializing logger for node" e
      end
  end.

(** C24: Starting a node.  If it starts, its registries list the same symbols; ETH has
    the configured asset contract and every ERC20 entry of the configuration is
    registered with its token and asset; it has no session yet.  If it does not,
    the blockchain could not be reached, a contract address of the configuration is
    refused, an ERC20 entry has an invalid address or is refused by the contract
    registry after all the entries before it were registered, or the logger could
    not be initialised; the branches in which the currency registry refuses a
    symbol (the one of ETH and the one of ERC20 entries that the code calls
    unreachable) are never taken. *)
Theorem node_New_spec cfg logErr :
  match New cfg logErr with
  | inl n => started cfg n
  | inr err => start_failure cfg logErr err
  end.
Proof.
  destruct (New cfg logErr) as [n|err] eqn:Hnew; [by eapply New_started|].
  unfold New in Hnew. unfold start_failure. destruct (NewROChainBackend _ _ _) as [chain|e]; [|congruence].
  destruct (initContractRegistry _ _ _) as [contracts|e] eqn:Hi; [|congruence].
  destruct (initContractRegistry_in_step _ _ _ _ Hi) as (cs & c & Hr & Hin & _). rewrite Hr in Hnew |- *.
  destruct (registerAssetERC20s _ _ _) as [[contracts' cs'] [e|]] eqn:Hl.
  - left. injection Hnew as <-. by eapply registerAssetERC20s_failure.
  - right. destruct logErr as [e|]; [|done]. injection Hnew as <-. by exists e.
Qed.

(** ** Requests *)
Lemma with_nlock_run {A} (m : nprog Out A) n :
  n_locked n = false →
  with_nlock m n =
    let '(es, n1, o) := m (set_nlocked true n) in
    (es, match o with Ret _ => set_nlocked false n1 | _ => n1 end, o).
Proof.
  unfold with_nlock, mbind, prog_mbind, mret, prog_mret, get_state, modify, block.
  intros ->. destruct (m _) as [[es1 n1] [x|x|]]; cbn; by rewrite ?app_nil_r.
Qed.

Definition RegisterCurrency_codes : list ErrorCode :=
  [ErrInvalidArgument; ErrResourceExists; ErrInvalidContracts; ErrUnknownInternal].

Lemma RegisterCurrency_error_codes err : errs_in RegisterCurrency_codes (Some (RegisterCurrency_error err)).
Proof.
  unfold RegisterCurrency_error, RegisterCurrency_codes.
  destruct (errors_As as_AssetERC20RegisteredError err) as [[? ?]|]; [errs_in_tac|].
  destruct (errors_As as_InvalidContractError err) as [[[? ?] ?]|]; errs_in_tac.
Qed.

Lemma RegisterCurrency_run token asset n :
  n_locked n = false → in_step (n_contractRegistry n) (n_currencyRegistry n) →
  let '(es, n', res) := RegisterCurrency token asset n in
  es = [] ∧ n_sessions n' = n_sessions n ∧ n_locked n' = false ∧ n_cfg n' = n_cfg n ∧
  in_step (n_contractRegistry n') (n_currencyRegistry n') ∧
  match res with
  | Ret (symbol, None) =>
      ∃ t a, ParseAddr token = inl t ∧ ParseAddr asset = inl a ∧
        Asset (n_contractRegistry n) symbol = None ∧
        Asset (n_contractRegistry n') symbol = Some a ∧ Token (n_contractRegistry n') symbol = Some t ∧
        Symbols (n_currencyRegistry n') = Symbols (n_currencyRegistry n) ++ [symbol] ∧
        ∀ s, s ≠ symbol → Asset (n_contractRegistry n') s = Asset (n_contractRegistry n) s
  | Ret (symbol, Some e) => symbol = "" ∧ n' = n ∧ errs_in RegisterCurrency_codes (Some e)
  | _ => False
  end.
Proof.
  intros Hl Hin. unfold RegisterCurrency. rewrite with_nlock_run by done.
  change (wb_ParseAddr NewWalletBackend) with ParseAddr.
  destruct n as [cfg ss c r l]. cbn in Hl, Hin. subst l.
  destruct (ParseAddr asset) as [a|]; [|split_and!; try done; unfold RegisterCurrency_codes; errs_in_tac].
  destruct (ParseAddr token) as [t|]; [|split_and!; try done; unfold RegisterCurrency_codes; errs_in_tac].
  unfold mbind, prog_mbind, get_state, modify, mret, prog_mret. cbn.
  destruct (RegisterAssetERC20 c t a) as [c' [[sym d]|err]] eqn:Hr; cbn.
  - destruct (RegisterAssetERC20_in_step _ _ _ _ _ _ _ Hin Hr)
      as (r' & cur & Hreg & Hin' & Hsym & HA & HT & Hnew & Hother).
    rewrite Hreg. cbn. split_and!; try done. exists t, a. split_and!; try done; [|intros s Hs; by apply Hother].
    destruct (Asset c sym) eqn:E; [|done].
    rewrite (wfr_symbols _ _ (is_wf _ _ Hin) sym) in Hnew by (by eexists). done.
  - apply RegisterAssetERC20_err in Hr as ->. split_and!; try done; apply (RegisterCurrency_error_codes err).
Qed.

(** Registering an ERC20 asset with a running node always answers and keeps the
    two registries in step.  On success the symbol read from the chain is new,
    gets the asset and the token given, is appended to the listed currencies
    and every other symbol keeps its asset; on an error nothing changes and the
    code is one of the documented ones. *)
Theorem RegisterCurrency_spec token asset n (Hl : n_locked n = false) (Hwf : wf_node n) :
  let '(es, n', res) := RegisterCurrency token asset n in
  es = [] ∧ n_sessions n' = n_sessions n ∧ n_locked n' = false ∧ n_cfg n' = n_cfg n ∧
  in_step (n_contractRegistry n') (n_currencyRegistry n') ∧
  match res with
  | Ret (symbol, None) =>
      ∃ t a, ParseAddr token = inl t ∧ ParseAddr asset = inl a ∧
        Asset (n_contractRegistry n) symbol = None ∧
        Asset (n_contractRegistry n') symbol = Some a ∧ Token (n_contractRegistry n') symbol = Some t ∧
        Symbols (n_currencyRegistry n') = Symbols (n_currencyRegistry n) ++ [symbol] ∧
        ∀ s, s ≠ symbol → Asset (n_contractRegistry n') s = Asset (n_contractRegistry n) s
  | Ret (symbol, Some e) => symbol = "" ∧ n' = n ∧ errs_in RegisterCurrency_codes (Some e)
  | _ => False
  end.
Proof. apply RegisterCurrency_run; [done|by destruct Hwf]. Qed.

Lemma GetChsInfo_run (s : Session Out client idProviderCache) :
  s_locked s = false → Forall idle (chs (s_chs s)) →
  GetChsInfo s = ([], s, Ret (info_val <$> chs (s_chs s))).
Proof.
  intros Hl Hidle. unfold GetChsInfo. rewrite with_slock_run by done.
  set (s1 := set_slocked true s).
  assert (forEach (chIndices s1) (λ i, zoom_ch i GetChInfo) s1 =
    ([], s1, Ret (info_val <$> chs (s_chs s)))) as E.
  { etrans; [apply (forEach_channels GetChInfo id info_val s1)|].
    - eapply Forall_impl; [exact Hidle|]. intros ch [Hk Hi]. by apply GetChInfo_run.
    - f_equal. f_equal. destruct s as [??????????? ?? ?]; cbn. unfold set_chs. cbn.
      rewrite list_fmap_id. by destruct s_chs. }
  cbv beta iota delta [mbind prog_mbind get_state]. rewrite E. cbn. unfold s1.
  destruct s; cbn in *; by subst.
Qed.

Definition OpenSession_codes : list ErrorCode := [ErrInvalidArgument; ErrInvalidConfig; ErrUnknownInternal].

(** What a request to open a session leaves in the node. *)
Definition session_opened (parsed : Config + goerror) (sid : string) n n'
    (r : string * list ChInfo * option APIError) : Prop :=
  match r with
  | (id, infos, Some e) => id = "" ∧ infos = [] ∧ n' = n ∧ errs_in OpenSession_codes (Some e)
  | (id, infos, None) =>
      id = sid ∧ ∃ cfg eth s,
        parsed = inl cfg ∧ Asset (n_contractRegistry n) "ETH" = Some eth ∧
        created (node_env n) (set_contracts (Adjudicator (n_contractRegistry n)) eth cfg) sid s ∧
        n' = set_sessions (<[sid := s]> (n_sessions n)) n ∧ infos = info_val <$> chs (s_chs s)
  end.

Lemma OpenSession_wp configFile parsed file sid n :
  n_locked n = false → in_step (n_contractRegistry n) (n_currencyRegistry n) →
  if_order file ≡ₚ map_to_list (if_decoded file) →
  (∀ t c, Forall bals_match (pcl_Restore t c).1.2) →
  wp (OpenSession configFile parsed file sid) n (λ es n' r, es = [] ∧ session_opened parsed sid n n' r).
Proof.
  intros Hl Hin Horder Hrest. unfold OpenSession, wp. rewrite with_nlock_run by done.
  destruct parsed as [cfg|err].
  2:{ eexists _, _, _. split; [done|]. split; [done|]. split_and!; try done; try by destruct n; cbn in *; subst.
      unfold OpenSession_codes. errs_in_tac. }
  destruct (AssetETH_ret (n_contractRegistry n) (wfr_contracts _ _ (is_wf _ _ Hin))) as (eth & Heth & Hasset).
  unfold mbind at 1, prog_mbind at 1. cbn [get_state].
  unfold mbind at 1, prog_mbind at 1, lift at 1.
  change (n_contractRegistry (set_nlocked true n)) with (n_contractRegistry n). rewrite Heth.
  change (node_env (set_nlocked true n)) with (node_env n).
  set (cfg' := set_contracts _ eth cfg).
  destruct (New_run (Out := Out) (node_env n) cfg' file sid (is_wf _ _ Hin) Horder Hrest) as (r & Hr & Hs).
  unfold mbind at 1, prog_mbind at 1, lift at 1. rewrite Hr. destruct r as [s|e].
  2:{ eexists _, _, _. split; [done|]. split; [done|]. split_and!; try done; try by destruct n; cbn in *; subst.
      all: apply (errs_in_mono _ OpenSession_codes (Some e) Hs); unfold OpenSession_codes; set_solver. }
  pose proof (cr_open _ _ _ _ Hs) as (_ & Hsl & Hid).
  unfold mbind, prog_mbind, modify, zoom_s, zoom, go_deref. cbn.
  rewrite lookup_insert_eq. rewrite (GetChsInfo_run s Hsl (cr_idle _ _ _ _ Hs)). cbn.
  eexists _, _, _. split; [done|]. split; [done|]. cbn. split; [done|].
  exists cfg, eth, s. split_and!; try done. destruct n; cbn in *; subst. unfold set_sessions, set_nlocked. cbn.
  by rewrite insert_insert_eq.
Qed.

(** Opening a session always answers.  An unreadable file is an invalid
    argument; an unusable configuration or an internal failure is reported and
    the node is as before; otherwise the session is stored under its own ID and
    the information of exactly its restored channels is returned. *)
Theorem OpenSession_spec configFile parsed file sid n (Hl : n_locked n = false) (Hwf : wf_node n)
    (Horder : if_order file ≡ₚ map_to_list (if_decoded file))
    (Hrest : ∀ t c, Forall bals_match (pcl_Restore t c).1.2) :
  wp (OpenSession configFile parsed file sid) n (λ es n' r, es = [] ∧ session_opened parsed sid n n' r).
Proof. apply OpenSession_wp; [done|by destruct Hwf|done..]. Qed.

(** ** Reachable nodes *)
Inductive n_op :=
| NOpOpenSession (configFile : string) (parsed : Config + goerror) (file : id_file) (sid : string)
| NOpRegisterCurrency (token asset : string)
| NOpGetSession (sid : string)
| NOpSession (sid : string) (call : env → s_op (Out := Out)).

(** Session IDs are hashes over the time of the request: they do not repeat. *)
Definition nop_ok n (o : n_op) : Prop :=
  match o with
  | NOpOpenSession _ _ file sid =>
      n_sessions n !! sid = None ∧ if_order file ≡ₚ map_to_list (if_decoded file)
  | _ => True
  end.

Definition run_nop (o : n_op) : nprog Out unit :=
  match o with
  | NOpOpenSession f p file sid => OpenSession f p file sid;; mret tt
  | NOpRegisterCurrency t a => RegisterCurrency t a;; mret tt
  | NOpGetSession sid => GetSession sid;; mret tt
  | NOpSession sid call => n ← get_state; zoom_s sid (run_sop (call (node_env n)))
  end.

Inductive n_steps : node Out → list n_op → node Out → Prop :=
| n_steps_nil n : n_steps n [] n
| n_steps_cons n o es n' os n'' :
    nop_ok n o → run_nop o n = (es, n', Ret tt) → n_steps n' os n'' → n_steps n (o :: os) n''.

(** Sessions stay and evolve as sessions do; symbols keep their assets. *)
Definition n_evolves n n' : Prop :=
  (∀ id s, n_sessions n !! id = Some s → ∃ s', n_sessions n' !! id = Some s' ∧ evolves s [] s') ∧
  (∀ sym a, Asset (n_contractRegistry n) sym = Some a → Asset (n_contractRegistry n') sym = Some a).

#[local] Instance n_evolves_preorder : PreOrder n_evolves.
Proof.
  split.
  - intros n. split; [intros id s Hs; exists s; split; [done|by split]|done].
  - intros n1 n2 n3 [H1 A1] [H2 A2]. split; [|by auto]. intros id s (s' & Hs' & E1)%H1.
    destruct (H2 _ _ Hs') as (s'' & Hs'' & E2). exists s''. split; [done|].
    destruct E1 as [(?&?&?&?&?) ? ? ? ?], E2 as [(?&?&?&?&?) ? ? ? ?].
    split; [split_and!; congruence|by auto|by etrans|by auto|by auto].
Qed.

Lemma n_evolves_sessions n r :
  (∀ id s, n_sessions n !! id = Some s → r !! id = Some s) → n_evolves n (set_sessions r n).
Proof. intros H. split; [|done]. intros id s Hs. exists s. split; [by apply H|by split]. Qed.

Lemma session_inv_contracts c c' (s : Session Out client idProviderCache) eth :
  Asset c "ETH" = Some eth → Asset c' "ETH" = Some eth → session_inv c s → session_inv c' s.
Proof.
  intros H1 H2 [Hw Ha Hf]. split; [done..|]. intros a Ha' He. apply Hf; [|done]. congruence.
Qed.

Lemma n_step_session sid call n es n' :
  wf_node n → run_nop (NOpSession sid call) n = (es, n', Ret tt) → wf_node n' ∧ n_evolves n n'.
Proof.
  intros [Hin Hss]. cbn [run_nop].
  unfold mbind, prog_mbind, get_state, zoom_s, zoom, go_deref.
  destruct (n_sessions n !! sid) as [s|] eqn:Hs; [|done].
  destruct (run_sop (call (node_env n)) s) as [[es1 s'] o] eqn:Hr. intros [= _ <- ->].
  destruct (Hss sid s Hs) as [Hid Hinv].
  pose proof (keeps_ev_run_sop _ _ _ _ _ Hr) as He.
  pose proof (keeps_wf_run_sop _ _ _ _ _ Hr (si_wf _ _ Hinv)) as Hw. split.
  - split; [done|]. cbn. apply map_Forall_insert_2; [|done].
    split; [destruct He as [(-> & _) _ _ _ _]; done|by eapply evolves_inv].
  - split; [|done]. intros id s0 Hs0. cbn. destruct (decide (id = sid)) as [->|Hne].
    + rewrite lookup_insert_eq. rewrite Hs in Hs0. injection Hs0 as <-. exists s'. split; [done|].
      destruct He. by split.
    + rewrite lookup_insert_ne by done. exists s0. split; [done|by split].
Qed.

Lemma n_step_wf n o es n' :
  (∀ t c, Forall bals_match (pcl_Restore t c).1.2) →
  wf_node n → nop_ok n o → run_nop o n = (es, n', Ret tt) → wf_node n' ∧ n_evolves n n'.
Proof.
  intros Hrest [Hin Hss] Hok. destruct o as [f p file sid|t a|sid|sid call]; cbn [run_nop].
  - intros (es1 & n1 & r & es2 & Hr & [= <- <-] & _)%bind_ret. destruct Hok as [Hfresh Horder].
    destruct (decide (n_locked n = false)) as [Hl|Hl].
    2:{ exfalso. unfold OpenSession, with_nlock, mbind, prog_mbind, get_state in Hr. by destruct (n_locked n). }
    destruct (OpenSession_wp f p file sid n Hl Hin Horder Hrest) as (es' & n2 & r' & Hr' & _ & Hs).
    rewrite Hr in Hr'. injection Hr' as -> -> ->. destruct r' as [[id infos] [e|]].
    { destruct Hs as (_ & _ & -> & _). done. }
    destruct Hs as (_ & cfg & eth & s & _ & _ & Hc & -> & _). split.
    + split; [done|]. cbn. apply map_Forall_insert_2; [|done].
      split; [by destruct (cr_open _ _ _ _ Hc) as (_&_&?)|apply (cr_inv _ _ _ _ Hc)].
    + apply n_evolves_sessions. intros id' s' Hs'. rewrite lookup_insert_ne; [done|congruence].
  - intros (es1 & n1 & r & es2 & Hr & [= <- <-] & _)%bind_ret.
    destruct (decide (n_locked n = false)) as [Hl|Hl].
    2:{ exfalso. unfold RegisterCurrency, with_nlock, mbind, prog_mbind, get_state in Hr. by destruct (n_locked n). }
    pose proof (RegisterCurrency_run t a n Hl Hin) as H. rewrite Hr in H.
    destruct H as (_ & Hsess & _ & _ & Hin' & Hres).
    destruct r as [sym [e|]]; [by destruct Hres as (_ & -> & _)|].
    destruct Hres as (tt' & aa & _ & _ & Hnone & _ & _ & _ & Hother).
    assert (∀ s b, Asset (n_contractRegistry n) s = Some b → Asset (n_contractRegistry n1) s = Some b) as Hkeep.
    { intros s b Hs. rewrite Hother; [done|]. intros ->. congruence. }
    destruct (AssetETH_ret _ (wfr_contracts _ _ (is_wf _ _ Hin))) as (eth & _ & Heth).
    split; [split; [done|]|].
    + rewrite Hsess. intros id s Hs. destruct (Hss id s Hs) as [? ?]. split; [done|].
      eapply session_inv_contracts; [exact Heth|by apply Hkeep|done].
    + split; [|done]. intros id s Hs. rewrite Hsess. exists s. split; [done|by split].
  - intros (es1 & n1 & r & es2 & Hr & [= <- <-] & _)%bind_ret. assert (n1 = n) as ->; [|done].
    unfold GetSession in Hr. apply bind_ret in Hr as (es3 & n3 & n4 & es4 & Hg & Hr & _).
    unfold with_nlock, mbind, prog_mbind, get_state in Hg. destruct (n_locked n) eqn:Hl; [done|].
    cbn in Hg. injection Hg as _ <- _. destruct (n_sessions n4 !! sid); cbn in Hr; injection Hr as _ <- _;
      destruct n; cbn in *; by subst.
  - by apply n_step_session.
Qed.

(** C11: Over any sequence of requests to the node and to its sessions, with callbacks
    of the SDK in between: the two registries list the same symbols, every
    session is stored under its own ID and satisfies the session invariant with
    the present registries, sessions are never lost, and a symbol never changes
    its asset. *)
Theorem node_invariant n os n' (Hrest : ∀ t c, Forall bals_match (pcl_Restore t c).1.2)
    (Hwf : wf_node n) (Hsteps : n_steps n os n') : wf_node n' ∧ n_evolves n n'.
Proof.
  induction Hsteps as [n|n o es n' os n'' Hok Hstep _ IH]; [by split|].
  destruct (n_step_wf _ _ _ _ Hrest Hwf Hok Hstep) as [Hwf' Hev].
  destruct (IH Hwf') as [Hwf'' Hev']. split; [done|]. by etrans.
Qed.
End node_properties.
