(* ===== verification/Payment.v ===== *)
(** * The payment app (app/payment)

    The interpretation of channels and sessions as payment channels: payments
    become an updater of the channel state, everything else is a conversion
    around the call of the channel or session. *)
From S2P Require Import Prelude Perun Errors SessionErrors Currency Contracts Sdk Timeout.
From S2P Require Import ChRegistry Client User Channel ChannelProps SessionHelpers Session SessionProps SessionLife.
From S2P Require Import Node.

Definition ErrInvalidAmount : string := "invalid amount".
Definition ErrInvalidPayee : string := "invalid payee".

Record Payment := mkPayment { pay_Currency : string; pay_Payee : string; pay_Amount : string }.

Section payment.
Context {GT : GoTypes} {GP : GoPerun} {EL : EthLib} {DL : DecimalLib}.

Record PayChUpdateNotif := mkPayChUpdateNotif {
  pcun_UpdateID : string;
  pcun_ProposedPayChInfo : PayChInfo;
  pcun_Type : ChUpdateType;
  pcun_Expiry : Z;
  pcun_Error : option APIError;
}.

Record PayChProposalNotif := mkPayChProposalNotif {
  pcpn_ProposalID : string;
  pcpn_OpeningBalInfo : BalInfo;
  pcpn_ChallengeDurSecs : Z;
  pcpn_Expiry : Z;
}.

(** ** Conversions *)
Definition toPayChInfo (chInfo : ChInfo) : PayChInfo :=
  mkPayChInfo (ci_ChID chInfo) (ci_BalInfo chInfo) (ci_Version chInfo).
Definition toPayChsInfo (chsInfo : list ChInfo) : list PayChInfo := toPayChInfo <$> chsInfo.
Definition PayChInfo_zero : PayChInfo := mkPayChInfo "" BalInfo_zero "".

(** ** Payments *)
Fixpoint getPayerPayeeIdx_from (i : nat) (parts : list string) (payee : string)
    : (nat * nat) + goerror :=
  match parts with
  | [] => inr (ErrConst ErrInvalidPayee)
  | part :: parts' =>
      if decide (part = payee) then inl (Nat.lxor i 1, i) else getPayerPayeeIdx_from (S i) parts' payee
  end.
Definition getPayerPayeeIdx (parts : list string) (payee : string) : (nat * nat) + goerror :=
  getPayerPayeeIdx_from 0 parts payee.

(** Changes the balances of the state in place. *)
Definition newUpdate (payerIdx payeeIdx idxOfCurrencyInBals : nat) (parsedAmount : Z) (state : PState)
    : outcome PState :=
  let bals := al_Balances (st_Allocation state) in
  bal ← go_index bals idxOfCurrencyInBals;
  payer ← go_index bal payerIdx;
  let bal := <[payerIdx := payer - parsedAmount]> bal in
  payee ← go_index bal payeeIdx;
  let bal := <[payeeIdx := payee + parsedAmount]> bal in
  Ret (set_Balances (<[idxOfCurrencyInBals := bal]> bals) state).

Definition makeUpdate {Out} (ch : Channel Out) (payment : Payment)
    : outcome ((PState → outcome PState) + APIError) :=
  r ← Channel.Currency_ ch (pay_Currency payment);
  match r with
  | None => Ret (inr (NewAPIErrResourceNotFound ResTypeCurrency (pay_Currency payment)))
  | Some (idxOfCurrencyInBals, currency) =>
      currency ← go_deref currency;
      match Currency_Parse currency (pay_Amount payment) with
      | inr err =>
          Ret (inr (NewAPIErrInvalidArgument (ErrWithMessage ErrInvalidAmount err) ArgNameAmount
                      (pay_Amount payment)))
      | inl parsedAmount =>
          match getPayerPayeeIdx (Parts ch) (pay_Payee payment) with
          | inr err => Ret (inr (NewAPIErrInvalidArgument err ArgNamePayee (pay_Payee payment)))
          | inl (payerIdx, payeeIdx) =>
              Ret (inl (newUpdate payerIdx payeeIdx idxOfCurrencyInBals parsedAmount))
          end
      end
  end.

Fixpoint makeUpdates {Out} (ch : Channel Out) (payments : list Payment)
    : outcome (list (PState → outcome PState) + APIError) :=
  match payments with
  | [] => Ret (inl [])
  | p :: payments' =>
      r ← makeUpdate ch p;
      match r with
      | inr e => Ret (inr e)
      | inl u =>
          rest ← makeUpdates ch payments';
          Ret (match rest with inl us => inl (u :: us) | inr e => inr e end)
      end
  end.

Fixpoint runUpdates (updates : list (PState → outcome PState)) (state : PState) : outcome PState :=
  match updates with
  | [] => Ret state
  | u :: updates' => state ← u state; runUpdates updates' state
  end.

(** The updater never fails, but it can panic. *)
Definition payUpdater (updates : list (PState → outcome PState)) : StateUpdater := λ state,
  s ← runUpdates updates state; Ret (s, None).

Section channel.
Context {Out : Type}.

Definition SendPayChUpdate (payments : list Payment) : chprog Out (PayChInfo * option APIError) :=
  ch ← get_state;
  r ← lift (makeUpdates ch payments);
  match r with
  | inr apiErr => mret (PayChInfo_zero, Some apiErr)
  | inl updates =>
      r ← SendChUpdate (payUpdater updates);
      mret (toPayChInfo r.1, r.2)
  end.

Definition GetPayChInfo : chprog Out PayChInfo := info ← GetChInfo; mret (toPayChInfo info).

Definition PayChUpdateNotifier : Type := PayChUpdateNotif → Out.

Definition toPayChUpdateNotif (notif : ChUpdateNotif) : PayChUpdateNotif :=
  let ProposedPayChInfo :=
    if decide (cun_Type notif = ChUpdateTypeClosed) then toPayChInfo (cun_CurrChInfo notif)
    else toPayChInfo (cun_ProposedChInfo notif) in
  mkPayChUpdateNotif (cun_UpdateID notif) ProposedPayChInfo (cun_Type notif) (cun_Expiry notif)
    (cun_Error notif).

Definition SubPayChUpdates (notifier : PayChUpdateNotifier) : chprog Out (option APIError) :=
  SubChUpdates (λ notif, notifier (toPayChUpdateNotif notif)).

Definition UnsubPayChUpdates : chprog Out (option APIError) := UnsubChUpdates.

Definition RespondPayChUpdate (updateID : string) (accept : bool) (now : Z)
    : chprog Out (PayChInfo * option APIError) :=
  r ← RespondChUpdate updateID accept now; mret (toPayChInfo r.1, r.2).

Definition ClosePayCh : chprog Out (PayChInfo * option APIError) :=
  r ← Channel.Close; mret (toPayChInfo r.1, r.2).
End channel.

(** ** Sessions *)
Section session.
Context {Out C I : Type} {CC : ChClient C} {II : IDProviderI I}.

Definition OpenPayCh (E : env) (openingBalInfo : BalInfo) (challengeDurSecs : Z)
    : sprog Out C I (PayChInfo * option APIError) :=
  r ← OpenCh E openingBalInfo (mkApp (Some NoApp) (Some NoData)) challengeDurSecs;
  mret (toPayChInfo r.1, r.2).

Definition GetPayChsInfo : sprog Out C I (list PayChInfo) :=
  infos ← GetChsInfo; mret (toPayChInfo <$> infos).

Definition PayChProposalNotifier : Type := PayChProposalNotif → Out.

Definition toPayChProposalNotif (notif : ChProposalNotif) : PayChProposalNotif :=
  mkPayChProposalNotif (cpn_ProposalID notif) (cpn_OpeningBalInfo notif) (cpn_ChallengeDurSecs notif)
    (cpn_Expiry notif).

Definition SubPayChProposals (notifier : PayChProposalNotifier) : sprog Out C I (option APIError) :=
  SubChProposals (λ notif, notifier (toPayChProposalNotif notif)).

Definition UnsubPayChProposals : sprog Out C I (option APIError) := UnsubChProposals.

Definition RespondPayChProposal (E : env) (proposalID : string) (accept : bool) (now : Z)
    : sprog Out C I (PayChInfo * option APIError) :=
  r ← RespondChProposal E proposalID accept now; mret (toPayChInfo r.1, r.2).

Definition toPayChsCloseSessionErr (err : option APIError) : option APIError :=
  match err with
  | None => None
  | Some e =>
      match AddInfo e with
      | Some (ErrInfoFailedPreCondUnclosedChs ChInfos) =>
          Some (NewAPIErr (Category e) (Code e) (api_as_error e)
                  (Some (ErrInfoFailedPreCondUnclosedPayChs (toPayChsInfo ChInfos))))
      | _ => Some e
      end
  end.

Definition CloseSession (force : bool) : sprog Out C I (list PayChInfo * option APIError) :=
  r ← Session.Close force; mret (toPayChsInfo r.1, toPayChsCloseSessionErr r.2).
End session.

(** ** The node *)
Definition OpenSession {Out} (configFile : string) (parsed : Config + goerror) (file : id_file)
    (sessionID : string) : nprog Out (string * list PayChInfo * option APIError) :=
  r ← Node.OpenSession configFile parsed file sessionID;
  let '(id, infos, err) := r in mret (id, toPayChsInfo infos, err).
End payment.

(** ** Properties *)
Section payment_properties.
Context {GT : GoTypes} {GP : GoPerun} {EL : EthLib} {DL : DecimalLib} {GL : GoTypesLaws} {Out : Type}.
Implicit Types (ch : Channel Out).

(** The asset, payee and amount a payment names on a channel. *)
Definition payment_terms ch (p : Payment) : option (nat * nat * Z) :=
  k ← p_symbols (ch_params ch) !! pay_Currency p;
  oc ← Currencies ch !! k;
  c ← oc;
  n ← match Currency_Parse c (pay_Amount p) with inl n => Some n | inr _ => None end;
  e ← list_find (λ q, q = pay_Payee p) (Parts ch);
  Some (k, e.1, n).

(** What one payment adds to the balance of participant [i] in asset [k]. *)
Definition payment_delta ch (p : Payment) (k i : nat) : Z :=
  match payment_terms ch p with
  | Some (k', j, n) => if decide (k' = k) then if decide (i = j) then n else - n else 0
  | None => 0
  end.
Definition net ch (ps : list Payment) (k i : nat) : Z :=
  foldr (λ p z, payment_delta ch p k i + z) 0 ps.

Definition row_sum (row : list Z) : Z := foldr Z.add 0 row.

(** A channel of two participants, as [newCh] makes it. *)
Record two_party ch : Prop := {
  tp_parts : length (Parts ch) = 2%nat;
  tp_idx : pch_Idx (ch_pch ch) = 0 ∨ pch_Idx (ch_pch ch) = 1;
  tp_symbols : newCh_symbols (Currencies ch) = Ret (p_symbols (ch_params ch));
}.

(** Balances of two participants in every currency of the channel. *)
Definition two_party_bals ch (bals : list (list Z)) : Prop :=
  length bals = length (Currencies ch) ∧ Forall (λ row, length row = 2%nat) bals.

Lemma newCh_symbols_spec cs m :
  newCh_symbols cs = Ret m →
  Forall is_Some cs ∧ ∀ s k, m !! s = Some k → ∃ c, cs !! k = Some (Some c) ∧ Currency_Symbol c = s.
Proof.
  revert m. unfold newCh_symbols. induction cs as [|c cs IH] using rev_ind; intros m; cbn.
  { intros [= <-]. split; [done|]. intros s k. by rewrite lookup_empty. }
  rewrite imap_app, foldl_app. cbn. rewrite Nat.add_0_r.
  destruct (foldl _ _ _) as [m0| |]; [|done..]. destruct c as [c|]; cbn; [|done]. intros [= <-].
  destruct (IH m0 eq_refl) as [Hf Hl]. split; [apply Forall_app; split; [done|by repeat constructor]|].
  intros s k. destruct (decide (Currency_Symbol c = s)) as [<-|Hne].
  - rewrite lookup_insert_eq. intros [= <-]. exists c. by rewrite list_lookup_middle.
  - rewrite lookup_insert_ne by done. intros (c' & Hc & Hs)%Hl. exists c'. split; [|done].
    by apply lookup_app_l_Some.
Qed.

Lemma getPayerPayeeIdx_spec parts payee :
  getPayerPayeeIdx parts payee =
    match list_find (λ q, q = payee) parts with
    | Some (j, _) => inl (Nat.lxor j 1, j)
    | None => inr (ErrConst ErrInvalidPayee)
    end.
Proof.
  unfold getPayerPayeeIdx.
  enough (∀ i, getPayerPayeeIdx_from i parts payee =
    match list_find (λ q, q = payee) parts with
    | Some (j, _) => inl (Nat.lxor (i + j) 1, (i + j)%nat)
    | None => inr (ErrConst ErrInvalidPayee)
    end) as H by apply (H 0%nat).
  induction parts as [|q parts IH]; intros i; cbn; [done|].
  destruct (decide (q = payee)) as [->|Hne]; cbn; [by rewrite Nat.add_0_r|]. rewrite IH.
  destruct (list_find _ parts) as [[j ?]|]; cbn; [|done]. by rewrite Nat.add_succ_r.
Qed.

(** The updater of one payment, or the error that names the faulty one. *)
Lemma makeUpdate_spec ch p :
  two_party ch →
  match payment_terms ch p with
  | Some (k, j, n) => makeUpdate ch p = Ret (inl (newUpdate (Nat.lxor j 1) j k n)) ∧
      (k < length (Currencies ch))%nat ∧ (j < 2)%nat
  | None => ∃ e, makeUpdate ch p = Ret (inr e) ∧ errs_in [ErrResourceNotFound; ErrInvalidArgument] (Some e)
  end.
Proof.
  intros [Hparts _ Hsym]. apply newCh_symbols_spec in Hsym as [_ Hl].
  unfold payment_terms, makeUpdate, Channel.Currency_.
  destruct (p_symbols (ch_params ch) !! pay_Currency p) as [k|] eqn:Hk; cbn; [|eexists; split; [done|errs_in_tac]].
  destruct (Hl _ _ Hk) as (c & Hc & _). unfold go_index. change (p_currencies (ch_params ch)) with (Currencies ch).
  rewrite Hc. cbn. destruct (Currency_Parse c (pay_Amount p)) as [n|]; cbn; [|eexists; split; [done|errs_in_tac]].
  rewrite getPayerPayeeIdx_spec. destruct (list_find _ (Parts ch)) as [[j q]|] eqn:Hj; cbn;
    [|eexists; split; [done|errs_in_tac]].
  split; [done|]. split; [by eapply lookup_lt_Some|].
  apply list_find_Some in Hj as (Hj & _ & _). apply lookup_lt_Some in Hj. lia.
Qed.

(** One payment: the payee gets what the other participant pays. *)
Lemma newUpdate_spec k j n state row :
  al_Balances (st_Allocation state) !! k = Some row → length row = 2%nat → (j < 2)%nat →
  ∃ row', newUpdate (Nat.lxor j 1) j k n state =
    Ret (set_Balances (<[k := row']> (al_Balances (st_Allocation state))) state) ∧
  length row' = 2%nat ∧ row_sum row' = row_sum row ∧
  ∀ i v, row !! i = Some v → row' !! i = Some (v + (if decide (i = j) then n else - n)).
Proof.
  intros Hk Hlen Hj. destruct row as [|a [|b [|? ?]]]; try done.
  unfold newUpdate, go_index. rewrite Hk. cbn.
  assert (j = 0 ∨ j = 1)%nat as [-> | ->] by lia; cbn; eexists; (split; [reflexivity|]); cbn;
    (split; [done|]; split; [lia|]); intros [|[|i]] v; cbn; intros [= <-]; f_equal; lia.
Qed.

(** The updaters of all payments, or the error of the first faulty one. *)
Lemma makeUpdates_spec ch ps :
  two_party ch →
  if decide (Forall (λ p, is_Some (payment_terms ch p)) ps) then
    ∃ us, makeUpdates ch ps = Ret (inl us) ∧
      Forall2 (λ p u, ∃ k j n, payment_terms ch p = Some (k, j, n) ∧ u = newUpdate (Nat.lxor j 1) j k n ∧
                      (k < length (Currencies ch))%nat ∧ (j < 2)%nat) ps us
  else
    ∃ e, makeUpdates ch ps = Ret (inr e) ∧ errs_in [ErrResourceNotFound; ErrInvalidArgument] (Some e).
Proof.
  intros Htp. induction ps as [|p ps IH]; [by eexists; split; [done|constructor]|]. cbn [makeUpdates].
  pose proof (makeUpdate_spec ch p Htp) as Hp.
  destruct (payment_terms ch p) as [[[k j] n]|] eqn:Ht.
  - destruct Hp as (-> & Hk & Hj). cbn.
    destruct (decide (Forall (λ p, is_Some (payment_terms ch p)) ps)) as [Hall|Hall]; destruct IH as (r & -> & Hr).
    + rewrite decide_True by (constructor; [by rewrite Ht|done]). cbn. eexists. split; [done|].
      constructor; [|done]. by exists k, j, n.
    + rewrite decide_False by (by intros [_ ?]%Forall_cons). cbn. by exists r.
  - destruct Hp as (e & -> & He).
    rewrite decide_False by (intros [[x Hx] _]%Forall_cons; by rewrite Ht in Hx). cbn. by exists e.
Qed.

(** What a list of payments does to the balances of a state. *)
Definition paid ch (ps : list Payment) (bals bals' : list (list Z)) : Prop :=
  two_party_bals ch bals' ∧
  ∀ k row, bals !! k = Some row → ∃ row', bals' !! k = Some row' ∧ row_sum row' = row_sum row ∧
    ∀ i v, row !! i = Some v → row' !! i = Some (v + net ch ps k i).

Lemma paid_nil ch bals : two_party_bals ch bals → paid ch [] bals bals.
Proof. intros H. split; [done|]. intros k row Hk. exists row. split_and!; try done. intros i v Hv. cbn. by rewrite Z.add_0_r. Qed.

Lemma paid_cons ch p ps k j n bals row row1 bals' :
  payment_terms ch p = Some (k, j, n) → bals !! k = Some row →
  row_sum row1 = row_sum row →
  (∀ i v, row !! i = Some v → row1 !! i = Some (v + (if decide (i = j) then n else - n))) →
  paid ch ps (<[k := row1]> bals) bals' → paid ch (p :: ps) bals bals'.
Proof.
  intros Ht Hk Hs Hrow [Hshape Hp]. split; [done|]. intros k' r Hk'. cbn [net foldr].
  unfold payment_delta at 1. rewrite Ht. destruct (decide (k = k')) as [<-|Hne].
  - rewrite Hk in Hk'. injection Hk' as <-.
    destruct (Hp k row1) as (r' & Hr' & Hsum & Hv); [by apply list_lookup_insert_eq, (lookup_lt_Some _ _ _ Hk)|].
    exists r'. split; [done|]. split; [by rewrite Hsum|]. intros i v Hi.
    rewrite (Hv i _ (Hrow i v Hi)). f_equal. unfold net. lia.
  - destruct (Hp k' r) as (r' & Hr' & Hsum & Hv); [by rewrite list_lookup_insert_ne|].
    exists r'. split_and!; [done..|]. intros i v Hi. rewrite (Hv i v Hi). f_equal.
Qed.

Lemma runUpdates_spec ch ps us state :
  Forall2 (λ p u, ∃ k j n, payment_terms ch p = Some (k, j, n) ∧ u = newUpdate (Nat.lxor j 1) j k n ∧
                  (k < length (Currencies ch))%nat ∧ (j < 2)%nat) ps us →
  two_party_bals ch (al_Balances (st_Allocation state)) →
  ∃ b, runUpdates us state = Ret (set_Balances b state) ∧ paid ch ps (al_Balances (st_Allocation state)) b.
Proof.
  intros Hall. revert state. induction Hall as [|p u ps us (k & j & n & Ht & -> & Hk & Hj) _ IH];
    intros state [Hlen Hrows].
  { eexists. split; [|by apply paid_nil]. cbn. by destruct state as [? ? ? [] ? ?]. }
  destruct (lookup_lt_is_Some_2 (al_Balances (st_Allocation state)) k) as [row Hrow]; [lia|].
  assert (length row = 2%nat) as Hr2 by (by eapply (Forall_lookup_1 _ _ _ _ Hrows)).
  destruct (newUpdate_spec k j n state row Hrow Hr2 Hj) as (row1 & Hu & Hr1 & Hsum & Hval).
  cbn [runUpdates]. rewrite Hu. cbn [mbind outcome_mbind].
  set (state1 := set_Balances _ state) in *.
  destruct (IH state1) as (b & -> & Hp).
  { split; cbn; [by rewrite length_insert|]. by apply Forall_insert. }
  exists b. split; [done|]. by eapply paid_cons.
Qed.

(** What sending payments leaves and answers: a payment that is refused before the
    peer hears of it, an update the peer did not agree to, or one it agreed to. *)
Definition payment_result ch ps (es : list (ChEvent Out)) ch' (r : PayChInfo * option APIError) : Prop :=
  let t := chUpdate (p_timeoutCfg (ch_params ch)) in
  let state := pch_State (ch_pch ch) in
  let valid := Forall (λ p, is_Some (payment_terms ch p)) ps in
  match r with
  | (info, Some e) =>
      pch_State (ch_pch ch') = state ∧
      ((¬ valid ∧ es = [] ∧ ch' = ch ∧ errs_in [ErrResourceNotFound; ErrInvalidArgument] (Some e)) ∨
       (valid ∧ es = [EvUpdateBy t] ∧
        errs_in [ErrPeerRequestTimedOut; ErrPeerRejected; ErrUnknownInternal] (Some e)))
  | (info, None) =>
      valid ∧ es = [EvUpdateBy t] ∧
      ∃ b i, paid ch ps (al_Balances (st_Allocation state)) b ∧
        pch_State (ch_pch ch') = set_Version (uint64 (st_Version state + 1)) (set_Balances b state) ∧
        info_of ch (ch_pch ch') i ∧ info = toPayChInfo i
  end.

(** The update that is proposed, and that the SDK's result decides. *)
Definition payment_trace ch ps (es : list (ChEvent Out)) ch' (ok : Prop) : Prop :=
  let t := chUpdate (p_timeoutCfg (ch_params ch)) in
  let state := pch_State (ch_pch ch) in
  Forall (λ p, is_Some (payment_terms ch p)) ps →
  ∃ us b q err, makeUpdates ch ps = Ret (inl us) ∧
    payUpdater us state = Ret (set_Balances b state, None) ∧ paid ch ps (al_Balances (st_Allocation state)) b ∧
    pch_UpdateBy t (payUpdater us) (ch_pch ch) = Ret (q, err) ∧
    es = [EvUpdateBy t] ∧ ch' = set_pch q ch ∧ (err = None ↔ ok).

Lemma SendPayChUpdate_run `{!UpdateByLaws} ps ch :
  ch_locked ch = false → ch_status ch = open → two_party ch →
  two_party_bals ch (al_Balances (st_Allocation (pch_State (ch_pch ch)))) →
  wp (SendPayChUpdate ps) ch (λ es ch' r,
    ((∃ p, ch' = set_pch p ch ∧ pch_Idx p = pch_Idx (ch_pch ch)) ∧ payment_trace ch ps es ch' (r.2 = None)) ∧
    payment_result ch ps es ch' r).
Proof.
  intros Hl Ho Htp Hbals. unfold payment_result, payment_trace. set (t := chUpdate _). set (state := pch_State _). unfold SendPayChUpdate. wp_steps. pose proof (makeUpdates_spec ch ps Htp) as Hm.
  destruct (decide _) as [Hv|Hv] in Hm; destruct Hm as (r & -> & Hr); wp_steps.
  2:{ split; [split; [|done]|split; [done|by left]]. exists (ch_pch ch). by destruct ch. }
  destruct (runUpdates_spec ch ps r state Hr Hbals) as (b & Hb & Hpaid).
  assert (Hupd : payUpdater r state = Ret (set_Balances b state, None)) by (unfold payUpdater; by rewrite Hb).
  destruct (UpdateBy_ret t (payUpdater r) (ch_pch ch)) as [[p1 err] Hu].
  { fold state. rewrite Hupd. by eexists. }
  assert (is_Some (p_parts (ch_params ch) !! Z.to_nat (Z.lxor (pch_Idx (ch_pch ch)) 1))) as Hpeer.
  { apply lookup_lt_is_Some. change (p_parts (ch_params ch)) with (Parts ch). rewrite (tp_parts _ Htp).
    destruct (tp_idx _ Htp) as [-> | ->]; vm_compute; lia. }
  destruct (UpdateBy_static _ _ _ _ _ Hu) as [_ Hidx].
  destruct (SendChUpdate_run (payUpdater r) ch p1 err Hl Ho Hu Hpeer) as [Hok Herr]. fold t state in Hok, Herr.
  destruct err as [err|].
  - destruct (Herr ltac:(by eexists)) as (Hst & e & Hrun & He).
    eapply wp_run; [exact Hrun|]. wp_steps. split; [split; [by eexists|]|].
    { intros _. exists r, b, p1, (Some err). by split_and!. }
    destruct ch. split; [done|]. by right.
  - destruct (Hok eq_refl) as ((s & Hs & Hst) & Hrun). rewrite Hupd in Hs.
    injection Hs as <-. destruct (newCh_symbols_spec _ _ (tp_symbols _ Htp)) as [Hcs _].
    destruct (info_ret ch p1) as [i Hi]; [done|rewrite Hst; cbn; by rewrite (proj1 (proj1 Hpaid))|].
    eapply wp_run; [by apply (Hrun i)|]. wp_steps. split; [split; [by eexists|]|].
    { intros _. exists r, b, p1, None. by split_and!. }
    split; [done|]. split; [done|]. exists b, i. by destruct ch.
Qed.

(** C10: Sending payments on an open two-party channel always answers.  A payment in a
    currency the channel does not have, to someone who is not a participant or
    of an amount that does not parse is refused before the peer hears of any of
    them.  Otherwise all payments go into one update.  If the peer agrees, in
    every currency each participant's balance has changed by exactly the amounts
    it received minus those it paid, the total is conserved, everything else of
    the state is as it was but for the next version, and this state is reported;
    if not, the state is unchanged and the error is one of the documented ones. *)
Theorem SendPayChUpdate_spec `{!UpdateByLaws} ps ch
    (Hl : ch_locked ch = false) (Ho : ch_status ch = open) (Htp : two_party ch)
    (Hbals : two_party_bals ch (al_Balances (st_Allocation (pch_State (ch_pch ch))))) :
  let t := chUpdate (p_timeoutCfg (ch_params ch)) in
  let state := pch_State (ch_pch ch) in
  let valid := Forall (λ p, is_Some (payment_terms ch p)) ps in
  wp (SendPayChUpdate ps) ch (λ es ch' r,
    match r with
    | (info, Some e) =>
        pch_State (ch_pch ch') = state ∧
        ((¬ valid ∧ es = [] ∧ ch' = ch ∧ errs_in [ErrResourceNotFound; ErrInvalidArgument] (Some e)) ∨
         (valid ∧ es = [EvUpdateBy t] ∧
          errs_in [ErrPeerRequestTimedOut; ErrPeerRejected; ErrUnknownInternal] (Some e)))
    | (info, None) =>
        valid ∧ es = [EvUpdateBy t] ∧
        ∃ b i, paid ch ps (al_Balances (st_Allocation state)) b ∧
          pch_State (ch_pch ch') = set_Version (uint64 (st_Version state + 1)) (set_Balances b state) ∧
          info_of ch (ch_pch ch') i ∧ info = toPayChInfo i
    end).
Proof.
  intros t state valid. eapply wp_mono; [|by apply SendPayChUpdate_run]. intros es ch' r [_ Hr]. exact Hr.
Qed.

(** The payment interpretation of an API error keeps its category and code and is
    well formed; only the list of unclosed channels is converted, entry by entry. *)
Theorem toPayChsCloseSessionErr_spec e (Hwf : wf_APIError e) :
  ∃ e', toPayChsCloseSessionErr (Some e) = Some e' ∧ wf_APIError e' ∧
    Category e' = Category e ∧ Code e' = Code e ∧
    (∀ l, AddInfo e = Some (ErrInfoFailedPreCondUnclosedChs l) →
      AddInfo e' = Some (ErrInfoFailedPreCondUnclosedPayChs (toPayChInfo <$> l))) ∧
    ((∀ l, AddInfo e ≠ Some (ErrInfoFailedPreCondUnclosedChs l)) → e' = e).
Proof.
  destruct e as [cat code cause info]. destruct Hwf as [Hc Hi]. cbn in *.
  destruct info as [[]|]; (eexists; split; [reflexivity|]); split_and!; try done;
    first [by intros l [= <-] | intros H; by edestruct H].
Qed.
End payment_properties.
