(* ===== verification/Grpc.v ===== *)
(** * The payment channel API server (api/grpc/server.go)

    The messages of the protocol, the conversions to and from the types of the
    node, and every handler.  A field of message type may be missing in a request
    ([None], a nil pointer).  A subscription handler waits on a signal channel that
    the server keeps in a map until the subscription ends; signal channels are
    numbered, [signals] says which are closed. *)
From S2P Require Import Prelude Perun Errors SessionErrors Currency IDProvider Contracts Sdk Timeout.
From S2P Require Import ChRegistry Client User Channel ChannelProps SessionHelpers Session SessionProps SessionLife.
From S2P Require Import Node Payment.

(** ** Messages *)
Record pb_PeerID := mkPbPeerID {
  pb_Alias : string; pb_OffChainAddress : string; pb_CommAddress : string; pb_CommType : string }.
Record pb_BalInfo := mkPbBalInfo {
  pb_Currencies : list string; pb_Parts : list string; pb_Bals : list (list string) }.
Record pb_PayChInfo := mkPbPayChInfo {
  pb_ChID : string; pb_BalInfo_ : pb_BalInfo; pb_Version : string }.
Record pb_Payment := mkPbPayment { pb_Currency : string; pb_Payee : string; pb_Amount : string }.

Inductive pb_ErrInfo :=
| Pb_PeerRequestTimedOut (PeerAlias Timeout : string)
| Pb_PeerRejected (PeerAlias Reason : string)
| Pb_PeerNotFunded (PeerAlias : string)
| Pb_UserResponseTimedOut (Expiry ReceivedAt : Z)
| Pb_ResourceNotFound (Type_ Id : string)
| Pb_ResourceExists (Type_ Id : string)
| Pb_InvalidArgument (Name Value Requirement : string)
| Pb_FailedPreCondUnclosedChs (Chs : list pb_PayChInfo)
| Pb_InvalidConfig (Name Value : string)
| Pb_InvalidContracts (ContractErrInfos : list ContractErrInfo)
| Pb_TxTimedOut (TxType TxID TxTimeout : string)
| Pb_ChainNotReachable (ChainURL : string).

Record pb_MsgError := mkMsgError {
  pb_Category : Z; pb_Code : Z; pb_Message : string; pb_AddInfo : option pb_ErrInfo }.

Record pb_ProposalNotify := mkPbProposalNotify {
  pbp_ProposalID : string; pbp_OpeningBalInfo : pb_BalInfo; pbp_ChallengeDurSecs : Z; pbp_Expiry : Z }.
Record pb_UpdateNotify := mkPbUpdateNotify {
  pbu_UpdateID : string; pbu_ProposedPayChInfo : pb_PayChInfo; pbu_Type : Z; pbu_Expiry : Z;
  pbu_Error : option pb_MsgError }.

Section grpc.
Context {GT : GoTypes} {GP : GoPerun} {EL : EthLib} {DL : DecimalLib}.

(** ** Conversions *)
Definition fromGrpcPayment (src : pb_Payment) : Payment :=
  mkPayment (pb_Currency src) (pb_Payee src) (pb_Amount src).
Definition fromGrpcPayments (payments : list pb_Payment) : list Payment := fromGrpcPayment <$> payments.
Definition ToGrpcPayment (src : Payment) : pb_Payment :=
  mkPbPayment (pay_Currency src) (pay_Payee src) (pay_Amount src).
Definition ToGrpcPayments (payments : list Payment) : list pb_Payment := ToGrpcPayment <$> payments.

Definition fromGrpcBalInfo (src : option pb_BalInfo) : outcome BalInfo :=
  src ← go_deref src; Ret (mkBalInfo (pb_Currencies src) (pb_Parts src) (pb_Bals src)).
Definition ToGrpcBalInfo (src : BalInfo) : pb_BalInfo :=
  mkPbBalInfo (bi_Currencies src) (bi_Parts src) (bi_Bals src).

Definition toGrpcPayChInfo (src : PayChInfo) : pb_PayChInfo :=
  mkPbPayChInfo (pci_ChID src) (ToGrpcBalInfo (pci_BalInfo src)) (pci_Version src).
Definition toGrpcPayChsInfo (payChsInfo : list PayChInfo) : list pb_PayChInfo :=
  toGrpcPayChInfo <$> payChsInfo.

Definition ToGrpcChUpdateType (t : ChUpdateType) : Z :=
  match t with ChUpdateTypeOpen => 0 | ChUpdateTypeFinal => 1 | ChUpdateTypeClosed => 2 end.

(** The slice [output] is made of nil pointers, and the loop writes to their fields. *)
Definition toGrpcContractErrInfos (src : list ContractErrInfo) : outcome (list ContractErrInfo) :=
  go_map (λ '(out, c), out ← go_deref out; Ret (out : ContractErrInfo))
    (zip (replicate (length src) None) src).

Definition toGrpcError (err : APIError) : outcome pb_MsgError :=
  info ← match AddInfo err with
         | Some (ErrInfoPeerRequestTimedOut _ Timeout) => Ret (Some (Pb_PeerRequestTimedOut "" Timeout))
         | Some (ErrInfoPeerRejected PeerAlias Reason) => Ret (Some (Pb_PeerRejected PeerAlias Reason))
         | Some (ErrInfoPeerNotFunded PeerAlias) => Ret (Some (Pb_PeerNotFunded PeerAlias))
         | Some (ErrInfoUserResponseTimedOut Expiry ReceivedAt) =>
             Ret (Some (Pb_UserResponseTimedOut Expiry ReceivedAt))
         | Some (ErrInfoResourceNotFound Type_ ID) => Ret (Some (Pb_ResourceNotFound Type_ ID))
         | Some (ErrInfoResourceExists Type_ ID) => Ret (Some (Pb_ResourceExists Type_ ID))
         | Some (ErrInfoInvalidArgument Name Value Requirement) =>
             Ret (Some (Pb_InvalidArgument Name Value Requirement))
         | Some (ErrInfoFailedPreCondUnclosedPayChs PayChs) =>
             Ret (Some (Pb_FailedPreCondUnclosedChs (toGrpcPayChsInfo PayChs)))
         | Some (ErrInfoInvalidConfig Name Value) => Ret (Some (Pb_InvalidConfig Name Value))
         | Some (ErrInfoInvalidContracts ContractErrInfos) =>
             l ← toGrpcContractErrInfos ContractErrInfos; Ret (Some (Pb_InvalidContracts l))
         | Some (ErrInfoTxTimedOut TxType TxID TxTimeout) => Ret (Some (Pb_TxTimedOut TxType TxID TxTimeout))
         | Some (ErrInfoChainNotReachable ChainURL) => Ret (Some (Pb_ChainNotReachable ChainURL))
         | Some (ErrInfoFailedPreCondUnclosedChs _) | None => Ret None
         end;
  Ret (mkMsgError (ErrorCategory_int (Category err)) (ErrorCode_int (Code err)) (Message err) info).

(** ** State

    What calling a notifier of the server does: it is run as [run_notifier]. *)
Inductive GOut :=
| OutProposal (sessionID : string) (notif : PayChProposalNotif)
| OutUpdate (sessionID chID : string) (notif : PayChUpdateNotif).

Record payChAPIServer := mkServer {
  g_n : node GOut;
  chProposalsNotif : gmap string nat;
  chUpdatesNotif : gmap string (gmap string nat);
  signals : list bool;
}.

Inductive GEvent :=
| GEvNode (e : NEvent GOut)
| GEvSendProposal (sessionID : string) (msg : pb_ProposalNotify)
| GEvSendUpdate (sessionID chID : string) (msg : pb_UpdateNotify).

Definition gprog (A : Type) : Type := prog payChAPIServer GEvent A.

Definition set_node (n : node GOut) (a : payChAPIServer) : payChAPIServer :=
  mkServer n (chProposalsNotif a) (chUpdatesNotif a) (signals a).
Definition set_chProposalsNotif (m : gmap string nat) (a : payChAPIServer) : payChAPIServer :=
  mkServer (g_n a) m (chUpdatesNotif a) (signals a).
Definition set_chUpdatesNotif (m : gmap string (gmap string nat)) (a : payChAPIServer) : payChAPIServer :=
  mkServer (g_n a) (chProposalsNotif a) m (signals a).
Definition set_signals (l : list bool) (a : payChAPIServer) : payChAPIServer :=
  mkServer (g_n a) (chProposalsNotif a) (chUpdatesNotif a) l.

(** ** Signal channels *)
Definition make_signal : gprog nat :=
  a ← get_state; modify (set_signals (signals a ++ [false]));; mret (length (signals a)).

Definition close_signal (signal : option nat) : gprog unit :=
  a ← get_state;
  match signal with
  | None => panic "close of nil channel"
  | Some i =>
      closed ← lift (go_index (signals a) i);
      if closed : bool then panic "close of closed channel"
      else modify (set_signals (<[i := true]> (signals a)))
  end.

(** [<-signal] returns once the channel is closed. *)
Definition wait_signal (i : nat) : gprog unit :=
  a ← get_state; closed ← lift (go_index (signals a) i);
  if closed : bool then mret tt else block.

Definition closeGrpcPayChProposalSub (sessionID : string) : gprog unit :=
  a ← get_state;
  let signal := chProposalsNotif a !! sessionID in
  modify (set_chProposalsNotif (delete sessionID (chProposalsNotif a)));;
  close_signal signal.

Definition closeGrpcPayChUpdateSub (sessionID chID : string) : gprog unit :=
  a ← get_state;
  let signal := chUpdatesNotif a !! sessionID ≫= lookup chID in
  modify (set_chUpdatesNotif (alter (delete chID) sessionID (chUpdatesNotif a)));;
  close_signal signal.

(** ** Calls *)
Definition zoom_n {A} (m : nprog GOut A) : gprog A := zoom (λ a, Ret (g_n a)) set_node GEvNode m.
Definition call_s {A} (id : string) (m : env → Session.sprog GOut client idProviderCache A) : gprog A :=
  a ← get_state; zoom_n (zoom_s id (m (node_env (g_n a)))).
Definition call_ch {A} (id : string) (i : nat) (m : chprog GOut A) : gprog A :=
  call_s id (λ _, zoom_ch i m).

(** The response of a handler: a message or an error. *)
Definition pb_response (A : Type) : Type := (A + pb_MsgError)%type.
Definition errResponse {A} (err : APIError) : gprog (pb_response A) :=
  e ← lift (toGrpcError err); mret (inr e).
Definition respond {A} (err : option APIError) (a : A) : gprog (pb_response A) :=
  match err with Some err => errResponse err | None => mret (inl a) end.

(** [sess, err := a.n.GetSession(..)] and [ch, err := sess.GetCh(..)], with the
    error continuation of the handler. *)
Definition get_session {A} (sessionID : string) (fail : APIError → gprog A) (k : gprog A) : gprog A :=
  r ← zoom_n (GetSession sessionID);
  match r.2 with Some err => fail err | None => k end.
Definition get_ch {A} (sessionID chID : string) (fail : APIError → gprog A) (k : nat → gprog A) : gprog A :=
  get_session sessionID fail (
    r ← call_s sessionID (λ _, GetCh chID);
    match r with
    | (_, Some err) => fail err
    | (None, None) => panic "nil pointer dereference"
    | (Some i, None) => k i
    end).

(** ** Handlers of the node *)
Definition GetConfig : gprog (string * string * string * list string * list string) :=
  a ← get_state;
  let cfg := Node.GetConfig (g_n a) in
  mret (nc_ChainURL cfg, nc_Adjudicator cfg, nc_AssetETH cfg, nc_CommTypes cfg, nc_IDProviderTypes cfg).
Definition Time (now : Z) : gprog Z := mret (Node.Time now).
Definition Help : gprog (list string) := mret Node.Help.

Definition RegisterCurrency (tokenAddr assetAddr : string) : gprog (pb_response string) :=
  r ← zoom_n (Node.RegisterCurrency tokenAddr assetAddr); respond r.2 r.1.

Definition OpenSession (configFile : string) (parsed : Config + goerror) (file : id_file) (sid : string)
    : gprog (pb_response (string * list pb_PayChInfo)) :=
  r ← zoom_n (Payment.OpenSession configFile parsed file sid);
  let '(sessionID, restoredChs, err) := r in
  match err with
  | Some err => errResponse err
  | None =>
      a ← get_state;
      modify (set_chUpdatesNotif (<[sessionID := ∅]> (chUpdatesNotif a)));;
      mret (inl (sessionID, toGrpcPayChsInfo restoredChs))
  end.

(** ** Handlers of the session *)
Definition AddPeerID (sessionID : string) (peerID : option pb_PeerID) : gprog (pb_response bool) :=
  get_session sessionID errResponse (
    p ← lift (go_deref peerID);
    err ← call_s sessionID (λ _, Session.AddPeerID
            (mkPeerID (pb_Alias p) None (pb_OffChainAddress p) (pb_CommAddress p) (pb_CommType p)));
    respond err true).

Definition GetPeerID (sessionID alias : string) : gprog (pb_response pb_PeerID) :=
  get_session sessionID errResponse (
    r ← call_s sessionID (λ _, Session.GetPeerID alias);
    let p := r.1 in
    respond r.2 (mkPbPeerID (pid_Alias p) (pid_OffChainAddrString p) (pid_CommAddr p) (pid_CommType p))).

Definition OpenPayCh (sessionID : string) (openingBalInfo : option pb_BalInfo) (challengeDurSecs : Z)
    : gprog (pb_response pb_PayChInfo) :=
  get_session sessionID errResponse (
    openingBalInfo ← lift (fromGrpcBalInfo openingBalInfo);
    r ← call_s sessionID (λ E, Payment.OpenPayCh E openingBalInfo challengeDurSecs);
    respond r.2 (toGrpcPayChInfo r.1)).

Definition GetPayChsInfo (sessionID : string) : gprog (pb_response (list pb_PayChInfo)) :=
  get_session sessionID errResponse (
    infos ← call_s sessionID (λ _, Payment.GetPayChsInfo); mret (inl (toGrpcPayChsInfo infos))).

Definition RespondPayChProposal (sessionID proposalID : string) (accept : bool) (now : Z)
    : gprog (pb_response pb_PayChInfo) :=
  get_session sessionID errResponse (
    r ← call_s sessionID (λ E, Payment.RespondPayChProposal E proposalID accept now);
    respond r.2 (toGrpcPayChInfo r.1)).

Definition CloseSession (sessionID : string) (force : bool) : gprog (pb_response (list pb_PayChInfo)) :=
  get_session sessionID errResponse (
    r ← call_s sessionID (λ _, Payment.CloseSession force); respond r.2 (toGrpcPayChsInfo r.1)).

Definition DeployAssetERC20 (sessionID tokenAddr : string) : gprog (pb_response string) :=
  get_session sessionID errResponse (
    r ← call_s sessionID (λ E, Session.DeployAssetERC20 E tokenAddr); respond r.2 r.1).

(** Subscribing: the session is told first and the signal is stored in a second
    step; the handler then waits for the signal.  An error ends the call with a
    protocol error. *)
Definition cannotSubscribe (err : APIError) : goerror :=
  ErrWithMessage "cannot register subscription" (api_as_error err).

Definition SubPayChProposals_call (sessionID : string) : gprog (option goerror) :=
  get_session sessionID (λ err, mret (Some (cannotSubscribe err))) (
    err ← call_s sessionID (λ _, Payment.SubPayChProposals (OutProposal sessionID));
    mret (cannotSubscribe <$> err)).
Definition SubPayChProposals_store (sessionID : string) : gprog nat :=
  signal ← make_signal;
  a ← get_state;
  modify (set_chProposalsNotif (<[sessionID := signal]> (chProposalsNotif a)));;
  mret signal.
Definition SubPayChProposals (sessionID : string) : gprog (goerror + nat) :=
  err ← SubPayChProposals_call sessionID;
  match err with
  | Some err => mret (inl err)
  | None => signal ← SubPayChProposals_store sessionID; mret (inr signal)
  end.

Definition UnsubPayChProposals (sessionID : string) : gprog (pb_response bool) :=
  get_session sessionID errResponse (
    err ← call_s sessionID (λ _, Payment.UnsubPayChProposals);
    match err with
    | Some err => errResponse err
    | None => closeGrpcPayChProposalSub sessionID;; mret (inl true)
    end).

(** ** Handlers of the channel *)
Definition SendPayChUpdate (sessionID chID : string) (payments : list pb_Payment)
    : gprog (pb_response pb_PayChInfo) :=
  get_ch sessionID chID errResponse (λ i,
    r ← call_ch sessionID i (Payment.SendPayChUpdate (fromGrpcPayments payments));
    respond r.2 (toGrpcPayChInfo r.1)).

Definition SubPayChUpdates_call (sessionID chID : string) : gprog (option goerror) :=
  get_ch sessionID chID (λ err, mret (Some (cannotSubscribe err))) (λ i,
    err ← call_ch sessionID i (Payment.SubPayChUpdates (OutUpdate sessionID chID));
    mret (cannotSubscribe <$> err)).

(** Writing to the map of an unknown session panics. *)
Definition SubPayChUpdates_store (sessionID chID : string) : gprog nat :=
  signal ← make_signal;
  a ← get_state;
  match chUpdatesNotif a !! sessionID with
  | None => panic "assignment to entry in nil map"
  | Some m => modify (set_chUpdatesNotif (<[sessionID := <[chID := signal]> m]> (chUpdatesNotif a)))
  end;;
  mret signal.
Definition SubPayChUpdates (sessionID chID : string) : gprog (goerror + nat) :=
  err ← SubPayChUpdates_call sessionID chID;
  match err with
  | Some err => mret (inl err)
  | None => signal ← SubPayChUpdates_store sessionID chID; mret (inr signal)
  end.

Definition UnsubPayChUpdates (sessionID chID : string) : gprog (pb_response bool) :=
  get_ch sessionID chID errResponse (λ i,
    err ← call_ch sessionID i Payment.UnsubPayChUpdates;
    match err with
    | Some err => errResponse err
    | None => closeGrpcPayChUpdateSub sessionID chID;; mret (inl true)
    end).

Definition RespondPayChUpdate (sessionID chID updateID : string) (accept : bool) (now : Z)
    : gprog (pb_response pb_PayChInfo) :=
  get_ch sessionID chID errResponse (λ i,
    r ← call_ch sessionID i (Payment.RespondPayChUpdate updateID accept now);
    respond r.2 (toGrpcPayChInfo r.1)).

Definition GetPayChInfo (sessionID chID : string) : gprog (pb_response pb_PayChInfo) :=
  get_ch sessionID chID errResponse (λ i,
    info ← call_ch sessionID i Payment.GetPayChInfo; mret (inl (toGrpcPayChInfo info))).

Definition ClosePayCh (sessionID chID : string) : gprog (pb_response pb_PayChInfo) :=
  get_ch sessionID chID errResponse (λ i,
    r ← call_ch sessionID i Payment.ClosePayCh; respond r.2 (toGrpcPayChInfo r.1)).

(** ** The notifiers

    An error of sending is dropped; the notification that the channel is closed
    also ends the subscription. *)
Definition run_notifier (o : GOut) : gprog unit :=
  match o with
  | OutProposal sessionID notif =>
      emit (GEvSendProposal sessionID
              (mkPbProposalNotify (pcpn_ProposalID notif) (ToGrpcBalInfo (pcpn_OpeningBalInfo notif))
                 (pcpn_ChallengeDurSecs notif) (pcpn_Expiry notif)))
  | OutUpdate sessionID chID notif =>
      notifErr ← lift (match pcun_Error notif with
                       | None => Ret None
                       | Some err => e ← toGrpcError err; Ret (Some e)
                       end);
      emit (GEvSendUpdate sessionID chID
              (mkPbUpdateNotify (pcun_UpdateID notif) (toGrpcPayChInfo (pcun_ProposedPayChInfo notif))
                 (ToGrpcChUpdateType (pcun_Type notif)) (pcun_Expiry notif) notifErr));;
      (if decide (ChUpdateTypeClosed = pcun_Type notif)
       then closeGrpcPayChUpdateSub sessionID chID else mret tt)
  end.
End grpc.
Arguments gprog {_ _ _ _} _.
