(* ===== verification/NodeCmd.v ===== *)
(** * The node command (cmd/perunnode)

    [run] reads the configuration from a file and from flags, starts the node and
    serves the payment API; [generate] makes the artefacts for demos; [version].
    Flags and configuration files are those of the libraries pflag and viper
    ([CmdLib]). *)
From S2P Require Import Prelude Perun Errors SessionErrors Currency IDProvider Contracts Sdk Timeout.
From S2P Require Import Os Log TestConfig TestConfigProps SetupContracts Generate GenerateProps.
From S2P Require Import ChRegistry Client User Channel ChannelProps SessionHelpers Session SessionProps SessionLife.
From S2P Require Import Node Payment Grpc.
Local Open Scope Z_scope.

(** A set of flags; a viper instance, to which the configuration flags are bound; the
    network. *)
Class CmdLib `{GoTypes} := {
  flagset : Type;
  fs_Changed : flagset → string → bool;
  fs_GetString : flagset → string → string + goerror;
  fs_GetUint64 : flagset → string → Z + goerror;
  fs_GetBool : flagset → string → bool + goerror;
  viper : Type;
  v_SetConfigFile : string → viper → viper;
  v_SetConfigType : string → viper → viper;
  v_ReadInConfig : viper → viper * option goerror;
  v_Unmarshal : viper → NodeConfig + goerror;
  prettify : NodeConfig → string;
  net_Listen : string → option goerror;
  grpc_Serve : string → option goerror;
}.

(** ** Flags (flags.go) *)
Section flags.
Context {GT : GoTypes} {LB : CmdLib}.

Fixpoint areAllFlagsUnspecified (fs : flagset) (flags : list string) : bool :=
  match flags with
  | [] => true
  | f :: flags => if fs_Changed fs f then false else areAllFlagsUnspecified fs flags
  end.

Fixpoint areAllFlagsSpecified (fs : flagset) (flags : list string) : bool :=
  match flags with
  | [] => true
  | f :: flags => if negb (fs_Changed fs f) then false else areAllFlagsSpecified fs flags
  end.

Lemma areAllFlagsSpecified_true fs flags :
  areAllFlagsSpecified fs flags = true ↔ Forall (λ f, fs_Changed fs f = true) flags.
Proof.
  induction flags as [|f flags IH]; cbn; [by split|].
  rewrite Forall_cons, <-IH. destruct (fs_Changed fs f); naive_solver.
Qed.

Lemma areAllFlagsUnspecified_true fs flags :
  areAllFlagsUnspecified fs flags = true ↔ Forall (λ f, fs_Changed fs f = false) flags.
Proof.
  induction flags as [|f flags IH]; cbn; [by split|].
  rewrite Forall_cons, <-IH. destruct (fs_Changed fs f); naive_solver.
Qed.
End flags.

(** ** Running the node (run.go, api/grpc/server.go) *)
Definition loglevelF : string := "loglevel".
Definition logfileF : string := "logfile".
Definition chainurlF : string := "chainurl".
Definition adjudicatorF : string := "adjudicator".
Definition assetETHF : string := "assetETH".
Definition chainconntimeoutF : string := "chainconntimeout".
Definition onchaintxtimeoutF : string := "onchaintxtimeout".
Definition responsetimeoutF : string := "responsetimeout".
Definition configfileF : string := "configfile".
Definition grpcPortF : string := "grpcport".

Definition nodeCfgFlags : list string :=
  [logfileF; loglevelF; chainurlF; adjudicatorF; assetETHF; chainconntimeoutF; onchaintxtimeoutF;
   responsetimeoutF].
Definition supportedCommTypes : list string := ["tcp"].
Definition supportedIDProviderTypes : list string := ["local"].
Definition supportedCurrencyInterpretters : list string := ["ETH"].

Section run.
Context {GT : GoTypes} {GP : GoPerun} {EL : EthLib} {DL : DecimalLib} {LL : LogLib} {LB : CmdLib}.

Inductive REvent :=
| RPrint (s : string)
| RExit (code : Z)
| RServe (server : payChAPIServer) (addr : string).

Definition runprog (A : Type) : Type := prog logstate REvent A.

(** [os.Exit] does not return. *)
Definition os_Exit {A} (code : Z) : runprog A := emit (RExit code);; block.

Definition with_supported (c : NodeConfig) : NodeConfig :=
  mkNodeConfig (nc_LogLevel c) (nc_LogFile c) (nc_ChainURL c) (nc_ChainID c) (nc_Adjudicator c)
    (nc_AssetETH c) (nc_AssetERC20s c) (nc_ChainConnTimeout c) (nc_OnChainTxTimeout c)
    (nc_ResponseTimeout c) supportedCommTypes supportedIDProviderTypes supportedCurrencyInterpretters.

Definition unmarshal_config (v : viper) : runprog NodeConfig :=
  match v_Unmarshal v with
  | inr err =>
      emit (RPrint ("Error marshaling node config from viper instance: " +:+ error_Error err));; os_Exit 1
  | inl nodeCfg => mret (with_supported nodeCfg)
  end.

Definition parseNodeConfig (fs : flagset) (v : viper) : runprog NodeConfig :=
  if negb (areAllFlagsSpecified fs nodeCfgFlags) then
    match fs_GetString fs configfileF with
    | inr _ => panic "unknown flag configfile"
    | inl nodeCfgFile =>
        match v_ReadInConfig (v_SetConfigType "yaml" (v_SetConfigFile (Clean nodeCfgFile) v)) with
        | (_, Some err) =>
            emit (RPrint ("Error reading node config file: " +:+ error_Error err));; os_Exit 1
        | (v, None) =>
            emit (RPrint ("Using node config file - " +:+ nodeCfgFile));; unmarshal_config v
        end
    end
  else unmarshal_config v.

Definition ListenAndServePayChAPI (n : node GOut) (grpcPort : string) : runprog (option goerror) :=
  match net_Listen grpcPort with
  | Some err => mret (Some (ErrWithMessage "starting listener" err))
  | None => emit (RServe (mkServer n ∅ ∅ []) grpcPort);; mret (grpc_Serve grpcPort)
  end.

(** Starting the node initialises the logger, as its last step. *)
Definition start_node (cfg : NodeConfig) : runprog (node GOut + goerror) :=
  match (New cfg None : node GOut + goerror) with
  | inr err => mret (inr err)
  | inl _ =>
      logErr ← zoom (λ s, Ret s) (λ s _, s) (λ e, match e : Empty_set with end)
        (InitLogger (nc_LogLevel cfg) (nc_LogFile cfg));
      mret (New cfg logErr)
  end.

Definition run (fs : flagset) (v : viper) : runprog unit :=
  nodeCfg ← parseNodeConfig fs v;
  match fs_GetUint64 fs grpcPortF with
  | inr _ => panic "unknown flag port"
  | inl grpcPort =>
      let grpcAddr := ":" +:+ pretty grpcPort in
      nodeAPI ← start_node nodeCfg;
      match nodeAPI with
      | inr err => emit (RPrint ("Error initializing nodeAPI: " +:+ error_Error err))
      | inl n =>
          emit (RPrint ("Running perun node with the below config:
" +:+ prettify nodeCfg +:+ ".

Serving payment channel API via grpc at port " +:+ grpcAddr));;
          err ← ListenAndServePayChAPI n grpcAddr;
          match err with
          | Some err => emit (RPrint ("Server returned with error: " +:+ error_Error err))
          | None => mret tt
          end
      end
  end.
End run.

(** ** Generating artefacts and the version (generate.go, version.go) *)
Definition onlyNodeF : string := "only-node".
Definition onlySessionF : string := "only-session".

Section commands.
Context {GT : GoTypes} {EL : EthLib} {EN : Env} {TL : TestLib} {LB : CmdLib}.
Local Abbreviation osprog := (osprog Yaml).

Definition report (what : string) (ok : string) (m : osprog (option goerror)) : osprog (option goerror) :=
  err ← m;
  emit (Printf (match err with
    | Some err => "Error generating " +:+ what +:+ " configuration artifacts: " +:+ error_Error err
    | None => ok
    end));;
  mret err.

(** [err] holds the result of the last step; exiting is the last action. *)
Definition generate (fs : flagset) : osprog unit :=
  match fs_GetBool fs onlyNodeF, fs_GetBool fs onlySessionF with
  | inr _, _ => panic "unknown flag only-node"
  | _, inr _ => panic "unknown flag only-session"
  | inl onlyNode, inl onlySession =>
      let both := areAllFlagsUnspecified fs [onlyNodeF; onlySessionF] in
      let genNodeConfig := onlyNode || both in
      let genSessionConfig := onlySession || both in
      err ← (if genNodeConfig then
        report "node" ("Generated node configuration file: " +:+ nodeConfigFile) generateNodeConfig
        else mret None);
      err ← (if genSessionConfig then
        report "session" ("Generated session configuration artifacts: " +:+ aliceAlias +:+ ", "
          +:+ bobAlias +:+ " directories") generateSessionConfig
        else mret err);
      match err with Some _ => emit (Exit 1) | None => mret tt end
  end.

Definition versionFn (version gitCommitID goperunVersion : string) : osprog unit :=
  emit (Printf (version +:+ " Git revision: " +:+ gitCommitID +:+ " (go-perun version: "
                +:+ goperunVersion +:+ ")")).
End commands.
