(* ===== verification/GrpcProps.v ===== *)
(** * Properties of the API server *)
From S2P Require Import Prelude Perun Errors SessionErrors Currency IDProvider Contracts Sdk Timeout.
From S2P Require Import ChRegistry Client User Channel ChannelProps SessionHelpers Session SessionProps SessionLife.
From S2P Require Import Node Payment Grpc.

Section grpc_properties.
Context {GT : GoTypes} {GP : GoPerun} {EL : EthLib} {DL : DecimalLib}.
Implicit Types (a : payChAPIServer).

(** ** Conversions *)

(** What the server sends back is what a client of the same types would have
    sent: balances and payments survive the conversion in both directions.  A
    request without the balance message crashes the node. *)
Theorem grpc_roundtrip :
  (∀ b, fromGrpcBalInfo (Some (ToGrpcBalInfo b)) = Ret b) ∧
  (∀ p, ∃ b, fromGrpcBalInfo (Some p) = Ret b ∧ ToGrpcBalInfo b = p) ∧
  (∀ l, fromGrpcPayments (ToGrpcPayments l) = l) ∧ (∀ l, ToGrpcPayments (fromGrpcPayments l) = l) ∧
  fromGrpcBalInfo None = Panic "nil pointer dereference".
Proof.
  split_and!; try done.
  - by intros [].
  - intros [cs ps bs]. by eexists.
  - intros l. unfold fromGrpcPayments, ToGrpcPayments. rewrite <-list_fmap_compose.
    rewrite <-(list_fmap_id l) at 2. apply list_fmap_ext. by intros i [] _.
  - intros l. unfold fromGrpcPayments, ToGrpcPayments. rewrite <-list_fmap_compose.
    rewrite <-(list_fmap_id l) at 2. apply list_fmap_ext. by intros i [] _.
Qed.

(** The additional information a message should carry. *)
Definition pb_info (i : ErrInfo) : option pb_ErrInfo :=
  match i with
  | ErrInfoPeerRequestTimedOut p t => Some (Pb_PeerRequestTimedOut p t)
  | ErrInfoPeerRejected p r => Some (Pb_PeerRejected p r)
  | ErrInfoPeerNotFunded p => Some (Pb_PeerNotFunded p)
  | ErrInfoUserResponseTimedOut e r => Some (Pb_UserResponseTimedOut e r)
  | ErrInfoResourceNotFound t i => Some (Pb_ResourceNotFound t i)
  | ErrInfoResourceExists t i => Some (Pb_ResourceExists t i)
  | ErrInfoInvalidArgument n v r => Some (Pb_InvalidArgument n v r)
  | ErrInfoFailedPreCondUnclosedPayChs l => Some (Pb_FailedPreCondUnclosedChs (toGrpcPayChsInfo l))
  | ErrInfoFailedPreCondUnclosedChs l =>
      Some (Pb_FailedPreCondUnclosedChs (toGrpcPayChsInfo (toPayChsInfo l)))
  | ErrInfoInvalidConfig n v => Some (Pb_InvalidConfig n v)
  | ErrInfoInvalidContracts l => Some (Pb_InvalidContracts l)
  | ErrInfoTxTimedOut t i d => Some (Pb_TxTimedOut t i d)
  | ErrInfoChainNotReachable u => Some (Pb_ChainNotReachable u)
  end.

Lemma toGrpcContractErrInfos_spec l :
  toGrpcContractErrInfos l = match l with [] => Ret [] | _ => Panic "nil pointer dereference" end.
Proof. by destruct l. Qed.

(** Errors on the wire.  Every error of the payment API but one is sent, with the
    numbers of its category and code and its message; the additional information
    is complete except for the alias of a peer that timed out, which is lost.
    The exception: reporting invalid contracts crashes the node. *)
Theorem toGrpcError_spec e (Hn : ∀ l, AddInfo e ≠ Some (ErrInfoFailedPreCondUnclosedChs l)) :
  match AddInfo e with
  | Some (ErrInfoInvalidContracts (_ :: _)) => toGrpcError e = Panic "nil pointer dereference"
  | info => ∃ m, toGrpcError e = Ret m ∧ pb_Category m = ErrorCategory_int (Category e) ∧
      pb_Code m = ErrorCode_int (Code e) ∧ pb_Message m = Message e ∧
      pb_AddInfo m =
        match info with
        | Some (ErrInfoPeerRequestTimedOut _ t) => Some (Pb_PeerRequestTimedOut "" t)
        | Some i => pb_info i
        | None => None
        end
  end.
Proof.
  destruct e as [cat code cause info]. cbn in Hn. unfold toGrpcError. cbn [AddInfo].
  destruct info as [[]|]; cbn; try (eexists; split_and!; done).
  - by edestruct Hn.
  - rewrite toGrpcContractErrInfos_spec. destruct ContractErrInfos; cbn; [eexists; split_and!; done|done].
Qed.

(** An error that a session operation of the payment API returns never carries
    the list of channels of the core API: [CloseSession] has converted it. *)
Lemma CloseSession_error {Out C I : Type} {CC : ChClient C} {II : IDProviderI I} force
    (s : Session Out C I) es s' l e :
  Payment.CloseSession force s = (es, s', Ret (l, Some e)) →
  ∀ chs, AddInfo e ≠ Some (ErrInfoFailedPreCondUnclosedChs chs).
Proof.
  unfold Payment.CloseSession. intros (es1 & s1 & [infos err] & es2 & _ & [= _ _ _ He] & _)%bind_ret.
  intros chs Hi. cbn in He. destruct err as [e0|]; [|done]. cbn in He.
  destruct (AddInfo e0) as [[]|] eqn:E; injection He as <-; cbn in Hi; congruence.
Qed.

(** ** Signals *)

(** The subscriptions: of the proposals of a session, or of the updates of a channel. *)
Inductive sub_key := KProposals (sessionID : string) | KUpdates (sessionID chID : string).

Definition signal_of a (k : sub_key) : option nat :=
  match k with
  | KProposals sid => chProposalsNotif a !! sid
  | KUpdates sid chID => chUpdatesNotif a !! sid ≫= lookup chID
  end.

#[local] Instance sub_key_eq_dec : EqDecision sub_key.
Proof. solve_decision. Defined.

(** Every stored signal is open and belongs to one subscription. *)
Definition wf_signals a : Prop :=
  (∀ k i, signal_of a k = Some i → signals a !! i = Some false) ∧
  (∀ k k' i, signal_of a k = Some i → signal_of a k' = Some i → k = k').

(** The steps of the handlers and notifiers that touch the signals; other steps
    change the node only. *)
Inductive sig_op :=
| SigNode (n : node GOut)
| SigSession (sessionID : string)
| SigStoreProposals (sessionID : string)
| SigStoreUpdates (sessionID chID : string)
| SigCloseProposals (sessionID : string)
| SigCloseUpdates (sessionID chID : string).

Definition run_sig (o : sig_op) : gprog unit :=
  match o with
  | SigNode n => modify (set_node n)
  | SigSession sid => modify (λ a, set_chUpdatesNotif (<[sid := ∅]> (chUpdatesNotif a)) a)
  | SigStoreProposals sid => SubPayChProposals_store sid;; mret tt
  | SigStoreUpdates sid chID => SubPayChUpdates_store sid chID;; mret tt
  | SigCloseProposals sid => closeGrpcPayChProposalSub sid
  | SigCloseUpdates sid chID => closeGrpcPayChUpdateSub sid chID
  end.

Definition set_signal (k : sub_key) (i : option nat) a : payChAPIServer :=
  match k with
  | KProposals sid => set_chProposalsNotif (partial_alter (λ _, i) sid (chProposalsNotif a)) a
  | KUpdates sid chID => set_chUpdatesNotif (alter (partial_alter (λ _, i) chID) sid (chUpdatesNotif a)) a
  end.

Lemma signal_of_set k i a k' :
  signal_of (set_signal k i a) k' =
    if decide (k' = k) then match k with
                            | KProposals _ => i
                            | KUpdates sid _ => chUpdatesNotif a !! sid ≫= λ _, i
                            end
    else signal_of a k'.
Proof.
  destruct (decide (k' = k)) as [->|Hne]; destruct k as [sid|sid chID]; cbn.
  - apply lookup_partial_alter_eq.
  - rewrite lookup_alter_eq. destruct (chUpdatesNotif a !! sid); cbn; [|done]. apply lookup_partial_alter_eq.
  - destruct k' as [sid'|sid' chID']; cbn; [|done]. apply lookup_partial_alter_ne. congruence.
  - destruct k' as [sid'|sid' chID']; cbn; [done|]. destruct (decide (sid' = sid)) as [->|Hs].
    + rewrite lookup_alter_eq. destruct (chUpdatesNotif a !! sid); cbn; [|done].
      apply lookup_partial_alter_ne. congruence.
    + by rewrite lookup_alter_ne.
Qed.

Lemma alter_lookup_insert {A} (f : A → A) (m : gmap string A) k x :
  m !! k = Some x → alter f k m = <[k := f x]> m.
Proof.
  intros Hk. apply map_eq. intros j. destruct (decide (k = j)) as [<-|Hne].
  - by rewrite lookup_alter_eq, lookup_insert_eq, Hk.
  - by rewrite lookup_alter_ne, lookup_insert_ne.
Qed.

(** Storing a fresh signal, and closing the signal of a subscription. *)
Definition stored_signal (k : sub_key) a : payChAPIServer :=
  set_signal k (Some (length (signals a))) (set_signals (signals a ++ [false]) a).

Lemma SubPayChProposals_store_run sid a :
  SubPayChProposals_store sid a = ([], stored_signal (KProposals sid) a, Ret (length (signals a))).
Proof. reflexivity. Qed.

Lemma SubPayChUpdates_store_run sid chID a m :
  chUpdatesNotif a !! sid = Some m →
  SubPayChUpdates_store sid chID a = ([], stored_signal (KUpdates sid chID) a, Ret (length (signals a))).
Proof.
  intros Hm. unfold SubPayChUpdates_store, make_signal, mbind, prog_mbind, get_state, modify, mret, prog_mret.
  cbn. rewrite Hm. cbn. unfold stored_signal, set_signal. cbn. by rewrite (alter_lookup_insert _ _ _ m).
Qed.

Definition close_sub (k : sub_key) : gprog unit :=
  match k with
  | KProposals sid => closeGrpcPayChProposalSub sid
  | KUpdates sid chID => closeGrpcPayChUpdateSub sid chID
  end.

Lemma close_sub_run k a :
  wf_signals a →
  close_sub k a =
    match signal_of a k with
    | None => ([], set_signal k None a, Panic "close of nil channel")
    | Some i => ([], set_signals (<[i := true]> (signals a)) (set_signal k None a), Ret tt)
    end.
Proof.
  intros [Ho _]. specialize (Ho k).
  destruct k as [sid|sid chID]; unfold close_sub, closeGrpcPayChProposalSub, closeGrpcPayChUpdateSub, close_signal,
    mbind, prog_mbind, get_state, modify, lift, panic, go_index; cbn in *.
  - destruct (chProposalsNotif a !! sid) as [i|]; cbn; [|done]. by rewrite (Ho i eq_refl).
  - destruct (chUpdatesNotif a !! sid) as [m|]; cbn in *; [|done].
    destruct (m !! chID) as [i|]; cbn; [|done]. by rewrite (Ho i eq_refl).
Qed.

Lemma wf_signals_store k a : wf_signals a → wf_signals (stored_signal k a).
Proof.
  intros [Ho Hu].
  assert (∀ k', signal_of (set_signals (signals a ++ [false]) a) k' = signal_of a k') as E by by intros [].
  assert (∀ k' i, signal_of a k' = Some i → i ≠ length (signals a)) as Hne.
  { intros k' i Hi%Ho%lookup_lt_Some. lia. }
  assert (∀ k' i, signal_of (stored_signal k a) k' = Some i →
    (k' = k ∧ i = length (signals a)) ∨ signal_of a k' = Some i) as Hs.
  { intros k' i. unfold stored_signal. rewrite signal_of_set, E. destruct (decide (k' = k)) as [->|]; [|by right].
    destruct k; cbn; [intros [= <-]; by left|].
    destruct (chUpdatesNotif a !! sessionID); cbn; [intros [= <-]; by left|done]. }
  split.
  - intros k' i [[-> ->]|Hi]%Hs; cbn; destruct k; cbn; try by rewrite list_lookup_middle.
    all: apply lookup_app_l_Some; by eapply Ho.
  - intros k1 k2 i [[-> ->]|H1]%Hs [[-> H2]|H2]%Hs; try done; [by destruct (Hne _ _ H2)|subst; by destruct (Hne _ _ H1)|by eapply Hu].
Qed.

Lemma wf_signals_close k i a :
  wf_signals a → signal_of a k = Some i →
  wf_signals (set_signals (<[i := true]> (signals a)) (set_signal k None a)).
Proof.
  intros [Ho Hu] Hk.
  assert (∀ k' j, signal_of (set_signals (<[i := true]> (signals a)) (set_signal k None a)) k' = Some j →
    k' ≠ k ∧ signal_of a k' = Some j) as Hs.
  { intros k' j. assert (∀ l b, signal_of (set_signals l b) k' = signal_of b k') as -> by by destruct k'.
    rewrite signal_of_set. destruct (decide (k' = k)) as [->|]; [|done].
    destruct k; cbn; [done|]. by destruct (chUpdatesNotif a !! sessionID). }
  split.
  - intros k' j [Hne Hj]%Hs. cbn. rewrite list_lookup_insert_ne; [by eapply Ho|].
    intros ->. by destruct Hne; eapply Hu.
  - intros k1 k2 j [_ H1]%Hs [_ H2]%Hs. by eapply Hu.
Qed.

Lemma wf_signals_shrink a b :
  signals b = signals a → (∀ k i, signal_of b k = Some i → signal_of a k = Some i) →
  wf_signals a → wf_signals b.
Proof. intros Hs Hk [Ho Hu]. split; [intros k i Hi; rewrite Hs; by eapply Ho, Hk|intros k k' i H1 H2; by eapply Hu; apply Hk]. Qed.

(** Closed signals stay closed, and none is forgotten. *)
Definition signals_grow a a' : Prop :=
  ∀ i b, signals a !! i = Some b → ∃ b', signals a' !! i = Some b' ∧ (b = true → b' = true).

Lemma signals_grow_insert a a' i :
  signals a' = <[i := true]> (signals a) → signals_grow a a'.
Proof.
  intros E j b Hj. rewrite E. destruct (decide (i = j)) as [<-|Hne].
  - exists true. split; [|done]. by apply list_lookup_insert_eq, (lookup_lt_Some _ _ _ Hj).
  - rewrite list_lookup_insert_ne by done. by exists b.
Qed.

Lemma run_sig_step o a :
  wf_signals a →
  let '(es, a', r) := run_sig o a in
  es = [] ∧ r ≠ Panic "close of closed channel" ∧ (r = Ret tt → wf_signals a' ∧ signals_grow a a').
Proof.
  intros Hwf. assert (signals_grow a a) as Hrefl by (intros i b Hi; by exists b).
  assert (∀ k, signals_grow a (stored_signal k a)) as Hgrow.
  { intros k i b Hi. exists b. split; [|done]. destruct k; cbn; by apply lookup_app_l_Some. }
  destruct o as [n|sid|sid|sid chID|sid|sid chID]; cbn [run_sig].
  - split_and!; [done..|]. intros _. split; [|done]. apply (wf_signals_shrink a); [done| |done]. by intros [].
  - split_and!; [done..|]. intros _. split; [|done]. apply (wf_signals_shrink a); [done| |done].
    intros [sid'|sid' chID'] i; cbn; [done|]. destruct (decide (sid = sid')) as [->|Hne].
    + rewrite lookup_insert_eq. cbn. by rewrite lookup_empty.
    + by rewrite lookup_insert_ne.
  - rewrite (run_bind _ _ _ _ _ _ (SubPayChProposals_store_run sid a)). cbn.
    split_and!; [done..|]. intros _.
    exact (conj (wf_signals_store (KProposals sid) a Hwf) (Hgrow (KProposals sid))).
  - destruct (chUpdatesNotif a !! sid) as [m|] eqn:Hm.
    + rewrite (run_bind _ _ _ _ _ _ (SubPayChUpdates_store_run sid chID a m Hm)). cbn.
      split_and!; [done..|]. intros _.
      exact (conj (wf_signals_store (KUpdates sid chID) a Hwf) (Hgrow (KUpdates sid chID))).
    + unfold SubPayChUpdates_store, make_signal, mbind, prog_mbind, get_state, modify, mret, prog_mret.
      cbn. rewrite Hm. cbn. by split_and!.
  - pose proof (close_sub_run (KProposals sid) a Hwf) as E. cbn [close_sub] in E. rewrite E.
    destruct (signal_of a _) as [i|] eqn:Hi; split_and!; try done. intros _.
    split; [by eapply wf_signals_close|by eapply signals_grow_insert].
  - pose proof (close_sub_run (KUpdates sid chID) a Hwf) as E. cbn [close_sub] in E. rewrite E.
    destruct (signal_of a _) as [i|] eqn:Hi; split_and!; try done. intros _.
    split; [by eapply wf_signals_close|by eapply signals_grow_insert].
Qed.

Inductive sig_steps : payChAPIServer → list sig_op → payChAPIServer → Prop :=
| sig_steps_nil a : sig_steps a [] a
| sig_steps_cons a o es a' os a'' :
    run_sig o a = (es, a', Ret tt) → sig_steps a' os a'' → sig_steps a (o :: os) a''.

(** C29: In every interleaving of the subscription handlers, unsubscriptions and
    closing notifications of any number of clients, the signals the server holds
    are open and each belongs to one subscription; a signal once closed stays
    closed, and no step ever closes a signal a second time. *)
Theorem signals_closed_once a os a' (Hwf : wf_signals a) (Hsteps : sig_steps a os a') :
  wf_signals a' ∧ signals_grow a a' ∧ ∀ o, value (run_sig o a') ≠ Panic "close of closed channel".
Proof.
  induction Hsteps as [a|a o es a' os a'' Hstep _ IH].
  - split; [done|]. split; [intros i b Hi; by exists b|]. intros o. pose proof (run_sig_step o a Hwf) as H.
    destruct (run_sig o a) as [[es a'] r]. by destruct H as (_ & ? & _).
  - pose proof (run_sig_step o a Hwf) as H. rewrite Hstep in H. destruct H as (_ & _ & H).
    destruct (H eq_refl) as [Hwf' Hg]. destruct (IH Hwf') as (Hwf'' & Hg' & Hlast). split_and!; try done.
    intros i b (b1 & Hb1 & H1)%Hg. destruct (Hg' _ _ Hb1) as (b2 & Hb2 & H2). exists b2. split; [done|]. auto.
Qed.

(** ** Calls through the server *)

(** The channel [chID] of the session [sid], at index [i]; no mutex is held. *)
Record reaches a (sid chID : string) (s : Session GOut client idProviderCache) (i : nat)
    (ch : Channel GOut) : Prop := {
  re_node : n_locked (g_n a) = false;
  re_session : n_sessions (g_n a) !! sid = Some s;
  re_slock : s_locked s = false;
  re_idx : chIdxs (s_chs s) !! chID = Some i;
  re_ch : chs (s_chs s) !! i = Some ch;
}.

(** The server after the channel has become [ch']. *)
Definition put_channel a (sid : string) (s : Session GOut client idProviderCache) (i : nat)
    (ch' : Channel GOut) : payChAPIServer :=
  set_node (set_sessions (<[sid := set_chs (update i ch' (s_chs s)) s]> (n_sessions (g_n a))) (g_n a)) a.

Lemma GetSession_run sid (n : node GOut) s :
  n_locked n = false → n_sessions n !! sid = Some s → GetSession sid n = ([], n, Ret (Some sid, None)).
Proof.
  intros Hl Hs. destruct n as [cfg ss c r l]. cbn in *. subst l.
  unfold GetSession, with_nlock, mbind, prog_mbind, get_state, modify, mret, prog_mret. cbn. by rewrite Hs.
Qed.

Lemma get_session_run {A} sid fail (k : gprog A) a s :
  n_locked (g_n a) = false → n_sessions (g_n a) !! sid = Some s → get_session sid fail k a = k a.
Proof.
  intros Hl Hs. unfold get_session, zoom_n, zoom, mbind, prog_mbind.
  rewrite (GetSession_run sid (g_n a) s Hl Hs). cbn. destruct a. by destruct (k _) as [[??]?].
Qed.

Lemma GetCh_run chID (s : Session GOut client idProviderCache) i ch :
  s_locked s = false → chIdxs (s_chs s) !! chID = Some i → chs (s_chs s) !! i = Some ch →
  GetCh chID s = ([], s, Ret (Some i, None)).
Proof.
  intros Hl Hi Hch. unfold GetCh, mbind at 1, prog_mbind at 1. rewrite with_slock_run by done.
  destruct s as [??????????? ?? ?]. cbn in *. subst.
  unfold mbind, prog_mbind, get_state, lift, mret, prog_mret, get, get_idx, go_index. cbn. by rewrite Hi, Hch.
Qed.

Lemma call_s_run {A} sid (m : env → Session.sprog GOut client idProviderCache A) a s :
  n_sessions (g_n a) !! sid = Some s →
  call_s sid m a =
    let '(es, s', o) := m (node_env (g_n a)) s in
    (GEvNode ∘ NEvSession sid <$> es,
     set_node (set_sessions (<[sid := s']> (n_sessions (g_n a))) (g_n a)) a, o).
Proof.
  intros Hs. unfold call_s, zoom_n, zoom_s, zoom, go_deref, mbind, prog_mbind, get_state. cbn. rewrite Hs.
  destruct (m _ s) as [[es s'] o]. by rewrite list_fmap_compose.
Qed.

Lemma get_ch_run {A} sid chID fail (k : nat → gprog A) a s i ch :
  reaches a sid chID s i ch → get_ch sid chID fail k a = k i a.
Proof.
  intros [Hl Hs Hsl Hi Hch]. unfold get_ch. rewrite (get_session_run _ _ _ _ s Hl Hs).
  unfold mbind, prog_mbind. rewrite (call_s_run _ _ _ s Hs), (GetCh_run _ _ i ch Hsl Hi Hch). cbn.
  rewrite insert_id by done. destruct a as [[] ? ? ?]. cbn. by destruct (k i _) as [[??]?].
Qed.

Lemma call_ch_run {A} sid chID (m : chprog GOut A) a s i ch :
  reaches a sid chID s i ch →
  call_ch sid i m a =
    let '(es, ch', o) := m ch in
    (GEvNode ∘ NEvSession sid <$> (SEvCh i <$> es), put_channel a sid s i ch', o).
Proof.
  intros [Hl Hs Hsl Hi Hch]. unfold call_ch. rewrite (call_s_run _ _ _ s Hs).
  unfold zoom_ch, zoom, go_index. rewrite Hch. by destruct (m ch) as [[es ch'] o].
Qed.

Lemma put_channel_reaches a sid chID s i ch ch' :
  reaches a sid chID s i ch →
  reaches (put_channel a sid s i ch') sid chID (set_chs (update i ch' (s_chs s)) s) i ch'.
Proof.
  intros [Hl Hs Hsl Hi Hch]. split; cbn; try done.
  - by rewrite lookup_insert_eq.
  - by apply list_lookup_insert_eq, (lookup_lt_Some _ _ _ Hch).
Qed.

(** A request for a session the node does not know is answered with that error,
    by every handler, and changes nothing. *)
Lemma get_session_unknown {A} sid (k : gprog (pb_response A)) a :
  n_locked (g_n a) = false → n_sessions (g_n a) !! sid = None →
  ∃ m, get_session sid errResponse k a = ([], a, Ret (inr m)) ∧ pb_Code m = 201 ∧
       pb_AddInfo m = Some (Pb_ResourceNotFound ResTypeSession sid).
Proof.
  intros Hl Hs. unfold get_session, zoom_n, zoom, GetSession, with_nlock, mbind, prog_mbind, get_state,
    modify, mret, prog_mret. destruct a as [[cfg ss c r l] cp cu sg]. cbn in *. subst l. cbn. rewrite Hs. cbn.
  eexists. split; [done|]. done.
Qed.

(** C40: Every request that names a session the node does not know is refused: with
    the resource-not-found message, or for a subscription with an error of the
    protocol, and without any effect on the node or its subscriptions. *)
Theorem unknown_session_refused sid a
    (Hl : n_locked (g_n a) = false) (Hs : n_sessions (g_n a) !! sid = None) :
  let refused {A} (h : gprog (pb_response A)) :=
    ∃ m, h a = ([], a, Ret (inr m)) ∧ pb_Code m = 201 ∧
         pb_AddInfo m = Some (Pb_ResourceNotFound ResTypeSession sid) in
  (∀ p, refused (Grpc.AddPeerID sid p)) ∧ (∀ al, refused (Grpc.GetPeerID sid al)) ∧
  (∀ b d, refused (Grpc.OpenPayCh sid b d)) ∧ refused (Grpc.GetPayChsInfo sid) ∧
  (∀ id acc now, refused (Grpc.RespondPayChProposal sid id acc now)) ∧
  (∀ f, refused (Grpc.CloseSession sid f)) ∧ (∀ t, refused (Grpc.DeployAssetERC20 sid t)) ∧
  refused (Grpc.UnsubPayChProposals sid) ∧
  (∀ c ps, refused (Grpc.SendPayChUpdate sid c ps)) ∧ (∀ c, refused (Grpc.UnsubPayChUpdates sid c)) ∧
  (∀ c u acc now, refused (Grpc.RespondPayChUpdate sid c u acc now)) ∧
  (∀ c, refused (Grpc.GetPayChInfo sid c)) ∧ (∀ c, refused (Grpc.ClosePayCh sid c)) ∧
  (∃ e, Grpc.SubPayChProposals sid a = ([], a, Ret (inl e))) ∧
  (∀ c, ∃ e, Grpc.SubPayChUpdates sid c a = ([], a, Ret (inl e))).
Proof.
  intros refused. split_and!; intros; try (by apply get_session_unknown).
  all: unfold Grpc.SubPayChProposals, Grpc.SubPayChUpdates, SubPayChProposals_call, SubPayChUpdates_call, get_ch,
    get_session, zoom_n, zoom, GetSession, with_nlock, mbind, prog_mbind, get_state, modify, mret, prog_mret.
  all: destruct a as [[cfg ss cr r l] cp cu sg]; cbn in *; subst l; cbn; rewrite Hs; by eexists.
Qed.

(** ** Subscriptions to the updates of a channel *)

Lemma UnsubChUpdates_run (ch : Channel GOut) n :
  ch_locked ch = false → ch_status ch = open → ch_chUpdateNotifier ch = Some n →
  UnsubChUpdates ch = ([], set_notifier None ch, Ret None).
Proof.
  destruct ch as [p c st w no ca re l]. cbn. intros -> -> ->. unfold UnsubChUpdates.
  by rewrite with_lock_run.
Qed.

Lemma SubPayChUpdates_call_run a sid chID s i ch :
  reaches a sid chID s i ch → ch_locked ch = false → ch_status ch = open → ch_chUpdateNotifier ch = None →
  let n := λ notif, OutUpdate sid chID (toPayChUpdateNotif notif) in
  ∃ es, SubPayChUpdates_call sid chID a =
    (es, put_channel a sid s i (set_cache [] (set_notifier (Some n) ch)), Ret None).
Proof.
  intros Hr Hl Ho Hn n. unfold SubPayChUpdates_call. rewrite (get_ch_run _ _ _ _ _ _ _ _ Hr).
  unfold mbind, prog_mbind. rewrite (call_ch_run _ _ _ _ _ _ _ Hr). unfold Payment.SubPayChUpdates.
  rewrite SubChUpdates_run by done. cbn. eexists. by rewrite app_nil_r.
Qed.

(** Both steps. *)
Lemma SubPayChUpdates_run a sid chID s i ch m :
  reaches a sid chID s i ch → ch_locked ch = false → ch_status ch = open → ch_chUpdateNotifier ch = None →
  chUpdatesNotif a !! sid = Some m →
  let n := λ notif, OutUpdate sid chID (toPayChUpdateNotif notif) in
  final (Grpc.SubPayChUpdates sid chID a) =
    stored_signal (KUpdates sid chID) (put_channel a sid s i (set_cache [] (set_notifier (Some n) ch))).
Proof.
  intros Hr Hl Ho Hn Hm n. destruct (SubPayChUpdates_call_run a sid chID s i ch Hr Hl Ho Hn) as [es E].
  unfold Grpc.SubPayChUpdates, mbind, prog_mbind. rewrite E.
  by rewrite (SubPayChUpdates_store_run sid chID (put_channel _ _ _ _ _) m Hm).
Qed.

Lemma UnsubPayChUpdates_run a sid chID s i ch n :
  reaches a sid chID s i ch → ch_locked ch = false → ch_status ch = open → ch_chUpdateNotifier ch = Some n →
  Grpc.UnsubPayChUpdates sid chID a =
    (close_sub (KUpdates sid chID);; mret (inl true)) (put_channel a sid s i (set_notifier None ch)).
Proof.
  intros Hr Hl Ho Hn. unfold Grpc.UnsubPayChUpdates. rewrite (get_ch_run _ _ _ _ _ _ _ _ Hr).
  unfold mbind at 1, prog_mbind at 1. rewrite (call_ch_run _ _ _ _ _ _ _ Hr). unfold Payment.UnsubPayChUpdates.
  rewrite (UnsubChUpdates_run ch n) by done. cbn [fmap list_fmap].
  cbn [close_sub]. by destruct ((closeGrpcPayChUpdateSub sid chID;; mret (inl true)) _) as [[??]?].
Qed.

Lemma stored_signal_spec sid chID a m :
  wf_signals a → chUpdatesNotif a !! sid = Some m →
  wf_signals (stored_signal (KUpdates sid chID) a) ∧
  signal_of (stored_signal (KUpdates sid chID) a) (KUpdates sid chID) = Some (length (signals a)).
Proof.
  intros Hwf Hm. split; [by apply wf_signals_store|].
  unfold stored_signal. rewrite signal_of_set, decide_True by done. cbn [chUpdatesNotif set_signals].
  by rewrite Hm.
Qed.

Lemma wait_open i a : signals a !! i = Some false → value (wait_signal i a) = Block.
Proof.
  intros Hi. unfold wait_signal, mbind, prog_mbind, get_state, lift, go_index. cbn. by rewrite Hi.
Qed.
Lemma wait_closed i a : signals a !! i = Some true → value (wait_signal i a) = Ret tt.
Proof.
  intros Hi. unfold wait_signal, mbind, prog_mbind, get_state, lift, go_index. cbn. by rewrite Hi.
Qed.

(** Ending a subscription that has a signal ends the call that waits for it. *)
Lemma close_sub_then k a i :
  wf_signals a → signal_of a k = Some i →
  value ((close_sub k;; mret (inl true : pb_response bool)) a) = Ret (inl true) ∧
  value (wait_signal i (final ((close_sub k;; mret (inl true : pb_response bool)) a))) = Ret tt.
Proof.
  intros Hwf Hi. unfold mbind, prog_mbind. rewrite (close_sub_run k a Hwf), Hi. cbn [mret prog_mret].
  split; [done|]. apply wait_closed. cbn. apply list_lookup_insert_eq. eapply lookup_lt_Some, Hwf, Hi.
Qed.

(** An error with one of these codes can be sent. *)
Lemma toGrpcError_ret codes err :
  errs_in codes (Some err) → ErrInvalidContracts ∉ codes →
  ∃ m, toGrpcError err = Ret m ∧ pb_Code m = ErrorCode_int (Code err).
Proof.
  intros [[_ Hi] Hc] Hn. destruct err as [cat code cause info]. cbn in *.
  destruct info as [[]|]; try (by eexists; split; [reflexivity|]).
  by destruct code; cbn in Hi.
Qed.

Lemma chain_error_sent u txt err :
  ∃ m, toGrpcError (match handleChainError u txt err with
                    | Some apiErr => apiErr | None => NewAPIErrUnknownInternal err end) = Ret m.
Proof.
  pose proof (handleChainError_codes u txt err) as H. destruct (handleChainError u txt err) as [e|].
  - destruct (toGrpcError_ret _ e H) as (m & -> & _); [set_solver|by eexists].
  - by eexists.
Qed.

(** What the user is told of the result of settling. *)
Definition settle_error (ch : Channel.Channel GOut) (err : option goerror) : option APIError :=
  (λ err, handleChSettleError (ch_params ch) (ErrWithMessage "settling channel" err)) <$> err.

Lemma toGrpcError_Message e m : toGrpcError e = Ret m → pb_Message m = Message e.
Proof.
  unfold toGrpcError. destruct (AddInfo e) as [[]|]; cbn; try (intros [= <-]; reflexivity).
  destruct (toGrpcContractErrInfos _); cbn; [|done..]. by intros [= <-].
Qed.

(** A failed settlement is never sent with an empty text. *)
Lemma settle_error_text (ch : Channel.Channel GOut) err e m :
  settle_error ch err = Some e → toGrpcError e = Ret m → pb_Message m ≠ "".
Proof.
  intros He ->%toGrpcError_Message. destruct err as [err|]; [|done]. injection He as <-.
  assert (Hne : ∀ txt b, error_Error (ErrWithMessage txt b) ≠ "") by (by intros [] b).
  unfold handleChSettleError, handleChainError.
  destruct (errors_As as_TxTimedoutError _) as [[]|]; [apply Hne|].
  destruct (errors_As as_ChainNotReachableError _); apply Hne.
Qed.

Lemma settle_error_sent (ch : Channel.Channel GOut) err e :
  settle_error ch err = Some e → ∃ m, toGrpcError e = Ret m.
Proof.
  destruct err as [err|]; [|done]. intros [= <-]. unfold handleChSettleError. apply chain_error_sent.
Qed.

(** The closing notification ends the waiting call. *)
Lemma close_notification_ends a sid chID notif i :
  wf_signals a → signal_of a (KUpdates sid chID) = Some i →
  pcun_Type notif = ChUpdateTypeClosed →
  (∀ e, pcun_Error notif = Some e → ∃ m, toGrpcError e = Ret m) →
  value (wait_signal i (final (run_notifier (OutUpdate sid chID notif) a))) = Ret tt.
Proof.
  intros Hwf Hi Hty Herr. destruct notif as [u info ty x err]. cbn in Hty, Herr |- *. subst ty.
  assert (∃ m, (match err with None => Ret None | Some err => e ← toGrpcError err; Ret (Some e) end) = Ret m)
    as [m Hm].
  { destruct err as [e|]; [|by eexists]. destruct (Herr e eq_refl) as [m ->]. by eexists. }
  apply wait_closed. pose proof (close_sub_run (KUpdates sid chID) a Hwf) as Ec. rewrite Hi in Ec.
  cbn [close_sub] in Ec. unfold run_notifier. cbn [pcun_Error pcun_Type].
  unfold mbind at 1, prog_mbind at 1, lift. rewrite Hm. cbn.
  unfold mbind at 1, prog_mbind at 1, emit. cbn. rewrite decide_True, Ec by done. cbn.
  apply list_lookup_insert_eq. eapply lookup_lt_Some, Hwf, Hi.
Qed.

(** C28: The life of a subscription to the updates of an open channel.  Subscribing
    has two steps: the channel is told, then the signal is stored and the call
    waits for it.  Once both have happened, unsubscribing succeeds and ends the
    waiting call.  So does the notification that the channel is closed, whether or
    not settling succeeded, and in general any closing notification whose error
    can be converted to a message.  But a client that unsubscribes between the two
    steps crashes the node. *)
Theorem update_subscription a sid chID s i ch m
    (Hr : reaches a sid chID s i ch) (Hl : ch_locked ch = false) (Ho : ch_status ch = open)
    (Hn : ch_chUpdateNotifier ch = None) (Hwf : wf_signals a)
    (Hm : chUpdatesNotif a !! sid = Some m) (Hno : m !! chID = None) :
  let a1 := final (SubPayChUpdates_call sid chID a) in
  let a2 := final (SubPayChUpdates_store sid chID a1) in
  let sig := length (signals a) in
  value (SubPayChUpdates_call sid chID a) = Ret None ∧
  value (SubPayChUpdates_store sid chID a1) = Ret sig ∧
  value (wait_signal sig a2) = Block ∧
  value (Grpc.UnsubPayChUpdates sid chID a2) = Ret (inl true) ∧
  value (wait_signal sig (final (Grpc.UnsubPayChUpdates sid chID a2))) = Ret tt ∧
  (∀ notif, pcun_Type notif = ChUpdateTypeClosed →
    (∀ e, pcun_Error notif = Some e → ∃ m, toGrpcError e = Ret m) →
    value (wait_signal sig (final (run_notifier (OutUpdate sid chID notif) a2))) = Ret tt) ∧
  (∀ info err,
    let notif := toPayChUpdateNotif (makeChCloseNotif info (settle_error ch err)) in
    value (wait_signal sig (final (run_notifier (OutUpdate sid chID notif) a2))) = Ret tt) ∧
  value (Grpc.UnsubPayChUpdates sid chID a1) = Panic "close of nil channel".
Proof.
  intros a1 a2 sig. destruct (SubPayChUpdates_call_run a sid chID s i ch Hr Hl Ho Hn) as (es & E1).
  set (n := λ notif, OutUpdate sid chID (toPayChUpdateNotif notif)) in E1.
  set (ch1 := set_cache [] (set_notifier (Some n) ch)) in E1.
  assert (Ea1 : a1 = put_channel a sid s i ch1) by (unfold a1; by rewrite E1). clearbody a1.
  pose proof (put_channel_reaches _ _ _ _ _ _ ch1 Hr) as Hr1. rewrite <-Ea1 in Hr1.
  assert (Hwf1 : wf_signals a1) by (rewrite Ea1; apply (wf_signals_shrink a); [done|by intros []|done]).
  assert (Hm1 : chUpdatesNotif a1 !! sid = Some m) by by rewrite Ea1.
  assert (Es : length (signals a1) = sig) by by rewrite Ea1.
  pose proof (SubPayChUpdates_store_run sid chID a1 m Hm1) as E2. rewrite Es in E2.
  assert (Ea2 : a2 = stored_signal (KUpdates sid chID) a1) by (unfold a2; by rewrite E2). clearbody a2.
  destruct (stored_signal_spec sid chID a1 m Hwf1 Hm1) as [Hwf2 Hsig2]. rewrite <-Ea2 in Hwf2, Hsig2. rewrite Es in Hsig2.
  assert (Hr2 : reaches a2 sid chID (set_chs (update i ch1 (s_chs s)) s) i ch1) by (rewrite Ea2; by destruct Hr1; split).
  assert (Hend : ∀ notif, pcun_Type notif = ChUpdateTypeClosed →
    (∀ e, pcun_Error notif = Some e → ∃ m, toGrpcError e = Ret m) →
    value (wait_signal sig (final (run_notifier (OutUpdate sid chID notif) a2))) = Ret tt).
  { intros notif. by apply close_notification_ends. }
  split_and!; [..|exact Hend| |].
  - by rewrite E1.
  - by rewrite E2.
  - by apply wait_open, (proj1 Hwf2 _ _ Hsig2).
  - rewrite (UnsubPayChUpdates_run _ _ _ _ _ _ n Hr2) by done. apply (close_sub_then _ _ sig); [|exact Hsig2].
    by apply (wf_signals_shrink a2); [|intros []|].
  - rewrite (UnsubPayChUpdates_run _ _ _ _ _ _ n Hr2) by done. apply (close_sub_then _ _ sig); [|exact Hsig2].
    by apply (wf_signals_shrink a2); [|intros []|].
  - intros info err. apply Hend; [done|]. intros e. apply settle_error_sent.
  - rewrite (UnsubPayChUpdates_run _ _ _ _ _ _ n Hr1) by done.
    assert (Hw : wf_signals (put_channel a1 sid (set_chs (update i ch1 (s_chs s)) s) i (set_notifier None ch1)))
      by by apply (wf_signals_shrink a1); [|intros []|].
    unfold mbind, prog_mbind. rewrite (close_sub_run _ _ Hw). cbn. by rewrite Hm1; cbn; rewrite Hno.
Qed.

(** ** What the server gets wrong *)

(** A request that leaves out a message the handler reads crashes the node. *)
Lemma missing_message_panics sid a s d
    (Hl : n_locked (g_n a) = false) (Hs : n_sessions (g_n a) !! sid = Some s) :
  value (Grpc.AddPeerID sid None a) = Panic "nil pointer dereference" ∧
  value (Grpc.OpenPayCh sid None d a) = Panic "nil pointer dereference".
Proof.
  unfold Grpc.AddPeerID, Grpc.OpenPayCh. by rewrite !(get_session_run _ _ _ _ s Hl Hs).
Qed.

(** The subscriptions of a closed session cannot be ended any more: the request
    is refused and the waiting call stays. *)
Lemma closed_session_keeps_subscriptions sid a s i
    (Hl : n_locked (g_n a) = false) (Hs : n_sessions (g_n a) !! sid = Some s)
    (Hsl : s_locked s = false) (Hc : s_isOpen s = false) (Hwf : wf_signals a)
    (Hi : signal_of a (KProposals sid) = Some i) :
  ∃ m, value (Grpc.UnsubPayChProposals sid a) = Ret (inr m) ∧ pb_Code m = 204 ∧
    value (wait_signal i (final (Grpc.UnsubPayChProposals sid a))) = Block.
Proof.
  assert (Payment.UnsubPayChProposals s = ([], s, Ret (Some ErrClosedSession))) as E.
  { unfold Payment.UnsubPayChProposals, UnsubChProposals. rewrite with_slock_run by done.
    destruct s; cbn in *; by subst. }
  unfold Grpc.UnsubPayChProposals. rewrite (get_session_run _ _ _ _ s Hl Hs).
  unfold mbind, prog_mbind. rewrite (call_s_run _ _ _ s Hs), E. cbn.
  eexists. split; [done|]. split; [done|]. apply wait_open. cbn. by eapply Hwf.
Qed.
End grpc_properties.
