(* ===== verification/NodeCmdProps.v ===== *)
(** * Properties of the node command *)
From S2P Require Import Prelude Perun Errors SessionErrors Currency IDProvider Contracts Sdk Timeout.
From S2P Require Import Os Log TestConfig TestConfigProps SetupContracts Generate GenerateProps.
From S2P Require Import ChRegistry Client User Channel ChannelProps SessionHelpers Session SessionProps SessionLife.
From S2P Require Import Node Payment Grpc GrpcProps NodeCmd.
Local Open Scope Z_scope.

(** ** Running the node *)
Section run_props.
Context {GT : GoTypes} {GP : GoPerun} {EL : EthLib} {DL : DecimalLib} {LL : LogLib} {LB : CmdLib} {GTL : GoTypesLaws}.

(** Where the configuration comes from. *)
Definition config_source (fs : flagset) (v : viper) (path : string) : viper + goerror :=
  if bool_decide (Forall (λ f, fs_Changed fs f = true) nodeCfgFlags) then inl v
  else match v_ReadInConfig (v_SetConfigType "yaml" (v_SetConfigFile (Clean path) v)) with
       | (v, None) => inl v
       | (_, Some err) => inr err
       end.

Definition config_of (fs : flagset) (v : viper) (path : string) : NodeConfig + goerror :=
  match config_source fs v path with
  | inl v => match v_Unmarshal v with inl c => inl (with_supported c) | inr err => inr err end
  | inr err => inr err
  end.

Definition is_print (e : REvent) : Prop := match e with RPrint _ => True | _ => False end.

Lemma parseNodeConfig_run fs v path s :
  fs_GetString fs configfileF = inl path →
  match config_of fs v path with
  | inl cfg => ∃ es, parseNodeConfig fs v s = (es, s, Ret cfg) ∧ Forall is_print es
  | inr _ => ∃ es, parseNodeConfig fs v s = (es ++ [RExit 1], s, Block) ∧ Forall is_print es
  end.
Proof.
  intros Hp. unfold parseNodeConfig, config_of, config_source, unmarshal_config. rewrite Hp.
  destruct (areAllFlagsSpecified fs nodeCfgFlags) eqn:Ha.
  - rewrite bool_decide_eq_true_2 by by apply areAllFlagsSpecified_true. cbn.
    destruct (v_Unmarshal v) as [c|err].
    + exists []. by split.
    + eexists [_]. split; [reflexivity|]. by repeat constructor.
  - rewrite bool_decide_eq_false_2 by (rewrite <-areAllFlagsSpecified_true; by rewrite Ha). cbn.
    destruct (v_ReadInConfig _) as [v' [err|]].
    + eexists [_]. split; [reflexivity|]. by repeat constructor.
    + destruct (v_Unmarshal v') as [c|err].
      * eexists [_]. split; [reflexivity|]. by repeat constructor.
      * eexists [_; _]. split; [reflexivity|]. by repeat constructor.
Qed.

Definition serves (es : list REvent) : list (payChAPIServer * string) :=
  omap (λ e, match e with RServe a addr => Some (a, addr) | _ => None end) es.

Lemma serves_prints es es' : Forall is_print es → serves (es ++ es') = serves es'.
Proof. intros H. unfold serves. rewrite omap_app. by induction H as [|[] es ? ? IH]. Qed.

(** What is needed to serve the configuration. *)
Definition can_serve (cfg : NodeConfig) (addr : string) : Prop :=
  is_inl (New cfg None : node GOut + goerror) ∧
  is_inl (logrus_ParseLevel (nc_LogLevel cfg)) ∧
  (nc_LogFile cfg = "" ∨ os_OpenFile (Clean (nc_LogFile cfg)) = None) ∧
  net_Listen addr = None.

Lemma New_logErr cfg err : is_inr (New cfg (Some err) : node GOut + goerror).
Proof.
  unfold New. repeat case_match; by eexists.
Qed.

Lemma start_node_run cfg s :
  ∃ s' r, start_node cfg s = ([], s', Ret r) ∧
    match r with
    | inl n => New cfg None = inl n ∧ is_inl (logrus_ParseLevel (nc_LogLevel cfg)) ∧
        (nc_LogFile cfg = "" ∨ os_OpenFile (Clean (nc_LogFile cfg)) = None)
    | inr _ => ∀ addr, ¬ can_serve cfg addr
    end.
Proof.
  unfold start_node. destruct (New cfg None) as [n|e] eqn:Hn.
  2:{ eexists _, _. split; [done|]. intros addr [[n Hn'] _]. congruence. }
  unfold InitLogger, zoom, mbind, prog_mbind. cbn.
  destruct (logrus_ParseLevel (nc_LogLevel cfg)) as [level|e] eqn:Hl; cbn.
  2:{ destruct (New_logErr cfg e) as [e' He]. eexists _, _. rewrite He. split; [done|].
      intros addr (_ & [? ?] & _). congruence. }
  destruct (decide (nc_LogFile cfg = "")) as [Hf|Hf]; cbn.
  { eexists _, _. rewrite Hn. split; [done|]. split_and!; [done|by eexists|by left]. }
  destruct (os_OpenFile (Clean (nc_LogFile cfg))) as [e|] eqn:Ho; cbn.
  - destruct (New_logErr cfg e) as [e' He]. eexists _, _. rewrite He. split; [done|].
    intros addr (_ & _ & [?|?] & _); congruence.
  - eexists _, _. rewrite Hn. split; [done|]. split_and!; [done|by eexists|by right].
Qed.

Lemma wf_signals_empty (n : node GOut) : wf_signals (mkServer n ∅ ∅ []).
Proof. split; by intros [|] *; cbn; rewrite lookup_empty. Qed.

(** C26: Running the node.  When all eight configuration flags are given the
    configuration is the one of the flags, whatever the configuration file; otherwise
    the file is read, too.  A configuration that cannot be read ends the process with
    code 1 before a node is started.  With a configuration the node serves the payment
    API exactly when the node starts, the logger can be initialised and the port is
    free -- once, on the port asked for, with the adapters the node supports, a
    well-formed node without sessions and no subscriptions.  In all other cases the
    command ends normally. *)
Theorem run_spec fs v path port s
    (Hpath : fs_GetString fs configfileF = inl path) (Hport : fs_GetUint64 fs grpcPortF = inl port) :
  let '(es, _, o) := run fs v s in
  let addr := ":" +:+ pretty port in
  (Forall (λ f, fs_Changed fs f = true) nodeCfgFlags → config_source fs v path = inl v) ∧
  match config_of fs v path with
  | inr _ => o = Block ∧ last es = Some (RExit 1) ∧ serves es = []
  | inl cfg =>
      o = Ret tt ∧ Forall (λ e, e ≠ RExit 1) es ∧
      nc_CommTypes cfg = ["tcp"] ∧ nc_IDProviderTypes cfg = ["local"] ∧ nc_CurrencyInterpreters cfg = ["ETH"] ∧
      (¬ can_serve cfg addr → serves es = []) ∧
      (can_serve cfg addr → ∃ a, serves es = [(a, addr)] ∧ started cfg (g_n a) ∧
         wf_signals a ∧ chProposalsNotif a = ∅ ∧ chUpdatesNotif a = ∅)
  end.
Proof.
  assert (Forall (λ f, fs_Changed fs f = true) nodeCfgFlags → config_source fs v path = inl v) as Hall.
  { intros H. unfold config_source. by rewrite bool_decide_eq_true_2. }
  pose proof (parseNodeConfig_run fs v path s Hpath) as Hparse. unfold run. rewrite Hport.
  destruct (config_of fs v path) as [cfg|err] eqn:Hcfg; destruct Hparse as (es & Hrun & Hes).
  - destruct (start_node_run cfg s) as (s' & r & Hstart & Hr).
    unfold mbind, prog_mbind. rewrite Hrun, Hstart.
    assert (Hsup : ∃ c, cfg = with_supported c).
    { unfold config_of in Hcfg. destruct (config_source fs v path) as [v'|]; [|done].
      destruct (v_Unmarshal v') as [c|]; [|done]. injection Hcfg as <-. by eexists. }
    assert (Forall (λ e, e ≠ RExit 1) es) as Hes' by (eapply Forall_impl; [exact Hes|]; by intros []).
    destruct Hsup as [c0 Hc0]. destruct r as [n|e].
    + destruct Hr as (Hn & Hl & Hf). unfold ListenAndServePayChAPI, mbind, prog_mbind. cbn.
      destruct (net_Listen _) as [e|] eqn:Hnet; [|destruct (grpc_Serve _) as [e|]]; cbn;
        rewrite serves_prints by done; cbn; subst cfg; split_and!; try done;
        try (apply Forall_app; split; [done|repeat constructor; done]).
      * intros (_ & _ & _ & ?). congruence.
      * intros H. destruct H. split_and!; [by eexists|done..].
      * intros _. exists (mkServer n ∅ ∅ []). split_and!; [done| |apply wf_signals_empty|done..].
        by eapply New_started.
      * intros H. destruct H. split_and!; [by eexists|done..].
      * intros _. exists (mkServer n ∅ ∅ []). split_and!; [done| |apply wf_signals_empty|done..].
        by eapply New_started.
    + cbn. rewrite serves_prints by done. subst cfg. split_and!; try done.
      * apply Forall_app. split; [done|]. by repeat constructor.
      * intros H. by destruct (Hr _ H).
  - unfold mbind, prog_mbind. rewrite Hrun. split_and!; [done|done|by rewrite last_snoc|by rewrite serves_prints].
Qed.
End run_props.

(** ** Generating the artefacts *)
Section generate_cmd_props.
Context {GT : GoTypes} {EL : EthLib} {EN : Env} {TL : TestLib} {LB : CmdLib} {ENL : EnvLaws}.
Implicit Types (w : world Yaml).

Definition node_present w : Prop := is_Some (w_files w !! "node.yaml").
Definition session_present w : Prop := is_Some (w_files w !! "alice") ∨ is_Some (w_files w !! "bob").

Definition both_users w : Prop := ∃ A B,
  user_artefacts (w_files w) "alice" A [peerID (cfg_User B)] ∧
  user_artefacts (w_files w) "bob" B [peerID (cfg_User A)].

Lemma wpe_report P what ok m w Q :
  wpe P m w (λ es w' err, ∀ s, Q (es ++ [Printf s]) w' err) → wpe P (report what ok m) w Q.
Proof.
  intros H. apply wpe_bind. eapply wpe_mono; [exact H|]. intros es w' err HQ. wpe_steps. apply HQ.
Qed.

(** The step for the node, when it is asked for. *)
Lemma wpe_node_step (b : bool) w (Q : list OEvent → world Yaml → option goerror → Prop) :
  (∀ es w' err, Exit 1 ∉ es → w_files w ⊆ w_files w' →
     (rooted (w_files w) → rooted (w_files w')) → (session_present w' ↔ session_present w) →
     (b = false → err = None) →
     (b → ok_env → ¬ node_present w →
        w_files w' !! "node.yaml" = Some (File (Some (YNodeConfig (demo_node_config true))))) →
     (b → ok_env → is_Some err ↔ node_present w) → Q es w' err) →
  wpe (¬ ok_env) (if b then report "node" ("Generated node configuration file: " +:+ nodeConfigFile)
    generateNodeConfig else mret None) w Q.
Proof.
  intros HQ. destruct b; [|wpe_steps; apply HQ; try done; by intros ?%elem_of_nil].
  apply wpe_report. eapply wpe_mono; [apply wpe_generateNodeConfig|].
  intros es w' err (-> & Hs & Honly & Hp & Hok & Hres) s. apply HQ; try done.
  - by intros ?%list_elem_of_singleton.
  - intros Hroot q d Hq Hd Hrel. destruct (decide (q = "node.yaml")) as [->|Hne]; [by vm_compute in Hd|].
    rewrite Honly in Hq by done. destruct (Hroot q d Hq Hd Hrel) as [x Hx]. exists x. by eapply lookup_weaken.
  - unfold session_present. by rewrite !Honly.
  - intros _ Hoke Hn. apply Hres. by apply Hok.
  - intros _ Hoke. split; [|intros H; by apply Hp].
    intros [e ->]. destruct (decide (node_present w)) as [|Hn]; [done|]. by specialize (Hok Hoke Hn).
Qed.

(** The generate command.  Nothing that exists is ever changed.  Without a failing
    system call the command writes what is asked for and not there yet: [node.yaml]
    with the addresses of the contracts, and the directories of alice and bob, whose
    configurations refer to the files next to them and to each other as only
    contacts.  The exit code is that of the last step only: when both are asked for,
    refusing to overwrite [node.yaml] is printed, but not in the exit code. *)
Theorem generate_spec fs w onlyNode onlySession
    (Hn : fs_GetBool fs onlyNodeF = inl onlyNode) (Hs : fs_GetBool fs onlySessionF = inl onlySession)
    (Hroot : rooted (w_files w)) :
  let both := areAllFlagsUnspecified fs [onlyNodeF; onlySessionF] in
  wpe (¬ ok_env) (generate fs) w (λ es w' _,
    w_files w ⊆ w_files w' ∧
    (ok_env →
      (onlyNode || both → ¬ node_present w →
         w_files w' !! "node.yaml" = Some (File (Some (YNodeConfig (demo_node_config true))))) ∧
      (onlySession || both → ¬ session_present w → both_users w') ∧
      (Exit 1 ∈ es ↔ if onlySession || both then session_present w else onlyNode ∧ node_present w))).
Proof.
  intros both. unfold generate. rewrite Hn, Hs. fold both.
  apply wpe_bind, wpe_node_step. intros es w1 err Hex1 Hs1 Hroot1 Hsp Herr0 Hnode Herr. apply wpe_bind.
  destruct (onlySession || both) eqn:Hgen.
  - apply wpe_report. eapply wpe_mono; [by apply wpe_generateSessionConfig, Hroot1|].
    intros es2 w2 err2 (-> & Hs2 & Hp & Hok & Hres) s. fold (session_present w1) in *.
    rewrite Hsp in Hp, Hok. destruct err2 as [e|]; wpe_steps; (split; [by etrans|]); intros Hoke;
      (split; [intros ??; eapply lookup_weaken; [by apply Hnode|done]|split]).
    + intros _ Hnp. by specialize (Hok Hoke Hnp).
    + split; [intros _|intros _; rewrite elem_of_app; right; by right; left].
      destruct (decide (session_present w)) as [|Hnp]; [done|]. by specialize (Hok Hoke Hnp).
    + intros _ _. by apply Hres.
    + split; [|intros [[? [=]] _]%Hp]. clear -Hex1. intros H. exfalso. set_solver.
  - wpe_steps. destruct err as [e|]; wpe_steps; (split; [done|]); intros Hoke.
    + split_and!; [by intros ??; apply Hnode|done|]. split; [intros _|intros _; set_solver].
      destruct onlyNode; [by split; [|apply Herr]|]. destruct both; [by destruct onlySession|]. by discriminate Herr0.
    + split_and!; [by intros ??; apply Hnode|done|]. rewrite app_nil_r. split; [done|].
      intros [Hb Hp]. destruct onlyNode; [|done]. apply Herr in Hp as [? ?]; done.
Qed.

End generate_cmd_props.

(** ** The node of the demo *)
Section demo.
Context {GT : GoTypes} {GP : GoPerun} {EL : EthLib} {DL : DecimalLib} {EN : Env} {TL : TestLib}.
Context {GTL : GoTypesLaws} {ENL : EnvLaws} {CL : ChainLib} {CLW : ChainLaws} {Out : Type}.

Lemma New_demo c client :
  deployed c → lib_DialContext ChainConnTimeout ChainURL = inl client → lib_NewContractBackend client None = c →
  (∀ n, 0 ≤ n ≤ 3 → ParseAddr (addr_String (contract n)) = inl (contract n)) →
  ∃ n : node Out, New (demo_node_config true) None = inl n ∧
    registry_of true c (n_contractRegistry n) ∧ IsRegistered (n_currencyRegistry n) "PRN" = true.
Proof.
  intros Hdeployed Hdial Hchain Haddr. destruct (NewContractRegistry_deployed c Hdeployed) as (r & Hr & Hro).
  destruct (RegisterAssetERC20_deployed c r Hdeployed Hr) as (r' & [sym d] & Hreg & Hro').
  assert (initContractRegistry c (addr_String (contract 0)) (addr_String (contract 1)) = inl r) as Hi.
  { unfold initContractRegistry. change (wb_ParseAddr NewWalletBackend) with ParseAddr.
    by rewrite !Haddr, Hr by lia. }
  destruct (initContractRegistry_in_step _ _ _ _ Hi) as (cs & x & Hcs & Hin & _).
  destruct (RegisterAssetERC20_in_step _ _ _ _ _ _ _ Hin Hreg) as (cs' & y & Hcs' & Hin' & _).
  exists (mkNode (demo_node_config true) ∅ r' cs' false). unfold New, NewROChainBackend. cbn.
  rewrite Hdial. cbn. rewrite Hchain, Hi, Hcs. change (wb_ParseAddr NewWalletBackend) with ParseAddr.
  rewrite !Haddr, Hreg, Hcs' by lia. split_and!; [done..|].
  apply (wfr_symbols _ _ (is_wf _ _ Hin')). rewrite (ro_prn _ _ _ Hro'). by eexists.
Qed.

(** C25: The demo works.  The command that generates the configuration of the node
    writes one that fits the contracts [SetupContracts] deploys: connected to a chain
    with them, a node starts with the configuration in the file, and its registry
    names exactly these contracts, the token included. *)
Theorem demo_node_starts w c client (Hok : ok_env) (Habsent : w_files w !! "node.yaml" = None)
    (Hdeployed : deployed c) (Hdial : lib_DialContext ChainConnTimeout ChainURL = inl client)
    (Hchain : lib_NewContractBackend client None = c)
    (Haddr : ∀ n, 0 ≤ n ≤ 3 → ParseAddr (addr_String (contract n)) = inl (contract n)) :
  wp generateNodeConfig w (λ _ w' err, err = None ∧ ∃ cfg (n : node Out),
    w_files w' !! "node.yaml" = Some (File (Some (YNodeConfig cfg))) ∧ New cfg None = inl n ∧
    registry_of true c (n_contractRegistry n) ∧ IsRegistered (n_currencyRegistry n) "PRN" = true).
Proof.
  apply (wpe_wp (¬ ok_env)); [|by intros H]. eapply wpe_mono; [apply wpe_generateNodeConfig|].
  intros es w' err (_ & _ & _ & _ & Hsucc & Hfile).
  assert (err = None) as -> by (apply Hsucc; [done|intros [x Hx]; congruence]). split; [done|].
  destruct (New_demo c client) as (n & Hn); [done..|]. exists (demo_node_config true), n. split; [by apply Hfile|exact Hn].
Qed.
End demo.
