(* ===== verification/PbClient.v ===== *)
(** * The node as its clients see it (api/grpc/pb)

    The client stub of the API is generated code: a method call sends a request
    and yields the response or an error of the transport.  [PbRequest] are the
    requests the clients of this repository send, [NodeServer] is what the node
    answers to each of them at the time it is sent; a response is a success
    message or an error message. *)
From S2P Require Import Prelude Perun Errors SessionErrors Currency Contracts Sdk Client Grpc.

Inductive PbRequest :=
| OpenSessionReq (configFile : string)
| OpenPayChReq (sessionID : string) (openingBalInfo : pb_BalInfo) (challengeDurSecs : Z)
| SubPayChProposalsReq (sessionID : string)
| UnsubPayChProposalsReq (sessionID : string)
| RespondPayChProposalReq (sessionID proposalID : string) (accept : bool)
| GetPayChInfoReq (sessionID chID : string)
| SendPayChUpdateReq (sessionID chID : string) (payments : list pb_Payment)
| SubPayChUpdatesReq (sessionID chID : string)
| UnsubPayChUpdatesReq (sessionID chID : string)
| RespondPayChUpdateReq (sessionID chID updateID : string) (accept : bool)
| ClosePayChReq (sessionID chID : string)
| CloseSessionReq (sessionID : string) (force : bool)
| AddPeerIDReq (sessionID : string) (peerID : pb_PeerID)
| GetPeerIDReq (sessionID alias : string)
| GetConfigReq
| TimeReq.

Section pbclient.
Context {GT : GoTypes}.

(** What a call yields: the response, or the error of sending. *)
Definition rpc (A : Type) : Type := ((A + pb_MsgError) + goerror)%type.

Record NodeServer := mkNodeServer {
  srv_OpenSession : string → rpc (string * list pb_PayChInfo);
  srv_OpenPayCh : string → pb_BalInfo → Z → rpc pb_PayChInfo;
  srv_SubPayChProposals : string → option goerror;
  srv_UnsubPayChProposals : string → rpc bool;
  srv_RespondPayChProposal : string → string → bool → rpc pb_PayChInfo;
  srv_GetPayChInfo : string → string → rpc pb_PayChInfo;
  srv_SendPayChUpdate : string → string → list pb_Payment → rpc pb_PayChInfo;
  srv_SubPayChUpdates : string → string → option goerror;
  srv_UnsubPayChUpdates : string → string → rpc bool;
  srv_RespondPayChUpdate : string → string → string → bool → rpc pb_PayChInfo;
  srv_ClosePayCh : string → string → rpc pb_PayChInfo;
  srv_CloseSession : string → bool → rpc (list pb_PayChInfo);
  srv_AddPeerID : string → pb_PeerID → rpc bool;
  srv_GetPeerID : string → string → rpc pb_PeerID;
  srv_GetConfig : (string * string * string * list string * list string) + goerror;
  srv_Time : Z + goerror;
}.

(** [printAPIError] of the dashboard: the message of an API error. *)
Definition printAPIError (e : pb_MsgError) : string := pb_Message e.
End pbclient.
