(* ===== verification/TuiText.v ===== *)
(** * Text of the dashboard (cmd/perunnodetui/channels.go, commands.go)

    The string functions of Go's standard library the dashboard uses
    ([strings.Contains], [TrimRight], [Split], [strconv.Atoi], [Itoa], the padding
    of [fmt] and the layout 15:04:05 of [time]), and the dashboard's own functions
    on texts: trimming the zeros of an amount and cutting it to the width of a
    column. *)
From Stdlib Require Import QArith Lqa Decimal DecimalString DecimalZ.
From Stdlib Require Import Strings.Ascii.
From S2P Require Import Prelude Perun.
Local Open Scope Z_scope.

(** ** strings *)
Fixpoint contains_char (c : ascii) (s : string) : bool :=
  match s with
  | EmptyString => false
  | String x s' => Ascii.eqb x c || contains_char c s'
  end.

(** [strings.TrimRight(s, c)] for a cutset of one character. *)
Fixpoint TrimRight (c : ascii) (s : string) : string :=
  match s with
  | EmptyString => ""
  | String x s' =>
      match TrimRight c s' with
      | EmptyString => if Ascii.eqb x c then "" else String x ""
      | r => String x r
      end
  end.

(** [strings.Split(s, c)] for a separator of one character. *)
Fixpoint Split (c : ascii) (s : string) : list string :=
  match s with
  | EmptyString => [""]
  | String x s' =>
      if Ascii.eqb x c then "" :: Split c s'
      else match Split c s' with
           | [] => [String x ""]
           | w :: ws => String x w :: ws
           end
  end.

Definition space : ascii := " ".

(** ** strconv *)
Definition Itoa (z : Z) : string := NilZero.string_of_int (Z.to_int z).

Definition Atoi `{GoTypes} (s : string) : Z + goerror :=
  let '(neg, digits) :=
    match s with
    | String "-" r => (true, r)
    | String "+" r => (false, r)
    | _ => (false, s)
    end in
  match NilZero.uint_of_string digits with
  | None => inr (ErrText "strconv.Atoi: invalid syntax")
  | Some u =>
      let z := (if neg then -1 else 1) * Z.of_uint u in
      if bool_decide (- two63 ≤ z ∧ z < two63) then inl z
      else inr (ErrText "strconv.Atoi: value out of range")
  end.

(** ** fmt

    [%-ns] pads to [n] runes: bytes that do not continue a UTF-8 sequence. *)
Definition is_rune_start (c : ascii) : bool :=
  negb (bool_decide (128 ≤ nat_of_ascii c ∧ nat_of_ascii c < 192)%nat).
Fixpoint rune_count (s : string) : nat :=
  match s with
  | EmptyString => 0
  | String c s' => (if is_rune_start c then 1 else 0) + rune_count s'
  end.
Fixpoint spaces (n : nat) : string :=
  match n with O => "" | S n => String " " (spaces n) end.
Definition pad (n : nat) (s : string) : string := s +:+ spaces (n - rune_count s).

(** ** time

    [time.Unix(unix, 0).Format] of the layout 15:04:05, in the local zone, whose
    offset in seconds at an instant is [zone]. *)
Definition two_digits (z : Z) : string :=
  String (ascii_of_nat (48 + Z.to_nat (z / 10))) (String (ascii_of_nat (48 + Z.to_nat (z mod 10))) "").
Definition clock (zone : Z → Z) (unix : Z) : string :=
  let s := (unix + zone unix) mod 86400 in
  two_digits (s / 3600) +:+ ":" +:+ two_digits (s / 60 mod 60) +:+ ":" +:+ two_digits (s mod 60).

(** ** The dashboard's functions *)
Definition trimZeros (s : string) : string :=
  if contains_char "." s then TrimRight "." (TrimRight "0" s) else s.

Definition amountMaxLength : nat := 10.
Definition truncateAtAmountMaxLen (str : string) : string :=
  if bool_decide (amountMaxLength < String.length str)%nat
  then String.substring 0 amountMaxLength str else str.

(** ** What [Atoi] reads *)
Lemma Atoi_Itoa `{GoTypes} z : is_int64 z → Atoi (Itoa z) = inl z.
Proof.
  unfold is_int64, Itoa, Atoi. intros Hz. pose proof (DecimalZ.of_to z) as Hof.
  assert (Hd : ∀ u, ∃ c r, NilZero.string_of_uint u = String c r ∧ c ≠ "-"%char ∧ c ≠ "+"%char)
    by (intros []; cbn; by eexists _, _).
  destruct (Z.to_int z) as [u|u] eqn:E.
  - cbn. destruct (Hd u) as (c & r & Eu & Hm & Hp). rewrite Eu.
    replace (match c with "-"%char => _ | "+"%char => _ | _ => _ end) with (false, String c r)
      by (destruct c as [[] [] [] [] [] [] [] []]; done).
    rewrite <-Eu, NilZero.usu.
    + cbn [Z.of_int] in Hof. rewrite Hof. rewrite bool_decide_true by lia. f_equal. lia.
    + intros ->. destruct z; cbn in E; try discriminate; injection E as E;
        by apply (DecimalPos.Unsigned.to_uint_nonnil p).
  - cbn. rewrite NilZero.usu.
    + cbn [Z.of_int] in Hof. replace (-1 * Z.of_uint u) with z by lia.
      by rewrite bool_decide_true by lia.
    + intros ->. destruct z; cbn in E; try discriminate; injection E as E;
        by apply (DecimalPos.Unsigned.to_uint_nonnil p).
Qed.

(** ** What [trimZeros] shows

    An amount is an integer part, and possibly a dot and a fractional part, of
    decimal digits.  [frac f] is the value of the fractional part [f]. *)
Definition digit (c : ascii) : bool := bool_decide (48 ≤ nat_of_ascii c ∧ nat_of_ascii c ≤ 57)%nat.
Fixpoint digits (s : string) : bool :=
  match s with EmptyString => true | String c s' => digit c && digits s' end.
Definition digit_val (c : ascii) : Z := Z.of_nat (nat_of_ascii c) - 48.
Fixpoint frac (f : string) : Q :=
  match f with EmptyString => 0 | String c f' => (inject_Z (digit_val c) + frac f') / 10 end.

(** The integer part [i], and what remains of the fractional part [f] without the
    zeros at its end. *)
Definition decimal_text (i f : string) : string :=
  match TrimRight "0" f with EmptyString => i | f' => i +:+ "." +:+ f' end.

Lemma TrimRight_app c a b :
  TrimRight c (a +:+ b) =
  match TrimRight c b with EmptyString => TrimRight c a | b' => a +:+ b' end.
Proof.
  induction a as [|x a IH].
  - change ("" +:+ b) with b. by destruct (TrimRight c b).
  - change (String x a +:+ b) with (String x (a +:+ b)). cbn [TrimRight]. rewrite IH.
    destruct (TrimRight c b); [done|]. by destruct a.
Qed.

Lemma contains_char_app c a b : contains_char c (a +:+ b) = contains_char c a || contains_char c b.
Proof.
  induction a as [|x a IH]; [done|]. change (String x a +:+ b) with (String x (a +:+ b)). cbn.
  rewrite IH. by destruct (Ascii.eqb x c).
Qed.

Lemma digits_no_dot s : digits s = true → contains_char "." s = false.
Proof.
  induction s as [|c s IH]; [done|]. cbn. intros [Hc Hs]%andb_prop. rewrite IH by done.
  apply bool_decide_eq_true in Hc. destruct (Ascii.eqb_spec c "."); [|done].
  subst. destruct Hc as [Hc _]. vm_compute in Hc. lia.
Qed.

Lemma TrimRight_dot s : contains_char "." s = false → TrimRight "." s = s.
Proof.
  induction s as [|c s IH]; [done|]. cbn. intros [Hc Hs]%orb_false_elim. rewrite IH by done.
  rewrite Hc. by destruct s.
Qed.

Lemma TrimRight_idem c s : TrimRight c (TrimRight c s) = TrimRight c s.
Proof.
  induction s as [|x s IH]; [done|]. cbn. destruct (TrimRight c s) as [|y r].
  - destruct (Ascii.eqb x c) eqn:E; [done|]. cbn. by rewrite E.
  - cbn [TrimRight] in *. by rewrite IH.
Qed.

Lemma digits_TrimRight c s : digits s = true → digits (TrimRight c s) = true.
Proof.
  induction s as [|x s IH]; [done|]. cbn. intros [Hx Hs]%andb_prop. specialize (IH Hs).
  destruct (TrimRight c s).
  - destruct (Ascii.eqb x c); [done|]. cbn. by rewrite Hx.
  - cbn in *. by rewrite Hx.
Qed.

(** Trimming keeps the value, and a value has one trimmed text. *)
Lemma frac_TrimRight f : (frac (TrimRight "0" f) == frac f)%Q.
Proof.
  induction f as [|c f IH]; [done|]. cbn [TrimRight frac]. rewrite <-IH.
  destruct (TrimRight "0" f) as [|y r].
  - destruct (Ascii.eqb_spec c "0"); [subst; reflexivity|]. cbn. reflexivity.
  - cbn [frac]. reflexivity.
Qed.

Lemma digit_val_range c : digit c = true → 0 ≤ digit_val c ≤ 9.
Proof. intros H%bool_decide_eq_true. unfold digit_val. lia. Qed.

Lemma frac_range f : digits f = true → (0 <= frac f < 1)%Q.
Proof.
  induction f as [|c f IH]; [cbn; lra|]. cbn. intros [Hc Hf]%andb_prop. specialize (IH Hf).
  apply digit_val_range in Hc as [H1 H2]. rewrite Zle_Qle in H1, H2.
  change (inject_Z 0) with 0%Q in *. change (inject_Z 9) with 9%Q in *.
  unfold Qdiv. change (/ 10)%Q with (1 # 10)%Q. lra.
Qed.

Lemma digit_val_inj c d : digit c = true → digit d = true → digit_val c = digit_val d → c = d.
Proof.
  unfold digit_val. intros _ _ H. rewrite <-(ascii_nat_embedding c), <-(ascii_nat_embedding d).
  f_equal. lia.
Qed.

Lemma frac_head c d f g :
  digits f = true → digits g = true →
  (frac (String c f) == frac (String d g))%Q → digit_val c = digit_val d ∧ (frac f == frac g)%Q.
Proof.
  intros Hf Hg. cbn. apply frac_range in Hf, Hg. unfold Qdiv. change (/ 10)%Q with (1 # 10)%Q.
  intros E. assert (H : (inject_Z (digit_val c) + frac f == inject_Z (digit_val d) + frac g)%Q) by lra.
  assert (Hz : digit_val c = digit_val d).
  { assert (H1 : (inject_Z (digit_val c) < inject_Z (digit_val d + 1))%Q)
      by (rewrite inject_Z_plus; change (inject_Z 1) with 1%Q; lra).
    assert (H2 : (inject_Z (digit_val d) < inject_Z (digit_val c + 1))%Q)
      by (rewrite inject_Z_plus; change (inject_Z 1) with 1%Q; lra).
    rewrite <-Zlt_Qlt in H1, H2. lia. }
  split; [done|]. rewrite Hz in H. lra.
Qed.

Lemma frac_zero f : digits f = true → (frac f == 0)%Q → TrimRight "0" f = "".
Proof.
  induction f as [|c f IH]; [done|]. intros Hd E. pose proof Hd as [Hc Hf]%andb_prop.
  destruct (frac_head c "0" f "" Hf eq_refl) as [Hv Hz]; [by rewrite E|].
  cbn. rewrite IH by done. apply (digit_val_inj c "0") in Hv as ->; done.
Qed.

Lemma frac_TrimRight_inj f g :
  digits f = true → digits g = true → (frac f == frac g)%Q → TrimRight "0" f = TrimRight "0" g.
Proof.
  revert g. induction f as [|c f IH]; intros [|d g] Hf Hg E; [done|..].
  - symmetry. apply frac_zero; [done|]. by rewrite <-E.
  - by apply frac_zero.
  - pose proof Hf as [Hc Hf']%andb_prop. pose proof Hg as [Hd Hg']%andb_prop.
    apply frac_head in E as [Hv E]; [|done..]. apply digit_val_inj in Hv as ->; [|done..].
    cbn. by rewrite (IH g).
Qed.

Lemma decimal_text_inj i f g :
  decimal_text i f = decimal_text i g → TrimRight "0" f = TrimRight "0" g.
Proof.
  unfold decimal_text.
  assert (Hne : ∀ s, i ≠ i +:+ "." +:+ s).
  { intros s. induction i as [|c i IH]; [done|]. by intros [= E]. }
  destruct (TrimRight "0" f), (TrimRight "0" g); intros E; [done|by destruct (Hne _ E)|by destruct (Hne _ (eq_sym E))|].
  by apply (inj (String.append i)) in E as [= -> ->].
Qed.

Lemma trimZeros_digits i : digits i = true → trimZeros i = i.
Proof. intros H. unfold trimZeros. by rewrite digits_no_dot. Qed.

Lemma trimZeros_dot i f :
  digits i = true → digits f = true → trimZeros (i +:+ "." +:+ f) = decimal_text i f.
Proof.
  intros Hi Hf. unfold trimZeros. rewrite contains_char_app.
  replace (contains_char "." ("." +:+ f)) with true by done. rewrite orb_true_r.
  rewrite !TrimRight_app. unfold decimal_text.
  pose proof (digits_TrimRight "0" f Hf) as Hd. destruct (TrimRight "0" f) as [|y r] eqn:E.
  - replace (TrimRight "0" ".") with "." by done. rewrite TrimRight_app.
    replace (TrimRight "." ".") with "" by done. by apply TrimRight_dot, digits_no_dot.
  - change ("." +:+ String y r) with (String "." (String y r)). cbv iota beta.
    change (String "." (String y r)) with ("." +:+ String y r).
    rewrite !TrimRight_app, (TrimRight_dot (String y r)) by by apply digits_no_dot. done.
Qed.

Lemma TrimRight_length c s : (String.length (TrimRight c s) ≤ String.length s)%nat.
Proof. induction s as [|x s IH]; cbn; [lia|]. destruct (TrimRight c s), (Ascii.eqb x c); cbn in *; lia. Qed.

Lemma length_append s s' : String.length (s +:+ s') = (String.length s + String.length s')%nat.
Proof.
  induction s as [|x s IH]; [done|]. change (String x s +:+ s') with (String x (s +:+ s')). cbn.
  by rewrite IH.
Qed.

Lemma decimal_text_length i f : (String.length (decimal_text i f) ≤ String.length (i +:+ "." +:+ f))%nat.
Proof.
  pose proof (TrimRight_length "0" f) as H. unfold decimal_text.
  destruct (TrimRight "0" f); rewrite !length_append in *; cbn in *; lia.
Qed.

(** C37: How an amount is shown.  The integer part is shown as it is, its leading zeros
    included (a comment says that these are trimmed); of a fractional part the zeros
    at the end are left out, with the dot when nothing remains.  The value shown is
    the value received; among the texts with this integer part and this value the
    one shown is the shortest; trimming again changes nothing; and two amounts with
    the same integer part are shown alike exactly when their values are equal. *)
Theorem trimZeros_spec i f g :
  digits i = true → digits f = true → digits g = true →
  trimZeros i = i ∧
  trimZeros (i +:+ "." +:+ f) = decimal_text i f ∧
  (frac (TrimRight "0" f) == frac f)%Q ∧
  trimZeros (decimal_text i f) = decimal_text i f ∧
  ((frac f == frac g)%Q →
   (String.length (trimZeros (i +:+ "." +:+ f)) ≤ String.length (i +:+ "." +:+ g))%nat) ∧
  (trimZeros (i +:+ "." +:+ f) = trimZeros (i +:+ "." +:+ g) ↔ (frac f == frac g)%Q).
Proof.
  intros Hi Hf Hg. split_and!.
  - by apply trimZeros_digits.
  - by apply trimZeros_dot.
  - apply frac_TrimRight.
  - unfold decimal_text at 1. pose proof (digits_TrimRight "0" f Hf) as Hd.
    unfold decimal_text. destruct (TrimRight "0" f) as [|y r] eqn:E; [by apply trimZeros_digits|].
    rewrite trimZeros_dot by done. unfold decimal_text. by rewrite <-E, TrimRight_idem, E.
  - intros E. rewrite trimZeros_dot by done.
    replace (decimal_text i f) with (decimal_text i g) by (unfold decimal_text; by rewrite (frac_TrimRight_inj f g)).
    apply decimal_text_length.
  - rewrite !trimZeros_dot by done. split.
    + intros E%decimal_text_inj. by rewrite <-(frac_TrimRight f), <-(frac_TrimRight g), E.
    + intros E. unfold decimal_text. by rewrite (frac_TrimRight_inj f g).
Qed.
