(* ===== verification/Tui.v ===== *)
(** * The dashboard client (cmd/perunnodetui)

    The table of channels the dashboard shows, its entries and what they ask of
    the node.  An entry ([channel]) is a shared object: commands, the goroutines
    waiting for a timeout and the handlers of incoming notifications all hold
    pointers to it, so the entries live in a heap ([t_entries]) and a pointer is an
    index into it.  Every entry has a mutex; the mutexes of the table and of the
    registry are held within one method only, which is one step here.

    What the node answers ([NodeServer]) is the environment of an operation.
    Actions are the requests sent, the rows written, the log and the goroutines
    started.  Writing to the terminal can only fail with an error that is logged;
    this is not modelled.  Messages of the node have all their fields set, as those
    built by [Grpc.v] have. *)
From S2P Require Import Prelude Perun Errors Currency Contracts Grpc PbClient TuiText.

(** ** Data (channels.go) *)
Inductive responseStatus :=
| noUpdate | waitingForPeer | waitingForUser | expired | responding | userRejected | peerRejected
| accepted | errorStatus.
#[export] Instance responseStatus_eq_dec : EqDecision responseStatus.
Proof. solve_decision. Defined.

Definition responseStatus_String (r : responseStatus) : string :=
  match r with
  | noUpdate => "" | waitingForPeer => "For Peer" | waitingForUser => "For User"
  | expired => "Expired" | responding => "Responding" | userRejected => "User Rej"
  | peerRejected => "Peer Rej" | accepted => "Accepted" | errorStatus => "Error"
  end.

Inductive chPhase := errorPhase | open | transact | register | settle | closed.
#[export] Instance chPhase_eq_dec : EqDecision chPhase.
Proof. solve_decision. Defined.

Definition chPhase_String (p : chPhase) : string :=
  match p with
  | errorPhase => "Error" | open => "Open" | transact => "Transact" | register => "Register"
  | settle => "Settle" | closed => "Closed"
  end.

Record balInfo := mkBal { ours : string; theirs : string; version : string }.
Definition balInfo_zero : balInfo := mkBal "" "" "".

(** The closure made by [newOutgoingChannelProposalFn]. *)
Record proposerFn := mkProposerFn { pf_peer : string; pf_ours : string; pf_theirs : string }.

Record channel := mkEntry {
  e_locked : bool;
  phase : chPhase;
  peer : string;
  current : balInfo;
  status : responseStatus;
  timeout : string;
  proposed : balInfo;
  chID : string;
  updateID : string;
  isIncoming : bool;
  sNo : Z;
  row : Z;
  e_proposerFn : option proposerFn;
}.

Definition set_locked (b : bool) (e : channel) : channel :=
  mkEntry b (phase e) (peer e) (current e) (status e) (timeout e) (proposed e) (chID e) (updateID e)
    (isIncoming e) (sNo e) (row e) (e_proposerFn e).
Definition set_phase (x : chPhase) (e : channel) : channel :=
  mkEntry (e_locked e) x (peer e) (current e) (status e) (timeout e) (proposed e) (chID e) (updateID e)
    (isIncoming e) (sNo e) (row e) (e_proposerFn e).
Definition set_current (x : balInfo) (e : channel) : channel :=
  mkEntry (e_locked e) (phase e) (peer e) x (status e) (timeout e) (proposed e) (chID e) (updateID e)
    (isIncoming e) (sNo e) (row e) (e_proposerFn e).
Definition set_status (x : responseStatus) (e : channel) : channel :=
  mkEntry (e_locked e) (phase e) (peer e) (current e) x (timeout e) (proposed e) (chID e) (updateID e)
    (isIncoming e) (sNo e) (row e) (e_proposerFn e).
Definition set_timeout (x : string) (e : channel) : channel :=
  mkEntry (e_locked e) (phase e) (peer e) (current e) (status e) x (proposed e) (chID e) (updateID e)
    (isIncoming e) (sNo e) (row e) (e_proposerFn e).
Definition set_proposed (x : balInfo) (e : channel) : channel :=
  mkEntry (e_locked e) (phase e) (peer e) (current e) (status e) (timeout e) x (chID e) (updateID e)
    (isIncoming e) (sNo e) (row e) (e_proposerFn e).
Definition set_chID (x : string) (e : channel) : channel :=
  mkEntry (e_locked e) (phase e) (peer e) (current e) (status e) (timeout e) (proposed e) x (updateID e)
    (isIncoming e) (sNo e) (row e) (e_proposerFn e).
Definition set_updateID (x : string) (e : channel) : channel :=
  mkEntry (e_locked e) (phase e) (peer e) (current e) (status e) (timeout e) (proposed e) (chID e) x
    (isIncoming e) (sNo e) (row e) (e_proposerFn e).
Definition set_proposerFn (x : option proposerFn) (e : channel) : channel :=
  mkEntry (e_locked e) (phase e) (peer e) (current e) (status e) (timeout e) (proposed e) (chID e)
    (updateID e) (isIncoming e) (sNo e) (row e) x.

(** ** The table of rows (dashboard.go) and the registry (registry.go) *)
Record table := mkTable {
  cntRows : Z; offset : Z; currentIndex : Z; lastIndex : Z }.

Record registry := mkReg {
  proposals : list (option nat);
  byChID : gmap string Z;
}.

(** [make([]T, n)] panics for a negative length. *)
Definition newRegistry (size : Z) : outcome registry :=
  if bool_decide (size < 0) then Panic "makeslice: len out of range"
  else Ret (mkReg (replicate (Z.to_nat size) None) ∅).

(** [l[i]] for a signed index. *)
Definition go_indexZ {A} (l : list A) (i : Z) : outcome A :=
  if bool_decide (i < 0) then Panic "index out of range" else go_index l (Z.to_nat i).

Definition putAtIndex (index : Z) (p : nat) (r : registry) : outcome registry :=
  if bool_decide (index < Z.of_nat (length (proposals r))) then
    _ ← go_indexZ (proposals r) index;
    Ret (mkReg (<[Z.to_nat index := Some p]> (proposals r)) (byChID r))
  else Ret r.

Definition getByIndex (index : Z) (r : registry) : outcome (option nat) :=
  if bool_decide (Z.of_nat (length (proposals r)) ≤ index) then Ret None
  else go_indexZ (proposals r) index.

Definition setChID (chID : string) (sNo : Z) (r : registry) : registry :=
  mkReg (proposals r) (<[chID := sNo]> (byChID r)).

Definition getByChID (chID : string) (r : registry) : outcome (option nat) :=
  match byChID r !! chID with
  | None => Ret None
  | Some index => go_indexZ (proposals r) index
  end.

(** Creating the rows and writing the two title rows panics when there are fewer
    than two; [err] is the first error of the termdash library. *)
Definition newTable `{GoTypes} (h : Z) (err : option goerror) : outcome (table + goerror) :=
  if bool_decide (h < 0) then Panic "makeslice: len out of range" else
  match err with
  | Some err => Ret (inr err)
  | None =>
      if bool_decide (h < 2) then Panic "index out of range"
      else Ret (inl (mkTable h 3 1 (h - 3)))
  end.

Section tui.
Context {GT : GoTypes} {DL : DecimalLib} {EL : EthLib}.

(** ** State and actions *)
Inductive Goroutine :=
| GoCommand (command : string) (args : list string)
| GoIncomingChannels
| GoIncomingUpdates (chID : string)
| GoNotifyIncoming (p : nat) (expiry : Z)
| GoNotifyNonClosing (p : nat) (updateID : string) (proposed : balInfo) (expiryUnix : Z) (isFinal : bool)
| GoOnChainBal.

Inductive TEvent :=
| TEvRequest (r : PbRequest)
| TEvRow (row : Z) (texts : list string) (highlight : bool)
| TEvLogError (err : goerror)
| TEvLogInfo (msg : string)
| TEvGo (g : Goroutine).

(** [t_T] and [t_R] are the package variables [T] and [R], nil until the dashboard
    screen is built; [t_client] says whether [client] is set. *)
Record tui := mkTui {
  t_client : bool;
  t_sessionID : string;
  t_userName : string;
  t_chainURL : string;
  t_onChainAddr : option address;
  t_T : option table;
  t_R : option registry;
  t_entries : list channel;
}.

Definition tprog (A : Type) : Type := prog tui TEvent A.

Definition set_entries (l : list channel) (a : tui) : tui :=
  mkTui (t_client a) (t_sessionID a) (t_userName a) (t_chainURL a) (t_onChainAddr a) (t_T a) (t_R a) l.
Definition set_T (x : option table) (a : tui) : tui :=
  mkTui (t_client a) (t_sessionID a) (t_userName a) (t_chainURL a) (t_onChainAddr a) x (t_R a)
    (t_entries a).
Definition set_R (x : option registry) (a : tui) : tui :=
  mkTui (t_client a) (t_sessionID a) (t_userName a) (t_chainURL a) (t_onChainAddr a) (t_T a) x
    (t_entries a).
Definition set_session (client : bool) (sessionID : string) (a : tui) : tui :=
  mkTui client sessionID (t_userName a) (t_chainURL a) (t_onChainAddr a) (t_T a) (t_R a) (t_entries a).
Definition set_user (userName chainURL : string) (onChainAddr : option address) (a : tui) : tui :=
  mkTui (t_client a) (t_sessionID a) userName chainURL onChainAddr (t_T a) (t_R a) (t_entries a).

(** Reading and writing through a pointer, and the mutex of an entry. *)
Definition deref (p : nat) : tprog channel := a ← get_state; lift (go_index (t_entries a) p).
Definition assign (p : nat) (f : channel → channel) : tprog unit :=
  modify (λ a, set_entries (alter f p (t_entries a)) a).
Definition with_lock {A} (p : nat) (m : tprog A) : tprog A :=
  e ← deref p;
  if e_locked e then block
  else assign p (set_locked true);; x ← m; assign p (set_locked false);; mret x.

(** A call of a method of [R]. *)
Definition with_R {A} (f : registry → outcome (A * registry)) : tprog A :=
  a ← get_state; r ← lift (go_deref (t_R a)); x ← lift (f r); modify (set_R (Some x.2));; mret x.1.
Definition logError (err : goerror) : tprog unit := emit (TEvLogError err).
Definition logInfo (msg : string) : tprog unit := emit (TEvLogInfo msg).
Definition call {A} (r : PbRequest) (resp : A) : tprog A := emit (TEvRequest r);; mret resp.

Definition errNotConnectedToNode : goerror := ErrText "not connected to perun node".

(** ** Rows *)
Definition getRow : tprog (option (Z * Z)) :=
  a ← get_state; t ← lift (go_deref (t_T a));
  if bool_decide (currentIndex t = lastIndex t) then mret None
  else
    let k := currentIndex t - 1 + offset t in
    if bool_decide (0 ≤ k < cntRows t) then
      modify (set_T (Some (mkTable (cntRows t) (offset t) (currentIndex t + 1) (lastIndex t))));;
      mret (Some (currentIndex t, k))
    else panic "index out of range".

(** The three texts of a row, with the templates of [newTable]. *)
Definition bodyTemplate0 (e : channel) : string :=
  "  " +:+ pad 6 (Itoa (sNo e)) +:+ pad 12 (chPhase_String (phase e)) +:+ pad 10 (peer e)
  +:+ pad 8 (ours (current e)) +:+ pad 10 (theirs (current e)) +:+ pad 5 (version (current e)) +:+ "│  ".
Definition bodyTemplate1 (e : channel) : string := pad 12 (responseStatus_String (status e)).
Definition bodyTemplate2 (e : channel) : string :=
  pad 12 (timeout e) +:+ pad 8 (ours (proposed e)) +:+ pad 10 (theirs (proposed e))
  +:+ pad 5 (version (proposed e)).

Definition trimBal (b : balInfo) : balInfo :=
  mkBal (trimZeros (ours b)) (trimZeros (theirs b)) (version b).
Definition trimEntry (e : channel) : channel :=
  set_proposed (trimBal (proposed e)) (set_current (trimBal (current e)) e).

Definition refreshEntry (p : nat) : tprog unit :=
  assign p trimEntry;;
  a ← get_state; _ ← lift (go_deref (t_T a));
  e ← deref p;
  emit (TEvRow (row e) [bodyTemplate0 e; bodyTemplate1 e; bodyTemplate2 e]
          (bool_decide (status e = waitingForUser))).

Definition clearUpdate (e : channel) : channel :=
  set_proposerFn None (set_proposed balInfo_zero (set_timeout "" (set_status noUpdate e))).

(** ** Conversions (commands.go) *)
Definition findPeerIndex (parts : list string) : nat :=
  match parts with
  | [a; b] => if decide (a ≠ OwnAlias) then 0 else if decide (b ≠ OwnAlias) then 1 else 0
  | _ => 0
  end.

Definition grpcBalInfotoBalInfo (b : pb_BalInfo) : outcome balInfo :=
  let peerIdx := findPeerIndex (pb_Parts b) in
  let ourIdx := Nat.lxor peerIdx 1 in
  bal ← go_index (pb_Bals b) 0;
  ours ← go_index bal ourIdx;
  theirs ← go_index bal peerIdx;
  Ret (mkBal ours theirs "").

Definition set_version (v : string) (b : balInfo) : balInfo := mkBal (ours b) (theirs b) v.

Definition grpcPayChInfotoBalInfo (i : pb_PayChInfo) : outcome balInfo :=
  b ← grpcBalInfotoBalInfo (pb_BalInfo_ i); Ret (set_version (pb_Version i) b).

(** ** Requests (paymentclient.go)

    [N] is what the node answers while the operation runs. *)
Section requests.
Context (N : NodeServer).

Definition challengeDurSecs : Z := 10.

Definition run_proposerFn (f : proposerFn) : tprog (bool * string * balInfo * option goerror) :=
  a ← get_state;
  if negb (t_client a) then mret (false, "", balInfo_zero, Some errNotConnectedToNode) else
  let bi := mkPbBalInfo [ETHSymbol] [OwnAlias; pf_peer f] [[pf_ours f; pf_theirs f]] in
  resp ← call (OpenPayChReq (t_sessionID a) bi challengeDurSecs)
           (srv_OpenPayCh N (t_sessionID a) bi challengeDurSecs);
  match resp with
  | inr err => mret (false, "", balInfo_zero, Some (ErrWithMessage "sending open request" err))
  | inl (inr msgErr) =>
      if decide (pb_Code msgErr = ErrorCode_int ErrPeerRejected)
      then mret (false, "", balInfo_zero, None)
      else mret (false, "", balInfo_zero,
                 Some (ErrText ("open request failed: " +:+ printAPIError msgErr)))
  | inl (inl payChInfo) =>
      b ← lift (grpcPayChInfotoBalInfo payChInfo); mret (true, pb_ChID payChInfo, b, None)
  end.

Definition subProposals : tprog (option goerror) :=
  a ← get_state;
  if negb (t_client a) then mret (Some errNotConnectedToNode) else
  err ← call (SubPayChProposalsReq (t_sessionID a)) (srv_SubPayChProposals N (t_sessionID a));
  match err with
  | Some err => mret (Some (ErrWithMessage "subscribing to proposals" err))
  | None => emit (TEvGo GoIncomingChannels);; mret None
  end.

Definition respondToProposal_req (proposalID : string) (accept : bool)
    : tprog (string * balInfo * option goerror) :=
  a ← get_state;
  if negb (t_client a) then mret ("", balInfo_zero, Some errNotConnectedToNode) else
  resp ← call (RespondPayChProposalReq (t_sessionID a) proposalID accept)
           (srv_RespondPayChProposal N (t_sessionID a) proposalID accept);
  match resp with
  | inr err => mret ("", balInfo_zero, Some (ErrWithMessage "responding to proposal" err))
  | inl (inr msgErr) =>
      mret ("", balInfo_zero, Some (ErrText ("Error responding to proposal: " +:+ printAPIError msgErr)))
  | inl (inl payChInfo) =>
      if negb accept then mret ("", balInfo_zero, None)
      else b ← lift (grpcPayChInfotoBalInfo payChInfo); mret (pb_ChID payChInfo, b, None)
  end.

Definition subUpdates (chID : string) : tprog (option goerror) :=
  a ← get_state;
  if negb (t_client a) then mret (Some errNotConnectedToNode) else
  err ← call (SubPayChUpdatesReq (t_sessionID a) chID) (srv_SubPayChUpdates N (t_sessionID a) chID);
  match err with
  | Some err => mret (Some (ErrWithMessage "subscribing to updates" err))
  | None => emit (TEvGo (GoIncomingUpdates chID));; mret None
  end.

Definition respondToUpdate_req (chID updateID : string) (accept : bool)
    : tprog (balInfo * option goerror) :=
  a ← get_state;
  if negb (t_client a) then mret (balInfo_zero, Some errNotConnectedToNode) else
  resp ← call (RespondPayChUpdateReq (t_sessionID a) chID updateID accept)
           (srv_RespondPayChUpdate N (t_sessionID a) chID updateID accept);
  match resp with
  | inr err => mret (balInfo_zero, Some (ErrWithMessage "responding to update" err))
  | inl (inr msgErr) =>
      mret (balInfo_zero, Some (ErrText ("responding to update: " +:+ printAPIError msgErr)))
  | inl (inl payChInfo) => b ← lift (grpcPayChInfotoBalInfo payChInfo); mret (b, None)
  end.

Definition sendUpdate (chID payee amount : string) : tprog (bool * balInfo * option goerror) :=
  a ← get_state;
  if negb (t_client a) then mret (false, balInfo_zero, Some errNotConnectedToNode) else
  let payments := [mkPbPayment ETHSymbol payee amount] in
  resp ← call (SendPayChUpdateReq (t_sessionID a) chID payments)
           (srv_SendPayChUpdate N (t_sessionID a) chID payments);
  match resp with
  | inr err => mret (false, balInfo_zero, Some (ErrWithMessage "sending channel update" err))
  | inl (inr msgErr) =>
      if decide (pb_Code msgErr = ErrorCode_int ErrPeerRejected
                 ∨ pb_Code msgErr = ErrorCode_int ErrPeerRequestTimedOut)
      then mret (false, balInfo_zero, None)
      else mret (false, balInfo_zero,
                 Some (ErrText ("send update request failed: " +:+ printAPIError msgErr)))
  | inl (inl payChInfo) => b ← lift (grpcPayChInfotoBalInfo payChInfo); mret (true, b, None)
  end.

Definition closeCh_req (chID : string) : tprog (balInfo * option goerror) :=
  a ← get_state;
  if negb (t_client a) then mret (balInfo_zero, Some errNotConnectedToNode) else
  resp ← call (ClosePayChReq (t_sessionID a) chID) (srv_ClosePayCh N (t_sessionID a) chID);
  match resp with
  | inr err => mret (balInfo_zero, Some (ErrWithMessage "sending channel update" err))
  | inl (inr msgErr) =>
      mret (balInfo_zero, Some (ErrText ("close request failed: " +:+ printAPIError msgErr)))
  | inl (inl payChInfo) => b ← lift (grpcPayChInfotoBalInfo payChInfo); mret (b, None)
  end.

(** ** Entries (channels.go) *)
Definition new_entry (e : channel) : tprog nat :=
  a ← get_state; modify (set_entries (t_entries a ++ [e]));; mret (length (t_entries a)).

Definition newOutgoingChannel (peer ours theirs : string) (fn : proposerFn) : tprog (option nat) :=
  r ← getRow;
  match r with
  | None => logError (ErrText "table full, no more channels can be added.");; mret None
  | Some (i, row) =>
      p ← new_entry (mkEntry false open peer balInfo_zero waitingForPeer "" (mkBal ours theirs "0") "" ""
                       false i row (Some fn));
      mret (Some p)
  end.

Definition newIncomingChannel (proposalID peer ours theirs timeout : string)
    : tprog (nat + goerror) :=
  r ← getRow;
  match r with
  | None => mret (inr (ErrText "table full, no more channels can be added"))
  | Some (i, row) =>
      p ← new_entry (mkEntry false open peer balInfo_zero waitingForUser timeout (mkBal ours theirs "0") ""
                       proposalID true i row None);
      mret (inl p)
  end.

Definition toTransact (p : nat) (chID' : string) (current : balInfo) : tprog unit :=
  assign p (set_chID chID');;
  assign p (set_current current);;
  assign p (set_phase transact);;
  assign p clearUpdate;;
  refreshEntry p;;
  err ← subUpdates chID';
  (match err with
   | Some err => logError (ErrWithMessage "subscribing to updates" err)
   | None => mret tt
   end);;
  logInfo "subscribed to updates".

(** [propose] waits for the answer of the peer without holding the mutex:
    [propose_call] is what comes before, [propose_result] what comes after. *)
Definition propose_call (p : nat) : tprog (bool * string * balInfo * option goerror) :=
  refreshEntry p;;
  e ← deref p; f ← lift (go_deref (e_proposerFn e)); run_proposerFn f.
Definition propose_result (p : nat) (r : bool * string * balInfo * option goerror) : tprog unit :=
  let '(isAccepted, chID, currentBalInfo, err) := r in
  match err with
  | Some err => logError err
  | None =>
      with_lock p (
        if negb isAccepted then
          assign p (set_phase errorPhase);;
          assign p (set_status peerRejected);;
          refreshEntry p
        else
          e ← deref p;
          with_R (λ R, Ret (tt, setChID chID (sNo e) R));;
          toTransact p chID currentBalInfo)
  end.
Definition propose (p : nat) : tprog unit := r ← propose_call p; propose_result p r.

(** [notifyIncomingChannel] before and after it sleeps. *)
Definition notifyIncomingChannel (p : nat) : tprog unit := refreshEntry p.
Definition notifyIncomingChannel_expired (p : nat) : tprog unit :=
  with_lock p (
    e ← deref p;
    if decide (status e = waitingForUser ∧ phase e = open) then
      assign p (set_phase errorPhase);;
      assign p (set_status expired);;
      refreshEntry p
    else mret tt).

Definition respondToProposal (p : nat) (accept : bool) : tprog unit :=
  assign p (set_status responding);;
  refreshEntry p;;
  e ← deref p;
  r ← respondToProposal_req (updateID e) accept;
  let '(chID, currentBalInfo, err) := r in
  match err with
  | Some err => logError (ErrWithMessage "responding to proposal" err)
  | None =>
      if negb accept then
        assign p (set_phase errorPhase);;
        assign p (set_status userRejected);;
        refreshEntry p
      else
        with_R (λ R, Ret (tt, setChID chID (sNo e) R));;
        toTransact p chID currentBalInfo
  end.

Definition respondToUpdate (p : nat) (accept : bool) : tprog unit :=
  assign p (set_status responding);;
  refreshEntry p;;
  e ← deref p;
  r ← respondToUpdate_req (chID e) (updateID e) accept;
  let '(updatedBalInfo, err) := r in
  match err with
  | Some err => logError (ErrWithMessage "responding to update" err)
  | None =>
      if negb accept then
        assign p (set_status userRejected);;
        refreshEntry p
      else
        assign p (set_current updatedBalInfo);;
        assign p (set_status accepted);;
        (if decide (phase e = register)
         then assign p (λ e, set_current (set_version (version (current e) +:+ " F") (current e)) e)
         else mret tt);;
        refreshEntry p
  end.

Definition respond (p : nat) (accept : bool) : tprog unit :=
  with_lock p (
    e ← deref p;
    if decide (status e ≠ waitingForUser)
    then logError (ErrText "no response expected for the channel")
    else match phase e with
         | open => respondToProposal p accept
         | transact | register => respondToUpdate p accept
         | _ => mret tt
         end).

Definition notifyClosingUpdate (p : nat) (updated : balInfo) (errorMsg : string) : tprog unit :=
  with_lock p (
    (if decide (errorMsg = "") then
       assign p (set_phase closed);;
       e ← deref p;
       if decide (version (current e) ≠ version updated)
       then assign p (set_current (set_version (version updated +:+ " F") updated))
       else mret tt
     else
       assign p (set_status errorStatus);;
       e ← deref p;
       logError (ErrText ("settling channel " +:+ Itoa (sNo e) +:+ ": " +:+ errorMsg)));;
    assign p clearUpdate;;
    refreshEntry p).

(** [notifyNonClosingUpdate] before it sleeps, and after: in between it has read,
    without the mutex, which update the entry shows ([currUpdateID]). *)
Definition notifyNonClosingUpdate (zone : Z → Z) (p : nat) (updateID' : string) (proposed' : balInfo)
    (expiryUnix : Z) (isFinal : bool) : tprog unit :=
  with_lock p (
    assign p (set_updateID updateID');;
    assign p (set_proposed proposed');;
    assign p (set_timeout (clock zone expiryUnix));;
    assign p (set_status waitingForUser);;
    (if isFinal : bool then
       assign p (λ e, set_proposed (set_version (version (proposed e) +:+ " F") (proposed e)) e);;
       assign p (set_phase register)
     else mret tt);;
    refreshEntry p).
Definition read_currUpdateID (p : nat) : tprog string := e ← deref p; mret (updateID e).
Definition notifyNonClosingUpdate_expired (p : nat) (currUpdateID : string) : tprog unit :=
  with_lock p (
    e ← deref p;
    if decide (updateID e = currUpdateID ∧ status e = waitingForUser
               ∧ (phase e = transact ∨ phase e = register)) then
      assign p (set_status expired);;
      refreshEntry p
    else mret tt).

(** ** Payments *)

(** The interpreter of ETH in the registry of the test helpers. *)
Definition ethCurrency : option currency :=
  Currency_ (Register NewRegistry ETHSymbol ETHMaxDecimals).1 ETHSymbol.

(** The value of a parse whose error is ignored: a nil pointer when it failed. *)
Definition parsed (r : Z + goerror) : option Z :=
  match r with inl v => Some v | inr _ => None end.

Definition getProposedBalInfo (current : balInfo) (amountStr : string) (isPayeePeer : bool)
    : outcome (balInfo + goerror) :=
  c ← go_deref ethCurrency;
  let currOurs := parsed (Parse c (ours current)) in
  let currTheirs := parsed (Parse c (theirs current)) in
  match Parse c amountStr with
  | inr err => Ret (inr (ErrWithMessage "parsing amount" err))
  | inl amount =>
      bal ← (if isPayeePeer : bool then
               o ← go_deref currOurs;
               let ours := truncateAtAmountMaxLen (Print c (o - amount)) in
               t ← go_deref currTheirs;
               Ret (ours, truncateAtAmountMaxLen (Print c (t + amount)))
             else
               t ← go_deref currTheirs;
               let theirs := truncateAtAmountMaxLen (Print c (t - amount)) in
               o ← go_deref currOurs;
               Ret (truncateAtAmountMaxLen (Print c (o + amount)), theirs));
      match Atoi (version current) with
      | inr err => Ret (inr (ErrWithMessage "parsing version as integer" err))
      | inl currVersion => Ret (inl (mkBal bal.1 bal.2 (Itoa (int64 (currVersion + 1)))))
      end
  end.

(** In the transaction phase, and nothing is under way. *)
Definition ready (e : channel) : Prop :=
  phase e = transact ∧ status e ≠ waitingForPeer ∧ status e ≠ waitingForUser ∧ status e ≠ responding.
#[global] Instance ready_dec e : Decision (ready e).
Proof. unfold ready. apply _. Defined.

Definition update (p : nat) (amount : string) (isPayeePeer : bool) : tprog unit :=
  with_lock p (
    e ← deref p;
    let payee := if isPayeePeer then peer e else "self" in
    if decide (¬ ready e) then logError (ErrText "Channel not read for updates")
    else
      r ← lift (getProposedBalInfo (current e) amount isPayeePeer);
      match r with
      | inr err => logError err
      | inl proposed =>
          assign p (set_proposed proposed);;
          assign p (set_status waitingForPeer);;
          refreshEntry p;;
          r ← sendUpdate (chID e) payee amount;
          let '(isAccepted, updated, err) := r in
          match err with
          | Some err => assign p (set_status errorStatus);; refreshEntry p;; logError err
          | None =>
              if negb isAccepted then assign p (set_status peerRejected);; refreshEntry p
              else
                assign p (set_status accepted);;
                assign p (set_current updated);;
                refreshEntry p
          end
      end).

Definition closeCh (p : nat) : tprog unit :=
  with_lock p (
    e ← deref p;
    if decide (¬ ready e)
    then logError (ErrText "cannot close channel: not in transact phase or has pending updates")
    else
      assign p (set_phase register);;
      assign p clearUpdate;;
      refreshEntry p;;
      r ← closeCh_req (chID e);
      let '(updated, err) := r in
      (match err with
       | Some err =>
           assign p (set_phase errorPhase);;
           refreshEntry p;;
           logError (ErrWithMessage "closing channel" err)
       | None => mret tt
       end);;
      e ← deref p;
      let updated := if decide (version (current e) ≠ version updated)
                     then set_version (version updated +:+ " F") updated else updated in
      assign p (set_current updated);;
      assign p (set_phase settle);;
      refreshEntry p).

(** ** Incoming notifications (paymentclient.go)

    A stream is the list of messages received and the error that ends it; [None]
    is the regular end of a stream (io.EOF). *)
Definition stream_end (what : string) (err : option goerror) : tprog unit :=
  match err with
  | None => logInfo (what +:+ " closed")
  | Some err => logError (ErrWithMessage (what +:+ " closed with error") err)
  end.

Definition incomingChannel (zone : Z → Z) (notif : pb_ProposalNotify) : tprog unit :=
  let bi := pbp_OpeningBalInfo notif in
  peer ← lift (go_index (pb_Parts bi) (findPeerIndex (pb_Parts bi)));
  proposed ← lift (grpcBalInfotoBalInfo bi);
  r ← newIncomingChannel (pbp_ProposalID notif) peer (ours proposed) (theirs proposed)
        (clock zone (pbp_Expiry notif));
  match r with
  | inr err => logError (ErrWithMessage "adding incoming channel to table" err)
  | inl p =>
      e ← deref p;
      with_R (λ R, R ← putAtIndex (sNo e) p R; Ret (tt, R));;
      emit (TEvGo (GoNotifyIncoming p (pbp_Expiry notif)))
  end.

Fixpoint incomingChannelsHandler (zone : Z → Z) (sub : list (pb_ProposalNotify + pb_MsgError))
    (err : option goerror) : tprog unit :=
  match sub with
  | [] => stream_end "Subscription to incoming proposal" err
  | inr msgErr :: _ =>
      logError (ErrText ("In incoming proposal notification " +:+ printAPIError msgErr))
  | inl notif :: sub => incomingChannel zone notif;; incomingChannelsHandler zone sub err
  end.

(** One notification of an update: whether the handler goes on. *)
Definition incomingUpdate (notif : pb_UpdateNotify) : tprog bool :=
  p ← with_R (λ R, p ← getByChID (pb_ChID (pbu_ProposedPayChInfo notif)) R; Ret (p, R));
  match p with
  | None => logError (ErrText "update received for unknown channel id");; mret false
  | Some p =>
      if decide (pbu_Type notif = 2) then
        let errMsg := match pbu_Error notif with Some e => printAPIError e | None => "" end in
        b ← lift (grpcPayChInfotoBalInfo (pbu_ProposedPayChInfo notif));
        notifyClosingUpdate p b errMsg;; mret false
      else
        proposed ← lift (grpcPayChInfotoBalInfo (pbu_ProposedPayChInfo notif));
        emit (TEvGo (GoNotifyNonClosing p (pbu_UpdateID notif) proposed (pbu_Expiry notif)
                       (bool_decide (pbu_Type notif = 1))));;
        mret true
  end.

Fixpoint incomingUpdateHandler (sub : list (pb_UpdateNotify + pb_MsgError)) (err : option goerror)
    : tprog unit :=
  match sub with
  | [] => stream_end "Subscription to incoming updates" err
  | inr msgErr :: _ =>
      logError (ErrText ("In incoming update notification " +:+ printAPIError msgErr))
  | inl notif :: sub =>
      continue ← incomingUpdate notif;
      if continue : bool then incomingUpdateHandler sub err else mret tt
  end.

(** ** Commands (commands.go) *)
Definition openCmdHandler (args : list string) : tprog (option goerror) :=
  match args with
  | [peer; ours; theirs] =>
      let fn := mkProposerFn peer ours theirs in
      p ← newOutgoingChannel peer ours theirs fn;
      p ← lift (go_deref p);
      e ← deref p;
      with_R (λ R, R ← putAtIndex (sNo e) p R; Ret (tt, R));;
      propose p;;
      mret None
  | _ => mret (Some (ErrText "should have only 3 args"))
  end.

(** The entry of the row number given as the first argument. *)
Definition entry_arg (arg : string) : tprog (nat + goerror) :=
  match Atoi arg with
  | inr _ => mret (inr (ErrText "first arg should a S.No"))
  | inl index =>
      p ← with_R (λ R, p ← getByIndex index R; Ret (p, R));
      match p with
      | None => mret (inr (ErrText "first arg should a S.No"))
      | Some p => mret (inl p)
      end
  end.

Definition respondCmd (args : list string) (accept : bool) : tprog (option goerror) :=
  match args with
  | [arg] =>
      p ← entry_arg arg;
      match p with
      | inr err => mret (Some err)
      | inl p => respond p accept;; mret None
      end
  | _ => mret (Some (ErrText "should have only 3 args"))
  end.
Definition accCmdHandler (args : list string) : tprog (option goerror) := respondCmd args true.
Definition rejCmdHandler (args : list string) : tprog (option goerror) := respondCmd args false.

Definition updateCmdHandler (args : list string) (isPayeePeer : bool) : tprog (option goerror) :=
  match args with
  | [arg; amount] =>
      p ← entry_arg arg;
      match p with
      | inr err => mret (Some err)
      | inl p => update p amount isPayeePeer;; mret None
      end
  | _ => mret (Some (ErrText "should have only 2 args"))
  end.
Definition sendCmdHandler (args : list string) : tprog (option goerror) := updateCmdHandler args true.
Definition reqCmdHandler (args : list string) : tprog (option goerror) := updateCmdHandler args false.

Definition closeCmdHandler (args : list string) : tprog (option goerror) :=
  match args with
  | [arg] =>
      p ← entry_arg arg;
      match p with
      | inr err => mret (Some err)
      | inl p => closeCh p;; mret None
      end
  | _ => mret (Some (ErrText "should have only 1 args"))
  end.

Definition commandHandlers (command : string) : option (list string → tprog (option goerror)) :=
  if decide (command = "open") then Some openCmdHandler
  else if decide (command = "send") then Some sendCmdHandler
  else if decide (command = "req") then Some reqCmdHandler
  else if decide (command = "acc") then Some accCmdHandler
  else if decide (command = "rej") then Some rejCmdHandler
  else if decide (command = "close") then Some closeCmdHandler
  else None.

Definition handleCmd (input : string) : tprog (option goerror) :=
  match Split space input with
  | command :: (_ :: _) as words =>
      match commandHandlers command with
      | None => mret (Some (ErrText ("invalid command: " +:+ command)))
      | Some _ => emit (TEvGo (GoCommand command (drop 1 words)));; mret None
      end
  | _ => mret (Some (ErrText "command should have at least 2 words"))
  end.

(** The goroutine [handleCmd] starts. *)
Definition run_command (command : string) (args : list string) : tprog unit :=
  match commandHandlers command with
  | None => panic "nil pointer dereference"
  | Some handler =>
      err ← handler args;
      match err with
      | Some err => logError (ErrWithMessage "executing command" err)
      | None => mret tt
      end
  end.

(** ** Connecting and the dashboard screen (connect.go, dashboard.go) *)

(** [y] is the height of the terminal; [tableErr] and [textErr] are the errors of
    the termdash library while the table and the other texts are made. *)
Definition logsHeight : Z := 8.
Definition newDashboardScreen (y : Z) (tableErr textErr : option goerror) : tprog (option goerror) :=
  let elementHeight := 2 in
  let onChainBalHeight := elementHeight * 2 in
  let commandTBoxHeight := elementHeight * 2 in
  let tableHeight := y - (onChainBalHeight + commandTBoxHeight + logsHeight) in
  t ← lift (newTable tableHeight tableErr);
  match t with
  | inr err => mret (Some (ErrWithMessage "initializing table" err))
  | inl t =>
      modify (set_T (Some t));;
      r ← lift (newRegistry (lastIndex t - offset t));
      modify (set_R (Some r));;
      mret (ErrWithMessage "initializing texts" <$> textErr)
  end.

(** The contents of the text boxes of the connect screen. *)
Record connectScreen := mkConnectScreen {
  sessionNameTBox : string; perunNodeURLTBox : string; configFileURLTBox : string;
  chainURLTBox : string; onChainAddrTBox : string }.

Definition connectToNode (dialErr : option goerror) (configFileURL : string)
    : tprog (string * bool * option goerror) :=
  match dialErr with
  | Some err => mret ("", false, Some (ErrWithMessage "connecting to perun node" err))
  | None =>
      resp ← call (OpenSessionReq configFileURL) (srv_OpenSession N configFileURL);
      match resp with
      | inr err => mret ("", false, Some (ErrWithMessage "opening session" err))
      | inl (inr msgErr) => mret ("", false, Some (ErrText (printAPIError msgErr)))
      | inl (inl (sessID, _)) => mret (sessID, true, None)
      end
  end.

(** The callback of the connect button. *)
Definition connect (s : connectScreen) (y : Z) (dialErr tableErr textErr renderErr : option goerror)
    : tprog (option goerror) :=
  logInfo "Connecting to perun node...";;
  let addr := ParseAddr (onChainAddrTBox s) in
  modify (set_user (sessionNameTBox s) (chainURLTBox s)
            (match addr with inl a => Some a | inr _ => None end));;
  match addr with
  | inr err => mret (Some (ErrWithMessage "parsing on-chain address" err))
  | inl _ =>
      r ← connectToNode dialErr (configFileURLTBox s);
      let '(sessionID, client, err) := r in
      modify (set_session client sessionID);;
      match err with
      | Some err => mret (Some (ErrWithMessage "connecting to perun node" err))
      | None =>
          logInfo ("Session established. Session ID: " +:+ sessionID);;
          err ← subProposals;
          match err with
          | Some err => mret (Some (ErrWithMessage "subscribing to proposals" err))
          | None =>
              logInfo "Subscribed to incoming proposals";;
              err ← newDashboardScreen y tableErr textErr;
              match err with
              | Some err => mret (Some (ErrWithMessage "initializing dashboard screen" err))
              | None =>
                  match renderErr with
                  | Some err => mret (Some (ErrWithMessage "rendering dashboard screen" err))
                  | None => emit (TEvGo GoOnChainBal);; mret None
                  end
              end
          end
      end
  end.
End requests.

(** The balance shown at the top, refreshed every second. *)
Definition readOnChainBal (chainURL : string) (onChainAddr : address) : outcome (string + goerror) :=
  match BalanceAt chainURL 10000000000 60000000000 onChainAddr with
  | inr err => Ret (inr (ErrWithMessage "reading on-chain balance" err))
  | inl bal => c ← go_deref ethCurrency; Ret (inl (truncateAtAmountMaxLen (Print c bal)))
  end.
End tui.
Arguments tprog {_} _.
