(* ===== verification/TuiProps.v ===== *)
(** * What the dashboard does (cmd/perunnodetui)

    The entries of the table under every interleaving of the commands of the user,
    the notifications of the node and the timers ([dop]): well-formedness, the
    phases an entry goes through, that nothing is answered twice, and that nothing
    waits for ever.  Then payments, and the limits of the registry. *)
From Stdlib Require Import QArith.
From S2P Require Import Prelude Perun Errors Currency Contracts Grpc PbClient TuiText Tui.
Local Open Scope Z_scope.

Section tui_props.
Context {GT : GoTypes} {DL : DecimalLib} {EL : EthLib}.
Implicit Types (a : tui) (e : channel) (p : nat).

(** ** Programs on one entry

    [at_ p e a] is the state [a] with the entry [p] being [e]. *)
Definition at_ p e a : tui := set_entries (<[p := e]> (t_entries a)) a.

Lemma at_at p e e' a : at_ p e' (at_ p e a) = at_ p e' a.
Proof. unfold at_, set_entries. cbn. by rewrite list_insert_insert_eq. Qed.
Lemma at_id p e a : t_entries a !! p = Some e → at_ p e a = a.
Proof. intros H. unfold at_, set_entries. rewrite list_insert_id by done. by destruct a. Qed.
Lemma entries_at p e a : t_entries (at_ p e a) = <[p := e]> (t_entries a).
Proof. reflexivity. Qed.
Lemma lookup_at p e a : is_Some (t_entries a !! p) → t_entries (at_ p e a) !! p = Some e.
Proof. intros H. apply list_lookup_insert_eq. by apply lookup_lt_is_Some. Qed.
Lemma lookup_at_ne p q e a : p ≠ q → t_entries (at_ p e a) !! q = t_entries a !! q.
Proof. apply list_lookup_insert_ne. Qed.


Lemma wlp_deref p a Q :
  (∀ e, t_entries a !! p = Some e → Q [] a e) → wlp (deref p) a Q.
Proof.
  intros H. unfold deref. apply wlp_bind, wlp_get_state, wlp_lift. intros e He.
  unfold go_index in He. case_match; [|done]. simplify_eq. by apply H.
Qed.
Lemma wlp_deref_at p e a Q :
  is_Some (t_entries a !! p) → Q [] (at_ p e a) e → wlp (deref p) (at_ p e a) Q.
Proof. intros Hp H. apply wlp_deref. intros e' He'. rewrite lookup_at in He' by done. by simplify_eq. Qed.

Lemma assign_at p f e a : set_entries (alter f p (t_entries (at_ p e a))) (at_ p e a) = at_ p (f e) a.
Proof.
  unfold at_, set_entries. cbn. by rewrite !list_insert_alter, list_alter_alter_eq.
Qed.
Lemma wlp_assign p e f a Q : Q [] (at_ p (f e) a) tt → wlp (assign p f) (at_ p e a) Q.
Proof. intros H. apply wlp_modify. by rewrite assign_at. Qed.

Definition row_event e : TEvent :=
  TEvRow (row e) [bodyTemplate0 e; bodyTemplate1 e; bodyTemplate2 e] (bool_decide (status e = waitingForUser)).

Lemma wlp_refreshEntry p e a Q :
  is_Some (t_entries a !! p) → Q [row_event (trimEntry e)] (at_ p (trimEntry e) a) tt →
  wlp (refreshEntry p) (at_ p e a) Q.
Proof.
  intros Hp H. unfold refreshEntry. apply wlp_bind, wlp_assign, wlp_bind, wlp_get_state, wlp_bind, wlp_lift.
  intros t _. apply wlp_bind, wlp_deref_at; [done|]. by apply wlp_emit.
Qed.

(** What an operation on the entry [p] does: the entry [e] becomes [e'], the
    registry may learn a channel ID, and nothing else changes. *)
Definition learn (c : option string) (s : Z) a : tui :=
  match c with None => a | Some c => set_R (setChID c s <$> t_R a) a end.

Lemma wlp_with_lock {A} p (m : tprog A) a e Q :
  t_entries a !! p = Some e →
  wlp m (at_ p (set_locked true e) a)
    (λ es a' x, Q es (set_entries (alter (set_locked false) p (t_entries a')) a') x) →
  wlp (with_lock p m) a Q.
Proof.
  intros He H. unfold with_lock. apply wlp_bind, wlp_deref. intros e0 He0. simplify_eq.
  destruct (e_locked e); [apply wlp_block|].
  apply wlp_bind. rewrite <-(at_id p e a) at 1 by done. apply wlp_assign, wlp_bind.
  eapply wlp_mono; [apply H|]. intros es a' x HQ. cbv beta.
  apply wlp_bind, wlp_modify, wlp_mret. cbn [app]. by rewrite app_nil_r.
Qed.

(** What the user is asked: to accept a proposal or an update. *)
Inductive question := AskProposal (proposalID : string) | AskUpdate (updateID : string).

(** The answers given to the node; the other requests change nothing. *)
Definition answer_of (ev : TEvent) : option question :=
  match ev with
  | TEvRequest (RespondPayChProposalReq _ id _) => Some (AskProposal id)
  | TEvRequest (RespondPayChUpdateReq _ _ id _) => Some (AskUpdate id)
  | _ => None
  end.
Definition answers (es : list TEvent) : list question := omap answer_of es.

Lemma answers_app es es' : answers (es ++ es') = answers es ++ answers es'.
Proof. apply omap_app. Qed.
Lemma answers_cons ev es : answers (ev :: es) = option_list (answer_of ev) ++ answers es.
Proof. unfold answers. cbn. by destruct (answer_of ev). Qed.
Lemma answers_nil : answers [] = [].
Proof. reflexivity. Qed.

Definition silent a (es : list TEvent) a' : Prop := a' = a ∧ answers es = [].
#[local] Instance silent_trace : TraceRel silent.
Proof.
  split; [done|]. intros a es a1 es' a2 [-> H] [-> H']. split; [done|]. by rewrite answers_app, H, H'.
Qed.
Lemma quiet_call {A} r (x : A) : answer_of (TEvRequest r) = None → keeps silent (call r x).
Proof.
  intros H s es s' b [= <- <- _]. split; [done|]. cbn [app]. by rewrite answers_cons, H.
Qed.
Lemma quiet_emit ev a : answer_of ev = None → silent a [ev] a.
Proof. intros H. split; [done|]. by rewrite answers_cons, H. Qed.
Hint Resolve quiet_call quiet_emit : keeps.

Lemma keeps_wlp {A} (m : tprog A) a : keeps silent m → wlp m a (λ es a' _, a' = a ∧ answers es = []).
Proof. intros H es a' x Hm. by apply (H _ _ _ _ Hm). Qed.

Lemma run_proposerFn_silent N f : keeps silent (run_proposerFn N f).
Proof. unfold run_proposerFn. keeps_tac. Qed.
Lemma subUpdates_silent N c : keeps silent (subUpdates N c).
Proof. unfold subUpdates. keeps_tac. Qed.
Lemma sendUpdate_silent N c payee amount : keeps silent (sendUpdate N c payee amount).
Proof. unfold sendUpdate. keeps_tac. Qed.
Lemma closeCh_req_silent N c : keeps silent (closeCh_req N c).
Proof. unfold closeCh_req. keeps_tac. Qed.

(** Followed by something silent, a request for an answer is one answer. *)
Lemma one_answer {A B} r (x : A) (m : A → tprog B) a q :
  answer_of (TEvRequest r) = Some q → (∀ x, keeps silent (m x)) →
  wlp (call r x ≫= m) a (λ es a' _, a' = a ∧ answers es = [q]).
Proof.
  intros Hr Hm. apply wlp_bind. intros es a1 x' [= <- <- <-].
  intros es' a2 b Hb. apply Hm in Hb as [-> Hb]. split; [done|].
  cbn [app]. by rewrite answers_cons, Hr, Hb.
Qed.
Lemma respondToProposal_req_answers N u b a :
  wlp (respondToProposal_req N u b) a (λ es a' _, a' = a ∧ answers es ⊆+ [AskProposal u]).
Proof.
  unfold respondToProposal_req. apply wlp_bind, wlp_get_state.
  destruct (t_client a); cbn [negb]; [|apply wlp_mret; split; [done|apply submseteq_nil_l]].
  eapply wlp_mono; [apply one_answer; [done|]; intros x; keeps_tac|].
  intros es a' x [-> H]. cbn [app]. by rewrite H.
Qed.
Lemma respondToUpdate_req_answers N c u b a :
  wlp (respondToUpdate_req N c u b) a (λ es a' _, a' = a ∧ answers es ⊆+ [AskUpdate u]).
Proof.
  unfold respondToUpdate_req. apply wlp_bind, wlp_get_state.
  destruct (t_client a); cbn [negb]; [|apply wlp_mret; split; [done|apply submseteq_nil_l]].
  eapply wlp_mono; [apply one_answer; [done|]; intros x; keeps_tac|].
  intros es a' x [-> H]. cbn [app]. by rewrite H.
Qed.

(** ** What one operation does to its entry *)

(** The phases of a channel that is open on the node. *)
Definition listed (x : chPhase) : bool :=
  match x with transact | register | settle | closed => true | _ => false end.

(** How the phase of an entry can change in one operation: [late] allows the
    notification of a final update to reach an entry that is closed already. *)
Inductive phase_step (late : bool) : chPhase → chPhase → Prop :=
| ps_same x : phase_step late x x
| ps_refused : phase_step late open errorPhase
| ps_opened : phase_step late open transact
| ps_settling : phase_step late transact settle
| ps_finalizing x : listed x = true → (x = closed → late = true) → phase_step late x register
| ps_closed x : listed x = true → phase_step late x closed.

(** What identifies an entry never changes; its mutex is free again. *)
Record same_id e e' : Prop := {
  si_sNo : sNo e' = sNo e;
  si_row : row e' = row e;
  si_peer : peer e' = peer e;
  si_isIncoming : isIncoming e' = isIncoming e;
  si_locked : e_locked e' = e_locked e;
}.

Inductive changes (late : bool) e e' : option string → Prop :=
| changes_local :
    same_id e e' → chID e' = chID e → phase_step late (phase e) (phase e') →
    (phase e' = transact → phase e = transact) → changes late e e' None
| changes_opened :
    same_id e e' → phase e = open → phase e' = transact → changes late e e' (Some (chID e')).

Definition asked_by e : question :=
  if decide (phase e = open) then AskProposal (updateID e) else AskUpdate (updateID e).
(** What an entry waits for. *)
Definition waiting e : list question := match status e with waitingForUser => [asked_by e] | _ => [] end.

(** [k] are the proposals and updates the operation notifies. *)
Definition entry_post (late : bool) (k : list question) p a e (es : list TEvent) a' : Prop :=
  ∃ e' c, changes late e e' c ∧ a' = at_ p e' (learn c (sNo e) a) ∧
          answers es ++ waiting e' ⊆+ k ++ waiting e.

Lemma wlp_locked late k p m a e :
  t_entries a !! p = Some e →
  (e_locked e = false →
   wlp m (at_ p (set_locked true e) a)
     (λ es a' _, ∃ e' c, changes late e (set_locked false e') c ∧ a' = at_ p e' (learn c (sNo e) a) ∧
                        answers es ++ waiting e' ⊆+ k ++ waiting e)) →
  wlp (with_lock p m) a (λ es a' (_ : unit), entry_post late k p a e es a').
Proof.
  intros He H. destruct (e_locked e) eqn:El.
  - apply wlp_bind, wlp_deref. intros e' He'. simplify_eq. rewrite El. apply wlp_block.
  - eapply wlp_with_lock; [done|]. eapply wlp_mono; [by apply H|].
    intros es a' [] (e' & c & Hc & -> & Hn). rewrite assign_at. eexists _, _. split; [done|]. by split.
Qed.
End tui_props.

(** Runs the assignments of an operation on the entry [p]. *)
Ltac entry_step :=
  lazymatch goal with
  | |- wlp (_ ≫= _) _ _ => apply wlp_bind
  | |- wlp (assign _ _) _ _ => apply wlp_assign
  | |- wlp (refreshEntry _) _ _ => apply wlp_refreshEntry; [assumption|]
  | |- wlp (deref _) (at_ _ _ _) _ => apply wlp_deref_at; [assumption|]
  | |- wlp (mret _) _ _ => apply wlp_mret
  | |- wlp (logError _) _ _ => apply wlp_emit
  | |- wlp (logInfo _) _ _ => apply wlp_emit
  | |- wlp (lift _) _ _ => apply wlp_lift; intros
  | |- wlp get_state _ _ => apply wlp_get_state
  | |- wlp (if decide ?P then _ else _) _ _ => destruct (decide P)
  | |- wlp (match ?x with _ => _ end) _ _ => destruct x eqn:?
  | |- wlp (let '(_, _) := ?x in _) _ _ => destruct x
  end.
Ltac entry_steps := repeat (entry_step; cbv beta; cbn [app]).

(** A request that is not an answer. *)
Ltac silent_step H :=
  eapply wlp_mono; [apply keeps_wlp, H|]; cbv beta;
  let es := fresh "es" in let x := fresh "x" in let Hes := fresh "Hes" in
  intros es ? x [-> Hes].

(** Counts the answers of a concrete list of actions. *)
Ltac count_answers :=
  repeat rewrite ?answers_app, ?answers_cons, ?answers_nil;
  repeat match goal with H : answers _ = _ |- _ => rewrite H end;
  cbn [answer_of row_event option_list app].

(** Compares what was asked and answered before and after. *)
Ltac questions :=
  count_answers; unfold waiting; cbn; rewrite ?app_nil_r;
  first [apply submseteq_nil_l | done | reflexivity | idtac].

(** Concludes an operation that has run to its end. *)
Ltac entry_fields :=
  cbn; repeat match goal with H : phase _ = _ |- _ => rewrite H end;
  first [done | congruence | by split; cbn; congruence | by constructor | idtac].
Ltac entry_local :=
  eexists _, None; split; cycle 1;
  [split; [reflexivity|questions]|apply changes_local; entry_fields].
Ltac entry_opened :=
  eexists _, (Some _); split; cycle 1;
  [split; [reflexivity|questions]|apply changes_opened; entry_fields].

Section tui_ops.
Context {GT : GoTypes} {DL : DecimalLib} {EL : EthLib}.
Implicit Types (a : tui) (e : channel) (p : nat).

Lemma notifyIncomingChannel_expired_op late p a e :
  t_entries a !! p = Some e →
  wlp (notifyIncomingChannel_expired p) a (λ es a' _, entry_post late [] p a e es a').
Proof.
  intros He. apply wlp_locked; [done|]. intros Hl. assert (is_Some (t_entries a !! p)) by eauto.
  entry_steps.
  - destruct_and!. cbn in *. by entry_local.
  - by entry_local.
Qed.

Lemma wlp_learn p e a c s Q :
  Q [] (at_ p e (learn (Some c) s a)) tt →
  wlp (with_R (λ R, Ret (tt, setChID c s R))) (at_ p e a) Q.
Proof.
  intros H. unfold with_R. apply wlp_bind, wlp_get_state, wlp_bind, wlp_lift. intros R HR.
  apply wlp_bind, wlp_lift. intros [[] R'] [= <-]. apply wlp_bind, wlp_modify, wlp_mret. cbn [app].
  unfold go_deref in HR. cbn in HR. destruct (t_R a) as [R0|] eqn:E; [|done]. injection HR as ->.
  unfold learn in H. rewrite E in H. exact H.
Qed.

Lemma toTransact_op N p c cur e a :
  is_Some (t_entries a !! p) →
  wlp (toTransact N p c cur) (at_ p e a) (λ es a' _, ∃ e',
    a' = at_ p e' a ∧ same_id e e' ∧ phase e' = transact ∧ chID e' = c ∧ status e' = noUpdate ∧
    answers es = []).
Proof.
  intros Hp. unfold toTransact. entry_steps. silent_step subUpdates_silent.
  entry_steps; (eexists; split; [reflexivity|]; split_and!; [by split|done..|by count_answers]).
Qed.

Lemma respondToProposal_op N late p accept a e :
  is_Some (t_entries a !! p) → phase e = open → status e = waitingForUser →
  wlp (respondToProposal N p accept) (at_ p e a) (λ es a' _, ∃ e' c,
    changes late e e' c ∧ a' = at_ p e' (learn c (sNo e) a) ∧
    answers es ++ waiting e' ⊆+ [AskProposal (updateID e)]).
Proof.
  intros Hp Ho Hs. unfold respondToProposal. entry_steps.
  eapply wlp_mono; [apply respondToProposal_req_answers|]. intros es a' [[c b] err] [-> Hes]. cbv beta.
  entry_steps; [by entry_local..|]. apply wlp_learn.
  eapply wlp_mono; [apply toTransact_op|].
  { unfold learn. by destruct Hp. }
  intros es' a' [] (e' & -> & Hid & Hph & <- & Hst & Hes'). exists e', (Some (chID e')).
  split_and!; [|done|].
  - apply changes_opened; [|done..]. destruct Hid. by split.
  - count_answers. unfold waiting. by rewrite Hst, !app_nil_r.
Qed.

Lemma respondToUpdate_op N late p accept a e :
  is_Some (t_entries a !! p) → status e = waitingForUser →
  wlp (respondToUpdate N p accept) (at_ p e a) (λ es a' _, ∃ e' c,
    changes late e e' c ∧ a' = at_ p e' (learn c (sNo e) a) ∧
    answers es ++ waiting e' ⊆+ [AskUpdate (updateID e)]).
Proof.
  intros Hp Hs. unfold respondToUpdate. entry_steps.
  eapply wlp_mono; [apply respondToUpdate_req_answers|]. intros es a' [b err] [-> Hes]. cbv beta.
  entry_steps; by entry_local.
Qed.

Lemma changes_unlock late e e' c :
  e_locked e = false → changes late (set_locked true e) e' c → changes late e (set_locked false e') c.
Proof.
  intros Hl [[] ? ? ?|[] ? ?].
  - apply changes_local; [|done..]. by split; cbn in *; congruence.
  - apply (changes_opened late e (set_locked false e')); [|done..]. by split; cbn in *; congruence.
Qed.

Lemma respond_op N late p accept a e :
  t_entries a !! p = Some e →
  wlp (respond N p accept) a (λ es a' _, entry_post late [] p a e es a').
Proof.
  intros He. apply wlp_locked; [done|]. intros Hl. assert (is_Some (t_entries a !! p)) by eauto.
  entry_steps; try solve [by entry_local].
  all: assert (Hs : status e = waitingForUser) by (destruct (decide (status e = waitingForUser)); [done|by exfalso; eauto]).
  all: eapply wlp_mono; [first [by eapply (respondToProposal_op N late) | by eapply (respondToUpdate_op N late)]|].
  all: intros es a' [] (e' & c & Hc & -> & Hn); exists e', c; split_and!; [by apply changes_unlock|done|].
  all: unfold waiting at 2, asked_by; rewrite Hs; cbn in *; case_decide; solve [done|congruence].
Qed.

Lemma notifyClosingUpdate_op late p updated errorMsg a e :
  t_entries a !! p = Some e → listed (phase e) = true →
  wlp (notifyClosingUpdate p updated errorMsg) a (λ es a' _, entry_post late [] p a e es a').
Proof.
  intros He Hp. apply wlp_locked; [done|]. intros Hl. assert (is_Some (t_entries a !! p)) by eauto.
  entry_steps; by entry_local.
Qed.

Lemma notifyNonClosingUpdate_op late zone p u b expiry isFinal a e :
  t_entries a !! p = Some e → listed (phase e) = true →
  (isFinal = true → phase e = closed → late = true) →
  wlp (notifyNonClosingUpdate zone p u b expiry isFinal) a (λ es a' _, entry_post late [AskUpdate u] p a e es a').
Proof.
  intros He Hp Hlate. apply wlp_locked; [done|]. intros Hl. assert (is_Some (t_entries a !! p)) by eauto.
  assert (Hno : phase e ≠ open) by (intros E; by rewrite E in Hp).
  entry_steps; (eexists _, None; split; cycle 1;
    [split; [reflexivity|count_answers; unfold waiting at 1, asked_by; cbn]|apply changes_local; entry_fields]).
  - rewrite decide_False by done. apply submseteq_skip, submseteq_nil_l.
  - apply ps_finalizing; [done|]. by apply Hlate.
  - rewrite decide_False by done. apply submseteq_skip, submseteq_nil_l.
Qed.

Lemma notifyNonClosingUpdate_expired_op late p u a e :
  t_entries a !! p = Some e →
  wlp (notifyNonClosingUpdate_expired p u) a (λ es a' _, entry_post late [] p a e es a').
Proof.
  intros He. apply wlp_locked; [done|]. intros Hl. assert (is_Some (t_entries a !! p)) by eauto.
  entry_steps; by entry_local.
Qed.

Lemma update_op N late p amount isPayeePeer a e :
  t_entries a !! p = Some e →
  wlp (update N p amount isPayeePeer) a (λ es a' _, entry_post late [] p a e es a').
Proof.
  intros He. apply wlp_locked; [done|]. intros Hl. assert (is_Some (t_entries a !! p)) by eauto.
  entry_steps; [by entry_local| |by entry_local].
  silent_step sendUpdate_silent. destruct x as [[isAccepted updated] err]. entry_steps; by entry_local.
Qed.

Lemma closeCh_op N late p a e :
  t_entries a !! p = Some e →
  wlp (closeCh N p) a (λ es a' _, entry_post late [] p a e es a').
Proof.
  intros He. apply wlp_locked; [done|]. intros Hl. assert (is_Some (t_entries a !! p)) by eauto.
  entry_steps; [by entry_local|]. silent_step closeCh_req_silent. destruct x as [updated err].
  assert (Hr : phase e = transact) by
    (match goal with H : ¬ ¬ ready _ |- _ => by apply dec_stable in H as [? _] end).
  entry_steps; by entry_local.
Qed.

Lemma propose_result_op late N p r a e :
  t_entries a !! p = Some e → phase e = open →
  wlp (propose_result N p r) a (λ es a' _, entry_post late [] p a e es a').
Proof.
  intros He Hp. destruct r as [[[isAccepted c] cur] err]. unfold propose_result.
  destruct err as [err|].
  { apply wlp_emit. exists e, None. split_and!; [|cbn; by rewrite at_id|by count_answers].
    apply changes_local; [by split|done|constructor|done]. }
  apply wlp_locked; [done|]. intros Hl. assert (is_Some (t_entries a !! p)) by eauto.
  entry_steps; [by entry_local|]. apply wlp_learn.
  eapply wlp_mono; [apply toTransact_op|].
  { unfold learn. by destruct H. }
  intros es' a' [] (e' & -> & Hid & Hph & <- & Hst & Hes'). exists e', (Some (chID e')).
  split_and!; [|done|].
  - apply changes_unlock; [done|]. by apply changes_opened.
  - count_answers. unfold waiting. rewrite Hst. apply submseteq_nil_l.
Qed.
End tui_ops.

(** ** Runs of the dashboard *)
Section tui_runs.
Context {GT : GoTypes} {DL : DecimalLib} {EL : EthLib}.
Implicit Types (a : tui) (e : channel) (p : nat) (R : registry).

(** What [openCmdHandler] does before it waits for the peer. *)
Definition open_begin (N : NodeServer) (peer ours theirs : string)
    : tprog (nat * (bool * string * balInfo * option goerror)) :=
  p ← newOutgoingChannel peer ours theirs (mkProposerFn peer ours theirs);
  p ← lift (go_deref p);
  e ← deref p;
  with_R (λ R, R ← putAtIndex (sNo e) p R; Ret (tt, R));;
  r ← propose_call N p; mret (p, r).

(** The steps the goroutines of the dashboard interleave: each runs without
    interruption, from one point where it holds no mutex to the next. *)
Inductive dop :=
| DOpen (N : NodeServer) (peer ours theirs : string)
| DProposed (N : NodeServer) (p : nat) (r : bool * string * balInfo * option goerror)
| DProposal (zone : Z → Z) (notif : pb_ProposalNotify)
| DProposalExpired (p : nat)
| DRespond (N : NodeServer) (p : nat) (accept : bool)
| DNotified (notif : pb_UpdateNotify)
| DUpdate (zone : Z → Z) (p : nat) (u : string) (b : balInfo) (expiry : Z) (isFinal : bool)
| DUpdateExpired (p : nat) (u : string)
| DSend (N : NodeServer) (p : nat) (amount : string) (isPayeePeer : bool)
| DClose (N : NodeServer) (p : nat).

Definition run_dop (op : dop) : tprog unit :=
  match op with
  | DOpen N peer ours theirs => open_begin N peer ours theirs;; mret tt
  | DProposed N p r => propose_result N p r
  | DProposal zone notif => incomingChannel zone notif
  | DProposalExpired p => notifyIncomingChannel_expired p
  | DRespond N p accept => respond N p accept
  | DNotified notif => incomingUpdate notif;; mret tt
  | DUpdate zone p u b expiry isFinal => notifyNonClosingUpdate zone p u b expiry isFinal
  | DUpdateExpired p u => notifyNonClosingUpdate_expired p u
  | DSend N p amount isPayeePeer => update N p amount isPayeePeer
  | DClose N p => closeCh N p
  end.

(** When a step can happen: the answer to a proposal reaches an entry that waits
    for it, and an update one whose channel is known to the node (the goroutine
    showing it was started for such an entry); with [late = false] no final update
    reaches an entry that is closed already. *)
Definition dop_ok (late : bool) (op : dop) a : Prop :=
  match op with
  | DProposed _ p _ => ∃ e, t_entries a !! p = Some e ∧ phase e = open
  | DUpdate _ p _ _ _ isFinal =>
      ∃ e, t_entries a !! p = Some e ∧ listed (phase e) = true ∧
           (isFinal = true → phase e = closed → late = true)
  | _ => True
  end.

(** What the user is asked by a notification that is shown. *)
Definition notified (op : dop) : list question :=
  match op with
  | DProposal _ notif => [AskProposal (pbp_ProposalID notif)]
  | DUpdate _ _ u _ _ _ => [AskUpdate u]
  | _ => []
  end.

Inductive drun (late : bool) : list dop → tui → list TEvent → tui → Prop :=
| drun_nil a : drun late [] a [] a
| drun_cons op ops a es a1 es' a' :
    dop_ok late op a → run_dop op a = (es, a1, Ret tt) → drun late ops a1 es' a' →
    drun late (op :: ops) a (es ++ es') a'.

(** ** Well-formedness

    Entries are numbered in the order in which they were made, and written to the
    row of their number; the registry finds the entries it has room for under
    their numbers, and exactly the channels known to the node by their IDs. *)
Record wf_table a (t : table) : Prop := {
  wt_offset : offset t = 3;
  wt_last : lastIndex t = cntRows t - 3;
  wt_current : currentIndex t = Z.of_nat (length (t_entries a)) + 1;
  wt_room : currentIndex t ≤ lastIndex t;
}.
Record wf_registry (l : list channel) (t : table) R : Prop := {
  wr_size : length (proposals R) = Z.to_nat (lastIndex t - offset t);
  wr_entry i p : proposals R !! i = Some (Some p) → i = S p ∧ (p < length l)%nat;
  wr_found p : (p < length l)%nat → (S p < length (proposals R))%nat → proposals R !! S p = Some (Some p);
  wr_chID c s : byChID R !! c = Some s →
    ∃ p e, s = Z.of_nat p + 1 ∧ l !! p = Some e ∧ listed (phase e) = true ∧ chID e = c;
  wr_listed p e : l !! p = Some e → listed (phase e) = true → is_Some (byChID R !! chID e);
}.
Record wf_tui a : Prop := {
  wf_T : ∃ t R, t_T a = Some t ∧ t_R a = Some R ∧ wf_table a t ∧ wf_registry (t_entries a) t R;
  wf_entry p e : t_entries a !! p = Some e →
    sNo e = Z.of_nat p + 1 ∧ row e = Z.of_nat p + 3 ∧ e_locked e = false;
}.

Record evolves_entry (late : bool) e e' : Prop := {
  ev_sNo : sNo e' = sNo e;
  ev_row : row e' = row e;
  ev_peer : peer e' = peer e;
  ev_incoming : isIncoming e' = isIncoming e;
  ev_phase : rtc (phase_step late) (phase e) (phase e');
}.
Definition tui_evolves (late : bool) a a' : Prop :=
  ∀ p e, t_entries a !! p = Some e → ∃ e', t_entries a' !! p = Some e' ∧ evolves_entry late e e'.

Definition all_waiting a : list question := t_entries a ≫= waiting.

Definition dstep_post (late : bool) (k : list question) a (es : list TEvent) a' : Prop :=
  wf_tui a' ∧ tui_evolves late a a' ∧ answers es ++ all_waiting a' ⊆+ k ++ all_waiting a.

Lemma evolves_refl late e : evolves_entry late e e.
Proof. by split. Qed.
Lemma tui_evolves_refl late a : tui_evolves late a a.
Proof. intros p e He. exists e. split; [done|]. apply evolves_refl. Qed.
Lemma tui_evolves_trans late a a1 a2 :
  tui_evolves late a a1 → tui_evolves late a1 a2 → tui_evolves late a a2.
Proof.
  intros H1 H2 p e He. destruct (H1 p e He) as (e1 & He1 & []). destruct (H2 p e1 He1) as (e2 & He2 & []).
  exists e2. split; [done|]. split; try congruence. by etrans.
Qed.

Lemma changes_evolves late e e' c : changes late e e' c → evolves_entry late e e'.
Proof.
  intros [[] ? Hp ?|[] Ho Ht]; split; try done; apply rtc_once; [done|].
  rewrite Ho, Ht. constructor.
Qed.

Lemma phase_step_listed late x y : phase_step late x y → listed x = true → listed y = true.
Proof. by destruct 1. Qed.
Lemma phase_step_new late x y : phase_step late x y → listed y = true → y ≠ transact → listed x = true.
Proof. by destruct 1. Qed.

Lemma bind_insert {A B} (f : A → list B) (l : list A) i x :
  l !! i = Some x → ∃ rest, l ≫= f ≡ₚ f x ++ rest ∧ ∀ y, <[i := y]> l ≫= f ≡ₚ f y ++ rest.
Proof.
  intros Hi. exists ((take i l ≫= f) ++ (drop (S i) l ≫= f)). split.
  - rewrite <-(take_drop_middle _ _ _ Hi) at 1. rewrite bind_app. cbn.
    by rewrite !app_assoc, (Permutation_app_comm (f x)).
  - intros y. rewrite insert_take_drop by (by eapply lookup_lt_Some). rewrite bind_app. cbn.
    by rewrite !app_assoc, (Permutation_app_comm (f y)).
Qed.

Lemma wf_registry_changes late l t R p e e' c :
  wf_registry l t R → l !! p = Some e → sNo e = Z.of_nat p + 1 → changes late e e' c →
  wf_registry (<[p := e']> l) t (match c with None => R | Some c => setChID c (sNo e) R end).
Proof.
  intros [Hsz Hen Hfo Hch Hli] He Hs Hc.
  assert (Hl : listed (phase e) = true → listed (phase e') = true).
  { destruct Hc as [? ? Hp ?|? ? Ht]; [by eapply phase_step_listed|by rewrite Ht]. }
  assert (Hne : ∀ q, p ≠ q → <[p:=e']> l !! q = l !! q) by (intros; by apply list_lookup_insert_ne).
  assert (Heq : <[p:=e']> l !! p = Some e') by (by eapply list_lookup_insert_eq, lookup_lt_Some).
  assert (Hold : ∀ c s, byChID R !! c = Some s → ∃ q e0, s = Z.of_nat q + 1 ∧
            <[p:=e']> l !! q = Some e0 ∧ listed (phase e0) = true ∧ chID e0 = c).
  { intros c0 s (q & e0 & -> & Hq & Hph & Hid)%Hch. exists q. destruct (decide (p = q)) as [<-|].
    - exists e'. simplify_eq. split_and!; [done..|by auto|]. destruct Hc as [|? Ho]; [done|].
      by rewrite Ho in Hph.
    - exists e0. rewrite Hne by done. auto. }
  split.
  - by destruct c.
  - intros i q Hi. rewrite length_insert. apply Hen. by destruct c.
  - intros q. rewrite length_insert. intros. destruct c; by apply Hfo.
  - intros c0 s. destruct c as [c|]; [|apply Hold]. cbn.
    intros [[<- <-]|[_ H]]%lookup_insert_Some; [|by eapply Hold].
    exists p, e'. inversion Hc as [|? ? Ht]. split_and!; [done..|by rewrite Ht|done].
  - intros q e0. destruct (decide (p = q)) as [<-|].
    + rewrite Heq. intros [= <-] Hl'. destruct Hc as [? Hid Hp Htr|]; cbn.
      * rewrite Hid. apply (Hli p); [done|]. destruct (decide (phase e' = transact)) as [E|E].
        -- by rewrite (Htr E).
        -- by eapply phase_step_new.
      * rewrite lookup_insert_eq. eauto.
    + rewrite Hne by done. intros Hq Hph. pose proof (Hli q e0 Hq Hph) as [s Hs'].
      destruct c as [c|]; cbn; [|eauto]. destruct (decide (c = chID e0)) as [->|].
      * rewrite lookup_insert_eq. eauto.
      * rewrite lookup_insert_ne by done. eauto.
Qed.

(** One operation on one entry. *)
Lemma entry_dstep late k p a e es a' :
  wf_tui a → t_entries a !! p = Some e → entry_post late k p a e es a' → dstep_post late k a es a'.
Proof.
  intros Hwf He (e' & c & Hc & -> & Hn).
  pose proof (changes_evolves _ _ _ _ Hc) as [].
  assert (Hent : t_entries (at_ p e' (learn c (sNo e) a)) = <[p:=e']> (t_entries a)) by (by destruct c).
  assert (Heq : <[p:=e']> (t_entries a) !! p = Some e') by (by eapply list_lookup_insert_eq, lookup_lt_Some).
  destruct Hwf as [(t & R & HT & HR & Ht & Hr) Hwe]. destruct (Hwe p e He) as (Hs & Hrow & Hlo).
  assert (Hlk : e_locked e' = false) by (destruct Hc as [[]|[]]; congruence).
  split_and!; [split| |].
  - exists t, (match c with None => R | Some c => setChID c (sNo e) R end).
    split_and!; [by destruct c|destruct c; cbn; by rewrite HR| |].
    + destruct Ht. split; rewrite ?Hent, ?length_insert; done.
    + rewrite Hent. by eapply wf_registry_changes.
  - intros q e0. rewrite Hent. destruct (decide (p = q)) as [<-|].
    + rewrite Heq. intros [= <-]. split_and!; congruence.
    + rewrite list_lookup_insert_ne by done. apply Hwe.
  - intros q e0 Hq. rewrite Hent. destruct (decide (p = q)) as [<-|].
    + exists e'. simplify_eq. by split.
    + exists e0. rewrite list_lookup_insert_ne by done. split; [done|]. apply evolves_refl.
  - unfold all_waiting. rewrite Hent. destruct (bind_insert waiting _ _ _ He) as (rest & -> & ->).
    rewrite !app_assoc. by apply submseteq_skips_r.
Qed.

(** ** New entries *)
Lemma wlp_with_R {A} (f : registry → outcome (A * registry)) a Q :
  (∀ R x, t_R a = Some R → f R = Ret x → Q [] (set_R (Some x.2) a) x.1) → wlp (with_R f) a Q.
Proof.
  intros H. unfold with_R. apply wlp_bind, wlp_get_state, wlp_bind, wlp_lift. intros R HR.
  apply wlp_bind, wlp_lift. intros x Hx. apply wlp_bind, wlp_modify, wlp_mret. cbn [app].
  unfold go_deref in HR. destruct (t_R a) eqn:E; [|done]. injection HR as ->. by apply (H R).
Qed.

Definition next_row (t : table) : table :=
  mkTable (cntRows t) (offset t) (currentIndex t + 1) (lastIndex t).

Lemma wlp_getRow a t Q :
  wf_table a t → t_T a = Some t →
  Q [] a None →
  (currentIndex t ≠ lastIndex t →
   Q [] (set_T (Some (next_row t)) a)
     (Some (Z.of_nat (length (t_entries a)) + 1, Z.of_nat (length (t_entries a)) + 3))) →
  wlp getRow a Q.
Proof.
  intros [] HT H1 H2. unfold getRow. apply wlp_bind, wlp_get_state, wlp_bind, wlp_lift. rewrite HT.
  intros t' [= <-]. destruct (bool_decide (currentIndex t = lastIndex t)) eqn:E.
  { by apply wlp_mret. }
  apply bool_decide_eq_false in E. destruct (bool_decide _) eqn:E'; [|apply wlp_panic].
  apply wlp_bind, wlp_modify, wlp_mret. cbn [app]. specialize (H2 E).
  rewrite wt_current0, wt_offset0 in *. unfold next_row in H2.
  replace (Z.of_nat (length (t_entries a)) + 1 - 1 + 3) with (Z.of_nat (length (t_entries a)) + 3) by lia.
  rewrite wt_current0, wt_offset0 in H2. exact H2.
Qed.

Definition added e (t : table) R a : tui :=
  set_R (Some R) (set_entries (t_entries a ++ [e]) (set_T (Some (next_row t)) a)).

Lemma added_dstep late a t R R' e :
  wf_tui a → t_T a = Some t → t_R a = Some R → currentIndex t ≠ lastIndex t →
  sNo e = Z.of_nat (length (t_entries a)) + 1 → row e = Z.of_nat (length (t_entries a)) + 3 →
  e_locked e = false → phase e = open → putAtIndex (sNo e) (length (t_entries a)) R = Ret R' →
  dstep_post late (waiting e) a [] (added e t R' a).
Proof.
  intros [(t0 & R0 & HT & HR & [] & []) Hwe] HT' HR' Hne Hs Hrow Hlo Hph Hput.
  rewrite HT' in HT. injection HT as <-. rewrite HR' in HR. injection HR as <-.
  assert (HR1 : byChID R' = byChID R ∧ length (proposals R') = length (proposals R) ∧
    ∀ i, proposals R' !! i = if decide (i = S (length (t_entries a)) ∧ (i < length (proposals R))%nat)
                            then Some (Some (length (t_entries a))) else proposals R !! i).
  { unfold putAtIndex in Hput. rewrite Hs in Hput.
    replace (Z.to_nat (Z.of_nat (length (t_entries a)) + 1)) with (S (length (t_entries a))) in Hput by lia.
    destruct (bool_decide _) eqn:E.
    - cbn in Hput. destruct (go_indexZ _ _); [|done..]. injection Hput as <-. cbn.
      rewrite length_insert. split_and!; [done..|]. intros i. apply bool_decide_eq_true in E.
      destruct (decide _) as [[-> ?]|Hn]; [by apply list_lookup_insert_eq|].
      apply list_lookup_insert_ne. intros <-. apply Hn. lia.
    - injection Hput as <-. split_and!; [done..|]. intros i. apply bool_decide_eq_false in E.
      destruct (decide _) as [[-> ?]|Hn]; [lia|done]. }
  destruct HR1 as (Hby & Hlen & Hlk).
  split_and!; [split| |].
  - exists (next_row t), R'. split_and!; [done..| |]; split; cbn; rewrite ?length_app, ?Hby, ?Hlen; cbn; try done; try lia.
    + intros i q. rewrite Hlk. destruct (decide _) as [[-> ?]|_]; [intros [= <-]; lia|].
      intros Hi%wr_entry0. lia.
    + intros q Hq Hb. rewrite Hlk. destruct (decide _) as [[[= ->] ?]|Hn]; [done|].
      apply wr_found0; [|done]. destruct (decide (q = length (t_entries a))) as [->|]; [|lia].
      exfalso. apply Hn. lia.
    + intros c s (q & e0 & -> & Hq & Hl & Hid)%wr_chID0. exists q, e0. split_and!; [done| |done..].
      by apply lookup_app_l_Some.
    + intros q e0 [Hq|[_ Hq]]%lookup_app_Some; [by eapply wr_listed0|].
      apply list_lookup_singleton_Some in Hq as [_ <-]. by rewrite Hph.
  - intros q e0 [Hq|[Hge Hq]]%lookup_app_Some; [exact (Hwe q e0 Hq)|].
    apply list_lookup_singleton_Some in Hq as [Hq <-].
    replace q with (length (t_entries a)) by lia. auto.
  - intros q e0 Hq. exists e0. split; [by apply lookup_app_l_Some|apply evolves_refl].
  - unfold all_waiting. cbn. rewrite bind_app. cbn. by rewrite app_nil_r, Permutation_app_comm.
Qed.

Lemma dstep_trans late k k' a es a1 es' a2 :
  dstep_post late k a es a1 → dstep_post late k' a1 es' a2 →
  dstep_post late (k ++ k') a (es ++ es') a2.
Proof.
  intros (_ & H1 & H2) (H3 & H4 & H5). split_and!; [done|by eapply tui_evolves_trans|].
  rewrite answers_app, <-app_assoc. etrans; [apply submseteq_skips_l, H5|].
  rewrite Permutation_app_swap_app, (Permutation_app_comm k), <-app_assoc. by apply submseteq_skips_l.
Qed.
Lemma dstep_silent late k a es : wf_tui a → answers es = [] → dstep_post late k a es a.
Proof. intros H Hes. split_and!; [done|apply tui_evolves_refl|]. rewrite Hes. by apply submseteq_inserts_l. Qed.

Lemma wlp_new_entry e a Q :
  Q [] (set_entries (t_entries a ++ [e]) a) (length (t_entries a)) → wlp (new_entry e) a Q.
Proof. intros H. unfold new_entry. by apply wlp_bind, wlp_get_state, wlp_bind, wlp_modify, wlp_mret. Qed.

Lemma wlp_put s p a Q :
  (∀ R R', t_R a = Some R → putAtIndex s p R = Ret R' → Q [] (set_R (Some R') a) tt) →
  wlp (with_R (λ R, R ← putAtIndex s p R; Ret (tt, R))) a Q.
Proof.
  intros H. apply wlp_with_R. intros R [[] R'] HR Hput.
  destruct (putAtIndex s p R) as [R0|w|] eqn:E; [|done..]. injection Hput as <-. by eapply H.
Qed.

Lemma refresh_dstep late p e a :
  wf_tui a → t_entries a !! p = Some e →
  dstep_post late [] a [row_event (trimEntry e)] (at_ p (trimEntry e) a).
Proof.
  intros Hwf He. eapply entry_dstep; [done..|]. exists (trimEntry e), None. split_and!; [|done|].
  - apply changes_local; [by split|done|constructor|done].
  - by rewrite answers_cons.
Qed.

Local Abbreviation out_entry peer ours theirs n :=
  (mkEntry false open peer balInfo_zero waitingForPeer "" (mkBal ours theirs "0") "" "" false
     (Z.of_nat n + 1) (Z.of_nat n + 3) (Some (mkProposerFn peer ours theirs))).

Lemma open_begin_dstep late N peer ours theirs a :
  wf_tui a → wlp (open_begin N peer ours theirs;; mret tt) a (λ es a' _, dstep_post late [] a es a').
Proof.
  intros Hwf. pose proof Hwf as [(t & R & HT & HR & Ht & Hr) Hwe].
  apply wlp_bind. unfold open_begin, newOutgoingChannel. apply wlp_bind, wlp_bind.
  eapply wlp_getRow; [done..| |intros Hne].
  { apply wlp_bind, wlp_emit, wlp_mret, wlp_bind, wlp_lift. intros p [=]. }
  cbv beta iota. apply wlp_bind, wlp_new_entry, wlp_mret, wlp_bind, wlp_lift. intros p [= <-].
  apply wlp_bind, wlp_deref. intros e He. cbn in He.
  rewrite list_lookup_middle in He by done. injection He as <-.
  apply wlp_bind, wlp_put. cbn. intros R0 R' HR' Hput.
  pose proof (added_dstep late a t R0 R' (out_entry peer ours theirs _) Hwf HT HR' Hne
                eq_refl eq_refl eq_refl eq_refl Hput) as Hadd. change (waiting _) with ([] : list question) in Hadd.
  cbn [app]. match goal with |- wlp _ ?a1 _ => set (a1' := a1); change (dstep_post late [] a [] a1') in Hadd end.
  apply wlp_bind. unfold propose_call.
  assert (Hlk : t_entries a1' !! length (t_entries a) = Some (out_entry peer ours theirs (length (t_entries a)))).
  { cbn. by rewrite list_lookup_middle. }
  pose proof (refresh_dstep late _ _ _ (proj1 Hadd) Hlk) as Hrf.
  apply wlp_bind. rewrite <-(at_id _ _ _ Hlk) at 1. apply wlp_refreshEntry; [eauto|].
  apply wlp_bind, wlp_deref_at; [eauto|]. apply wlp_bind, wlp_lift. intros f _.
  silent_step run_proposerFn_silent. apply wlp_mret, wlp_mret. cbn [app].
  rewrite !app_nil_r. pose proof (dstep_trans _ _ _ _ _ _ _ _ Hadd Hrf) as Hpost.
  exact (dstep_trans _ [] [] _ _ _ _ _ Hpost (dstep_silent late [] _ es (proj1 Hpost) Hes)).
Qed.

Lemma incomingChannel_dstep late zone notif a :
  wf_tui a → wlp (incomingChannel zone notif) a (λ es a' _, dstep_post late [AskProposal (pbp_ProposalID notif)] a es a').
Proof.
  intros Hwf. pose proof Hwf as [(t & R & HT & HR & Ht & Hr) Hwe].
  unfold incomingChannel, newIncomingChannel.
  apply wlp_bind, wlp_lift. intros peer _. apply wlp_bind, wlp_lift. intros b _.
  apply wlp_bind, wlp_bind. eapply wlp_getRow; [done..| |intros Hne].
  { apply wlp_mret, wlp_emit. by apply dstep_silent. }
  cbv beta iota. apply wlp_bind, wlp_new_entry, wlp_mret, wlp_bind, wlp_deref. intros e He. cbn in He.
  rewrite list_lookup_middle in He by done. injection He as <-.
  apply wlp_bind, wlp_put. cbn. intros R0 R' HR' Hput. apply wlp_emit. cbn [app].
  pose proof (added_dstep late a t R0 R' (mkEntry false open peer balInfo_zero waitingForUser
    (clock zone (pbp_Expiry notif)) (mkBal (ours b) (theirs b) "0") "" (pbp_ProposalID notif) true _ _ None)
    Hwf HT HR' Hne eq_refl eq_refl eq_refl eq_refl Hput) as Hadd.
  exact (dstep_trans _ [_] [] _ [] _ _ _ Hadd (dstep_silent late [] _ [TEvGo (GoNotifyIncoming _ _)] (proj1 Hadd) eq_refl)).
Qed.

Lemma incomingUpdate_dstep late notif a :
  wf_tui a → wlp (incomingUpdate notif) a (λ es a' _, dstep_post late [] a es a').
Proof.
  intros Hwf. pose proof Hwf as [(t & R & HT & HR & Ht & Hr) Hwe].
  unfold incomingUpdate. apply wlp_bind, wlp_with_R. intros R0 [q R1] HR0 Hget.
  rewrite HR in HR0. injection HR0 as <-.
  destruct (getByChID _ R) as [q'|w|] eqn:E; [|done..]. injection Hget as <- <-. cbn [fst snd].
  replace (set_R (Some R) a) with a by (rewrite <-HR; by destruct a).
  destruct q' as [p|]; [|apply wlp_bind, wlp_emit, wlp_mret; by apply dstep_silent].
  assert (Hp : ∃ e, t_entries a !! p = Some e ∧ listed (phase e) = true).
  { unfold getByChID in E. destruct (byChID R !! _) as [s|] eqn:Es; [|done].
    apply (wr_chID _ _ _ Hr) in Es as (p' & e & -> & He & Hl & _). unfold go_indexZ in E.
    rewrite bool_decide_eq_false_2 in E by lia. unfold go_index in E.
    destruct (proposals R !! _) as [x|] eqn:Ex; [|done]. injection E as ->.
    apply (wr_entry _ _ _ Hr) in Ex as [Ex _]. replace p' with p in He by lia. eauto. }
  destruct Hp as (e & He & Hl). destruct (decide _).
  - apply wlp_bind, wlp_lift. intros b _. apply wlp_bind.
    eapply wlp_mono; [by apply (notifyClosingUpdate_op late)|]. intros es a' [] Hpost. cbv beta.
    apply wlp_mret. cbn [app]. rewrite app_nil_r. by eapply entry_dstep.
  - apply wlp_bind, wlp_lift. intros b _. apply wlp_bind, wlp_emit, wlp_mret. by apply dstep_silent.
Qed.

(** Through a pointer to nothing an operation does not return. *)
Lemma locked_dstep late k p (m : tprog unit) a :
  wf_tui a →
  (∀ e, t_entries a !! p = Some e → wlp (with_lock p m) a (λ es a' _, entry_post late k p a e es a')) →
  wlp (with_lock p m) a (λ es a' _, dstep_post late k a es a').
Proof.
  intros Hwf H. destruct (t_entries a !! p) as [e|] eqn:E.
  - eapply wlp_mono; [by apply H|]. intros es a' [] Hp. by eapply entry_dstep.
  - apply wlp_bind, wlp_deref. intros e He. by rewrite E in He.
Qed.

(** Every step, and so every run. *)
Lemma dop_step late op a :
  wf_tui a → dop_ok late op a → wlp (run_dop op) a (λ es a' _, dstep_post late (notified op) a es a').
Proof.
  intros Hwf Hok. destruct op; cbn [run_dop notified] in *.
  - by apply open_begin_dstep.
  - destruct Hok as (e & He & Hph). eapply wlp_mono; [by eapply propose_result_op|].
    intros es a' [] Hp. by eapply entry_dstep.
  - by apply incomingChannel_dstep.
  - apply locked_dstep; [done|]. intros e He. by apply notifyIncomingChannel_expired_op.
  - apply locked_dstep; [done|]. intros e He. by apply respond_op.
  - apply wlp_bind. eapply wlp_mono; [by apply (incomingUpdate_dstep late)|]. intros es a' b Hp. cbv beta.
    apply wlp_mret. by rewrite app_nil_r.
  - destruct Hok as (e & He & Hl & Hf). apply locked_dstep; [done|]. intros e' He'.
    rewrite He in He'. injection He' as <-. by apply notifyNonClosingUpdate_op.
  - apply locked_dstep; [done|]. intros e He. by apply notifyNonClosingUpdate_expired_op.
  - apply locked_dstep; [done|]. intros e He. by apply update_op.
  - apply locked_dstep; [done|]. intros e He. by apply closeCh_op.
Qed.

Lemma drun_post late ops a es a' :
  wf_tui a → drun late ops a es a' → dstep_post late (ops ≫= notified) a es a'.
Proof.
  intros Hwf Hr. induction Hr as [a|op ops a es a1 es' a' Hok Hop Hr IH].
  { by apply dstep_silent. }
  pose proof (dop_step late op a Hwf Hok _ _ _ Hop) as Hd.
  exact (dstep_trans _ _ _ _ _ _ _ _ Hd (IH (proj1 Hd))).
Qed.

(** With a phase that is final every later one is the same. *)
Lemma errorPhase_final late x : rtc (phase_step late) errorPhase x → x = errorPhase.
Proof. intros H. remember errorPhase as y. induction H as [|? y' ? Hs]; [done|]. subst. by inversion Hs; subst; eauto. Qed.
Lemma closed_final x : rtc (phase_step false) closed x → x = closed.
Proof.
  intros H. remember closed as y. induction H as [|? y' ? Hs]; [done|]. subst.
  inversion Hs; subst; eauto. by match goal with H : _ → false = true |- _ => specialize (H eq_refl) end.
Qed.
Lemma listed_stays late x y : rtc (phase_step late) x y → listed x = true → listed y = true.
Proof. induction 1; [done|]. intros. by eapply IHrtc, phase_step_listed. Qed.
Lemma never_open_again late x y : rtc (phase_step late) x y → y = open → x = open.
Proof. induction 1 as [|? ? ? Hs]; [done|]. intros ->. specialize (IHrtc eq_refl) as ->. by inversion Hs. Qed.

(** C30: Over every interleaving of commands, notifications and timers the dashboard
    stays well formed: entries keep their numbers, rows and peers, no two share a
    row, each can be found under its number while the registry has room, and the
    registry knows the ID of every channel that is known to the node, and takes
    an ID only to an entry that shows the channel with this ID.  An entry leaves Open
    at most once, for Error or Transact, and never returns to it; Error is final;
    an entry known to the node stays in the phases Transact, Register, Settle and
    Closed, where it can go back from Settle to Register when the notification of a
    final update is shown late, and Closed is final unless such a notification is
    shown after the one that the channel was closed. *)
Theorem dashboard_invariant late ops a es a' :
  wf_tui a → drun late ops a es a' →
  wf_tui a' ∧
  ∀ p e, t_entries a !! p = Some e → ∃ e', t_entries a' !! p = Some e' ∧
    sNo e' = sNo e ∧ row e' = row e ∧ peer e' = peer e ∧ isIncoming e' = isIncoming e ∧
    rtc (phase_step late) (phase e) (phase e') ∧
    (phase e = errorPhase → phase e' = errorPhase) ∧
    (phase e ≠ open → phase e' ≠ open) ∧
    (listed (phase e) = true → listed (phase e') = true) ∧
    (late = false → phase e = closed → phase e' = closed).
Proof.
  intros Hwf Hr. destruct (drun_post _ _ _ _ _ Hwf Hr) as (Hwf' & Hev & _). split; [done|].
  intros p e He. destruct (Hev p e He) as (e' & He' & [H1 H2 H3 H4 Hph]). exists e'. split_and!; try done.
  - intros E. rewrite E in Hph. by eapply errorPhase_final.
  - intros Hn E. by eapply Hn, never_open_again.
  - by eapply listed_stays.
  - intros -> E. rewrite E in Hph. by apply closed_final.
Qed.

(** C36: No proposal and no update is answered twice.  Over every interleaving the
    proposals and updates answered to the node, together with those the entries
    still wait for, are, counted with multiplicity, among those the entries waited
    for at the start and those notified since; so when these have different IDs
    every answer is for a different one. *)
Theorem dashboard_answers_once late ops a es a' :
  wf_tui a → drun late ops a es a' →
  answers es ++ all_waiting a' ⊆+ (ops ≫= notified) ++ all_waiting a ∧
  (NoDup ((ops ≫= notified) ++ all_waiting a) → NoDup (answers es ++ all_waiting a')).
Proof.
  intros Hwf Hr. destruct (drun_post _ _ _ _ _ Hwf Hr) as (_ & _ & H). split; [done|].
  intros Hnd. destruct (submseteq_Permutation _ _ H) as [r Hp]. rewrite Hp in Hnd. by apply NoDup_app in Hnd as [? _].
Qed.
End tui_runs.

(** ** Operations that always finish *)
Section tui_total.
Context {GT : GoTypes} {DL : DecimalLib} {EL : EthLib}.
Implicit Types (a : tui) (e : channel) (p : nat) (R : registry).

Lemma wp_deref p e a Q : t_entries a !! p = Some e → Q [] a e → wp (deref p) a Q.
Proof.
  intros He H. unfold deref. apply wp_bind, wp_get_state. unfold go_index. rewrite He. by apply wp_lift.
Qed.
Lemma wp_deref_at p e a Q :
  is_Some (t_entries a !! p) → Q [] (at_ p e a) e → wp (deref p) (at_ p e a) Q.
Proof. intros Hp H. apply (wp_deref p e); [by apply lookup_at|done]. Qed.
Lemma wp_assign p e f a Q : Q [] (at_ p (f e) a) tt → wp (assign p f) (at_ p e a) Q.
Proof. intros H. apply wp_modify. by rewrite assign_at. Qed.
Lemma wp_refreshEntry p e a Q :
  is_Some (t_entries a !! p) → is_Some (t_T a) → Q [row_event (trimEntry e)] (at_ p (trimEntry e) a) tt →
  wp (refreshEntry p) (at_ p e a) Q.
Proof.
  intros Hp [t HT] H. unfold refreshEntry. apply wp_bind, wp_assign, wp_bind, wp_get_state, wp_bind.
  replace (go_deref (t_T (at_ p (trimEntry e) a))) with (Ret t) by (cbn; by rewrite HT).
  apply wp_lift. cbn [app]. apply wp_bind, wp_deref_at; [done|]. by apply wp_emit.
Qed.
(** The mutex is taken and given back; [e'] is the entry when the body ends. *)
Lemma wp_with_lock {A} p (m : tprog A) a e Q :
  t_entries a !! p = Some e → e_locked e = false →
  wp m (at_ p (set_locked true e) a)
    (λ es a' x, Q es (set_entries (alter (set_locked false) p (t_entries a')) a') x) →
  wp (with_lock p m) a Q.
Proof.
  intros He Hl H. unfold with_lock. apply wp_bind, (wp_deref p e); [done|]. rewrite Hl.
  apply wp_bind. rewrite <-(at_id p e a) at 1 by done. apply wp_assign, wp_bind.
  eapply wp_mono; [|apply H]. intros es a' x HQ. cbv beta.
  apply wp_bind, wp_modify, wp_mret. cbn [app]. by rewrite app_nil_r.
Qed.
End tui_total.

Ltac total_step :=
  lazymatch goal with
  | |- wp (_ ≫= _) _ _ => apply wp_bind
  | |- wp (assign _ _) _ _ => apply wp_assign
  | |- wp (refreshEntry _) _ _ => apply wp_refreshEntry; [assumption|assumption|]
  | |- wp (deref _) (at_ _ _ _) _ => apply wp_deref_at; [assumption|]
  | |- wp (mret _) _ _ => apply wp_mret
  | |- wp (emit _) _ _ => apply wp_emit
  | |- wp (logError _) _ _ => apply wp_emit
  | |- wp (logInfo _) _ _ => apply wp_emit
  | |- wp (lift (Ret _)) _ _ => apply wp_lift
  | |- wp get_state _ _ => apply wp_get_state
  | |- wp (if decide ?P then _ else _) _ _ => destruct (decide P)
  | |- wp (match ?x with _ => _ end) _ _ => destruct x eqn:?
  end.
Ltac total_steps := repeat (total_step; cbv beta; cbn [app negb]).

Section tui_live.
Context {GT : GoTypes} {DL : DecimalLib} {EL : EthLib}.
Implicit Types (a : tui) (e : channel) (p : nat) (R : registry).

Lemma wf_T_some a : wf_tui a → is_Some (t_T a).
Proof. intros [(t & R & HT & _) _]. eauto. Qed.
Lemma wf_unlocked a p e : wf_tui a → t_entries a !! p = Some e → e_locked e = false.
Proof. intros [_ Hw] He. by apply (Hw p e). Qed.
Lemma entry_id e a p : t_entries a !! p = Some e → e_locked e = false →
  at_ p (set_locked false (set_locked true e)) a = a.
Proof. intros He Hl. rewrite <-(at_id p e a) at 2 by done. f_equal. destruct e; cbn in *; by subst. Qed.

(** The user is waited for: to answer a proposal, or an update. *)
Definition proposal_waits e : Prop := phase e = open ∧ status e = waitingForUser.
Definition update_waits (u : string) e : Prop := updateID e = u ∧ status e = waitingForUser.
(** The phases in which the timer of an update looks at the entry. *)
Definition timed (x : chPhase) : Prop := x = transact ∨ x = register.

(** An operation [m] that ends [waits] on the entry [e] under [p] and otherwise
    leaves everything as it is. *)
Definition ends_wait (m : tprog unit) a p e (waits : channel → Prop) : Prop :=
  wp m a (λ _ a' _, (¬ waits e → a' = a) ∧
    (waits e → ∃ e', a' = at_ p e' a ∧ status e' = expired ∧ ¬ waits e' ∧ (phase e' = errorPhase ∨ phase e' = phase e))).

Lemma proposal_timer a p e :
  wf_tui a → t_entries a !! p = Some e → ends_wait (notifyIncomingChannel_expired p) a p e proposal_waits.
Proof.
  intros Hwf He. pose proof (wf_T_some _ Hwf). pose proof (wf_unlocked _ _ _ Hwf He) as Hl.
  assert (is_Some (t_entries a !! p)) by eauto.
  eapply wp_with_lock; [done..|]. unfold proposal_waits. total_steps; rewrite assign_at; cbn in *.
  - split; [tauto|]. intros _. eexists. split; [done|]. cbn. split_and!; [done| |by left]. by intros [? ?].
  - split; [|tauto]. intros _. by apply entry_id.
Qed.

Lemma update_timer a p e u :
  wf_tui a → t_entries a !! p = Some e → timed (phase e) →
  ends_wait (notifyNonClosingUpdate_expired p u) a p e (update_waits u).
Proof.
  intros Hwf He Hph. pose proof (wf_T_some _ Hwf). pose proof (wf_unlocked _ _ _ Hwf He) as Hl.
  assert (is_Some (t_entries a !! p)) by eauto. unfold timed in Hph.
  eapply wp_with_lock; [done..|]. unfold update_waits. total_steps; rewrite assign_at; cbn in *.
  - split; [tauto|]. intros _. eexists. split; [done|]. cbn. split_and!; [done| |by right]. by intros [? ?].
  - split; [|tauto]. intros _. by apply entry_id.
Qed.

Lemma locked_noop a p e (m : tprog unit) :
  wf_tui a → t_entries a !! p = Some e →
  m (at_ p (set_locked true e) a) = ([], at_ p (set_locked true e) a, Ret tt) →
  with_lock p m a = ([], a, Ret tt).
Proof.
  intros Hwf He Hm. pose proof (wf_unlocked _ _ _ Hwf He) as Hl.
  assert (wp (with_lock p m) a (λ es a' _, es = [] ∧ a' = a)) as (es & a' & [] & -> & -> & ->); [|done].
  eapply wp_with_lock; [done..|]. exists [], (at_ p (set_locked true e) a), tt.
  rewrite assign_at. split_and!; [done..|by apply entry_id].
Qed.

Lemma untimed_timer a p e u :
  wf_tui a → t_entries a !! p = Some e → ¬ timed (phase e) →
  notifyNonClosingUpdate_expired p u a = ([], a, Ret tt).
Proof.
  intros Hwf He Hph. eapply locked_noop; [done..|].
  assert (is_Some (t_entries a !! p)) as Hp by eauto.
  unfold deref, mbind, prog_mbind, get_state, lift, go_index. cbn [app]. rewrite lookup_at by done. cbn.
  rewrite decide_False; [done|]. unfold timed in Hph. tauto.
Qed.

Lemma unanswered N a p e accept :
  wf_tui a → t_entries a !! p = Some e → status e = waitingForUser → phase e = settle ∨ phase e = closed →
  respond N p accept a = ([], a, Ret tt).
Proof.
  intros Hwf He Hs Hph. eapply locked_noop; [done..|].
  assert (is_Some (t_entries a !! p)) as Hp by eauto.
  unfold deref, mbind, prog_mbind, get_state, lift, go_index. cbn [app]. rewrite lookup_at by done. cbn.
  rewrite Hs. cbn. by destruct Hph as [-> | ->].
Qed.

(** C31: What ends the waiting for the user.  Whatever has happened since, the timer of
    a proposal or of an update finds the mutex of its entry free and finishes.  If
    the entry still waits for the answer to the proposal the timer was started for,
    it is then shown as expired and an answer is no longer accepted; so it is for an
    update, as long as the entry is in Transact or Register; a timer whose proposal
    or update is no longer waited for changes nothing.  But an entry that waits in
    another phase (the notification of the update came after the channel went to
    Settle or Closed) is left as it is by the timer, and in Settle and Closed by the
    answer of the user too, which is dropped without a word: it waits on. *)
Theorem waits_end late ops a es a1 p e :
  wf_tui a → drun late ops a es a1 → t_entries a1 !! p = Some e →
  ends_wait (run_dop (DProposalExpired p)) a1 p e proposal_waits ∧
  (∀ u, timed (phase e) → ends_wait (run_dop (DUpdateExpired p u)) a1 p e (update_waits u)) ∧
  (∀ u, ¬ timed (phase e) → run_dop (DUpdateExpired p u) a1 = ([], a1, Ret tt)) ∧
  (status e = waitingForUser → phase e = settle ∨ phase e = closed →
   ∀ N accept, run_dop (DRespond N p accept) a1 = ([], a1, Ret tt)).
Proof.
  intros Hwf Hr He. destruct (drun_post _ _ _ _ _ Hwf Hr) as (Hwf1 & _).
  split_and!; [by apply proposal_timer|intros; by apply update_timer|intros; by eapply untimed_timer|].
  intros. by eapply unanswered.
Qed.

(** ** The limits of the registry *)

(** Building the screen on a terminal of at least 22 lines gives a well-formed,
    empty dashboard with [y - 20] rows for channels. *)
Lemma newDashboardScreen_wf y a :
  22 ≤ y → t_entries a = [] →
  wp (newDashboardScreen y None None) a (λ es a' err, wf_tui a' ∧ err = None ∧ es = [] ∧
    t_T a' = Some (mkTable (y - 16) 3 1 (y - 19)) ∧ t_client a' = t_client a).
Proof.
  intros Hy Hent. unfold newDashboardScreen, newTable, logsHeight, newRegistry.
  replace (y - (2 * 2 + 2 * 2 + 8)) with (y - 16) by lia.
  rewrite bool_decide_eq_false_2, (bool_decide_eq_false_2 (y - 16 < 2)) by lia.
  apply wp_bind, wp_lift. apply wp_bind, wp_modify, wp_bind. cbn [lastIndex offset].
  rewrite bool_decide_eq_false_2 by lia. apply wp_lift, wp_bind, wp_modify, wp_mret.
  split_and!; [|done|done|cbn; do 2 f_equal; lia|done].
  split; cbn; [|intros p e; by rewrite Hent].
  eexists _, _. split_and!; [done..| |]; split; cbn; rewrite ?Hent, ?length_replicate; cbn; try done; try lia.
  intros i p [[=] _]%lookup_replicate.
Qed.

(** The number of rows never changes. *)
Definition same_rows a (_ : list TEvent) a' : Prop := lastIndex <$> t_T a' = lastIndex <$> t_T a.
#[local] Instance same_rows_trace : TraceRel same_rows.
Proof. split; [done|]. intros a es a1 es' a2 H H'. unfold same_rows in *. congruence. Qed.

Hint Extern 0 (same_rows _ _ _) => reflexivity : keeps.

Lemma same_rows_getRow : keeps same_rows getRow.
Proof.
  intros a es a' x. unfold getRow, mbind, prog_mbind, get_state, lift. destruct (t_T a) as [t|] eqn:E; cbn; [|done].
  destruct (bool_decide _); cbn; [by intros [= _ <- _]|]. destruct (bool_decide _); cbn; [|done].
  intros [= _ <- _]. unfold same_rows. cbn. by rewrite E.
Qed.
Hint Resolve same_rows_getRow : keeps.
Lemma same_rows_assign p f : keeps same_rows (assign p f).
Proof. unfold assign. keeps_tac. Qed.
Lemma same_rows_with_R {A} (f : registry → outcome (A * registry)) : keeps same_rows (with_R f).
Proof. unfold with_R. keeps_tac. Qed.
Hint Resolve same_rows_assign same_rows_with_R : keeps.
Lemma same_rows_with_lock {A} p (m : tprog A) : keeps same_rows m → keeps same_rows (with_lock p m).
Proof. intros H. unfold with_lock, deref. keeps_tac. Qed.
Lemma same_rows_call {A} r (x : A) : keeps same_rows (call r x).
Proof. unfold call. keeps_tac. Qed.
Lemma same_rows_deref p : keeps same_rows (deref p).
Proof. unfold deref. keeps_tac. Qed.
Lemma same_rows_new_entry e : keeps same_rows (new_entry e).
Proof. unfold new_entry. keeps_tac. Qed.
Hint Resolve same_rows_call same_rows_deref same_rows_new_entry : keeps.
Lemma same_rows_refresh p : keeps same_rows (refreshEntry p).
Proof. unfold refreshEntry. keeps_tac. Qed.
Hint Resolve same_rows_refresh : keeps.
Lemma same_rows_toTransact N p c b : keeps same_rows (toTransact N p c b).
Proof. unfold toTransact, subUpdates. keeps_tac. Qed.
Hint Resolve same_rows_toTransact : keeps.

#[local] Ltac rows_tac := keeps_tac; try (apply same_rows_with_lock; rows_tac).
Lemma same_rows_dop op : keeps same_rows (run_dop op).
Proof.
  destruct op; cbn [run_dop].
  - unfold open_begin, newOutgoingChannel, propose_call, run_proposerFn. rows_tac.
  - unfold propose_result. rows_tac.
  - unfold incomingChannel, newIncomingChannel. rows_tac.
  - unfold notifyIncomingChannel_expired. rows_tac.
  - unfold respond, respondToProposal, respondToUpdate, respondToProposal_req, respondToUpdate_req. rows_tac.
  - unfold incomingUpdate, notifyClosingUpdate. rows_tac.
  - unfold notifyNonClosingUpdate. rows_tac.
  - unfold notifyNonClosingUpdate_expired. rows_tac.
  - unfold update, sendUpdate. rows_tac.
  - unfold closeCh, closeCh_req. rows_tac.
Qed.

Lemma drun_rows late ops a es a' : drun late ops a es a' → lastIndex <$> t_T a' = lastIndex <$> t_T a.
Proof.
  induction 1 as [|op ops a es a1 es' a' _ Hop _ IH]; [done|]. rewrite IH.
  exact (same_rows_dop op a es a1 tt Hop).
Qed.

(** What a channel with the number [sNo e] and the ID [c] is found by, in a registry
    of [n] places. *)
Lemma registry_places a t R p e c :
  wf_tui a → t_T a = Some t → t_R a = Some R → t_entries a !! p = Some e →
  byChID R !! c = Some (sNo e) →
  (sNo e < lastIndex t - offset t →
   getByIndex (sNo e) R = Ret (Some p) ∧ getByChID c R = Ret (Some p)) ∧
  (lastIndex t - offset t ≤ sNo e →
   getByIndex (sNo e) R = Ret None ∧
   ∀ notif, pb_ChID (pbu_ProposedPayChInfo notif) = c →
     incomingUpdate notif a = ([], a, Panic "index out of range")).
Proof.
  intros [(t' & R' & HT & HR & Ht & Hr) Hwe] HT' HR' He Hc.
  rewrite HT' in HT. injection HT as <-. rewrite HR' in HR. injection HR as <-.
  destruct (Hwe p e He) as (Hs & _ & _). destruct Hr as [Hsz Hen Hfo Hch Hli].
  apply lookup_lt_Some in He. unfold getByIndex, getByChID, go_indexZ, go_index. rewrite Hc, Hs.
  replace (Z.to_nat (Z.of_nat p + 1)) with (S p) by lia.
  rewrite (bool_decide_eq_false_2 (Z.of_nat p + 1 < 0)) by lia.
  split; intros Hlt.
  - rewrite bool_decide_eq_false_2 by lia. rewrite Hfo by lia. done.
  - rewrite bool_decide_eq_true_2 by lia. split; [done|]. intros notif Hn.
    assert (HN : proposals R !! S p = None) by (apply lookup_ge_None; lia).
    unfold incomingUpdate, with_R, mbind, prog_mbind, get_state, lift. cbn. rewrite HR', Hn. cbn.
    unfold getByChID, go_indexZ, go_index. rewrite Hc, Hs.
    replace (Z.to_nat (Z.of_nat p + 1)) with (S p) by lia.
    rewrite (bool_decide_eq_false_2 (Z.of_nat p + 1 < 0)) by lia. cbn. rewrite HN. done.
Qed.

(** C34: The registry of a dashboard built on a terminal of [y] lines.  The table has room
    for [y - 20] channels, numbered from 1; the registry, which is made with [y - 22]
    places and keeps them whatever happens, never uses place 0.  A channel whose
    number is below [y - 22] is found by its number and by its ID.  The channels with
    the last three numbers are not: no command reaches them, and the first
    notification of an update for one of them crashes the dashboard. *)
Theorem registry_limit y a0 late ops es a p e c :
  22 ≤ y → t_entries a0 = [] →
  drun late ops (final (newDashboardScreen y None None a0)) es a →
  t_entries a !! p = Some e → (byChID <$> t_R a) ≫= (.!! c) = Some (sNo e) →
  ∃ R, t_R a = Some R ∧ Z.of_nat (length (proposals R)) = y - 22 ∧ 1 ≤ sNo e ≤ y - 20 ∧
  (sNo e < y - 22 → getByIndex (sNo e) R = Ret (Some p) ∧ getByChID c R = Ret (Some p)) ∧
  (y - 22 ≤ sNo e →
   getByIndex (sNo e) R = Ret None ∧
   ∀ notif, pb_ChID (pbu_ProposedPayChInfo notif) = c →
     incomingUpdate notif a = ([], a, Panic "index out of range")).
Proof.
  intros Hy Hent Hr He Hc.
  destruct (newDashboardScreen_wf y a0 Hy Hent) as (es0 & a1 & r & Hnew & Hwf & _ & _ & HT1 & _).
  rewrite Hnew in Hr. cbn in Hr. pose proof (drun_rows _ _ _ _ _ Hr) as Hrows. rewrite HT1 in Hrows.
  destruct (drun_post _ _ _ _ _ Hwf Hr) as (Hwf' & _).
  pose proof Hwf' as [(t & R & HT & HR & Ht & Hreg) Hwe]. rewrite HT in Hrows. cbn in Hrows.
  injection Hrows as Hrows. rewrite HR in Hc. cbn in Hc.
  destruct (registry_places a t R p e c Hwf' HT HR He Hc) as [H1 H2].
  rewrite (wt_offset _ _ Ht), Hrows in H1, H2. replace (y - 19 - 3) with (y - 22) in H1, H2 by lia.
  exists R. destruct Ht as [Hoff Hlast Hcur Hroom]. pose proof (wr_size _ _ _ Hreg) as Hsz.
  rewrite Hoff, Hrows in Hsz. destruct (Hwe p e He) as [Hs _]. pose proof (lookup_lt_Some _ _ _ He).
  split_and!; try done; lia.
Qed.

(** ** Payments *)
Definition requests (es : list TEvent) : list PbRequest :=
  omap (λ ev, match ev with TEvRequest r => Some r | _ => None end) es.

Lemma ethCurrency_eq : ethCurrency = Some (mkcurrency ETHSymbol (New 1 ETHMaxDecimals)).
Proof. reflexivity. Qed.

(** The balances shown as proposed: the amount moves from one side to the other. *)
Definition moved (c : currency) (o t amount : Z) (isPayeePeer : bool) (v : Z) : balInfo :=
  let d := if isPayeePeer then amount else - amount in
  mkBal (truncateAtAmountMaxLen (Print c (o - d))) (truncateAtAmountMaxLen (Print c (t + d)))
    (Itoa (int64 (v + 1))).

Lemma getProposedBalInfo_ret c cur amountStr isPayeePeer amount o t v :
  ethCurrency = Some c → Parse c amountStr = inl amount →
  Parse c (ours cur) = inl o → Parse c (theirs cur) = inl t → Atoi (version cur) = inl v →
  getProposedBalInfo cur amountStr isPayeePeer = Ret (inl (moved c o t amount isPayeePeer v)).
Proof.
  intros Hc Ha Ho Ht Hv. unfold getProposedBalInfo, moved. rewrite Hc. cbn. rewrite Ha, Ho, Ht.
  destruct isPayeePeer; cbn; rewrite Hv; [done|].
  by rewrite Z.sub_opp_r.
Qed.

Lemma update_run N a p e amountStr (isPayeePeer : bool) c amount o t v :
  wf_tui a → t_entries a !! p = Some e →
  ready e → t_client a = true → ethCurrency = Some c → Parse c amountStr = inl amount →
  Parse c (ours (current e)) = inl o → Parse c (theirs (current e)) = inl t →
  Atoi (version (current e)) = inl v →
  let payments := [mkPbPayment ETHSymbol (if isPayeePeer then peer e else OwnAlias) amountStr] in
  let resp := srv_SendPayChUpdate N (t_sessionID a) (chID e) payments in
  (∀ info, resp = inl (inl info) → returns (grpcPayChInfotoBalInfo info)) →
  wp (update N p amountStr isPayeePeer) a (λ es a' _, ∃ e',
    a' = at_ p e' a ∧ requests es = [SendPayChUpdateReq (t_sessionID a) (chID e) payments] ∧
    phase e' = transact ∧ proposed e' = trimBal (trimBal (moved c o t amount isPayeePeer v)) ∧
    match resp with
    | inl (inl info) =>
        status e' = accepted ∧ ∃ b, grpcPayChInfotoBalInfo info = Ret b ∧ current e' = trimBal b
    | inl (inr err) =>
        current e' = trimBal (trimBal (current e)) ∧
        status e' = if decide (pb_Code err = 102 ∨ pb_Code err = 101) then peerRejected else errorStatus
    | inr _ => current e' = trimBal (trimBal (current e)) ∧ status e' = errorStatus
    end).
Proof.
  intros Hwf He. pose proof (wf_T_some _ Hwf). pose proof (wf_unlocked _ _ _ Hwf He) as Hl.
  assert (Hp : is_Some (t_entries a !! p)) by eauto.
  intros Hr Hcl Hc Ha Ho Ht Hv payments resp Hresp.
  eapply wp_with_lock; [done..|]. apply wp_bind, wp_deref_at; [done|]. cbv zeta.
  destruct (decide _) as [Hn|_]; [by destruct Hn|].
  apply wp_bind. cbn [current set_locked].
  rewrite (getProposedBalInfo_ret c _ _ _ amount o t v) by done. apply wp_lift. cbn [app].
  apply wp_bind, wp_assign, wp_bind, wp_assign, wp_bind, wp_refreshEntry; [done..|]. cbn [app].
  apply wp_bind. unfold sendUpdate. apply wp_bind, wp_get_state.
  change (t_client _) with (t_client a). rewrite Hcl. cbn [negb app]. cbv zeta.
  change (t_sessionID _) with (t_sessionID a). cbn [peer chID set_locked].
  change "self" with OwnAlias. fold payments. fold resp. apply wp_bind, wp_bind, wp_emit, wp_mret. cbn [app].
  destruct resp as [[info|err]|err] eqn:Er.
  + destruct (Hresp info eq_refl) as [b Hb]. rewrite Hb. total_steps; [].  rewrite assign_at.
    eexists. split; [done|]. cbn. split_and!; [done|apply Hr|done|done|eauto].
  + change (ErrorCode_int ErrPeerRejected) with 102. change (ErrorCode_int ErrPeerRequestTimedOut) with 101.
    destruct (decide (pb_Code err = 102 ∨ pb_Code err = 101)); total_steps; rewrite assign_at;
      eexists; (split; [done|]); cbn; by split_and!; [|apply Hr|..].
  + total_steps. rewrite assign_at. eexists. split; [done|]. cbn. split_and!; try done; apply Hr.
Qed.

(** [send] and [req].  An entry that is not in the transaction phase, or has
    something under way, is left alone.  Otherwise, with balances that can be read,
    exactly one request goes to the node: a payment of the amount in ETH on the
    channel of the entry, to the peer for [send] and to the user for [req]; the
    expected balances are shown meanwhile; and what the entry shows in the end is
    what the node answered: the new balances when the peer accepted, and otherwise
    the old ones with the reason. *)
Theorem update_spec N a p e amountStr isPayeePeer c amount o t v :
  wf_tui a → t_entries a !! p = Some e →
  (¬ ready e → update N p amountStr isPayeePeer a =
     ([TEvLogError (ErrText "Channel not read for updates")], a, Ret tt)) ∧
  (ready e → t_client a = true → ethCurrency = Some c → Parse c amountStr = inl amount →
   Parse c (ours (current e)) = inl o → Parse c (theirs (current e)) = inl t →
   Atoi (version (current e)) = inl v →
   let payments := [mkPbPayment ETHSymbol (if isPayeePeer then peer e else OwnAlias) amountStr] in
   let resp := srv_SendPayChUpdate N (t_sessionID a) (chID e) payments in
   (∀ info, resp = inl (inl info) → returns (grpcPayChInfotoBalInfo info)) →
   wp (update N p amountStr isPayeePeer) a (λ es a' _, ∃ e',
     a' = at_ p e' a ∧ requests es = [SendPayChUpdateReq (t_sessionID a) (chID e) payments] ∧
     phase e' = transact ∧ proposed e' = trimBal (trimBal (moved c o t amount isPayeePeer v)) ∧
     match resp with
     | inl (inl info) =>
         status e' = accepted ∧ ∃ b, grpcPayChInfotoBalInfo info = Ret b ∧ current e' = trimBal b
     | inl (inr err) =>
         current e' = trimBal (trimBal (current e)) ∧
         status e' = if decide (pb_Code err = 102 ∨ pb_Code err = 101) then peerRejected else errorStatus
     | inr _ => current e' = trimBal (trimBal (current e)) ∧ status e' = errorStatus
     end)).
Proof.
  intros Hwf He. pose proof (wf_T_some _ Hwf). pose proof (wf_unlocked _ _ _ Hwf He) as Hl.
  assert (Hp : is_Some (t_entries a !! p)) by eauto. split.
  - intros Hr. assert (Hw : wp (update N p amountStr isPayeePeer) a (λ es a' _,
        es = [TEvLogError (ErrText "Channel not read for updates")] ∧ a' = a)).
    { eapply wp_with_lock; [done..|]. apply wp_bind, wp_deref_at; [done|]. cbv zeta.
      destruct (decide _) as [_|Hn]; [|by destruct Hn].
      apply wp_emit. rewrite assign_at. split; [done|]. by apply entry_id. }
    by destruct Hw as (es & a' & [] & Hrun & -> & ->).
  - intros Hr Hcl Hc Ha Ho Ht Hv payments resp Hresp. by eapply update_run.
Qed.

(** What the dashboard reads before it asks for a payment: a dropped error of a balance
    is a crash, an error of the amount or of the version ends the command. *)
Lemma getProposedBalInfo_cases c b amountStr isPayeePeer :
  ethCurrency = Some c →
  match getProposedBalInfo b amountStr isPayeePeer with
  | Ret (inl _) => is_inl (Parse c amountStr) ∧ is_inl (Parse c (ours b)) ∧ is_inl (Parse c (theirs b)) ∧ is_inl (Atoi (version b))
  | Ret (inr _) => ¬ is_inl (Parse c amountStr) ∨
      is_inl (Parse c (ours b)) ∧ is_inl (Parse c (theirs b)) ∧ ¬ is_inl (Atoi (version b))
  | Panic x => x = "nil pointer dereference" ∧ is_inl (Parse c amountStr) ∧
      ¬ (is_inl (Parse c (ours b)) ∧ is_inl (Parse c (theirs b)))
  | _ => False
  end.
Proof.
  intros Hc. unfold getProposedBalInfo, is_inl. rewrite Hc. cbn.
  destruct (Parse c amountStr) as [n|e0]; [|left; by intros [? [=]]].
  destruct (Parse c (ours b)) as [o|e1], (Parse c (theirs b)) as [t|e2], (Atoi (version b)) as [v|e3], isPayeePeer;
    cbn; naive_solver.
Qed.

(** A payment on an entry that is ready: the dashboard reads amount, balances and
    version first. *)
Lemma update_reads N t p e amount toPeer :
  wf_tui t → t_entries t !! p = Some e → ready e →
  match getProposedBalInfo (current e) amount toPeer with
  | Ret (inr err) => wp (update N p amount toPeer) t (λ es t' _, t' = t ∧ requests es = [])
  | Panic x => value (update N p amount toPeer t) = Panic x
  | _ => True
  end.
Proof.
  intros Hwf He Hr. pose proof (wf_unlocked _ _ _ Hwf He) as Hl. assert (is_Some (t_entries t !! p)) by eauto.
  destruct (getProposedBalInfo _ _ _) as [[b|err]|x|] eqn:Hg; try done.
  - eapply wp_with_lock; [done..|]. apply wp_bind, wp_deref_at; [done|]. cbv zeta.
    destruct (decide _) as [Hn|_]; [by destruct Hn|]. apply wp_bind. cbn [current set_locked]. rewrite Hg.
    apply wp_lift. apply wp_emit. rewrite assign_at. split; [|done]. by apply entry_id.
  - unfold update, with_lock, deref, mbind, prog_mbind, get_state, lift. cbn. unfold go_index. rewrite He.
    cbn. rewrite Hl. unfold assign, modify, get_state. cbn. rewrite list_lookup_alter_eq, He. cbn.
    destruct (decide _) as [Hn|_]; [by destruct Hn|]. cbn. by rewrite Hg.
Qed.

(** A balance that cannot be read -- an amount below one base unit, such as the
    zero of a side that has spent everything -- makes the next payment in either
    direction crash the dashboard: the error of parsing it is dropped and the nil
    number is used. *)
Theorem send_on_empty_balance_panics N a p e amountStr isPayeePeer c amount err :
  wf_tui a → t_entries a !! p = Some e → ready e →
  ethCurrency = Some c → Parse c amountStr = inl amount →
  Parse c (ours (current e)) = inr err ∨ Parse c (theirs (current e)) = inr err →
  value (update N p amountStr isPayeePeer a) = Panic "nil pointer dereference".
Proof.
  intros Hwf He Hr Hc Ha Hz. pose proof (update_reads N a p e amountStr isPayeePeer Hwf He Hr) as Hu.
  pose proof (getProposedBalInfo_cases c (current e) amountStr isPayeePeer Hc) as Hg.
  assert (¬ (is_inl (Parse c (ours (current e))) ∧ is_inl (Parse c (theirs (current e))))) as Hno
    by (intros [[o Ho] [t Ht]]; destruct Hz; congruence).
  destruct (getProposedBalInfo _ _ _) as [[b|e0]|x|]; [|destruct Hg as [Hg|Hg]|by destruct Hg as [-> _]|done].
  - by destruct Hno; split; apply Hg.
  - destruct Hg. by exists amount.
  - by destruct Hno; split; apply Hg.
Qed.

(** ** Streams of notifications *)

(** The balances of a message can be read. *)
Definition readable (notif : pb_UpdateNotify) : Prop :=
  returns (grpcPayChInfotoBalInfo (pbu_ProposedPayChInfo notif)).

Lemma notifyClosingUpdate_total a p e b msg :
  wf_tui a → t_entries a !! p = Some e → listed (phase e) = true →
  wp (notifyClosingUpdate p b msg) a (λ es a' _, wf_tui a' ∧ t_R a' = t_R a ∧ t_T a' = t_T a).
Proof.
  intros Hwf He Hli. pose proof (wf_T_some _ Hwf). pose proof (wf_unlocked _ _ _ Hwf He) as Hl.
  assert (is_Some (t_entries a !! p)) by eauto.
  assert (Hw : wp (notifyClosingUpdate p b msg) a (λ es a' _, t_R a' = t_R a ∧ t_T a' = t_T a)).
  { eapply wp_with_lock; [done..|]. total_steps; done. }
  destruct Hw as (es & a' & [] & Hrun & HR & HT). exists es, a', tt. split_and!; try done.
  pose proof (notifyClosingUpdate_op false p b msg a e He Hli es a' tt Hrun) as Hpost.
  apply (entry_dstep _ _ _ _ _ _ _ Hwf He Hpost).
Qed.

Definition all_registered a : Prop :=
  ∀ t R c s, t_T a = Some t → t_R a = Some R → byChID R !! c = Some s → s < lastIndex t - offset t.

Lemma incomingUpdate_total a notif :
  wf_tui a → all_registered a → readable notif →
  wp (incomingUpdate notif) a (λ es a' b, wf_tui a' ∧ all_registered a').
Proof.
  intros Hwf Hall [b Hb]. pose proof Hwf as [(t & R & HT & HR & Ht & Hr) Hwe].
  unfold incomingUpdate. apply wp_bind. unfold with_R. apply wp_bind, wp_get_state. rewrite HR. cbn [go_deref].
  apply wp_bind, wp_lift. cbn [app].
  assert (Hget : ∃ q, getByChID (pb_ChID (pbu_ProposedPayChInfo notif)) R = Ret q ∧
    ∀ p, q = Some p → ∃ e, t_entries a !! p = Some e ∧ listed (phase e) = true).
  { unfold getByChID. destruct (byChID R !! _) as [s|] eqn:Es; [|by eexists].
    pose proof (Hall t R _ _ HT HR Es) as Hlt. pose proof (wr_size _ _ _ Hr) as Hsz.
    apply (wr_chID _ _ _ Hr) in Es as (p & e & -> & He & Hl & _). unfold go_indexZ, go_index.
    rewrite bool_decide_eq_false_2 by lia. replace (Z.to_nat (Z.of_nat p + 1)) with (S p) by lia.
    pose proof (lookup_lt_Some _ _ _ He). rewrite (wr_found _ _ _ Hr) by lia.
    eexists. split; [done|]. intros p' [= <-]. eauto. }
  destruct Hget as (q & Hget & Hq). rewrite Hget. cbn [mbind outcome_mbind].
  apply wp_bind, wp_lift. cbn [app fst snd]. apply wp_bind, wp_modify, wp_mret. cbn [app].
  replace (set_R (Some R) a) with a by (rewrite <-HR; by destruct a).
  destruct q as [p|]; [|by apply wp_bind, wp_emit, wp_mret].
  destruct (Hq p eq_refl) as (e & He & Hl). rewrite Hb. destruct (decide _).
  - apply wp_bind, wp_lift, wp_bind. eapply wp_mono; [|by eapply notifyClosingUpdate_total].
    intros es a' [] (Hwf' & HR' & HT'). apply wp_mret. split; [done|]. unfold all_registered. by rewrite HR', HT'.
  - apply wp_bind, wp_lift, wp_bind, wp_emit, wp_mret. done.
Qed.

(** C32: The goroutine that handles the updates of a channel ends.  As long as the
    registry has a place for every channel and the balances of every notification
    can be read (both hold a part for each of the two sides), it finishes with the
    end of its stream without crashing; and it does not read beyond the notification
    that the channel is closed.  A notification for a known channel whose balances
    cannot be read crashes the dashboard. *)
Theorem incomingUpdateHandler_ends a sub err :
  wf_tui a → all_registered a → (∀ notif, inl notif ∈ sub → readable notif) →
  wp (incomingUpdateHandler sub err) a (λ es a' _, wf_tui a') ∧
  (∀ pre closing post, sub = pre ++ inl closing :: post → pbu_Type closing = 2 →
    incomingUpdateHandler sub err a = incomingUpdateHandler (pre ++ [inl closing]) err a) ∧
  (∀ notif sub' R p w, t_R a = Some R → getByChID (pb_ChID (pbu_ProposedPayChInfo notif)) R = Ret (Some p) →
    grpcPayChInfotoBalInfo (pbu_ProposedPayChInfo notif) = Panic w →
    value (incomingUpdateHandler (inl notif :: sub') err a) = Panic w).
Proof.
  intros Hwf Hall Hread. split_and!.
  - clear -Hwf Hall Hread. revert a Hwf Hall. induction sub as [|[notif|msgErr] sub IH]; intros a Hwf Hall; cbn.
    + destruct err; by apply wp_emit.
    + apply wp_bind. eapply wp_mono; [|apply incomingUpdate_total; [done..|apply Hread; by left]].
      intros es a' continue [Hwf' Hall']. destruct continue; [|by apply wp_mret].
      apply IH; [|done..]. intros n Hn. apply Hread. by right.
    + by apply wp_emit.
  - intros pre closing post -> Hty. clear -Hty. revert a.
    induction pre as [|[notif|msgErr] pre IH]; intros a; cbn [app incomingUpdateHandler]; [|
      unfold mbind, prog_mbind; destruct (incomingUpdate notif a) as [[es a1] [[]|w|]]; try done; by rewrite IH|done].
    unfold mbind, prog_mbind.
    destruct (incomingUpdate closing a) as [[es a1] [continue|w|]] eqn:E; try done.
    destruct continue; [exfalso|done]. revert E. unfold incomingUpdate.
    intros (es1 & a2 & q & es2 & _ & H2 & _)%bind_ret. destruct q as [p|].
    + rewrite decide_True in H2 by done.
      apply bind_ret in H2 as (? & ? & b & ? & _ & H2 & _).
      apply bind_ret in H2 as (? & ? & [] & ? & _ & H2 & _). by injection H2.
    + apply bind_ret in H2 as (? & ? & [] & ? & _ & H2 & _). by injection H2.
  - intros notif sub' R p w HR Hget Hw. cbn [incomingUpdateHandler].
    unfold incomingUpdate, with_R, mbind, prog_mbind, get_state, lift. cbn. rewrite HR. cbn. rewrite Hget. cbn.
    rewrite Hw. by destruct (decide _).
Qed.
End tui_live.
