(* ===== verification/TuiScreens.v ===== *)
(** * Start, screens and end of the dashboard client (cmd/perunnodetui: main.go, connect.go, dashboard.go)

    The flags, the start of the client up to its event loop, the two screens as trees
    of the elements given to termdash with the sizes computed from the terminal, the
    refreshing of balance and time, and how the client is closed: the event loop, the
    callback of the quit button and the refreshing goroutines share the channel
    [quitter], and are interleaved as steps. *)
From S2P Require Import Prelude Perun Errors Currency Contracts Os Log TestConfig SetupContracts Generate.
From S2P Require Import Grpc PbClient TuiText Tui.
Local Open Scope Z_scope.

Definition terminalMinX : Z := 106.
Definition terminalMinY : Z := 29.
Definition logFile : string := "perunnodetui.log".
Definition logLevel : string := "info".

(** ** Roles (connect.go) *)
Definition alice : string := "Alice".
Definition bob : string := "Bob".
Definition defaultOnChainAddrs : gmap string string :=
  {[ alice := "0x8450c0055cB180C7C37A25866132A740b812937B";
     bob := "0xc4bA4815c82727554e4c12A07a139b74c6742322" ]}.
Definition defaultConfigFileURL : gmap string string :=
  {[ alice := "alice/session.yaml"; bob := "bob/session.yaml" ]}.
Definition defaultNodeURL : string := "localhost:50001".
Definition defaultChainURL : string := "ws://127.0.0.1:8545".

(** Two flags for the role that are both given, or both missing, leave it empty. *)
Definition parseFlags (aliceFlag bobFlag deployFlag : bool) : bool * string :=
  let user :=
    if aliceFlag && negb bobFlag then alice else if negb aliceFlag && bobFlag then bob else "" in
  (deployFlag, user).

(** ** Screens

    A row or a column of fixed size, with its title and padding; [bordered] ones use
    one cell on each side for the border. *)
Record opts := mkOpts { bordered : bool; title : string; padX : Z; padY : Z }.
Definition no_opts : opts := mkOpts false "" 0 0.
Definition box (title : string) : opts := mkOpts true title 0 0.

#[warnings="-register-all"] Inductive element :=
| Widget (name : string)
| RowHeightFixed (h : Z) (o : opts) (l : list element)
| ColWidthFixed (w : Z) (o : opts) (l : list element).

(** What [newConnectScreen] fixes, with the default texts of the fields. *)
Record connectForm := mkForm {
  cs_width : Z; cs_elementHeight : Z; cs_buttonHeight : Z; cs_cntFields : Z;
  cs_fields : connectScreen;
}.

Section screens.
Context {GT : GoTypes}.

(** [err field] is the error of making the field or the button. *)
Definition newConnectScreen (role : string) (err : string → option goerror) : connectForm + goerror :=
  match err "session name", err "perun node URL", err "config URL", err "chain URL",
        err "on-chain address", err "connect", err "quit" with
  | Some e, _, _, _, _, _, _ => inr (ErrWithMessage "initializing session name field" e)
  | _, Some e, _, _, _, _, _ => inr (ErrWithMessage "initializing perun node URL field" e)
  | _, _, Some e, _, _, _, _ => inr (ErrWithMessage "initializing config URL field" e)
  | _, _, _, Some e, _, _, _ => inr (ErrWithMessage "initializing chain URL field" e)
  | _, _, _, _, Some e, _, _ => inr (ErrWithMessage "initializing on-chain address field" e)
  | _, _, _, _, _, Some e, _ => inr (ErrWithMessage "initializing connect button" e)
  | _, _, _, _, _, _, Some e => inr (ErrWithMessage "initializing quit button" e)
  | None, None, None, None, None, None, None =>
      inl (mkForm 65 3 1 5
             (mkConnectScreen role defaultNodeURL (default "" (defaultConfigFileURL !! role))
                defaultChainURL (default "" (defaultOnChainAddrs !! role))))
  end.

(** The form in the middle, the log below; [Z.quot] is the division of Go. *)
Definition connect_grid (x y : Z) (s : connectForm) : list element :=
  let totalHeight := y - logsHeight in
  let verticalFreeSpace :=
    totalHeight - (cs_elementHeight s * cs_cntFields s + cs_buttonHeight s + 1) in
  let totalWidth := cs_width s in
  let horizontalFreeSpace := x - totalWidth in
  let field name := RowHeightFixed (cs_elementHeight s) no_opts [Widget name] in
  [RowHeightFixed totalHeight (mkOpts false "" (Z.quot horizontalFreeSpace 2) 0)
     [ColWidthFixed totalWidth (mkOpts false "" 0 (Z.quot verticalFreeSpace 2))
        [field "sessionName"; field "perunNodeURL"; field "configFileURL"; field "chainURL";
         field "onChainAddr";
         RowHeightFixed (cs_buttonHeight s + 3) no_opts
           [ColWidthFixed (Z.quot totalWidth 2) no_opts [Widget "connect"];
            ColWidthFixed (Z.quot totalWidth 2) no_opts [Widget "quit"]]]];
   RowHeightFixed logsHeight (box "Logs") [Widget "log"]].

(** The texts of the table (newTable). *)
Definition channelsLength : Z := 53.
Definition updatesLength : Z := 50.
Definition tableWidth : Z := channelsLength + updatesLength.
Definition repeat_str (s : string) (n : nat) : string := String.concat "" (replicate n s).
Definition title1 : string :=
  "                             Current Balance                                   Proposed Balance       ".
Definition title2 : string :=
  "  " +:+ pad 6 "S.No" +:+ pad 12 "Phase" +:+ pad 10 "Peer" +:+ pad 8 "Self" +:+ pad 10 "Peer's"
  +:+ pad 5 "Ver" +:+ "│  " +:+ pad 12 "Status" +:+ pad 12 "Timeout" +:+ pad 8 "Self"
  +:+ pad 10 "Peer's" +:+ pad 5 "Ver".
Definition headerRow : string :=
  let chDashes := repeat_str "―" 21 in
  let updateDashes := repeat_str "―" 23 in
  chDashes +:+ "Channels―" +:+ chDashes +:+ updateDashes +:+ "Updates" +:+ updateDashes.
Definition noData : string :=
  repeat_str " " (Z.to_nat channelsLength) +:+ "│" +:+ repeat_str " " (Z.to_nat (updatesLength - 1)).
(** The texts of the rows of a new table. *)
Definition table_texts (h : Z) : list string := title1 :: title2 :: replicate (Z.to_nat (h - 2)) noData.

Definition table_row (i : nat) : string := "row " +:+ pretty i.

(** The heights of the screen are those of [newDashboardScreen]. *)
Definition dashboard_grid (y : Z) (userName : string) (t : table) : list element :=
  let onChainBalHeight := 4 in
  let commandHeight := 4 in
  let tableHeight := y - (onChainBalHeight + commandHeight + logsHeight) in
  let timeWidth := 18 in
  let onChainBalWidth := tableWidth - timeWidth in
  let tableRows := (λ i, RowHeightFixed 1 no_opts [Widget (table_row i)]) <$> seq 0 (Z.to_nat (lastIndex t + 1)) in
  [RowHeightFixed onChainBalHeight no_opts
     [ColWidthFixed onChainBalWidth (box userName)
        [ColWidthFixed onChainBalWidth no_opts [Widget "onChainBal"]];
      ColWidthFixed timeWidth (box "Time") [ColWidthFixed timeWidth no_opts [Widget "time"]]];
   RowHeightFixed tableHeight (box headerRow) tableRows;
   RowHeightFixed commandHeight (box "Command Box") [Widget "command"];
   RowHeightFixed logsHeight (box "Logs") [Widget "log"]].

(** [buildErr] and [updateErr] are errors of termdash. *)
Definition render (screen : string) (l : list element) (buildErr updateErr : option goerror)
    : list element + goerror :=
  match buildErr, updateErr with
  | Some err, _ => inr (ErrWithMessage ("building " +:+ screen) err)
  | None, Some err => inr (ErrWithMessage ("updating " +:+ screen) err)
  | None, None => inl l
  end.
Definition renderConnectScreen (x y : Z) (s : connectForm) := render "connect screen" (connect_grid x y s).
Definition renderDashboardView (y : Z) (userName : string) (t : table) :=
  render "dashboard screen" (dashboard_grid y userName t).
End screens.

(** ** Start (main.go) *)

(** What the terminal and its libraries answer. *)
Record terminal `{GoTypes} := mkTerminal {
  tm_text : option goerror;
  tm_New : option goerror;
  tm_container : option goerror;
  tm_build : option goerror;
  tm_update : option goerror;
  tm_controller : option goerror;
  tm_form : string → option goerror;
  tm_X : Z;
  tm_Y : Z;
}.

Section main.
Context {GT : GoTypes} {EL : EthLib} {DL : DecimalLib} {EN : Env} {TL : TestLib} {CL : ChainLib} {LL : LogLib}.

Inductive UEvent :=
| UDeploy (e : OEvent)
| UPrint (s : string)
| UOpen
| UClose
| ULog (level msg : string)
| UBox (msg : string)
| UScreen (l : list element)
| URunEventLoop.

Record ui := mkUi { u_eth : eth; u_log : logstate }.
Definition uiprog (A : Type) : Type := prog ui UEvent A.

(** Logging goes to the file and to the log box of the screen. *)
Definition logErrorMsg (msg : string) : uiprog unit :=
  emit (ULog "error" msg);; emit (UBox ("Error: " +:+ msg)).
Definition logInfoMsg (msg : string) : uiprog unit := emit (ULog "info" msg);; emit (UBox msg).

Definition deployContractsIfRequested (requested : bool) : uiprog unit :=
  if negb requested then mret tt
  else
    r ← zoom (λ s, Ret (u_eth s)) (λ e s, mkUi e (u_log s)) UDeploy
          (SetupContracts defaultChainURL TestConfig.ChainID TestConfig.OnChainTxTimeout false);
    match r with
    | inr err => panic (error_Error err)
    | inl _ => mret tt
    end.

Definition initLoggers (level file : string) (boxErr : option goerror) : uiprog unit :=
  err ← zoom (λ s, Ret (u_log s)) (λ l s, mkUi (u_eth s) l) (λ e : Empty_set, match e with end)
          (InitLogger level file);
  match err with
  | Some err => panic (error_Error err)
  | None =>
      match boxErr with
      | Some err => panic (error_Error err)
      | None => mret tt
      end
  end.

(** From the opened terminal on: the screen, the controller and the event loop. *)
Definition run_screen (t : terminal) (userName : string) : uiprog unit :=
  let '(x, y) := (tm_X t, tm_Y t) in
  if bool_decide (x < terminalMinX) || bool_decide (y < terminalMinY) then
    logErrorMsg ("Terminal window size is " +:+ pretty x +:+ " x " +:+ pretty y +:+ ". Should be at least "
      +:+ pretty terminalMinX +:+ " x " +:+ pretty terminalMinY)
  else
    logInfoMsg ("Terminal window size: " +:+ pretty x +:+ " x " +:+ pretty y);;
    match tm_container t with
    | Some err => logErrorMsg (error_Error (ErrWithMessage "initializing container" err))
    | None =>
        match newConnectScreen userName (tm_form t) with
        | inr err => logErrorMsg (error_Error (ErrWithMessage "initializing connect screen" err))
        | inl s =>
            match renderConnectScreen x y s (tm_build t) (tm_update t) with
            | inr err => logErrorMsg (error_Error (ErrWithMessage "rendering connect screen" err))
            | inl l =>
                emit (UScreen l);;
                match tm_controller t with
                | Some err => logErrorMsg (error_Error (ErrWithMessage "initializing controller" err))
                | None => emit URunEventLoop
                end
            end
        end
    end.

(** [t.Close] is deferred. *)
Definition main (aliceFlag bobFlag deployFlag : bool) (t : terminal) : uiprog unit :=
  let '(isDeployRequested, userName) := parseFlags aliceFlag bobFlag deployFlag in
  deployContractsIfRequested isDeployRequested;;
  initLoggers logLevel logFile (tm_text t);;
  emit (UPrint ("Errors will not be printed to terminal. See log file: " +:+ logFile));;
  match tm_New t with
  | Some err => panic ("initializing tcell: " +:+ error_Error err)
  | None => emit UOpen;; run_screen t userName;; emit UClose
  end.

(** ** Balance and time (dashboard.go)

    One tick of [updateOnChainBalNTime]; [now] is the time in the layout 15:04:05.
    Writing a text can fail. *)
Record header := mkHeader { h_onChainBal : string; h_time : string }.
Inductive HEvent := HError (err : goerror).

Definition writeText (err : option goerror) (msg : string) (old new : string) : prog header HEvent string :=
  match err with
  | Some err => emit (HError (ErrWithMessage msg err));; mret old
  | None => mret (old +:+ new)
  end.

Definition refresh (chainURL : string) (onChainAddr : address) (now : string)
    (err1 err2 err3 : option goerror) : prog header HEvent unit :=
  bal ← lift (readOnChainBal chainURL onChainAddr);
  onChainBal ← match bal with
    | inr err => emit (HError (ErrWithMessage "reading on-chain balance" err));; mret ""
    | inl s => mret s
    end;
  s ← writeText err1 "writing on-chain balance part 1" ""
        ("
Address: " +:+ pad 50 (addr_String onChainAddr) +:+ "Balance:");
  s ← (if decide (onChainBal = "") then mret s
       else writeText err2 "writing on-chain balance part 2" s (" " +:+ onChainBal +:+ " ETH "));
  t ← writeText err3 "writing time" "" ("
" +:+ spaces (13 - rune_count now) +:+ now);
  modify (λ _, mkHeader s t).
End main.

(** ** Closing the client (main.go, connect.go, dashboard.go)

    [q_closed]: the channel [quitter] is closed.  [q_sender]: the callback of the quit
    button waits until someone receives.  The callbacks of one screen run one after
    the other.  [q_updaters] counts the goroutines that refresh the balance. *)
Inductive loop_state := LoopRuns | LoopCloses | LoopReturned.
#[export] Instance loop_state_eq_dec : EqDecision loop_state.
Proof. solve_decision. Defined.

Record quit_state := mkQuit {
  q_closed : bool;
  q_sender : bool;
  q_loop : loop_state;
  q_updaters : nat;
  q_panic : bool;
}.

Inductive quit_step :=
| PressQuit          (* the callback of the quit button starts: quitter <- true *)
| KeyQuit            (* the event loop reads Esc or Ctrl-C *)
| KeyOther           (* another key, a tick or an error *)
| LoopReceives       (* the event loop receives from quitter *)
| UpdaterReceives    (* a refreshing goroutine receives from quitter and returns *)
| ConnectDone        (* the callback of the connect button has started a goroutine *)
| LoopReturns.       (* one second after closing: the process ends *)

(** [close(quitter)]: closing twice panics, and so does a sender that waits. *)
Definition close_quit (s : quit_state) : quit_state :=
  mkQuit true false LoopCloses (q_updaters s) (q_closed s || q_sender s).

(** [None]: the step cannot happen in the state. *)
Definition quit_next (s : quit_state) (e : quit_step) : option quit_state :=
  if q_panic s then None else
  match e, q_loop s with
  | _, LoopReturned => None
  | PressQuit, l =>
      if q_sender s then None
      else if q_closed s then Some (mkQuit true false l (q_updaters s) true)
      else Some (mkQuit false true l (q_updaters s) false)
  | KeyQuit, LoopRuns => Some (close_quit s)
  | KeyOther, LoopRuns => Some s
  | LoopReceives, LoopRuns =>
      if q_sender s then Some (close_quit (mkQuit (q_closed s) false LoopRuns (q_updaters s) false)) else None
  | UpdaterReceives, l =>
      match q_updaters s with
      | O => None
      | S n =>
          if q_closed s then Some (mkQuit true (q_sender s) l n false)
          else if q_sender s then Some (mkQuit false false l n false)
          else None
      end
  | ConnectDone, l =>
      if q_sender s then None else Some (mkQuit (q_closed s) false l (S (q_updaters s)) false)
  | LoopReturns, LoopCloses => Some (mkQuit (q_closed s) (q_sender s) LoopReturned (q_updaters s) false)
  | _, _ => None
  end.

Fixpoint quit_run (s : quit_state) (l : list quit_step) : option quit_state :=
  match l with
  | [] => Some s
  | e :: l => match quit_next s e with Some s => quit_run s l | None => None end
  end.

Definition quit_start : quit_state := mkQuit false false LoopRuns 0 false.
