(* ===== verification/TuiScreensProps.v ===== *)
(** * Properties of start, screens and end of the dashboard client *)
From S2P Require Import Prelude Perun Errors Currency Contracts Os Log TestConfig SetupContracts Generate.
From S2P Require Import Grpc PbClient TuiText Tui TuiScreens.
Local Open Scope Z_scope.

(** ** Layout *)
Definition height_of (l : list element) : Z :=
  foldr (λ e n, match e with RowHeightFixed h _ _ => h + n | _ => n end) 0 l.
Definition width_of (l : list element) : Z :=
  foldr (λ e n, match e with ColWidthFixed w _ _ => w + n | _ => n end) 0 l.

(** The lines inside a row of a screen. *)
Definition inner_height (e : element) : Z :=
  match e with
  | RowHeightFixed h o _ => h - (if bordered o then 2 else 0) - 2 * padY o
  | _ => 0
  end.
Definition children (e : element) : list element :=
  match e with RowHeightFixed _ _ l | ColWidthFixed _ _ l => l | Widget _ => [] end.

Lemma height_of_rows {A} (f : A → list element) o (l : list A) :
  height_of ((λ i, RowHeightFixed 1 o (f i)) <$> l) = Z.of_nat (length l).
Proof. induction l as [|a l IH]; cbn [fmap list_fmap height_of foldr length]; [done|]. unfold height_of in IH. rewrite IH. lia. Qed.

Lemma width_of_rows {A} (f : A → list element) o (l : list A) :
  width_of ((λ i, RowHeightFixed 1 o (f i)) <$> l) = 0.
Proof. by induction l. Qed.

Section layout.
Context {GT : GoTypes}.

(** The row of the table a channel gets is on the screen. *)
Definition row_shown (t : table) (userName : string) (y row : Z) : Prop :=
  RowHeightFixed 1 no_opts [Widget (table_row (Z.to_nat row))] ∈ concat (children <$> dashboard_grid y userName t).

Lemma pretty_inj_nat (a b : nat) : pretty a = pretty b → a = b.
Proof. apply pretty_nat_inj. Qed.

Lemma row_shown_iff t u y row :
  0 ≤ row → row_shown t u y row ↔ row ≤ lastIndex t.
Proof.
  intros Hr. unfold row_shown. cbn. rewrite !elem_of_cons, elem_of_app. split.
  - intros [H|[H|[H|H]]]; [discriminate H|discriminate H| |].
    + apply list_elem_of_fmap in H as (i & [= Hi] & H). apply elem_of_seq in H.
      apply pretty_inj_nat in Hi. lia.
    + by repeat (apply elem_of_cons in H as [[=]|H]); apply elem_of_nil in H.
  - intros Hle. right; right; left. apply list_elem_of_fmap. exists (Z.to_nat row). split; [done|].
    apply elem_of_seq. lia.
Qed.

(** The layout of the screens.  In a terminal that is accepted both screens fill
    it exactly from top to bottom, no column is wider than the terminal, and the rows
    of the table fill the space inside its border, each as wide as the table or
    narrower.  The rows of all channels are shown except the one of the last channel
    the table has a place for: it is below the last line.  On the connect screen the
    space between the paddings is one or two lines short of the form. *)
Theorem screen_layout x y userName t form
    (Hx : terminalMinX ≤ x) (Hy : terminalMinY ≤ y)
    (Ht : newTable (y - 16) None = Ret (inl t))
    (Hform : newConnectScreen userName (λ _, None) = inl form) :
  let dash := dashboard_grid y userName t in
  let conn := connect_grid x y form in
  height_of dash = y ∧ height_of conn = y ∧
  Forall (λ e, width_of (children e) ≤ x - 2) dash ∧ Forall (λ e, width_of (children e) ≤ x) conn ∧
  (∃ h l, dash !! 1%nat = Some (RowHeightFixed h (box headerRow) l) ∧ height_of l = h - 2) ∧
  Forall (λ s, Z.of_nat (rune_count s) ≤ tableWidth) (table_texts (y - 16)) ∧
  (∀ n, 1 ≤ n < lastIndex t → row_shown t userName y (n - 1 + offset t) ↔ n ≠ lastIndex t - 1) ∧
  (∃ r c, conn !! 0%nat = Some r ∧ children r = [c] ∧
     1 ≤ height_of (children c) - (inner_height r - 2 * Z.quot (y - 25) 2) ≤ 2).
Proof.
  unfold terminalMinX, terminalMinY in *. unfold newTable in Ht.
  rewrite !bool_decide_eq_false_2 in Ht by lia. injection Ht as <-. injection Hform as <-.
  cbv zeta. split_and!.
  - cbn. lia.
  - cbn. lia.
  - cbn. repeat constructor; cbn; unfold tableWidth, channelsLength, updatesLength; try lia.
    rewrite (width_of_rows (λ i, [Widget (table_row i)])). lia.
  - cbn. repeat constructor; cbn; lia.
  - eexists _, _. split; [reflexivity|]. rewrite (height_of_rows (λ i, [Widget (table_row i)])), length_seq. cbn [lastIndex].
    unfold logsHeight. lia.
  - unfold table_texts. repeat constructor; [by vm_compute..|]. apply Forall_replicate. by vm_compute.
  - intros n Hn. cbn [offset lastIndex] in *. rewrite row_shown_iff by lia. cbn. lia.
  - eexists _, _. split; [reflexivity|]. split; [reflexivity|]. cbn.
    unfold logsHeight. pose proof (Z.quot_rem' (y - 25) 2). pose proof (Z.rem_bound_pos (y - 25) 2).
    replace (y - 8 - 17) with (y - 25) by lia. lia.
Qed.
End layout.

(** ** Start *)
Section start.
Context {GT : GoTypes} {EL : EthLib} {DL : DecimalLib} {EN : Env} {TL : TestLib} {CL : ChainLib} {LL : LogLib}.
Implicit Types (t : terminal).

(** Neither opens nor closes the terminal, nor runs the event loop. *)
Definition quiet (e : UEvent) : Prop := match e with UOpen | UClose | URunEventLoop => False | _ => True end.
Definition inside (e : UEvent) : Prop := match e with UOpen | UClose => False | _ => True end.

Record screen_ok t : Prop := {
  so_size : terminalMinX ≤ tm_X t ∧ terminalMinY ≤ tm_Y t;
  so_container : tm_container t = None;
  so_form u : is_inl (newConnectScreen u (tm_form t));
  so_render : tm_build t = None ∧ tm_update t = None;
  so_controller : tm_controller t = None;
}.

Lemma newConnectScreen_role u u' t :
  is_inl (newConnectScreen u (tm_form t)) → is_inl (newConnectScreen u' (tm_form t)).
Proof. unfold newConnectScreen. intros [f Hf]. repeat case_match; try done. by eexists. Qed.

Lemma run_screen_run t u s :
  ∃ es, run_screen t u s = (es, s, Ret tt) ∧ Forall inside es ∧ (URunEventLoop ∈ es ↔ screen_ok t).
Proof.
  assert (∀ es, Forall quiet es → ¬ screen_ok t → URunEventLoop ∈ es ↔ screen_ok t) as Hno.
  { intros es Hq Hn. split; [|done]. intros Hin. rewrite Forall_forall in Hq. by apply Hq in Hin. }
  unfold run_screen. destruct (bool_decide (tm_X t < terminalMinX) || bool_decide (tm_Y t < terminalMinY)) eqn:Hsz.
  { eexists. split; [reflexivity|]. split; [by repeat constructor|]. apply Hno; [by repeat constructor|].
    intros [[? ?] _ _ _ _]. rewrite orb_true_iff, !bool_decide_eq_true in Hsz. lia. }
  apply orb_false_iff in Hsz as [H1%bool_decide_eq_false H2%bool_decide_eq_false].
  destruct (tm_container t) eqn:Hc; [|destruct (newConnectScreen u (tm_form t)) as [f|] eqn:Hf;
    [unfold renderConnectScreen, render; destruct (tm_build t) eqn:Hb;
      [|destruct (tm_update t) eqn:Hu; [|destruct (tm_controller t) eqn:Hk]]|]];
    (eexists; split; [reflexivity|]; split; [by repeat constructor|]).
  6:{ apply Hno; [by repeat constructor|]. intros [_ _ Hform _ _]. destruct (Hform u). congruence. }
  5:{ split; [intros _|intros _; set_solver]. split; [lia|done| |done|done].
      intros u'. apply (newConnectScreen_role u). by eexists. }
  all: apply Hno; [by repeat constructor|]; intros [_ ? _ [? ?] ?]; congruence.
Qed.

(** What comes before the terminal is opened. *)
Definition prepared (deploy : bool) t (s : ui) : Prop :=
  (deploy = true → ∃ r, value (SetupContracts defaultChainURL TestConfig.ChainID TestConfig.OnChainTxTimeout false (u_eth s))
     = Ret (inl r)) ∧
  is_inl (logrus_ParseLevel "info") ∧ os_OpenFile (Clean logFile) = None ∧ tm_text t = None ∧ tm_New t = None.

Lemma deploy_run deploy s :
  let '(es, s1, o) := deployContractsIfRequested deploy s in
  Forall quiet es ∧ (o = Ret tt ↔ (deploy = true → ∃ r,
    value (SetupContracts defaultChainURL TestConfig.ChainID TestConfig.OnChainTxTimeout false (u_eth s)) = Ret (inl r))).
Proof.
  unfold deployContractsIfRequested. destruct deploy; cbn [negb].
  2:{ split; [constructor|]. by split. }
  unfold zoom, mbind, prog_mbind, value. destruct (SetupContracts _ _ _ _ _) as [[es e] [[r|err]|w|]]; cbn;
    rewrite ?app_nil_r; (split; [apply Forall_fmap, Forall_true; by intros []|]).
  - split; [|done]. intros _ _. by eexists.
  - split; [done|]. intros H. destruct (H eq_refl) as [r [=]].
  - split; [done|]. intros H. destruct (H eq_refl) as [r [=]].
  - split; [done|]. intros H. destruct (H eq_refl) as [r [=]].
Qed.

Lemma initLoggers_run t s :
  let '(es, s1, o) := initLoggers logLevel logFile (tm_text t) s in
  es = [] ∧ (o = Ret tt ↔ is_inl (logrus_ParseLevel "info") ∧ os_OpenFile (Clean logFile) = None ∧ tm_text t = None).
Proof.
  unfold initLoggers, InitLogger, zoom, mbind, prog_mbind. change logLevel with "info".
  generalize (Clean logFile). intros p. destruct (decide (logFile = "")) as [[=]|_].
  destruct (logrus_ParseLevel "info") as [lv|e]; cbn.
  2:{ split; [done|]. by split; [|intros [[? ?] _]]. }
  destruct (os_OpenFile p) as [e|]; cbn; [split; [done|]; by split; [|intros (_ & ? & _)]|].
  destruct (tm_text t) as [e|]; cbn; (split; [done|]); [by split; [|intros (_ & _ & ?)]|].
  split; [|done]. intros _. split_and!; [by eexists|done..].
Qed.

Definition main_post (es : list UEvent) (o : outcome unit) (ready ok : Prop) : Prop :=
  (UOpen ∈ es → o = Ret tt ∧ ∃ pre mid, es = pre ++ UOpen :: mid ++ [UClose] ∧
     Forall quiet pre ∧ Forall inside mid) ∧
  (o = Ret tt ↔ ready) ∧ (URunEventLoop ∈ es ↔ ready ∧ ok).

Lemma not_quiet es (e : UEvent) : Forall quiet es → e ∈ es → quiet e.
Proof. rewrite Forall_forall. auto. Qed.

Lemma main_post_fails es o (ready ok : Prop) :
  Forall quiet es → o ≠ Ret tt → ¬ ready → main_post es o ready ok.
Proof.
  intros Hq Ho Hr. split_and!; [|tauto|].
  - intros Hin. by apply not_quiet in Hin.
  - split; [|tauto]. intros Hin. by apply not_quiet in Hin.
Qed.

(** Starting the dashboard.  Whatever fails -- the size, the screen, the
    controller -- a terminal that was opened is closed again at the end, once, and
    nothing panics in between; panics come before it is opened.  The event loop runs
    exactly when nothing failed and the terminal is large enough; the contracts are
    deployed before, when asked for. *)
Theorem main_spec aliceFlag bobFlag deployFlag t s :
  let '(es, _, o) := main aliceFlag bobFlag deployFlag t s in
  main_post es o (prepared deployFlag t s) (screen_ok t).
Proof.
  unfold main. destruct (parseFlags aliceFlag bobFlag deployFlag) as [d u] eqn:Hp. injection Hp as <- _.
  unfold mbind, prog_mbind, prepared. pose proof (deploy_run deployFlag s) as Hd.
  destruct (deployContractsIfRequested deployFlag s) as [[es1 s1] o1]. destruct Hd as [Hq1 Hd].
  pose proof (initLoggers_run t s1) as Hl. destruct (initLoggers logLevel logFile (tm_text t) s1) as [[es2 s2] o2].
  destruct Hl as [-> Hl]. revert Hl. generalize (Clean logFile). intros p Hl.
  destruct o1 as [[]|w|]; [|by apply main_post_fails; [..|intros [H%Hd _]]..].
  apply proj1 in Hd. specialize (Hd eq_refl).
  destruct o2 as [[]|w|]; [|by apply main_post_fails; rewrite ?app_nil_r;
    [..|intros (_ & H1 & H2 & H3 & _); discriminate (proj2 Hl (conj H1 (conj H2 H3)))]..].
  destruct (proj1 Hl eq_refl) as (L1 & L2 & L3).
  destruct (tm_New t) as [e|].
  { apply main_post_fails; [|done|]; [|by intros (_ & _ & _ & _ & ?)].
    apply Forall_app. split; [done|]. by repeat constructor. }
  destruct (run_screen_run t u s2) as (es & Hrun & Hin & Hloop). cbn -[run_screen]. rewrite Hrun. cbn.
  split_and!; [|by split|].
  - intros _. split; [done|]. eexists (es1 ++ [UPrint _]), es. rewrite <-app_assoc. split; [reflexivity|].
    split; [|done]. apply Forall_app. split; [done|]. by repeat constructor.
  - rewrite <-Hloop. rewrite elem_of_app, !elem_of_cons, elem_of_app, list_elem_of_singleton. split.
    + intros [H|[H|[H|[H|H]]]]; [by apply not_quiet in H|done|done|by split|done].
    + intros [_ H]. by do 3 right; left.
Qed.
End start.

(** ** Closing the client *)

(** Where the event loop is says whether [quitter] is closed; a sender waits only
    while it is open. *)
Record quit_inv (s : quit_state) : Prop := {
  qi_loop : q_panic s = false → q_closed s = true ↔ q_loop s ≠ LoopRuns;
  qi_sender : q_sender s = true → q_closed s = false;
}.

Lemma quit_next_inv s e s' : quit_inv s → quit_next s e = Some s' → quit_inv s'.
Proof.
  intros [Hl Hs] H. destruct s as [c d l n p]. unfold quit_next in H. cbn in *.
  destruct p; [done|]. specialize (Hl eq_refl).
  destruct e, l; try done; repeat case_match; simplify_eq/=; split; cbn; intros; try split; intros; try done;
    intuition congruence.
Qed.

Lemma quit_run_app s l1 l2 s' :
  quit_run s (l1 ++ l2) = Some s' ↔ ∃ s1, quit_run s l1 = Some s1 ∧ quit_run s1 l2 = Some s'.
Proof.
  revert s. induction l1 as [|e l1 IH]; intros s; cbn.
  - split; [intros H; by exists s|]. by intros (? & [= ->] & ?).
  - destruct (quit_next s e) as [s1|]; [apply IH|]. split; [done|]. by intros (? & [=] & _).
Qed.

Lemma quit_run_inv s l s' : quit_inv s → quit_run s l = Some s' → quit_inv s'.
Proof.
  revert s. induction l as [|e l IH]; intros s Hi; cbn; [by intros [= <-]|].
  destruct (quit_next s e) as [s1|] eqn:Hn; [|done]. apply IH. by eapply quit_next_inv.
Qed.

Lemma updaters_stop s :
  q_panic s = false → q_closed s = true → q_loop s ≠ LoopReturned →
  quit_run s (replicate (q_updaters s) UpdaterReceives)
  = Some (mkQuit true (q_sender s) (q_loop s) 0 false).
Proof.
  destruct s as [c d l n p]. cbn. intros -> -> Hl. induction n as [|n IH]; cbn; [done|].
  unfold quit_next. cbn. destruct l; [exact IH|exact IH|done].
Qed.

Lemma quit_panics s e s' :
  quit_inv s → quit_next s e = Some s' → q_panic s' = true →
  (e = PressQuit ∧ q_closed s = true) ∨ (e = KeyQuit ∧ q_sender s = true).
Proof.
  intros [Hl Hs] H Hp. destruct s as [c d l n p]. unfold quit_next in H. cbn in *.
  destruct p; [done|]. specialize (Hl eq_refl).
  destruct e, l; try done; repeat case_match; simplify_eq/=; try (by left);
    (destruct c; [try done; exfalso; by apply (proj1 Hl eq_refl)|]); try done; by right; split; [|exact Hp].
Qed.

(** C33: Closing the dashboard, for every interleaving of the event loop, the buttons
    and the goroutines.  The channel [quitter] is closed once, when the event loop
    leaves its loop; from then on every goroutine can stop and the process end.  A
    press of the quit button can always be received by the event loop, which then
    closes the client.  The process can panic in two ways only: the quit button is
    pressed while the client is closing -- as in a double click -- or Esc is read
    while a press waits to be received. *)
Theorem quit_spec l s (Hrun : quit_run quit_start l = Some s) :
  (q_panic s = false → q_closed s = true ↔ q_loop s ≠ LoopRuns) ∧
  (q_panic s = false → q_loop s = LoopCloses → ∃ s', q_updaters s' = 0%nat ∧ q_loop s' = LoopReturned ∧
     quit_run s (replicate (q_updaters s) UpdaterReceives ++ [LoopReturns]) = Some s') ∧
  (q_panic s = false → q_sender s = true → ∃ s', quit_next s LoopReceives = Some s' ∧
     q_closed s' = true ∧ q_panic s' = false) ∧
  (q_panic s = true → ∃ l' e s0, l = l' ++ [e] ∧ quit_run quit_start l' = Some s0 ∧
     ((e = PressQuit ∧ q_closed s0 = true) ∨ (e = KeyQuit ∧ q_sender s0 = true))) ∧
  q_panic <$> quit_run quit_start [PressQuit; LoopReceives; PressQuit] = Some true.
Proof.
  assert (quit_inv quit_start) as Hstart by (split; cbn; naive_solver).
  pose proof (quit_run_inv _ _ _ Hstart Hrun) as [Hl Hs]. split_and!; [done| | | |done].
  - intros Hp Hc. eexists. rewrite quit_run_app. split_and!; cycle 2.
    + eexists. split; [apply updaters_stop; [done|apply Hl; [done|congruence]|congruence]|].
      cbn. rewrite Hc. reflexivity.
    + done.
    + done.
  - intros Hp Hsend. specialize (Hs Hsend). assert (q_loop s = LoopRuns) as Hr.
    { destruct (decide (q_loop s = LoopRuns)) as [|Hne]; [done|]. apply Hl in Hne; congruence. }
    unfold quit_next. rewrite Hp, Hr, Hsend, Hs. by eexists.
  - intros Hp. destruct l as [|e l _] using rev_ind; [by injection Hrun as <-|].
    apply quit_run_app in Hrun as (s0 & H0 & He). exists l, e, s0. split_and!; [done..|].
    cbn in He. destruct (quit_next s0 e) as [s1|] eqn:Hn; [|done]. injection He as ->.
    eapply quit_panics; [by eapply quit_run_inv|done|done].
Qed.
