(* ===== verification/EndToEnd.v ===== *)
(** * A payment on its way through the system

    The dashboard, the API server, the node, the session, the payment application
    and the channel composed: what [send] and [req] do to the channel of the node
    and what the user then sees.  Only the transport between the dashboard and the
    server is assumed, to deliver the answer ([answers_as]). *)
From S2P Require Import Prelude Perun Errors SessionErrors Currency IDProvider Contracts Sdk Timeout.
From S2P Require Import ChRegistry Client User Channel ChannelProps SessionHelpers Session SessionProps SessionLife.
From S2P Require Import Node Payment Grpc GrpcProps PbClient TuiText Tui TuiProps.
Local Open Scope Z_scope.

Section end_to_end.
Context {GT : GoTypes} {GP : GoPerun} {EL : EthLib} {DL : DecimalLib} {GL : GoTypesLaws}.
Implicit Types (a : payChAPIServer) (t : tui) (ch : Channel.Channel GOut).
Implicit Types (s : Session.Session GOut Client.client idProviderCache).

Definition state_of ch : PState := pch_State (ch_pch ch).
Definition bals_of ch : list (list Z) := al_Balances (st_Allocation (state_of ch)).

(** ** The server *)

(** What the request to send payments leaves of the channel, and its response. *)
Definition payment_response ch (ps : list Payment) ch' (r : pb_response pb_PayChInfo) : Prop :=
  match r with
  | inl info =>
      ∃ b i, paid ch ps (bals_of ch) b ∧
        state_of ch' = Sdk.set_Version (uint64 (st_Version (state_of ch) + 1)) (set_Balances b (state_of ch)) ∧
        info_of ch (ch_pch ch') i ∧ info = toGrpcPayChInfo (toPayChInfo i)
  | inr m =>
      state_of ch' = state_of ch ∧
      pb_Code m ∈ [ErrorCode_int ErrPeerRequestTimedOut; ErrorCode_int ErrPeerRejected;
                   ErrorCode_int ErrUnknownInternal; ErrorCode_int ErrResourceNotFound;
                   ErrorCode_int ErrInvalidArgument]
  end.

Lemma server_payment_run `{!UpdateByLaws} a sid cid s i ch payments :
  reaches a sid cid s i ch → ch_locked ch = false → ch_status ch = Channel.open → two_party ch →
  two_party_bals ch (bals_of ch) →
  ∃ es p r, Grpc.SendPayChUpdate sid cid payments a =
      (GEvNode ∘ NEvSession sid <$> (SEvCh i <$> es), put_channel a sid s i (set_pch p ch), Ret r) ∧
    pch_Idx p = pch_Idx (ch_pch ch) ∧ payment_response ch (fromGrpcPayments payments) (set_pch p ch) r ∧
    payment_trace ch (fromGrpcPayments payments) es (set_pch p ch) (∃ info, r = inl info).
Proof.
  intros Hr Hl Ho Htp Hb. unfold Grpc.SendPayChUpdate. rewrite (get_ch_run _ _ _ _ _ _ _ _ Hr).
  unfold mbind, prog_mbind. rewrite (call_ch_run _ _ _ _ _ _ _ Hr).
  destruct (SendPayChUpdate_run (fromGrpcPayments payments) ch Hl Ho Htp Hb)
    as (es & ch' & [info err] & -> & [(p & -> & Hidx) Htr] & Hpay).
  unfold Grpc.respond, errResponse, lift, mbind, prog_mbind, mret, prog_mret. cbn [fst snd].
  destruct err as [err|]; cbn in Hpay.
  - destruct Hpay as [Hst Hpay].
    assert (∃ m, toGrpcError err = Ret m ∧ pb_Code m = ErrorCode_int (Code err) ∧
      Code err ∈ [ErrPeerRequestTimedOut; ErrPeerRejected; ErrUnknownInternal; ErrResourceNotFound; ErrInvalidArgument])
      as (m & -> & Hm & Hc).
    { destruct Hpay as [(_ & _ & _ & He)|(_ & _ & He)];
        (edestruct (toGrpcError_ret _ err He) as (m & ? & ?); [set_solver|]; exists m; destruct He as [_ He];
         split_and!; [done..|set_solver]). }
    exists es, p, (inr m). rewrite app_nil_r. split; [reflexivity|]. split; [exact Hidx|]. split.
    + split; [exact Hst|]. rewrite Hm. by apply (list_elem_of_fmap_2 ErrorCode_int) in Hc.
    + intros Hv. destruct (Htr Hv) as (us & b & q & e & H1 & H2 & H3 & H4 & H5 & H6 & He).
      exists us, b, q, e. split_and!; try done. rewrite He. by split; [|intros [? ?]].
  - destruct Hpay as (_ & _ & b & i' & Hp & Hst & Hi & ->).
    exists es, p, (inl (toGrpcPayChInfo (toPayChInfo i'))). rewrite app_nil_r.
    split; [reflexivity|]. split; [exact Hidx|]. split; [by exists b, i'|].
    intros Hv. destruct (Htr Hv) as (us & b' & q & e & H1 & H2 & H3 & H4 & H5 & H6 & He).
    exists us, b', q, e. split_and!; try done. rewrite He. split; [by eexists|done].
Qed.

(** ** A channel in ETH with [peer] *)
Record eth_channel (c : currency) (peer : string) ch : Prop := {
  ec_parts : Parts ch = [OwnAlias; peer] ∨ Parts ch = [peer; OwnAlias];
  ec_peer : peer ≠ OwnAlias;
  ec_idx : pch_Idx (ch_pch ch) = 0 ∨ pch_Idx (ch_pch ch) = 1;
  ec_currencies : Currencies ch = [Some (as_Currency c)];
  ec_symbols : newCh_symbols (Currencies ch) = Ret (p_symbols (ch_params ch));
}.

(** The row of a user with [x] and a peer with [y], in the order of the participants. *)
Definition row_of ch (x y : Z) : list Z :=
  if decide (Parts ch !! 0%nat = Some OwnAlias) then [x; y] else [y; x].

Lemma eth_channel_two_party c peer ch : eth_channel c peer ch → two_party ch.
Proof. intros [Hp _ Hi _ Hs]. split; [|done..]. by destruct Hp as [-> | ->]. Qed.

Lemma row_of_bals c peer ch x y :
  eth_channel c peer ch → bals_of ch = [row_of ch x y] → two_party_bals ch (bals_of ch).
Proof.
  intros [_ _ _ Hc _] ->. split; [by rewrite Hc|]. repeat constructor. unfold row_of. by destruct (decide _).
Qed.

(** A payment to one of the two participants. *)
Lemma eth_channel_terms c peer ch (toPeer : bool) amountStr amount :
  eth_channel c peer ch → Symbol c = ETHSymbol → Parse c amountStr = inl amount →
  ∃ j, payment_terms ch (mkPayment ETHSymbol (if toPeer then peer else OwnAlias) amountStr) = Some (0%nat, j, amount) ∧
    (j = 1%nat ↔ (toPeer = true ↔ Parts ch !! 0%nat = Some OwnAlias)) ∧ (j < 2)%nat.
Proof.
  intros [Hp Hne _ Hc Hs] Hsym Ha. rewrite Hc in Hs. cbn in Hs. injection Hs as Hs.
  unfold payment_terms. cbn. rewrite <-Hs, Hsym, lookup_insert_eq, Hc. cbn. rewrite Ha. cbn.
  destruct Hp as [-> | ->], toPeer; cbn; repeat first [rewrite decide_True by done|rewrite decide_False by congruence];
    cbn; eexists; (split; [reflexivity|]); split; try lia; naive_solver.
Qed.

Lemma paid_eth c peer ch (toPeer : bool) amountStr amount x y b :
  eth_channel c peer ch → Symbol c = ETHSymbol → Parse c amountStr = inl amount →
  paid ch [mkPayment ETHSymbol (if toPeer then peer else OwnAlias) amountStr] [row_of ch x y] b →
  let d := if toPeer then amount else - amount in
  b = [row_of ch (x - d) (y + d)].
Proof.
  intros Hch Hsym Ha [[Hlen Hrows] Hp] d.
  destruct (eth_channel_terms c peer ch toPeer amountStr amount Hch Hsym Ha) as (j & Ht & Hj & Hj2).
  rewrite (ec_currencies _ _ _ Hch) in Hlen.
  destruct b as [|row [|]]; try done. apply Forall_inv in Hrows.
  destruct row as [|r0 [|r1 [|]]]; try done.
  destruct (Hp 0%nat _ eq_refl) as (row' & [= <-] & _ & Hv).
  unfold net, payment_delta in Hv. cbn [foldr] in Hv. rewrite Ht in Hv.
  unfold row_of in *. destruct (decide (Parts ch !! 0%nat = Some OwnAlias)) as [Hown|Hown];
    pose proof (Hv 0%nat _ eq_refl) as H0; pose proof (Hv 1%nat _ eq_refl) as H1;
    rewrite decide_True in H0, H1 by done; injection H0 as H0; injection H1 as H1;
    destruct toPeer, (decide (0%nat = j)), (decide (1%nat = j)); subst d; try lia; try (repeat f_equal; lia);
    exfalso; subst; naive_solver lia.
Qed.

(** The balances of a user with [x] and a peer with [y] as the dashboard shows them. *)
Definition shown (c : currency) (st : PState) (x y : Z) : balInfo :=
  mkBal (Print c x) (Print c y) (pretty (st_Version st)).

(** [b] is shown as [b'], trimmed at least once. *)
Definition shows (b b' : balInfo) : Prop := ∃ k : nat, b = Nat.iter (S k) trimBal b'.
Lemma shows_trim b b' : shows b b' → shows (trimBal b) b'.
Proof. intros [k ->]. by exists (S k). Qed.
Lemma shows_once b : shows (trimBal b) b.
Proof. by exists 0%nat. Qed.

(** What the dashboard reads from the information on a state of such a channel. *)
Lemma eth_state_info c peer ch st x y :
  eth_channel c peer ch → al_Balances (st_Allocation st) = [row_of ch x y] →
  ∃ i, makeChInfo (ch_params ch) (Some st) = Ret i ∧ ci_ChID i = Channel.ID ch ∧
    grpcPayChInfotoBalInfo (toGrpcPayChInfo (toPayChInfo i)) = Ret (shown c st x y).
Proof.
  intros [Hp Hne _ Hc _] Hb. unfold makeChInfo, makeBalInfoFromState, makeBalInfoFromRawBal.
  rewrite Hb. change (p_currencies (ch_params ch)) with (Currencies ch). rewrite Hc. cbn.
  eexists. split; [reflexivity|]. split; [done|].
  unfold row_of, grpcPayChInfotoBalInfo, grpcBalInfotoBalInfo. cbn. change (p_parts (ch_params ch)) with (Parts ch).
  destruct Hp as [Hp | Hp]; rewrite Hp; cbn [lookup list_lookup].
  - rewrite decide_True by done. unfold findPeerIndex. rewrite decide_False by (intros []; done).
    by rewrite decide_True.
  - rewrite decide_False by congruence. unfold findPeerIndex. by rewrite decide_True.
Qed.

Lemma eth_info_shown c peer ch p i x y :
  eth_channel c peer ch → al_Balances (st_Allocation (pch_State p)) = [row_of ch x y] →
  info_of ch p i →
  grpcPayChInfotoBalInfo (toGrpcPayChInfo (toPayChInfo i)) = Ret (shown c (pch_State p) x y).
Proof.
  intros Hch Hb Hi. destruct (eth_state_info c peer ch _ x y Hch Hb) as (i' & Hi' & _ & H).
  unfold info_of in Hi. rewrite Hi in Hi'. by injection Hi' as <-.
Qed.

(** ** From the dashboard to the channel and back

    The transport delivers what the handler answers. *)
Definition answers_as (N : NodeServer) a (sid cid : string) (payments : list pb_Payment) : Prop :=
  ∀ r, value (Grpc.SendPayChUpdate sid cid payments a) = Ret r →
       srv_SendPayChUpdate N sid cid payments = inl r.

Definition update_limit ch : Z := chUpdate (p_timeoutCfg (ch_params ch)).

(** The node proposes one update, to the balances with [d] more for the peer, and [q]
    and [err] are the controller and the result that the SDK gives back. *)
Definition proposes ch (payments : list pb_Payment) (x y d : Z) (es : list (ChEvent GOut)) q (err : option goerror) : Prop :=
  es = [EvUpdateBy (update_limit ch)] ∧
  ∃ us, makeUpdates ch (fromGrpcPayments payments) = Ret (inl us) ∧
    payUpdater us (state_of ch) = Ret (set_Balances [row_of ch (x - d) (y + d)] (state_of ch), None) ∧
    pch_UpdateBy (update_limit ch) (payUpdater us) (ch_pch ch) = Ret (q, err).

(** What the dashboard shows after a payment: [y] more for the peer. *)
Lemma payment_run `{!UpdateByLaws} N t p e amountStr (toPeer : bool) c amount o th v a s i ch x y :
  wf_tui t → t_entries t !! p = Some e → ready e → t_client t = true →
  ethCurrency = Some c → Parse c amountStr = inl amount →
  Parse c (ours (current e)) = inl o → Parse c (theirs (current e)) = inl th → Atoi (version (current e)) = inl v →
  reaches a (t_sessionID t) (chID e) s i ch → ch_locked ch = false → ch_status ch = Channel.open →
  eth_channel c (peer e) ch → bals_of ch = [row_of ch x y] →
  let payments := [mkPbPayment ETHSymbol (if toPeer then peer e else OwnAlias) amountStr] in
  let d := if toPeer then amount else - amount in
  let run := Grpc.SendPayChUpdate (t_sessionID t) (chID e) payments a in
  answers_as N a (t_sessionID t) (chID e) payments →
  ∃ es q err, let ch' := set_pch q ch in
    events run = GEvNode ∘ NEvSession (t_sessionID t) <$> (SEvCh i <$> es) ∧
    proposes ch payments x y d es q err ∧
    final run = put_channel a (t_sessionID t) s i ch' ∧
    pch_Idx q = pch_Idx (ch_pch ch) ∧
    wp (update N p amountStr toPeer) t (λ es t' _, ∃ e', t' = at_ p e' t ∧ phase e' = transact ∧
      requests es = [SendPayChUpdateReq (t_sessionID t) (chID e) payments] ∧
      match err with
      | None =>
          status e' = accepted ∧ bals_of ch' = [row_of ch' (x - d) (y + d)] ∧
          st_Version (state_of ch') = uint64 (st_Version (state_of ch) + 1) ∧
          current e' = trimBal (shown c (state_of ch') (x - d) (y + d))
      | Some _ =>
          status e' ∈ [peerRejected; errorStatus] ∧ state_of ch' = state_of ch ∧
          current e' = trimBal (trimBal (current e))
      end).
Proof.
  intros Hwf He Hready Hcl Hc Ha Hours Htheirs Hv Hr Hl Ho Hch Hb payments d run HN.
  assert (Symbol c = ETHSymbol) as Hsym by (rewrite ethCurrency_eq in Hc; by injection Hc as <-).
  destruct (server_payment_run a _ _ s i ch payments Hr Hl Ho (eth_channel_two_party _ _ _ Hch)
              (row_of_bals _ _ _ _ _ Hch Hb)) as (es & p' & r & Hrun & Hidx & Hpay & Htr).
  specialize (HN r ltac:(by rewrite Hrun)). fold run in Hrun.
  destruct Htr as (us & b0 & q & err & Hus & Hupd & Hpaid & Hu & -> & Hq & Hok).
  { constructor; [|constructor].
    destruct (eth_channel_terms c (peer e) ch toPeer amountStr amount Hch Hsym Ha) as (j & Ht & _).
    eexists. exact Ht. }
  change (al_Balances (st_Allocation (pch_State (ch_pch ch)))) with (bals_of ch) in Hpaid. rewrite Hb in Hpaid.
  pose proof (paid_eth _ _ _ toPeer _ _ _ _ _ Hch Hsym Ha Hpaid) as ->. fold d in Hupd.
  assert (p' = q) as -> by (by injection Hq).
  eexists _, q, err. rewrite Hrun. split; [reflexivity|]. split; [split; [done|by exists us]|].
  split; [done|]. split; [exact Hidx|].
  assert (Hacc : ∀ info, r = inl info →
    bals_of (set_pch q ch) = [row_of ch (x - d) (y + d)] ∧
    st_Version (state_of (set_pch q ch)) = uint64 (st_Version (state_of ch) + 1) ∧
    grpcPayChInfotoBalInfo info =
      Ret (mkBal (Print c (x - d)) (Print c (y + d)) (pretty (st_Version (state_of (set_pch q ch)))))).
  { intros info ->. destruct Hpay as (b & i' & Hp & Hst & Hi & ->). rewrite Hb in Hp.
    pose proof (paid_eth _ _ _ toPeer _ _ _ _ _ Hch Hsym Ha Hp) as Hbb. fold d in Hbb.
    assert (Hbal : bals_of (set_pch q ch) = [row_of ch (x - d) (y + d)]) by (unfold bals_of; by rewrite Hst).
    split; [done|]. split; [by rewrite Hst|]. by eapply eth_info_shown. }
  eapply wp_mono; [|eapply update_run; try done].
  - intros es' t' _ (e' & -> & Hreq & Hph & _ & Hres). exists e'. do 3 (split; [done|]).
    unfold payments in HN. rewrite HN in Hres. destruct r as [info|m].
    + rewrite (proj2 Hok) by by eexists.
      destruct (Hacc info eq_refl) as (Hbal & Hver & Hinfo). destruct Hres as (Hst & b & Hb' & Hcur).
      rewrite Hinfo in Hb'. by injection Hb' as <-.
    + destruct err as [err|]; [|by destruct (proj1 Hok eq_refl)].
      destruct Hres as (Hcur & Hst). destruct Hpay as [Hst' _]. split; [|done].
      rewrite Hst. destruct (decide _); set_solver.
  - intros info. unfold payments in HN. rewrite HN. intros [= ->]. destruct (Hacc info eq_refl) as (_ & _ & ->).
    by eexists.
Qed.

(** C5: A payment, from the command of the user to the channel and back to the screen:
    of an amount that can be read, on an entry that is ready and whose shown balances
    and version can be read (a balance of zero cannot, and then the dashboard
    crashes), for an open channel in ETH.  The dashboard sends one request; the node
    converts it, finds session and channel, and proposes exactly one update to the
    peer: the balances with the amount the user typed taken from the payer and given
    to the payee.  The result of the SDK decides.  If the peer agreed, the channel of
    the node has the next version and these balances, and the entry says so and shows
    the balances and the version of the channel, as they are printed and without
    zeros at the end.  If not, the channel is as it was, and the entry shows the old
    balances and that the payment failed.  No mutex of the node stays locked, so the
    next request finds the channel. *)
Theorem payment_end_to_end `{!UpdateByLaws} N t p e amountStr (toPeer : bool) c amount o th v
    a s i ch x y
    (Hwf : wf_tui t) (He : t_entries t !! p = Some e) (Hready : ready e) (Hcl : t_client t = true)
    (Hc : ethCurrency = Some c) (Ha : Parse c amountStr = inl amount)
    (Hours : Parse c (ours (current e)) = inl o) (Htheirs : Parse c (theirs (current e)) = inl th)
    (Hv : Atoi (version (current e)) = inl v)
    (Hr : reaches a (t_sessionID t) (chID e) s i ch) (Hl : ch_locked ch = false)
    (Ho : ch_status ch = Channel.open) (Hch : eth_channel c (peer e) ch)
    (Hb : bals_of ch = [row_of ch x y]) :
  let payments := [mkPbPayment ETHSymbol (if toPeer then peer e else OwnAlias) amountStr] in
  let run := Grpc.SendPayChUpdate (t_sessionID t) (chID e) payments a in
  let d := if toPeer then amount else - amount in
  answers_as N a (t_sessionID t) (chID e) payments →
  ∃ es s' q err, let ch' := set_pch q ch in
    events run = GEvNode ∘ NEvSession (t_sessionID t) <$> (SEvCh i <$> es) ∧
    proposes ch payments x y d es q err ∧
    reaches (final run) (t_sessionID t) (chID e) s' i ch' ∧ ch_locked ch' = false ∧
    eth_channel c (peer e) ch' ∧
    wp (update N p amountStr toPeer) t (λ es t' _, ∃ e', t' = at_ p e' t ∧
      requests es = [SendPayChUpdateReq (t_sessionID t) (chID e) payments] ∧
      match err with
      | None =>
          status e' = accepted ∧ bals_of ch' = [row_of ch' (x - d) (y + d)] ∧
          st_Version (state_of ch') = uint64 (st_Version (state_of ch) + 1) ∧
          current e' = trimBal (mkBal (Print c (x - d)) (Print c (y + d)) (pretty (st_Version (state_of ch'))))
      | Some _ =>
          status e' ∈ [peerRejected; errorStatus] ∧ state_of ch' = state_of ch ∧
          current e' = trimBal (trimBal (current e))
      end).
Proof.
  intros payments run d HN.
  destruct (payment_run N t p e amountStr toPeer c amount o th v a s i ch x y)
    as (es & q & err & Hes & Hprop & Ha' & Hidx & Hw); try done.
  exists es, (set_chs (ChRegistry.update i (set_pch q ch) (s_chs s)) s), q, err. unfold run, payments. rewrite Ha'.
  split; [exact Hes|]. split; [exact Hprop|]. split; [by eapply put_channel_reaches|]. split; [done|].
  split; [by destruct Hch; split; try done; cbn; rewrite Hidx|].
  eapply wp_mono; [|exact Hw]. intros es' t' _ (e' & -> & _ & Hreq & Hres). by exists e'.
Qed.
End end_to_end.
