(* ===== verification/IncomingEndToEnd.v ===== *)
(** * An incoming payment on its way through the system

    The other direction of [EndToEnd]: an update proposed by the peer, from the
    callback of the SDK through session, channel, payment application and API server
    to the screen of the dashboard, and the answer of the user back to the SDK.  The
    goroutines that are started on the way are run one after the other; only the
    transport between server and dashboard is assumed, to deliver the notification
    and the answer. *)
From S2P Require Import Prelude Perun Errors SessionErrors Currency IDProvider Contracts Sdk Timeout.
From S2P Require Import ChRegistry Client User Channel ChannelProps SessionHelpers Session SessionProps SessionLife.
From S2P Require Import Node Payment Grpc GrpcProps PbClient TuiText Tui TuiProps EndToEnd.
Local Open Scope Z_scope.

Section incoming.
Context {GT : GoTypes} {GP : GoPerun} {EL : EthLib} {DL : DecimalLib} {GL : GoTypesLaws}.
Implicit Types (a : payChAPIServer) (t : tui) (ch : Channel.Channel GOut).
Implicit Types (s : Session.Session GOut Client.client idProviderCache).

(** Accepting through [r] makes [prop] the state of the channel, and otherwise the
    state stays; the participants stay. *)
Definition responder_of (r : updResponder) (prop : PState) : Prop := ∀ d p,
  pch_State (upd_Accept d r p).1 = (match (upd_Accept d r p).2 with Some _ => pch_State p | None => prop end) ∧
  pch_Idx (upd_Accept d r p).1 = pch_Idx p.

(** ** The node *)

(** What [SubPayChUpdates] of the server registers with the channel. *)
Definition server_notifier (sid cid : string) : ChUpdateNotifier GOut :=
  λ notif, OutUpdate sid cid (toPayChUpdateNotif notif).

(** The callback of the SDK finds the channel and starts its handler. *)
Lemma session_HandleUpdate_run a sid cid s i ch cur prop r :
  reaches a sid cid s i ch → s_isOpen s = true → hex (st_ID prop) = cid →
  call_s sid (λ _, Session.HandleUpdate cur prop r) a =
    ([GEvNode (NEvSession sid (SEvGoHandleUpdate i cur prop r))], a, Ret tt).
Proof.
  intros [Hl Hs Hsl Hi Hch] Ho Hid. rewrite (call_s_run _ _ _ s Hs). unfold Session.HandleUpdate.
  rewrite with_slock_run by done. unfold mbind, prog_mbind, get_state. cbn. rewrite Ho. cbn. rewrite Hid.
  unfold get, get_idx, go_index, lift. cbn. rewrite Hi. cbn. rewrite Hch. cbn.
  replace (set_slocked false (set_slocked true s)) with s by (destruct s; cbn in *; by subst).
  rewrite insert_id by done. by destruct a as [[] ? ? ?].
Qed.

(** The pending update, under the ID it is notified with. *)
Definition pend ch (notif : ChUpdateNotif) (r : updResponder) (x : Z) : Channel.Channel GOut :=
  set_responders (<[cun_UpdateID notif := mkUpdEntry notif r x]> (ch_chUpdateResponders ch)) ch.

Lemma channel_HandleUpdate_run ch cur prop r now notif n :
  ch_locked ch = false → ch_status ch = Channel.open → ch_chUpdateNotifier ch = Some n →
  update_notif (ch_params ch) cur prop now = Ret notif →
  let x := unix (now + response (p_timeoutCfg (ch_params ch))) in x ≠ 0 →
  Channel.HandleUpdate cur prop r now ch = ([EvGoLater notif], pend ch notif r x, Ret tt).
Proof.
  destruct ch as [p c s w no ca re l]. cbn. intros -> -> -> Hn Hx. unfold Channel.HandleUpdate.
  rewrite with_lock_run by done. unfold mbind, prog_mbind, get_state, lift. cbn. rewrite Hn. cbn.
  by rewrite (proj2 (Z.eqb_neq _ _)).
Qed.

(** What the server sends to the client for an update of the channel. *)
Definition update_msg cid (prop : PState) (info : ChInfo) (x : Z) : pb_UpdateNotify :=
  mkPbUpdateNotify (makeUpdateID cid (st_Version prop)) (toGrpcPayChInfo (toPayChInfo info))
    (if st_IsFinal prop then 1 else 0) x None.

(** From the callback to the message: the goroutines run in the order in which they
    start each other. *)
Record notified a sid cid i (cur : option PState) (prop : PState) (r : updResponder) (now : Z)
    (notif : ChUpdateNotif) (a1 : payChAPIServer) (msg : pb_UpdateNotify) : Prop := {
  nt_callback : call_s sid (λ _, Session.HandleUpdate cur prop r) a =
    ([GEvNode (NEvSession sid (SEvGoHandleUpdate i cur prop r))], a, Ret tt);
  nt_handler : call_ch sid i (Channel.HandleUpdate cur prop r now) a =
    ([GEvNode (NEvSession sid (SEvCh i (EvGoLater notif)))], a1, Ret tt);
  nt_later : call_ch sid i (run_sendChUpdateNotif notif) a1 =
    ([GEvNode (NEvSession sid (SEvCh i (EvNotify (server_notifier sid cid) notif)))], a1, Ret tt);
  nt_sent : run_notifier (server_notifier sid cid notif) a1 = ([GEvSendUpdate sid cid msg], a1, Ret tt);
}.

Lemma call_ch_same {A} a sid cid s i ch (m : chprog GOut A) es x :
  reaches a sid cid s i ch → m ch = (es, ch, Ret x) →
  call_ch sid i m a = (GEvNode ∘ NEvSession sid <$> (SEvCh i <$> es), a, Ret x).
Proof.
  intros Hr Hm. rewrite (call_ch_run _ _ _ _ _ _ _ Hr), Hm. destruct Hr as [Hl Hs Hsl Hi Hch].
  unfold put_channel. f_equal. f_equal.
  replace (set_chs (ChRegistry.update i ch (s_chs s)) s) with s.
  - rewrite insert_id by done. by destruct a as [[] ? ? ?].
  - destruct s as [????????? [l m0] ?? ?]. cbn in *. unfold ChRegistry.update, set_chs. cbn. by rewrite list_insert_id.
Qed.

Lemma update_notified c peer a sid cid s i ch cur st x0 y0 prop x y r now :
  reaches a sid cid s i ch → s_isOpen s = true → ch_locked ch = false → ch_status ch = Channel.open →
  ch_chUpdateNotifier ch = Some (server_notifier sid cid) → Channel.ID ch = cid → hex (st_ID prop) = cid →
  eth_channel c peer ch → cur = Some st → al_Balances (st_Allocation st) = [row_of ch x0 y0] →
  al_Balances (st_Allocation prop) = [row_of ch x y] →
  let t := unix (now + response (p_timeoutCfg (ch_params ch))) in t ≠ 0 →
  ∃ notif info, let a1 := put_channel a sid s i (pend ch notif r t) in
    makeChInfo (ch_params ch) (Some prop) = Ret info ∧
    cun_UpdateID notif = makeUpdateID cid (st_Version prop) ∧
    cun_Type notif = (if st_IsFinal prop then ChUpdateTypeFinal else ChUpdateTypeOpen) ∧
    notified a sid cid i cur prop r now notif a1 (update_msg cid prop info t).
Proof.
  intros Hr Hopen Hl Ho Hn Hid Hhex Hch -> Hb0 Hb t Ht.
  destruct (eth_state_info c peer ch st x0 y0 Hch Hb0) as (i0 & Hi0 & _ & _).
  destruct (eth_state_info c peer ch prop x y Hch Hb) as (i1 & Hi1 & _ & _).
  assert (update_notif (ch_params ch) (Some st) prop now = Ret (mkChUpdateNotif (makeUpdateID cid (st_Version prop)) i0 i1
    (if st_IsFinal prop then ChUpdateTypeFinal else ChUpdateTypeOpen) t None)) as Hnotif.
  { unfold update_notif, makeChUpdateNotif. rewrite Hi0. cbn. rewrite Hi1. cbn.
    change (p_id (ch_params ch)) with (Channel.ID ch). by rewrite Hid. }
  eexists _, i1. split; [done|]. split; [|split]; cycle 2; [split|..].
  - by apply (session_HandleUpdate_run a sid cid s i ch).
  - rewrite (call_ch_run _ _ _ _ _ _ _ Hr), (channel_HandleUpdate_run ch _ _ _ _ _ _ Hl Ho Hn Hnotif) by done.
    reflexivity.
  - eapply (call_ch_same _ sid cid _ i _ _ [EvNotify _ _] tt (put_channel_reaches _ _ _ _ _ _ _ Hr)).
    unfold run_sendChUpdateNotif, mbind, prog_mbind, get_state. cbn. by rewrite Hn.
  - unfold run_notifier, server_notifier, mbind, prog_mbind, lift, update_msg. cbn. destruct (st_IsFinal prop); reflexivity.
  - reflexivity.
  - reflexivity.
Qed.

(** *** The answer *)

(** The time for the answer has passed; the call of the SDK it leads to, and whether
    that succeeds. *)
Definition too_late (en : chUpdateResponderEntry) (now : Z) : Prop := ue_notifExpiry en < unix now.
#[local] Instance too_late_dec en now : Decision (too_late en now).
Proof. unfold too_late. apply _. Defined.
Definition sdk_answer ch (en : chUpdateResponderEntry) (acc : bool) : ChEvent GOut :=
  let d := respChUpdate (p_timeoutCfg (ch_params ch)) in
  if acc then EvAccept d (ue_responder en) else EvReject d (ue_responder en) "rejected by user".
Definition sdk_takes ch (en : chUpdateResponderEntry) (acc : bool) : Prop :=
  let d := respChUpdate (p_timeoutCfg (ch_params ch)) in
  if acc then (upd_Accept d (ue_responder en) (ch_pch ch)).2 = None
  else upd_Reject (Some d) (ue_responder en) "rejected by user" = None.

(** The channel of the node after the answer: the update is not pending any more. *)
Definition answered ch (uid : string) (p : pch) : Channel.Channel GOut :=
  set_pch p (set_responders (delete uid (ch_chUpdateResponders ch)) ch).

Lemma channel_answer_run c peer ch uid acc now en prop x0 y0 x y :
  ch_locked ch = false → ch_status ch = Channel.open → ch_chUpdateResponders ch !! uid = Some en →
  responder_of (ue_responder en) prop → cun_Type (ue_notif en) ≠ ChUpdateTypeFinal →
  eth_channel c peer ch → bals_of ch = [row_of ch x0 y0] →
  al_Balances (st_Allocation prop) = [row_of ch x y] →
  ∃ p' i err, RespondChUpdate uid acc now ch =
      (if decide (too_late en now) then [] else [sdk_answer ch en acc], answered ch uid p', Ret (i, err)) ∧
    pch_Idx p' = pch_Idx (ch_pch ch) ∧ (err = None ↔ ¬ too_late en now ∧ sdk_takes ch en acc) ∧
    match err with
    | None => pch_State p' = (if acc then prop else state_of ch) ∧
        grpcPayChInfotoBalInfo (toGrpcPayChInfo (toPayChInfo i)) =
          Ret (if acc then shown c prop x y else shown c (state_of ch) x0 y0)
    | Some err => pch_State p' = state_of ch ∧ ∃ m, toGrpcError err = Ret m
    end.
Proof.
  intros Hl Ho He Hresp Hf Hch Hb0 Hb. set (d := respChUpdate (p_timeoutCfg (ch_params ch))).
  destruct (eth_state_info c peer ch _ x0 y0 Hch Hb0) as (i0 & Hi0 & _ & Hs0).
  destruct (eth_state_info c peer ch _ x y Hch Hb) as (i1 & Hi1 & _ & Hs1).
  destruct (RespondChUpdate_branches uid now ch en Hl Ho He) as [Hlate Hok].
  destruct (decide (too_late en now)) as [Hx|Hx].
  { eexists _, i0, _. split; [by apply Hlate|]. split; [done|]. split; [by split; [|intros []]|].
    split; [done|]. by eexists. }
  destruct Hok as (Hrej & Hfail & Hacc & _); [unfold too_late in Hx; lia|]. fold d in Hrej, Hfail, Hacc.
  unfold sdk_answer, sdk_takes. fold d. destruct acc.
  - pose proof (Hresp d (ch_pch ch)) as [Hst Hidx]. destruct (upd_Accept d _ _) as [p' [err|]] eqn:E; cbn in *.
    + eexists p', i0, _. split; [apply (Hfail _ _ i0 eq_refl); unfold info_of; by rewrite Hst|]. split; [done|].
      split; [by split; [|intros [_ [=]]]|]. split; [done|]. by eexists.
    + eexists p', i1, None. split; [apply (Hacc _ i1 eq_refl Hf); unfold info_of; by rewrite Hst|]. by split_and!.
  - destruct (upd_Reject _ _ _) as [err|] eqn:E; eexists (ch_pch ch), i0, _;
      (split; [by rewrite (Hrej i0) by done|]); split_and!; try done; try (by split; [|intros [_ [=]]]).
    split; [done|]. by eexists.
Qed.

Lemma server_answer_run c peer a sid cid s i ch uid acc now en prop x0 y0 x y :
  reaches a sid cid s i ch →
  ch_locked ch = false → ch_status ch = Channel.open → ch_chUpdateResponders ch !! uid = Some en →
  responder_of (ue_responder en) prop → cun_Type (ue_notif en) ≠ ChUpdateTypeFinal →
  eth_channel c peer ch → bals_of ch = [row_of ch x0 y0] →
  al_Balances (st_Allocation prop) = [row_of ch x y] →
  ∃ p' r, Grpc.RespondPayChUpdate sid cid uid acc now a =
      (GEvNode ∘ NEvSession sid <$> (SEvCh i <$> (if decide (too_late en now) then [] else [sdk_answer ch en acc])),
       put_channel a sid s i (answered ch uid p'), Ret r) ∧
    pch_Idx p' = pch_Idx (ch_pch ch) ∧ (is_inl r ↔ ¬ too_late en now ∧ sdk_takes ch en acc) ∧
    match r with
    | inl info => pch_State p' = (if acc then prop else state_of ch) ∧
        grpcPayChInfotoBalInfo info = Ret (if acc then shown c prop x y else shown c (state_of ch) x0 y0)
    | inr _ => pch_State p' = state_of ch
    end.
Proof.
  intros Hr Hl Ho He Hresp Hf Hch Hb0 Hb.
  destruct (channel_answer_run c peer ch uid acc now en prop x0 y0 x y Hl Ho He Hresp Hf Hch Hb0 Hb)
    as (p' & info & err & Hrun & Hidx & Herr & Hres).
  unfold Grpc.RespondPayChUpdate. rewrite (get_ch_run _ _ _ _ _ _ _ _ Hr).
  unfold mbind at 1, prog_mbind at 1. rewrite (call_ch_run _ _ _ _ _ _ _ Hr).
  unfold Payment.RespondPayChUpdate, mbind at 1, prog_mbind at 1. rewrite Hrun. cbn [mret prog_mret fst snd].
  rewrite app_nil_r. unfold Grpc.respond, errResponse, mbind, prog_mbind, lift.
  destruct err as [err|]; cbn.
  - destruct Hres as [Hst (m & ->)]. cbn. rewrite !app_nil_r. eexists p', (inr m). split; [reflexivity|].
    split; [done|]. split; [|done]. split; [by intros [? [=]]|]. intros H. by apply Herr in H.
  - rewrite app_nil_r. eexists p', (inl _). split; [reflexivity|]. split; [done|]. split; [|exact Hres].
    split; [by intros _; apply Herr|by eexists].
Qed.

(** ** The dashboard *)

Lemma incomingUpdate_run t R p notif b :
  t_R t = Some R → getByChID (pb_ChID (pbu_ProposedPayChInfo notif)) R = Ret (Some p) →
  pbu_Type notif ≠ 2 → grpcPayChInfotoBalInfo (pbu_ProposedPayChInfo notif) = Ret b →
  incomingUpdate notif t =
    ([TEvGo (GoNotifyNonClosing p (pbu_UpdateID notif) b (pbu_Expiry notif) (bool_decide (pbu_Type notif = 1)))],
     t, Ret true).
Proof.
  intros HR Hp Hty Hb. unfold incomingUpdate, with_R, mbind, prog_mbind, get_state, lift, modify. cbn. rewrite HR. cbn.
  rewrite Hp. cbn. rewrite decide_False by done. cbn. rewrite Hb. cbn. rewrite <-HR. by destruct t.
Qed.

(** The entry that shows an update and waits for the answer. *)
Definition waiting (zone : Z → Z) (e : channel) (uid : string) (b : balInfo) (x : Z) : channel :=
  trimEntry (Tui.set_status waitingForUser (set_timeout (clock zone x) (set_proposed b (set_updateID uid e)))).

Lemma notifyNonClosing_run zone t p e uid b x :
  wf_tui t → t_entries t !! p = Some e →
  wp (notifyNonClosingUpdate zone p uid b x false) t (λ es t' _, t' = at_ p (waiting zone e uid b x) t ∧ requests es = []).
Proof.
  intros Hwf He. pose proof (wf_T_some _ Hwf). pose proof (wf_unlocked _ _ _ Hwf He) as Hl.
  assert (is_Some (t_entries t !! p)) by eauto.
  eapply wp_with_lock; [done..|]. total_steps. rewrite assign_at. split; [|done]. f_equal.
  destruct e. cbn in *. by subst.
Qed.

(** Answering an update that waits; a request that fails leaves the entry in
    [responding]. *)
Lemma respond_run N t p e acc :
  t_entries t !! p = Some e → e_locked e = false → is_Some (t_T t) → t_client t = true →
  phase e = transact → status e = waitingForUser →
  let resp := srv_RespondPayChUpdate N (t_sessionID t) (chID e) (updateID e) acc in
  (∀ info, resp = inl (inl info) → returns (grpcPayChInfotoBalInfo info)) →
  wp (respond N p acc) t (λ es t' _, ∃ e', t' = at_ p e' t ∧
    requests es = [RespondPayChUpdateReq (t_sessionID t) (chID e) (updateID e) acc] ∧ phase e' = transact ∧
    match resp with
    | inl (inl info) =>
        if acc then status e' = accepted ∧ ∃ b, grpcPayChInfotoBalInfo info = Ret b ∧ current e' = trimBal b
        else status e' = userRejected ∧ current e' = trimBal (trimBal (current e))
    | _ => status e' = responding ∧ current e' = trimBal (current e)
    end).
Proof.
  intros He Hl HT Hcl Hph Hst resp Hresp. assert (Hp : is_Some (t_entries t !! p)) by eauto.
  eapply wp_with_lock; [done..|]. apply wp_bind, wp_deref_at; [done|]. cbn [app].
  rewrite decide_False by (cbn; rewrite Hst; by intros []). cbn [phase Tui.set_locked]. rewrite Hph.
  unfold respondToUpdate. apply wp_bind, wp_assign, wp_bind, wp_refreshEntry; [done..|]. cbn [app].
  apply wp_bind, wp_deref_at; [done|]. cbn [app]. apply wp_bind. unfold respondToUpdate_req.
  apply wp_bind, wp_get_state. change (t_client _) with (t_client t). rewrite Hcl. cbn [negb app].
  change (t_sessionID _) with (t_sessionID t). cbn [chID updateID trimEntry set_proposed set_current Tui.set_status Tui.set_locked].
  fold resp. apply wp_bind, wp_bind, wp_emit, wp_mret. cbn [app].
  destruct resp as [[info|err]|err] eqn:Er.
  - destruct (Hresp info eq_refl) as [b Hb]. rewrite Hb. destruct acc; total_steps;
      first [rewrite assign_at; eexists; (split; [done|]); cbn; split_and!; eauto; done|exfalso; cbn in *; congruence].
  - total_steps. rewrite assign_at. eexists. split; [done|]. by cbn.
  - total_steps. rewrite assign_at. eexists. split; [done|]. by cbn.
Qed.

(** ** From the SDK to the user and back *)

(** The transport delivers what the handler answers at the time [now]. *)
Definition delivers (N : NodeServer) a (sid cid uid : string) (acc : bool) (now : Z) : Prop :=
  ∀ r, value (Grpc.RespondPayChUpdate sid cid uid acc now a) = Ret r →
       srv_RespondPayChUpdate N sid cid uid acc = inl r.

(** What the answer [acc] to the pending update [en] of the channel [ch] leads to: in
    the node it calls the SDK once, unless it comes too late, and the channel gets its
    new state; the entry says what happened.  When the request fails the entry stays
    in [responding]. *)
Definition answer_result N a1 t1 p (e1 : channel) i ch (en : chUpdateResponderEntry) c (prop : PState) (x y : Z)
    (uid : string) (acc : bool) (now : Z) : Prop :=
  let run := Grpc.RespondPayChUpdate (t_sessionID t1) (chID e1) uid acc now a1 in
  let calls := if decide (too_late en now) then [] else [sdk_answer ch en acc] in
  events run = GEvNode ∘ NEvSession (t_sessionID t1) <$> (SEvCh i <$> calls) ∧
  ∃ s2 ch2, reaches (final run) (t_sessionID t1) (chID e1) s2 i ch2 ∧ ch_locked ch2 = false ∧
    ch_chUpdateResponders ch2 !! uid = None ∧
    wp (respond N p acc) t1 (λ es t2 _, ∃ e2, t2 = at_ p e2 t1 ∧ phase e2 = transact ∧
      requests es = [RespondPayChUpdateReq (t_sessionID t1) (chID e1) uid acc] ∧
      (¬ too_late en now ∧ sdk_takes ch en acc →
         state_of ch2 = (if acc then prop else state_of ch) ∧
         if acc then status e2 = accepted ∧ current e2 = trimBal (shown c prop x y)
         else status e2 = userRejected ∧ current e2 = trimBal (trimBal (current e1))) ∧
      (¬ (¬ too_late en now ∧ sdk_takes ch en acc) →
         state_of ch2 = state_of ch ∧ status e2 = responding ∧ current e2 = trimBal (current e1))).

Lemma answer_end_to_end N t1 p e1 a1 s1 i ch en c prop x0 y0 x y acc now :
  t_entries t1 !! p = Some e1 → e_locked e1 = false → is_Some (t_T t1) → t_client t1 = true →
  phase e1 = transact → status e1 = waitingForUser →
  reaches a1 (t_sessionID t1) (chID e1) s1 i ch →
  ch_locked ch = false → ch_status ch = Channel.open → ch_chUpdateResponders ch !! updateID e1 = Some en →
  responder_of (ue_responder en) prop → cun_Type (ue_notif en) ≠ ChUpdateTypeFinal →
  eth_channel c (peer e1) ch → bals_of ch = [row_of ch x0 y0] →
  al_Balances (st_Allocation prop) = [row_of ch x y] →
  delivers N a1 (t_sessionID t1) (chID e1) (updateID e1) acc now →
  answer_result N a1 t1 p e1 i ch en c prop x y (updateID e1) acc now.
Proof.
  intros He Hle HT Hcl Hph Hst Hr Hl Ho Hen Hresp Hf Hch Hb0 Hb HN.
  destruct (server_answer_run c (peer e1) a1 _ _ s1 i ch (updateID e1) acc now en prop x0 y0 x y Hr Hl Ho Hen Hresp
    Hf Hch Hb0 Hb) as (p' & r & Hrun & _ & Hinl & Hres).
  specialize (HN r). rewrite Hrun in HN. specialize (HN eq_refl). unfold answer_result. rewrite Hrun.
  split; [reflexivity|]. eexists _, (answered ch (updateID e1) p').
  split; [exact (put_channel_reaches _ _ _ _ _ _ _ Hr)|]. split; [exact Hl|].
  split; [apply lookup_delete_eq|]. eapply wp_mono; [|eapply respond_run; try done].
  - intros es t2 _ (e2 & -> & Hreq & Hph2 & Hshow). rewrite HN in Hshow. exists e2. split_and!; try done.
    + intros Hok. destruct r as [info|m]; [|by destruct (proj2 Hinl Hok)]. destruct Hres as [Hst2 Hb2].
      destruct acc; [|by split]. destruct Hshow as (Hs & b & Hb' & Hcur). rewrite Hb2 in Hb'.
      injection Hb' as <-. by split.
    + intros Hno. destruct r as [info|m]; [destruct Hno; by apply Hinl; eexists|]. by destruct Hshow.
  - intros info. rewrite HN. intros [= ->]. destruct Hres as [_ ->]. by eexists.
Qed.

(** C6: An incoming payment, from the SDK to the screen and back.  When the SDK reports
    an update of the peer, session and channel keep it under its ID until the user
    answers, and one message goes to the client; the dashboard shows the balances the
    peer proposes, with their version, and that it waits for the user.  The answer
    becomes one request, which reaches the SDK once, unless the time for it has
    passed.  If the SDK takes it, the channel of the node is in the proposed state and
    the entry shows its balances, or the channel is as it was and the entry says that
    the user rejected.  Otherwise the channel is as it was, too, and the entry stays
    in [responding].  No mutex stays locked and the update is no longer pending. *)
Theorem incoming_payment_end_to_end (zone : Z → Z) t p e R c a s i ch x0 y0 prop x y r now
    (Hwf : wf_tui t) (He : t_entries t !! p = Some e) (Hph : phase e = transact) (Hcl : t_client t = true)
    (HR : t_R t = Some R) (Hreg : getByChID (chID e) R = Ret (Some p))
    (Hr : reaches a (t_sessionID t) (chID e) s i ch) (Hopen : s_isOpen s = true)
    (Hl : ch_locked ch = false) (Ho : ch_status ch = Channel.open)
    (Hn : ch_chUpdateNotifier ch = Some (server_notifier (t_sessionID t) (chID e)))
    (Hid : Channel.ID ch = chID e) (Hhex : hex (st_ID prop) = chID e) (Hch : eth_channel c (peer e) ch)
    (Hb0 : bals_of ch = [row_of ch x0 y0]) (Hb : al_Balances (st_Allocation prop) = [row_of ch x y])
    (Hfin : st_IsFinal prop = false) (Hresp : responder_of r prop)
    (Hx : unix (now + response (p_timeoutCfg (ch_params ch))) ≠ 0) :
  let expiry := unix (now + response (p_timeoutCfg (ch_params ch))) in
  let uid := makeUpdateID (chID e) (st_Version prop) in
  let b := shown c prop x y in
  ∃ notif a1 msg e1, let en := mkUpdEntry notif r expiry in
    notified a (t_sessionID t) (chID e) i (Some (state_of ch)) prop r now notif a1 msg ∧
    incomingUpdate msg t = ([TEvGo (GoNotifyNonClosing p uid b expiry false)], t, Ret true) ∧
    wp (notifyNonClosingUpdate zone p uid b expiry false) t (λ es t1 _, t1 = at_ p e1 t ∧ requests es = []) ∧
    status e1 = waitingForUser ∧ proposed e1 = trimBal b ∧ timeout e1 = clock zone expiry ∧ chID e1 = chID e ∧
    ∀ N acc now2, delivers N a1 (t_sessionID t) (chID e) uid acc now2 →
      answer_result N a1 (at_ p e1 t) p e1 i ch en c prop x y uid acc now2.
Proof.
  intros expiry uid b.
  destruct (update_notified c (peer e) a _ _ s i ch _ (state_of ch) x0 y0 prop x y r now Hr Hopen Hl Ho Hn Hid Hhex
    Hch eq_refl Hb0 Hb Hx) as (notif & info & Hinfo & Huid & Hty & Hnot). fold expiry in Hnot.
  destruct (eth_state_info c (peer e) ch prop x y Hch Hb) as (info' & Hinfo' & Hci & Hshown).
  rewrite Hinfo in Hinfo'. injection Hinfo' as <-. rewrite Hfin in Hty.
  eexists notif, _, _, (waiting zone e uid b expiry). split; [exact Hnot|]. split_and!.
  - unfold update_msg. rewrite Hfin.
    apply (incomingUpdate_run t R p (mkPbUpdateNotify uid (toGrpcPayChInfo (toPayChInfo info)) 0 expiry None) b HR);
      [|done|exact Hshown]. cbn. by rewrite Hci, Hid.
  - by apply notifyNonClosing_run.
  - done.
  - done.
  - done.
  - done.
  - intros N acc now2 HN.
    assert (answer_result N (put_channel a (t_sessionID t) s i (pend ch notif r expiry)) (at_ p (waiting zone e uid b expiry) t)
      p (waiting zone e uid b expiry) i (pend ch notif r expiry) (mkUpdEntry notif r expiry) c prop x y uid acc now2) as H.
    + eapply (answer_end_to_end _ _ _ (waiting zone e uid b expiry)); try done.
      * apply lookup_at. eauto.
      * cbn. by eapply wf_unlocked.
      * exact (wf_T_some _ Hwf).
      * exact (put_channel_reaches _ _ _ _ _ _ _ Hr).
      * cbn. rewrite Huid. apply lookup_insert_eq.
      * cbn. by rewrite Hty.
      * by destruct Hch.
    + exact H.
Qed.
End incoming.
