(* ===== verification/OpeningEndToEnd.v ===== *)
(** * Opening a channel, from the dashboard to the chain and back

    What the command [open] of the dashboard does: the request that reaches the node,
    the proposal it makes to the peer, the channel it then keeps, and the entry the
    user sees.  As in [EndToEnd] only the transport between the dashboard and the
    server is assumed. *)
From S2P Require Import Prelude Perun Errors SessionErrors Currency IDProvider Contracts Sdk Timeout.
From S2P Require Import ChRegistry Client User Channel ChannelProps SessionHelpers Session SessionProps SessionLife.
From S2P Require Import Node Payment Grpc GrpcProps PbClient TuiText Tui TuiProps EndToEnd.
Local Open Scope Z_scope.

Section opening.
Context {GT : GoTypes} {GP : GoPerun} {EL : EthLib} {DL : DecimalLib} {GL : GoTypesLaws} {FL : FunderLaws}.
Context {PL : ProposalLaws Client.client}.
Implicit Types (a : payChAPIServer) (t : tui) (ch : Channel.Channel GOut).
Implicit Types (s : Session.Session GOut Client.client idProviderCache).

(** ** The node *)

(** The request of the dashboard. *)
Definition open_request (peer ours theirs : string) : pb_BalInfo :=
  mkPbBalInfo [ETHSymbol] [OwnAlias; peer] [[ours; theirs]].

(** The allocation of such a request: one asset, and the two amounts it was typed
    with. *)
Lemma open_alloc contracts currencies c ours theirs cs az bals :
  registered_Currency currencies ETHSymbol = Some (as_Currency c) →
  alloc_rows contracts currencies [ETHSymbol] [[ours; theirs]] cs az bals →
  ∃ x y, Parse c ours = inl x ∧ Parse c theirs = inl y ∧ bals = [[x; y]] ∧ cs = [Some (as_Currency c)].
Proof.
  intros Hreg H. inversion H as [|? ? ? ? ? ? ? ? ns ? (_ & c' & -> & _ & Hc & Hrow) Hrest]; subst.
  inversion Hrest; subst. rewrite Hreg in Hc. injection Hc as <-.
  inversion Hrow as [|? x ? ? Hx Hr]; subst. inversion Hr as [|? y ? ? Hy Hnil]; subst. inversion Hnil; subst.
  by exists x, y.
Qed.

(** The server after the session has become [s']. *)
Definition put_session a (sid : string) s' : payChAPIServer :=
  set_node (set_sessions (<[sid := s']> (n_sessions (g_n a))) (g_n a)) a.

(** A channel in ETH with [peer] that has just been added to the session: open, free,
    not subscribed to yet, with [x] for the user and [y] for the peer. *)
Record new_channel a' (sid peer : string) c s' i ch (x y : Z) : Prop := {
  nc_reaches : reaches a' sid (Channel.ID ch) s' i ch;
  nc_session : s_isOpen s' = true;
  nc_unlocked : ch_locked ch = false;
  nc_open : ch_status ch = Channel.open;
  nc_unsubscribed : ch_chUpdateNotifier ch = None;
  nc_eth : eth_channel c peer ch;
  nc_bals : bals_of ch = [row_of ch x y];
}.

(** The channel the node keeps, under its ID and with the amounts of the request; the
    calls of the session that led to it. *)
Record node_opened a a' (sid peer : string) c s d (ours theirs : string) (es : list (SEvent GOut))
    s' i ch (x y : Z) : Prop := {
  no_server : a' = put_session a sid s';
  no_new : new_channel a' sid peer c s' i ch x y;
  no_ours : Parse c ours = inl x;
  no_theirs : Parse c theirs = inl y;
  no_chs : chs (s_chs s') = chs (s_chs s) ++ [ch];
  no_calls : ∃ proposal, al_Balances (lcp_InitBals proposal) = [[x; y]] ∧
    es = [SEvPropose (proposeCh (s_timeoutCfg s) d) proposal; SEvWatch (Channel.ID ch)];
}.

Definition open_response a a' sid peer c s d ours theirs es (r : pb_response pb_PayChInfo) : Prop :=
  match r with
  | inl info => ∃ s' i ch x y, node_opened a a' sid peer c s d ours theirs es s' i ch x y ∧
      pb_ChID info = Channel.ID ch ∧ grpcPayChInfotoBalInfo info = Ret (shown c (state_of ch) x y)
  | inr m => ∃ s', n_sessions (g_n a') !! sid = Some s' ∧ s_chs s' = s_chs s ∧
      pb_Code m ∈ (ErrorCode_int <$> OpenCh_codes) ∧ (es = [] ∨ ∃ limit p, es = [SEvPropose limit p])
  end.

(** A new channel in ETH with [peer], whoever proposed it. *)
Lemma new_eth_channel c peer cs parts url cfg d ch p :
  newCh p url cs parts cfg d = Ret ch → cs = [Some (as_Currency c)] → peer ≠ OwnAlias →
  parts = [OwnAlias; peer] ∨ parts = [peer; OwnAlias] → pch_Idx p = 0 ∨ pch_Idx p = 1 →
  eth_channel c peer ch ∧ ∀ x y, row_of ch x y = if decide (parts !! 0%nat = Some OwnAlias) then [x; y] else [y; x].
Proof.
  intros Hnew Hcs Hne Hparts Hi.
  pose proof (newCh_spec _ _ _ _ _ _ _ Hnew) as (Hp & _ & _ & _ & _ & _ & _ & _ & HP & HC & _).
  split; [split|].
  - by rewrite HP.
  - done.
  - by rewrite Hp.
  - by rewrite HC.
  - rewrite HC. unfold newCh in Hnew. destruct (newCh_symbols cs) eqn:E; [|done..]. by injection Hnew as <-.
  - intros x y. unfold row_of. by rewrite HP.
Qed.

Lemma new_channel_reaches a sid s s' ch :
  n_locked (g_n a) = false → s_locked s' = false → s_chs s' = put Channel.ID ch (s_chs s) →
  reaches (put_session a sid s') sid (Channel.ID ch) s' (count (s_chs s)) ch.
Proof.
  intros Hl Hsl Hchs. split; [done|by apply lookup_insert_eq|done|..]; rewrite Hchs; cbn.
  - rewrite lookup_insert_eq, length_app. cbn. f_equal. unfold count. lia.
  - by apply list_lookup_middle.
Qed.

Lemma server_open_run a sid s c peer ours theirs d :
  wf_node (g_n a) → n_locked (g_n a) = false → n_sessions (g_n a) !! sid = Some s →
  s_isOpen s = true → s_locked s = false →
  registered_Currency (n_currencyRegistry (g_n a)) ETHSymbol = Some (as_Currency c) → peer ≠ OwnAlias →
  ∃ es a' r, Grpc.OpenPayCh sid (Some (open_request peer ours theirs)) d a =
      (GEvNode ∘ NEvSession sid <$> es, a', Ret r) ∧
    open_response a a' sid peer c s d ours theirs es r.
Proof.
  intros [Hreg Hsess] Hl Hs Ho Hsl Hc Hne. destruct (Hsess _ _ Hs) as [_ [_ Haddr Hfund]].
  unfold Grpc.OpenPayCh. rewrite (get_session_run _ _ _ _ s Hl Hs).
  set (bal := mkBalInfo [ETHSymbol] [OwnAlias; peer] [[ours; theirs]]).
  destruct (OpenCh_wp (node_env (g_n a)) bal bal (mkApp (Some NoApp) (Some NoData)) d s)
    as (es & s' & [info err] & Hrun & Hopen & Hsl' & Hop'); try done.
  { apply Hreg. }
  { unfold sanitizeBalInfo, ownIdx, bal. cbn. by rewrite (decide_False (P := peer = OwnAlias)), decide_True. }
  assert (Payment.OpenPayCh (node_env (g_n a)) bal d s = (es, s', Ret (toPayChInfo info, err))) as Hpay.
  { unfold Payment.OpenPayCh. rewrite (run_bind _ _ _ _ _ _ Hrun). cbn. by rewrite app_nil_r. }
  unfold mbind, prog_mbind, lift. change (fromGrpcBalInfo _) with (Ret bal). cbv beta iota.
  rewrite (call_s_run _ _ _ s Hs), Hpay. cbn [fst snd].
  fold (put_session a sid s'). set (a' := put_session a sid s').
  assert (Hs' : n_sessions (g_n a') !! sid = Some s') by apply lookup_insert_eq.
  destruct err as [err|].
  - destruct Hopen as (_ & Herr & Hchs & Hes).
    destruct (toGrpcError_ret _ err Herr) as (m & Hm & Hcode); [set_solver|].
    exists es, a', (inr m). split.
    + unfold Grpc.respond, errResponse, lift, mbind, prog_mbind, mret, prog_mret. rewrite Hm. cbn.
      by rewrite app_nil_r.
    + exists s'. split_and!; [done..| |done]. rewrite Hcode. apply list_elem_of_fmap_2. by destruct Herr.
  - destruct Hopen as (proposal & c1 & c2 & p & cs & ch & Hprop & Hal & Hnew & Hi & Hchs & ->).
    destruct (open_alloc _ _ c ours theirs _ _ _ Hc Hal) as (x & y & Hx & Hy & Hb & Hcs).
    pose proof (newCh_spec _ _ _ _ _ _ _ Hnew) as (Hp & Hst & Hlk & Hsub & _ & _ & _ & Hid & _).
    destruct (new_eth_channel c peer _ _ _ _ _ _ _ Hnew Hcs Hne (or_introl eq_refl)
      (or_introl (propose_idx _ _ _ _ _ Hprop))) as [Heth Hrow].
    pose proof (propose_bals _ _ _ _ _ Hprop) as Hbals. rewrite Hb in Hbals.
    assert (Hbal : al_Balances (st_Allocation (pch_State p)) = [row_of ch x y]) by (by rewrite Hbals, Hrow, decide_True).
    destruct (eth_state_info c peer ch (pch_State p) x y Heth Hbal) as (i & Hi' & Hci & Hshown).
    unfold info_of in Hi. rewrite Hi in Hi'. injection Hi' as <-.
    eexists [_; _], a', (inl (toGrpcPayChInfo (toPayChInfo info))). split; [reflexivity|].
    exists s', (count (s_chs s)), ch, x, y. split_and!.
    + split; try done.
      * split; try done.
        -- by apply (new_channel_reaches a sid s s').
        -- unfold bals_of, state_of. by rewrite Hp.
      * by rewrite Hchs.
      * exists proposal. split; [done|]. by rewrite Hid.
    + exact Hci.
    + unfold state_of. by rewrite Hp.
Qed.

(** ** The dashboard *)

Lemma wp_with_R {A} (f : registry → outcome (A * registry)) t R x Q :
  t_R t = Some R → f R = Ret x → Q [] (set_R (Some x.2) t) x.1 → wp (with_R f) t Q.
Proof.
  intros HR Hf HQ. unfold with_R. apply wp_bind, wp_get_state. rewrite HR. apply wp_bind, wp_lift, wp_bind.
  rewrite Hf. by apply wp_lift, wp_bind, wp_modify, wp_mret.
Qed.

(** The connection to the node stays. *)
Definition same_conn t t' : Prop := t_client t' = t_client t ∧ t_sessionID t' = t_sessionID t.

(** What the command leaves in the entry [e] once the answer of the node is known. *)
Definition proposed_post (r : bool * string * balInfo * option goerror) t p e R (es : list TEvent) t' : Prop :=
  ∃ e' R', t_entries t' = <[p := e']> (t_entries t) ∧ t_R t' = Some R' ∧ proposals R' = proposals R ∧
  same_conn t t' ∧ Tui.peer e' = Tui.peer e ∧ sNo e' = sNo e ∧
  let '(isAccepted, id, cur, err) := r in
  match err with
  | Some _ => requests es = [] ∧ e' = e
  | None =>
      if isAccepted : bool then
        requests es = [SubPayChUpdatesReq (t_sessionID t) id] ∧ byChID R' !! id = Some (sNo e) ∧
        phase e' = transact ∧ status e' = noUpdate ∧ chID e' = id ∧ current e' = trimBal cur
      else requests es = [] ∧ phase e' = errorPhase ∧ status e' = peerRejected
  end.

Lemma propose_result_run N p r t e R :
  wf_tui t → t_entries t !! p = Some e → phase e = open → t_client t = true → t_R t = Some R →
  wp (propose_result N p r) t (λ es t' _, wf_tui t' ∧ proposed_post r t p e R es t').
Proof.
  intros Hwf He Hph Hcl HR. pose proof (wf_T_some _ Hwf). pose proof (wf_unlocked _ _ _ Hwf He) as Hl.
  assert (is_Some (t_entries t !! p)) by eauto.
  cut (wp (propose_result N p r) t (λ es t' _, proposed_post r t p e R es t')).
  { intros Hw. eapply wp_mono; [|eapply wp_wlp; [exact (propose_result_op false N p r t e He Hph)|exact Hw]].
    intros es t' [] [Hpost HQ]. split; [by destruct (entry_dstep _ _ _ _ _ _ _ Hwf He Hpost)|exact HQ]. }
  destruct r as [[[isAccepted id] cur] [err|]]; unfold propose_result.
  { apply wp_emit. exists e, R. by rewrite list_insert_id. }
  eapply wp_with_lock; [done..|]. destruct isAccepted; cbn [negb].
  - total_steps. eapply wp_with_R; [exact HR|reflexivity|]. cbn [fst snd].
    change (set_R ?R' (at_ p ?e' t)) with (at_ p e' (set_R R' t)). unfold toTransact, subUpdates, call.
    total_steps; first
      [rewrite assign_at; eexists _, _; do 2 (split; [reflexivity|]); split_and!; try reflexivity;
         [by split|apply lookup_insert_eq]
      |exfalso; cbn in *; by rewrite Hcl in *].
  - total_steps. rewrite assign_at. eexists _, R. split; [reflexivity|]. by split_and!.
Qed.

Lemma wp_getRow t tb Q :
  wf_tui t → t_T t = Some tb → currentIndex tb ≠ lastIndex tb →
  Q [] (set_T (Some (next_row tb)) t)
    (Some (Z.of_nat (length (t_entries t)) + 1, Z.of_nat (length (t_entries t)) + 3)) →
  wp getRow t Q.
Proof.
  intros [(tb' & R & HT & _ & [Hoff Hlast Hcur Hroom] & _) _] HT' Hne HQ. rewrite HT' in HT. injection HT as <-.
  unfold getRow. apply wp_bind, wp_get_state. rewrite HT'. apply wp_bind, wp_lift.
  rewrite bool_decide_eq_false_2, bool_decide_eq_true_2 by lia.
  apply wp_bind, wp_modify, wp_mret. unfold next_row in HQ. rewrite Hcur, Hoff in *.
  replace (Z.of_nat (length (t_entries t)) + 1 - 1 + 3) with (Z.of_nat (length (t_entries t)) + 3) by lia.
  exact HQ.
Qed.

Lemma putAtIndex_ret n p R :
  ∃ R', putAtIndex (Z.of_nat n + 1) p R = Ret R' ∧ length (proposals R') = length (proposals R).
Proof.
  unfold putAtIndex, go_indexZ, go_index. case_bool_decide; [|by eexists].
  rewrite bool_decide_eq_false_2 by lia.
  destruct (lookup_lt_is_Some_2 (proposals R) (Z.to_nat (Z.of_nat n + 1))) as [x ->]; [lia|].
  eexists. split; [done|]. apply length_insert.
Qed.

(** The new entry, as it is shown while the peer is asked. *)
Definition asking peer ours theirs (n : nat) : channel :=
  trimEntry (mkEntry false open peer balInfo_zero waitingForPeer "" (mkBal ours theirs "0") "" "" false
    (Z.of_nat n + 1) (Z.of_nat n + 3) (Some (mkProposerFn peer ours theirs))).

(** The request, and what the dashboard takes its answer for. *)
Definition ask_result (resp : rpc pb_PayChInfo) : outcome (bool * string * balInfo * option goerror) :=
  match resp with
  | inr err => Ret (false, "", balInfo_zero, Some (ErrWithMessage "sending open request" err))
  | inl (inr msgErr) =>
      Ret (false, "", balInfo_zero,
           if decide (pb_Code msgErr = ErrorCode_int ErrPeerRejected) then None
           else Some (ErrText ("open request failed: " +:+ printAPIError msgErr)))
  | inl (inl info) => b ← grpcPayChInfotoBalInfo info; Ret (true, pb_ChID info, b, None)
  end.

Lemma run_proposerFn_run N f t r :
  t_client t = true →
  let req := open_request (pf_peer f) (pf_ours f) (pf_theirs f) in
  ask_result (srv_OpenPayCh N (t_sessionID t) req challengeDurSecs) = Ret r →
  run_proposerFn N f t = ([TEvRequest (OpenPayChReq (t_sessionID t) req challengeDurSecs)], t, Ret r).
Proof.
  intros Hcl req Hr. unfold run_proposerFn, call, lift, mbind, prog_mbind, get_state, emit, mret, prog_mret.
  rewrite Hcl. cbn [negb]. fold (open_request (pf_peer f) (pf_ours f) (pf_theirs f)). fold req.
  destruct (srv_OpenPayCh _ _ _ _) as [[info|m]|err]; cbn in Hr |- *.
  - destruct (grpcPayChInfotoBalInfo info); [|done..]. cbn in Hr |- *. by injection Hr as <-.
  - injection Hr as <-. by case_decide.
  - by injection Hr as <-.
Qed.
(** What the command does to the dashboard, for the answer [r]. *)
Definition open_post (r : bool * string * balInfo * option goerror) t R peer req (es : list TEvent) t' : Prop :=
  let n := length (t_entries t) in
  ∃ e' R', t_entries t' = t_entries t ++ [e'] ∧ t_R t' = Some R' ∧
    length (proposals R') = length (proposals R) ∧ same_conn t t' ∧ Tui.peer e' = peer ∧ sNo e' = Z.of_nat n + 1 ∧
  let '(isAccepted, id, cur, err) := r in
  match err with
  | Some _ => requests es = [req] ∧ phase e' = open ∧ status e' = waitingForPeer
  | None =>
      if isAccepted : bool then
        requests es = [req; SubPayChUpdatesReq (t_sessionID t) id] ∧
        phase e' = transact ∧ status e' = noUpdate ∧ chID e' = id ∧ current e' = trimBal cur ∧
        byChID R' !! id = Some (sNo e')
      else requests es = [req] ∧ phase e' = errorPhase ∧ status e' = peerRejected
  end.

Lemma open_run N t tb R peer ours theirs r :
  wf_tui t → t_T t = Some tb → t_R t = Some R → currentIndex tb ≠ lastIndex tb → t_client t = true →
  let req := open_request peer ours theirs in
  ask_result (srv_OpenPayCh N (t_sessionID t) req challengeDurSecs) = Ret r →
  wp (openCmdHandler N [peer; ours; theirs]) t (λ es t' err, err = None ∧ wf_tui t' ∧
    open_post r t R peer (OpenPayChReq (t_sessionID t) req challengeDurSecs) es t').
Proof.
  intros Hwf HT HR Hne Hcl req Hr. unfold openCmdHandler, newOutgoingChannel.
  set (n := length (t_entries t)). destruct (putAtIndex_ret n n R) as (R1 & Hput & Hlen).
  apply wp_bind, wp_bind, (wp_getRow t tb); [done..|]. cbv beta iota.
  apply wp_bind. unfold new_entry. apply wp_bind, wp_get_state, wp_bind, wp_modify, wp_mret, wp_mret.
  apply wp_bind, wp_lift. change (length (t_entries (set_T _ t))) with n. cbn [app].
  set (e0 := mkEntry _ _ _ _ _ _ _ _ _ _ _ _ _).
  set (t1 := set_entries _ _). assert (He0 : t_entries t1 !! n = Some e0) by by apply list_lookup_middle.
  apply wp_bind, (wp_deref n e0); [done|]. cbn [app].
  change (sNo e0) with (Z.of_nat n + 1).
  apply wp_bind. eapply (wp_with_R _ _ R); [exact HR|by rewrite Hput|].
  cbn [fst snd app].
  change (set_R (Some R1) t1) with (added e0 tb R1 t).
  assert (Hwf1 : wf_tui (added e0 tb R1 t)).
  { by eapply (added_dstep false t tb R R1 e0). }
  assert (He1 : t_entries (added e0 tb R1 t) !! n = Some e0) by by apply list_lookup_middle.
  pose proof (wf_T_some _ Hwf1). assert (is_Some (t_entries (added e0 tb R1 t) !! n)) by eauto.
  destruct (refresh_dstep false n e0 _ Hwf1 He1) as [Hwf2 _].
  unfold propose, propose_call. apply wp_bind, wp_bind, wp_bind. rewrite <-(at_id n e0 _ He1) at 1.
  apply wp_refreshEntry; [done..|]. apply wp_bind, wp_deref_at; [done|]. apply wp_bind, wp_lift. cbn [app].
  change (trimEntry e0) with (asking peer ours theirs n) in *. set (t2 := at_ n _ _) in *.
  eapply wp_run; [by apply (run_proposerFn_run N (mkProposerFn peer ours theirs) t2 r)|]. cbn [app].
  assert (He2 : t_entries t2 !! n = Some (asking peer ours theirs n)) by by apply lookup_at.
  eapply wp_mono; [|by apply (propose_result_run N n r t2 _ R1 Hwf2 He2)].
  intros es t' [] [Hwf' (e' & R' & Hent & HR' & Hprop & Hconn & Hpeer & Hs & Hpost)].
  apply wp_mret. split; [done|]. split; [done|]. exists e', R'. rewrite Hprop.
  assert (Hes : ∀ ev q, requests (row_event ev :: TEvRequest q :: es ++ []) = q :: requests es).
  { intros ev q. by rewrite app_nil_r. }
  split_and!; [|done..|].
  - rewrite Hent. cbn. rewrite list_insert_insert_eq. by rewrite insert_app_r_alt, Nat.sub_diag.
  - destruct r as [[[isAccepted id] cur] [err|]]; [|destruct isAccepted].
    + destruct Hpost as [Hreq ->]. by rewrite Hes, Hreq.
    + destruct Hpost as (Hreq & Hby & Hph & Hst & Hid & Hcur). rewrite Hes, Hs, Hreq. by split_and!.
    + destruct Hpost as (Hreq & Hph & Hst). rewrite Hes, Hreq. by split_and!.
Qed.

(** ** From the dashboard to the channel and back *)

(** The entry of a channel that was opened: it is ready for payments, shows the
    balances and the version of the channel of the node, and updates of the channel
    find it, as long as the registry has room. *)
Record entry_opened t t' (e' : channel) R c (id : string) (st : PState) (x y : Z) : Prop := {
  eo_ready : ready e';
  eo_chID : chID e' = id;
  eo_current : current e' = trimBal (shown c st x y);
  eo_found : sNo e' < Z.of_nat (length (proposals R)) → ∃ R', t_R t' = Some R' ∧
    getByChID id R' = Ret (Some (length (t_entries t)));
}.

Lemma found_by_chID t' R' p e' id :
  wf_tui t' → t_entries t' !! p = Some e' → t_R t' = Some R' → sNo e' = Z.of_nat p + 1 →
  byChID R' !! id = Some (sNo e') → sNo e' < Z.of_nat (length (proposals R')) →
  getByChID id R' = Ret (Some p).
Proof.
  intros [(tb & R0 & _ & HR & _ & Hreg) _] He HR' Hs Hid Hlt. rewrite HR' in HR. injection HR as <-.
  unfold getByChID, go_indexZ, go_index. rewrite Hid, bool_decide_eq_false_2 by lia.
  replace (Z.to_nat (sNo e')) with (S p) by lia.
  rewrite (wr_found _ _ _ Hreg); [done| |lia]. by eapply lookup_lt_Some.
Qed.

(** What the command leads to in the dashboard [t], for the calls [es] of the session
    and the outcome [run] of the request. *)
Definition opening_result N t R a s c peer ours theirs : Prop :=
  let sid := t_sessionID t in
  let req := open_request peer ours theirs in
  let run := Grpc.OpenPayCh sid (Some req) challengeDurSecs a in
  ∃ es, events run = GEvNode ∘ NEvSession sid <$> es ∧
  wp (openCmdHandler N [peer; ours; theirs]) t (λ tes t' err, err = None ∧ wf_tui t' ∧ same_conn t t' ∧
    ∃ e', t_entries t' = t_entries t ++ [e'] ∧ Tui.peer e' = peer ∧
    ((∃ s' i ch x y info, value run = Ret (inl info) ∧ pb_ChID info = Channel.ID ch ∧
        node_opened a (final run) sid peer c s challengeDurSecs ours theirs es s' i ch x y ∧
        requests tes = [OpenPayChReq sid req challengeDurSecs; SubPayChUpdatesReq sid (Channel.ID ch)] ∧
        entry_opened t t' e' R c (Channel.ID ch) (state_of ch) x y) ∨
     (∃ s' m, value run = Ret (inr m) ∧ n_sessions (g_n (final run)) !! sid = Some s' ∧ s_chs s' = s_chs s ∧
        (es = [] ∨ ∃ limit p, es = [SEvPropose limit p]) ∧
        requests tes = [OpenPayChReq sid req challengeDurSecs] ∧
        if decide (pb_Code m = ErrorCode_int ErrPeerRejected)
        then phase e' = errorPhase ∧ status e' = peerRejected
        else phase e' = open ∧ status e' = waitingForPeer))).

(** The transport delivers what the handler answers. *)
Definition delivers_opening (N : NodeServer) a (sid : string) (req : pb_BalInfo) : Prop :=
  ∀ r, value (Grpc.OpenPayCh sid (Some req) challengeDurSecs a) = Ret r →
       srv_OpenPayCh N sid req challengeDurSecs = inl r.

Lemma opening_run N t tb R a s c peer ours theirs
    (Hwf : wf_tui t) (HT : t_T t = Some tb) (HR : t_R t = Some R) (Hroom : currentIndex tb ≠ lastIndex tb)
    (Hcl : t_client t = true) (Hnode : wf_node (g_n a)) (Hl : n_locked (g_n a) = false)
    (Hs : n_sessions (g_n a) !! t_sessionID t = Some s) (Ho : s_isOpen s = true) (Hsl : s_locked s = false)
    (Hc : registered_Currency (n_currencyRegistry (g_n a)) ETHSymbol = Some (as_Currency c))
    (Hpeer : peer ≠ OwnAlias) :
  delivers_opening N a (t_sessionID t) (open_request peer ours theirs) →
  opening_result N t R a s c peer ours theirs.
Proof.
  intros HN. unfold opening_result. set (sid := t_sessionID t). set (req := open_request peer ours theirs).
  set (run := Grpc.OpenPayCh sid (Some req) challengeDurSecs a). unfold delivers_opening in HN. fold sid req run in HN.
  destruct (server_open_run a sid s c peer ours theirs challengeDurSecs Hnode Hl Hs Ho Hsl Hc Hpeer)
    as (es & a' & r & Hrun & Hresp). fold req in Hrun. fold run in Hrun.
  specialize (HN r ltac:(by rewrite Hrun)). rewrite Hrun. exists es. split; [done|]. unfold final. cbn [fst snd].
  destruct r as [info|m]; cbn [open_response] in Hresp.
  - destruct Hresp as (s' & i & ch & x & y & Hopened & Hid & Hinfo).
    assert (Hask : ask_result (srv_OpenPayCh N sid req challengeDurSecs) =
      Ret (true, Channel.ID ch, shown c (state_of ch) x y, None)) by (rewrite HN; cbn; by rewrite Hinfo, <-Hid).
    eapply wp_mono; [|exact (open_run N t tb R peer ours theirs _ Hwf HT HR Hroom Hcl Hask)].
    intros tes t' err (-> & Hwf' & e' & R' & Hent & HR' & Hlen & Hconn & Hp & Hsno & Hreq & Hph & Hst & Hcid & Hcur & Hby).
    do 3 (split; [done|]). exists e'. split; [done|]. split; [done|]. left.
    exists s', i, ch, x, y, info. do 4 (split; [done|]). split; [|done|done|].
    + unfold ready. by rewrite Hph, Hst.
    + intros Hlt. exists R'. split; [done|]. rewrite <-Hlen in Hlt.
      eapply found_by_chID; try done. by rewrite Hent, list_lookup_middle.
  - destruct Hresp as (s' & Hs' & Hchs & _ & Hes).
    eassert (ask_result (srv_OpenPayCh N sid req challengeDurSecs) = Ret _) as Hask by (rewrite HN; reflexivity).
    eapply wp_mono; [|exact (open_run N t tb R peer ours theirs _ Hwf HT HR Hroom Hcl Hask)].
    intros tes t' err (-> & Hwf' & e' & R' & Hent & HR' & Hlen & Hconn & Hp & Hsno & Hpost).
    do 3 (split; [done|]). exists e'. split; [done|]. split; [done|]. right. exists s', m.
    destruct (decide _); destruct Hpost as (Hreq & Hph & Hst); by split_and!.
Qed.

(** C7: Opening a channel, from the command of the user to the chain and back to the
    screen.  The dashboard makes one request; the node, which is one that can be
    reached, makes at most one proposal to the peer.  Either the channel is opened:
    then the session has exactly one more channel, with the amounts the user typed,
    the user being its first participant; its watcher is started; the dashboard
    subscribes to its updates, and the new entry is ready for payments and shows the
    channel.  Or no channel is added, and the entry says that the peer rejected the
    proposal; on any other error it stays as it was made, waiting for the peer.  The
    dashboard stays well formed. *)
Theorem opening_end_to_end N t tb R a s c peer ours theirs
    (Hwf : wf_tui t) (HT : t_T t = Some tb) (HR : t_R t = Some R) (Hroom : currentIndex tb ≠ lastIndex tb)
    (Hcl : t_client t = true) (Hnode : wf_node (g_n a)) (Hl : n_locked (g_n a) = false)
    (Hs : n_sessions (g_n a) !! t_sessionID t = Some s) (Ho : s_isOpen s = true) (Hsl : s_locked s = false)
    (Hc : registered_Currency (n_currencyRegistry (g_n a)) ETHSymbol = Some (as_Currency c))
    (Hpeer : peer ≠ OwnAlias) :
  delivers_opening N a (t_sessionID t) (open_request peer ours theirs) →
  opening_result N t R a s c peer ours theirs.
Proof. by apply (opening_run N t tb). Qed.
End opening.
