(* ===== verification/ProposalEndToEnd.v ===== *)
(** * A channel proposed by the peer, on its way through the system

    The other direction of [OpeningEndToEnd]: a proposal reported by the SDK, from the
    session through the API server to a new entry of the dashboard, and the answer of
    the user back to the SDK and to the channel it opens. *)
From S2P Require Import Prelude Perun Errors SessionErrors Currency IDProvider Contracts Sdk Timeout.
From S2P Require Import ChRegistry Client User Channel ChannelProps SessionHelpers Session SessionProps SessionLife.
From S2P Require Import Node Payment Grpc GrpcProps PbClient TuiText Tui TuiProps EndToEnd OpeningEndToEnd.
Local Open Scope Z_scope.

Section proposal.
Context {GT : GoTypes} {GP : GoPerun} {EL : EthLib} {DL : DecimalLib} {GL : GoTypesLaws} {FL : FunderLaws}.
Implicit Types (a : payChAPIServer) (t : tui) (ch : Channel.Channel GOut).
Implicit Types (s : Session.Session GOut Client.client idProviderCache).

(** Accepting through [r] opens the channel that was proposed; the user is the second
    participant. *)
Definition opens (r : propResponder) (prop : LedgerChannelProposal) : Prop := ∀ d resp p,
  prop_Accept d r resp = inl p →
  pch_Idx p = 1 ∧ al_Balances (st_Allocation (pch_State p)) = al_Balances (lcp_InitBals prop).

(** A proposal of the contact [peer] for a channel in ETH, with [x] for the user and
    [y] for the peer, which comes first. *)
Record eth_proposal c peer (n : node GOut) s prop (x y : Z) : Prop := {
  ep_parts : peerAliases (s_idProvider s) (lcp_Peers prop) = ([peer; OwnAlias], true);
  ep_peer : peer ≠ OwnAlias;
  ep_assets : getCurrencies (al_Assets (lcp_InitBals prop)) (n_contractRegistry n) (n_currencyRegistry n) =
    inl [Some (as_Currency c)];
  ep_bals : al_Balances (lcp_InitBals prop) = [[y; x]];
}.

(** ** The node: from the callback to the client *)

(** What [SubPayChProposals] of the server registers with the session. *)
Definition server_proposals (sid : string) : ChProposalNotifier GOut :=
  λ notif, OutProposal sid (toPayChProposalNotif notif).

(** The notification, the entry the session keeps, and the message for the client. *)
Definition eth_notif c peer prop (x y expiry : Z) : ChProposalNotif :=
  mkChProposalNotif (hex (lcp_ProposalID prop))
    (mkBalInfo [Symbol c] [peer; OwnAlias] [[Print c y; Print c x]])
    (makeApp (lcp_App prop) (lcp_InitData prop)) (lcp_ChallengeDuration prop) expiry.
Definition eth_entry c peer prop r (x y expiry : Z) : chProposalResponderEntry :=
  mkPropEntry prop (eth_notif c peer prop x y expiry) r [Some (as_Currency c)].
Definition proposal_msg c peer prop (x y expiry : Z) : pb_ProposalNotify :=
  mkPbProposalNotify (hex (lcp_ProposalID prop))
    (mkPbBalInfo [Symbol c] [peer; OwnAlias] [[Print c y; Print c x]]) (lcp_ChallengeDuration prop) expiry.

(** The session with the proposal waiting for its answer. *)
Definition kept (en : chProposalResponderEntry) s : Session.Session GOut Client.client idProviderCache :=
  set_chProposalResponders (<[cpn_ProposalID (pe_notif en) := en]> (s_chProposalResponders s)) s.

Lemma stored_kept en s n :
  s_chProposalNotifier s = Some n → cpn_Expiry (pe_notif en) ≠ 0 → stored en s = kept en s.
Proof. intros Hn Hx%Z.eqb_neq. unfold stored. rewrite Hx. cbn. by rewrite Hn. Qed.

(** The callback of the SDK, and the goroutine it starts. *)
Record proposal_notified a (sid : string) prop (r : propResponder) (now : Z) (n : ChProposalNotif)
    (a1 : payChAPIServer) (msg : pb_ProposalNotify) : Prop := {
  pn_callback : call_s sid (λ E, Session.HandleProposal E (LedgerProposal prop) r now) a =
    ([GEvNode (NEvSession sid (SEvGoNotify (server_proposals sid) n))], a1, Ret tt);
  pn_sent : run_notifier (server_proposals sid n) a1 = ([GEvSendProposal sid msg], a1, Ret tt);
}.

Lemma proposal_notified_run a sid s c peer prop r now x y :
  n_sessions (g_n a) !! sid = Some s → s_isOpen s = true → s_locked s = false →
  s_chProposalNotifier s = Some (server_proposals sid) → eth_proposal c peer (g_n a) s prop x y →
  let expiry := unix (now + response (s_timeoutCfg s)) in expiry ≠ 0 →
  proposal_notified a sid prop r now (eth_notif c peer prop x y expiry)
    (put_session a sid (kept (eth_entry c peer prop r x y expiry) s)) (proposal_msg c peer prop x y expiry).
Proof.
  intros Hs Ho Hl Hn [Hparts _ Hassets Hb] expiry Hx. split; [|done].
  rewrite (call_s_run _ _ _ s Hs).
  assert (chProposalNotif [peer; OwnAlias] [Some (as_Currency c)] prop expiry =
    Ret (eth_notif c peer prop x y expiry)) as Hnotif.
  { unfold chProposalNotif, makeBalInfoFromRawBal. rewrite Hb. by cbn. }
  rewrite (HandleProposal_run (node_env (g_n a)) prop r now s _ _ _ _ Hl Ho Hassets Hparts Hnotif).
  fold (eth_entry c peer prop r x y expiry). rewrite (stored_kept (eth_entry c peer prop r x y expiry) s _ Hn Hx). unfold store_events. by rewrite Hn.
Qed.

(** ** The node: the answer *)

Definition proposal_late (en : chProposalResponderEntry) (now : Z) : Prop := cpn_Expiry (pe_notif en) < unix now.
#[export] Instance proposal_late_dec en now : Decision (proposal_late en now).
Proof. unfold proposal_late. apply _. Defined.

(** The call of the SDK an answer leads to, and whether it succeeds. *)
Definition accept_args s (en : chProposalResponderEntry) : Z * proposalAcc :=
  (respChProposalAccept (s_timeoutCfg s) (cpn_ChallengeDurSecs (pe_notif en)),
   lcp_Accept (pe_proposal en) (pid_OffChainAddr (u_PeerID (s_user s)))).
Definition answer_call s (en : chProposalResponderEntry) (acc : bool) : SEvent GOut :=
  if acc then SEvAccept (accept_args s en).1 (pe_responder en) (accept_args s en).2
  else SEvReject (respChProposalReject (s_timeoutCfg s)) (pe_responder en) "rejected by user".
Definition answer_taken s (en : chProposalResponderEntry) (acc : bool) : Prop :=
  if acc then is_inl (prop_Accept (accept_args s en).1 (pe_responder en) (accept_args s en).2)
  else prop_Reject (respChProposalReject (s_timeoutCfg s)) (pe_responder en) "rejected by user" = None.

#[export] Instance answer_taken_dec s en acc : Decision (answer_taken s en acc).
Proof.
  unfold answer_taken, is_inl. destruct acc.
  - destruct (prop_Accept _ _ _); [left; by eexists|right; by intros [? [=]]].
  - destruct (prop_Reject _ _ _); [by right|by left].
Defined.

(** The channel the node keeps after the user has accepted: the one the SDK has opened. *)
Record node_joined a a' (sid peer : string) c s en s' i ch (x y : Z) : Prop := {
  nj_server : a' = put_session a sid s';
  nj_made : prop_Accept (accept_args s en).1 (pe_responder en) (accept_args s en).2 = inl (ch_pch ch);
  nj_ID : Channel.ID ch = hex (pch_ID (ch_pch ch));
  nj_new : new_channel a' sid peer c s' i ch x y;
  nj_chs : chs (s_chs s') = chs (s_chs s) ++ [ch];
}.

(** What the answer leaves of the session, and its response. *)
Definition answer_response a a' sid peer c s en (acc : bool) (now : Z) (x y : Z) (es : list (SEvent GOut)) s'
    (r : pb_response pb_PayChInfo) : Prop :=
  match r with
  | inl info =>
      ¬ proposal_late en now ∧ answer_taken s en acc ∧
      if acc then ∃ i ch, node_joined a a' sid peer c s en s' i ch x y ∧ pb_ChID info = Channel.ID ch ∧
        es = [answer_call s en acc; SEvWatch (Channel.ID ch)] ∧
        grpcPayChInfotoBalInfo info = Ret (shown c (state_of ch) x y)
      else s_chs s' = s_chs s ∧ es = [answer_call s en acc]
  | inr _ =>
      (proposal_late en now ∨ ¬ answer_taken s en acc) ∧ s_chs s' = s_chs s ∧
      es = if decide (proposal_late en now) then [] else [answer_call s en acc]
  end.

(** The session answers; what it leaves is free, and has no such proposal any more. *)
Lemma session_answer_run E s c peer pid acc now en prop x y :
  s_locked s = false → s_isOpen s = true → wf_contracts (e_contracts E) →
  funder_ready (e_contracts E) (s_funder s) → s_chProposalResponders s !! pid = Some en →
  peer ≠ OwnAlias → pe_currencies en = [Some (as_Currency c)] →
  bi_Parts (cpn_OpeningBalInfo (pe_notif en)) = [peer; OwnAlias] → opens (pe_responder en) prop →
  al_Balances (lcp_InitBals prop) = [[y; x]] →
  ∃ es s' info err, Payment.RespondPayChProposal E pid acc now s = (es, s', Ret (toPayChInfo info, err)) ∧
    s_locked s' = false ∧ s_isOpen s' = true ∧
    s_chProposalResponders s' = delete pid (s_chProposalResponders s) ∧
    match err with
    | None => ¬ proposal_late en now ∧ answer_taken s en acc ∧
        if acc then ∃ ch p, s_chs s' = put Channel.ID ch (s_chs s) ∧ info_of ch p info ∧ ch_pch ch = p ∧
          prop_Accept (accept_args s en).1 (pe_responder en) (accept_args s en).2 = inl p ∧ Channel.ID ch = hex (pch_ID p) ∧
          ch_locked ch = false ∧ ch_status ch = Channel.open ∧ ch_chUpdateNotifier ch = None ∧ eth_channel c peer ch ∧
          bals_of ch = [row_of ch x y] ∧ es = [answer_call s en acc; SEvWatch (Channel.ID ch)]
        else s_chs s' = s_chs s ∧ es = [answer_call s en acc]
    | Some err => (proposal_late en now ∨ ¬ answer_taken s en acc) ∧ s_chs s' = s_chs s ∧
        (∃ m, toGrpcError err = Ret m) ∧ es = if decide (proposal_late en now) then [] else [answer_call s en acc]
    end.
Proof.
  intros Hl Ho Hwf Hfund He Hne Hcs Hparts Hop Hb. unfold Payment.RespondPayChProposal, mbind, prog_mbind.
  destruct (decide (proposal_late en now)) as [Hx|Hx].
  { rewrite (RespondChProposal_late E pid now s en Hl Ho He acc Hx).
    eexists _, _, _, _. split; [reflexivity|]. cbn [fst snd]. split_and!; try done;
      [by left|by eexists]. }
  assert (Hin : unix now ≤ cpn_Expiry (pe_notif en)) by (unfold proposal_late in Hx; lia).
  destruct acc; cbn [answer_taken answer_call].
  2:{ rewrite (RespondChProposal_rejected E pid now s en Hl Ho He Hin). eexists _, _, _, _. split; [reflexivity|].
      do 3 (split; [done|]). cbn [fst snd]. destruct (prop_Reject _ _ _) as [err|]; cbn; split_and!; try done;
        [by right|by eexists]. }
  destruct (updateAssetsInFunder_ret [Some (as_Currency c)] (e_contracts E) (s_funder s)
    (cred_Addr (u_OnChain (s_user s))) Hwf ltac:(by constructor) Hfund) as (f & Hf & _).
  rewrite <-Hcs in Hf. cbn [accept_args fst snd].
  destruct (prop_Accept _ (pe_responder en) _) as [p|err] eqn:Hacc.
  - destruct (newCh_ret (Out := GOut) p (s_chainURL s) (pe_currencies en) [peer; OwnAlias] (s_timeoutCfg s)
      (cpn_ChallengeDurSecs (pe_notif en))) as [ch Hch]; [rewrite Hcs; by constructor|].
    pose proof (newCh_spec _ _ _ _ _ _ _ Hch) as (Hp & Hst & Hlk & Hsub & _ & _ & _ & Hid & _ & HC & _).
    destruct (Hop _ _ _ Hacc) as [Hidx Hal]. rewrite Hb in Hal.
    destruct (new_eth_channel c peer _ _ _ _ _ _ _ Hch Hcs Hne (or_intror eq_refl) (or_intror Hidx)) as [Heth Hrow].
    destruct (info_ret ch p) as [i Hi]; [rewrite HC, Hcs; by constructor|by rewrite HC, Hcs, Hal|].
    rewrite <-Hparts in Hch.
    rewrite (RespondChProposal_accepted E pid now s en Hl Ho He f Hf p ch i Hin Hacc Hch Hi).
    eexists _, _, _, _. split; [reflexivity|]. cbn [fst snd]. split_and!; try done; [by eexists|].
    exists ch, p. split_and!; try done.
    + unfold bals_of, state_of. by rewrite Hp, Hal, Hrow, decide_False by (by intros [=]).
    + by rewrite Hid.
  - destruct (RespondChProposal_not_accepted E pid now s en Hl Ho He f Hf err peer Hin Hacc) as (apiErr & Hrun & Hcode).
    { by rewrite Hparts. }
    rewrite Hrun. eexists _, _, _, _. split; [reflexivity|]. cbn [fst snd]. split_and!; try done; [right; by intros [? [=]]|].
    destruct (toGrpcError_ret _ apiErr Hcode) as (m & Hm & _); [set_solver|by eexists].
Qed.

Lemma server_respond_proposal_run a sid s c peer pid acc now en prop x y :
  n_locked (g_n a) = false → n_sessions (g_n a) !! sid = Some s → s_locked s = false → s_isOpen s = true →
  wf_contracts (n_contractRegistry (g_n a)) → funder_ready (n_contractRegistry (g_n a)) (s_funder s) →
  s_chProposalResponders s !! pid = Some en →
  peer ≠ OwnAlias → pe_currencies en = [Some (as_Currency c)] →
  bi_Parts (cpn_OpeningBalInfo (pe_notif en)) = [peer; OwnAlias] → opens (pe_responder en) prop →
  al_Balances (lcp_InitBals prop) = [[y; x]] →
  ∃ es a' s' r, Grpc.RespondPayChProposal sid pid acc now a = (GEvNode ∘ NEvSession sid <$> es, a', Ret r) ∧
    n_sessions (g_n a') !! sid = Some s' ∧ s_locked s' = false ∧ s_chProposalResponders s' !! pid = None ∧
    answer_response a a' sid peer c s en acc now x y es s' r.
Proof.
  intros Hnl Hs Hl Ho Hwf Hfund He Hne Hcs Hparts Hop Hb.
  destruct (session_answer_run (node_env (g_n a)) s c peer pid acc now en prop x y Hl Ho Hwf Hfund He Hne Hcs Hparts
    Hop Hb) as (es & s' & info & err & Hrun & Hl' & Ho' & Hdel & Hres).
  unfold Grpc.RespondPayChProposal. rewrite (get_session_run _ _ _ _ s Hnl Hs).
  unfold mbind, prog_mbind. rewrite (call_s_run _ _ _ s Hs), Hrun. cbn [fst snd]. fold (put_session a sid s').
  assert (Hs' : n_sessions (g_n (put_session a sid s')) !! sid = Some s') by apply lookup_insert_eq.
  assert (Hgone : s_chProposalResponders s' !! pid = None) by (rewrite Hdel; apply lookup_delete_eq).
  exists es, (put_session a sid s'), s'. unfold Grpc.respond, errResponse, lift, mbind, prog_mbind, mret, prog_mret.
  destruct err as [err|].
  - destruct Hres as (Hno & Hchs & (m & ->) & Hes). cbn. rewrite app_nil_r. exists (inr m). by split_and!.
  - destruct Hres as (Hin & Htaken & Hres). cbn. rewrite app_nil_r. eexists (inl _). split; [reflexivity|].
    do 3 (split; [done|]). do 2 (split; [done|]). destruct acc; [|exact Hres].
    destruct Hres as (ch & p & Hchs & Hi & Hp & Hmade & Hid & Hlk & Hst & Hsub & Heth & Hbals & Hes).
    destruct (eth_state_info c peer ch (pch_State p) x y Heth) as (i' & Hi' & Hci & Hshown).
    { by rewrite <-Hp. }
    unfold info_of in Hi. rewrite Hi in Hi'. injection Hi' as <-.
    exists (count (s_chs s)), ch. split; [|split; [exact Hci|split; [done|by rewrite <-Hp in Hshown]]]. split; try done.
    + by rewrite Hp.
    + by rewrite Hp.
    + split; try done. by apply (new_channel_reaches a sid s s').
    + by rewrite Hchs.
Qed.

(** ** The dashboard *)

(** The entry that shows a proposal and waits for the answer of the user. *)
Definition invited (zone : Z → Z) peer (b : balInfo) (pid : string) (expiry : Z) (n : nat) : channel :=
  mkEntry false open peer balInfo_zero waitingForUser (clock zone expiry) (mkBal (ours b) (theirs b) "0") "" pid true
    (Z.of_nat n + 1) (Z.of_nat n + 3) None.

Lemma incomingChannel_run zone t tb R peer b msg :
  wf_tui t → t_T t = Some tb → t_R t = Some R → currentIndex tb ≠ lastIndex tb →
  pb_Parts (pbp_OpeningBalInfo msg) = [peer; OwnAlias] → peer ≠ OwnAlias →
  grpcBalInfotoBalInfo (pbp_OpeningBalInfo msg) = Ret b →
  let n := length (t_entries t) in
  let e := invited zone peer b (pbp_ProposalID msg) (pbp_Expiry msg) n in
  ∃ R1, length (proposals R1) = length (proposals R) ∧ wf_tui (added e tb R1 t) ∧
    incomingChannel zone msg t = ([TEvGo (GoNotifyIncoming n (pbp_Expiry msg))], added e tb R1 t, Ret tt).
Proof.
  intros Hwf HT HR Hne Hparts Hpeer Hb n e. destruct (putAtIndex_ret n n R) as (R1 & Hput & Hlen).
  exists R1. split; [done|]. split; [by eapply (added_dstep false t tb R R1 e)|].
  assert (Hw : wp (incomingChannel zone msg) t (λ es t' _,
    es = [TEvGo (GoNotifyIncoming n (pbp_Expiry msg))] ∧ t' = added e tb R1 t)).
  { unfold incomingChannel. rewrite Hparts, Hb. unfold findPeerIndex. rewrite decide_True by done. cbn [go_index lookup list_lookup].
    apply wp_bind, wp_lift, wp_bind, wp_lift. cbn [app].
    unfold newIncomingChannel. apply wp_bind, wp_bind, (wp_getRow t tb); [done..|]. cbv beta iota. fold n.
    apply wp_bind. unfold new_entry. apply wp_bind, wp_get_state, wp_bind, wp_modify, wp_mret, wp_mret. cbn [app].
    change (length (t_entries (set_T _ t))) with n.
    change (mkEntry _ _ _ _ _ _ _ _ _ _ _ _ _) with e. set (t1 := set_entries _ _).
    assert (He : t_entries t1 !! n = Some e) by by apply list_lookup_middle.
    apply wp_bind, (wp_deref n e); [done|]. cbn [app]. change (sNo e) with (Z.of_nat n + 1).
    apply wp_bind. eapply (wp_with_R _ _ R); [exact HR|by rewrite Hput|]. cbn [fst snd app].
    by apply wp_emit. }
  destruct Hw as (es & t' & [] & Hrun & -> & ->). exact Hrun.
Qed.

Lemma notifyIncoming_run t p e :
  wf_tui t → t_entries t !! p = Some e →
  wp (notifyIncomingChannel p) t (λ es t' _, t' = at_ p (trimEntry e) t ∧ requests es = [] ∧ wf_tui t').
Proof.
  intros Hwf He. pose proof (wf_T_some _ Hwf). destruct (refresh_dstep false p e _ Hwf He) as [Hwf' _].
  unfold notifyIncomingChannel. rewrite <-(at_id p e t He) at 1. apply wp_refreshEntry; [eauto|done|]. by split_and!.
Qed.

(** Answering a proposal that waits; a request that fails leaves the entry in
    [responding]. *)
Definition answered_entry (resp : rpc pb_PayChInfo) (acc : bool) t p (e : channel) R (es : list TEvent) t' : Prop :=
  let req := RespondPayChProposalReq (t_sessionID t) (updateID e) acc in
  ∃ e' R', t_entries t' = <[p := e']> (t_entries t) ∧ t_R t' = Some R' ∧ proposals R' = proposals R ∧
    same_conn t t' ∧ Tui.peer e' = Tui.peer e ∧ sNo e' = sNo e ∧
  match resp with
  | inl (inl info) =>
      if acc then
        requests es = [req; SubPayChUpdatesReq (t_sessionID t) (pb_ChID info)] ∧ byChID R' !! pb_ChID info = Some (sNo e) ∧
        phase e' = transact ∧ status e' = noUpdate ∧ chID e' = pb_ChID info ∧
        ∃ b, grpcPayChInfotoBalInfo info = Ret b ∧ current e' = trimBal b
      else requests es = [req] ∧ phase e' = errorPhase ∧ status e' = userRejected
  | _ => requests es = [req] ∧ phase e' = open ∧ status e' = responding
  end.

Lemma respond_proposal_run N t p e R acc :
  wf_tui t → t_entries t !! p = Some e → phase e = open → status e = waitingForUser → t_client t = true →
  t_R t = Some R →
  let resp := srv_RespondPayChProposal N (t_sessionID t) (updateID e) acc in
  (∀ info, resp = inl (inl info) → acc = true → returns (grpcPayChInfotoBalInfo info)) →
  wp (respond N p acc) t (λ es t' _, wf_tui t' ∧ answered_entry resp acc t p e R es t').
Proof.
  intros Hwf He Hph Hst Hcl HR resp Hresp. pose proof (wf_T_some _ Hwf). pose proof (wf_unlocked _ _ _ Hwf He) as Hl.
  assert (is_Some (t_entries t !! p)) by eauto.
  cut (wp (respond N p acc) t (λ es t' _, answered_entry resp acc t p e R es t')).
  { intros Hw. eapply wp_mono; [|eapply wp_wlp; [exact (respond_op N false p acc t e He)|exact Hw]].
    intros es t' [] [Hpost HQ]. split; [by destruct (entry_dstep _ _ _ _ _ _ _ Hwf He Hpost)|exact HQ]. }
  eapply wp_with_lock; [done..|]. apply wp_bind, wp_deref_at; [done|]. cbn [app].
  rewrite decide_False by (cbn; rewrite Hst; by intros []). cbn [phase Tui.set_locked]. rewrite Hph.
  unfold respondToProposal. apply wp_bind, wp_assign, wp_bind, wp_refreshEntry; [done..|]. cbn [app].
  apply wp_bind, wp_deref_at; [done|]. cbn [app]. apply wp_bind. unfold respondToProposal_req.
  apply wp_bind, wp_get_state. change (t_client _) with (t_client t). rewrite Hcl. cbn [negb app].
  change (t_sessionID _) with (t_sessionID t). cbn [updateID trimEntry set_proposed set_current Tui.set_status Tui.set_locked].
  fold resp. apply wp_bind, wp_bind, wp_emit, wp_mret. cbn [app].
  destruct resp as [[info|err]|err] eqn:Er; [destruct acc|..]; cbn [negb].
  - destruct (Hresp info eq_refl eq_refl) as [b Hb]. rewrite Hb. total_steps.
    all: eapply wp_with_R; [exact HR|reflexivity|]; cbn [fst snd app].
    all: change (set_R ?R' (at_ p ?e' t)) with (at_ p e' (set_R R' t)); unfold toTransact, subUpdates, call.
    all: total_steps; first
      [rewrite assign_at; eexists _, _; do 2 (split; [reflexivity|]); split_and!; try reflexivity;
         [by split|apply lookup_insert_eq|by eexists]
      |exfalso; cbn in *; by rewrite Hcl in *].
  - total_steps. rewrite assign_at. eexists _, R. split; [reflexivity|]. by split_and!.
  - total_steps. rewrite assign_at. eexists _, R. split; [reflexivity|]. by split_and!.
  - total_steps. rewrite assign_at. eexists _, R. split; [reflexivity|]. by split_and!.
Qed.

(** ** From the SDK to the user and back *)

(** The transport delivers what the handler answers at the time [now]. *)
Definition delivers_proposal (N : NodeServer) a (sid pid : string) (acc : bool) (now : Z) : Prop :=
  ∀ r, value (Grpc.RespondPayChProposal sid pid acc now a) = Ret r → srv_RespondPayChProposal N sid pid acc = inl r.

(** What the answer [acc] leads to, when the dashboard, which was [t] before the
    proposal came, is [t1]: the calls of the SDK, the channels of the session, the
    requests of the dashboard, and its entry. *)
Definition joining_result N a1 t t1 R c peer s en pid (acc : bool) (now : Z) (x y : Z) : Prop :=
  let sid := t_sessionID t in
  let run := Grpc.RespondPayChProposal sid pid acc now a1 in
  let req := RespondPayChProposalReq sid pid acc in
  ∃ es s2, events run = GEvNode ∘ NEvSession sid <$> es ∧ n_sessions (g_n (final run)) !! sid = Some s2 ∧
    s_locked s2 = false ∧ s_chProposalResponders s2 !! pid = None ∧
    wp (respond N (length (t_entries t)) acc) t1 (λ tes t2 _, wf_tui t2 ∧ same_conn t t2 ∧
      ∃ e2, t_entries t2 = t_entries t ++ [e2] ∧ Tui.peer e2 = peer ∧
      (¬ proposal_late en now ∧ answer_taken s en acc →
        if acc then ∃ i ch info, value run = Ret (inl info) ∧ pb_ChID info = Channel.ID ch ∧
          node_joined a1 (final run) sid peer c s en s2 i ch x y ∧
          es = [answer_call s en true; SEvWatch (Channel.ID ch)] ∧
          requests tes = [req; SubPayChUpdatesReq sid (Channel.ID ch)] ∧
          entry_opened t t2 e2 R c (Channel.ID ch) (state_of ch) x y
        else s_chs s2 = s_chs s ∧ es = [answer_call s en false] ∧ requests tes = [req] ∧
          phase e2 = errorPhase ∧ status e2 = userRejected) ∧
      (¬ (¬ proposal_late en now ∧ answer_taken s en acc) →
        (∃ m, value run = Ret (inr m)) ∧ s_chs s2 = s_chs s ∧
        es = (if decide (proposal_late en now) then [] else [answer_call s en acc]) ∧
        requests tes = [req] ∧ phase e2 = open ∧ status e2 = responding)).

Lemma proposal_answer_run N a1 t t1 R R1 c peer s en e1 pid acc now x y prop :
  wf_tui t1 → t_entries t1 = t_entries t ++ [e1] → t_client t = true → same_conn t t1 →
  t_R t1 = Some R1 → length (proposals R1) = length (proposals R) →
  phase e1 = open → status e1 = waitingForUser → updateID e1 = pid → Tui.peer e1 = peer →
  sNo e1 = Z.of_nat (length (t_entries t)) + 1 →
  n_locked (g_n a1) = false → n_sessions (g_n a1) !! t_sessionID t = Some s → s_locked s = false → s_isOpen s = true →
  wf_contracts (n_contractRegistry (g_n a1)) → funder_ready (n_contractRegistry (g_n a1)) (s_funder s) →
  s_chProposalResponders s !! pid = Some en →
  peer ≠ OwnAlias → pe_currencies en = [Some (as_Currency c)] →
  bi_Parts (cpn_OpeningBalInfo (pe_notif en)) = [peer; OwnAlias] → opens (pe_responder en) prop →
  al_Balances (lcp_InitBals prop) = [[y; x]] →
  delivers_proposal N a1 (t_sessionID t) pid acc now →
  joining_result N a1 t t1 R c peer s en pid acc now x y.
Proof.
  intros Hwf Hent Hcl0 [Hcl Hsid] HR Hlen Hph Hst Huid Hp Hsno Hnl Hs Hl Ho Hwfc Hfund He Hne Hcs Hparts Hop Hb HN.
  destruct (server_respond_proposal_run a1 _ s c peer pid acc now en prop x y Hnl Hs Hl Ho Hwfc Hfund He Hne Hcs
    Hparts Hop Hb) as (es & a2 & s2 & r & Hrun & Hs2 & Hl2 & Hgone & Hres).
  specialize (HN r). rewrite Hrun in HN. specialize (HN eq_refl). unfold joining_result. rewrite Hrun.
  unfold final, events. cbn [fst snd]. exists es, s2. do 4 (split; [done|]).
  assert (He1 : t_entries t1 !! length (t_entries t) = Some e1) by (rewrite Hent; by apply list_lookup_middle).
  eapply wp_mono; [|eapply (respond_proposal_run N t1 _ e1 R1 acc Hwf He1 Hph Hst (eq_trans Hcl Hcl0) HR)].
  2:{ rewrite Hsid, Huid, HN. intros info [= ->] ->. destruct Hres as (_ & _ & i & ch & _ & _ & _ & ->). by eexists. }
  rewrite Hsid, Huid, HN. intros tes t2 [] [Hwf2 (e2 & R2 & Hent2 & HR2 & Hprop & Hconn2 & Hp2 & Hs2no & Hpost)].
  rewrite Hsid, Huid in Hpost. split; [done|].
  split; [destruct Hconn2; split; congruence|]. exists e2.
  assert (Happ : t_entries t2 = t_entries t ++ [e2]).
  { rewrite Hent2, Hent, insert_app_r_alt by done. by rewrite Nat.sub_diag. }
  split; [exact Happ|]. split; [congruence|]. destruct r as [info|m].
  - destruct Hres as (Hin & Htaken & Hres). split; [intros _|intros []; by split]. destruct acc.
    + destruct Hres as (i & ch & Hj & Hci & Hes & Hinfo). rewrite Hci in Hpost.
      destruct Hpost as (Hreq & Hby & Hph2 & Hst2 & Hcid & b & Hb2 & Hcur). rewrite Hinfo in Hb2. injection Hb2 as <-.
      exists i, ch, info. do 5 (split; [done|]). split; [|done|done|].
      * unfold ready. by rewrite Hph2, Hst2.
      * intros Hlt. exists R2. split; [done|]. apply (found_by_chID t2 R2 _ e2); try done.
        -- by rewrite Happ, list_lookup_middle.
        -- congruence.
        -- by rewrite Hs2no.
        -- by rewrite Hprop, Hlen.
    + destruct Hres as [Hchs Hes], Hpost as (Hreq & Hph2 & Hst2). by split_and!.
  - destruct Hres as (Hno & Hchs & Hes), Hpost as (Hreq & Hph2 & Hst2). split; [|intros _; split; [by eexists|done]].
    intros [Hin Htaken]. by destruct Hno.
Qed.

(** What the proposal leads to, up to the answer of the user. *)
Definition proposal_result (zone : Z → Z) t R a s c peer prop r now (x y : Z) : Prop :=
  let sid := t_sessionID t in
  let n := length (t_entries t) in
  let expiry := unix (now + response (s_timeoutCfg s)) in
  let pid := hex (lcp_ProposalID prop) in
  let en := eth_entry c peer prop r x y expiry in
  let a1 := put_session a sid (kept en s) in
  let msg := proposal_msg c peer prop x y expiry in
  ∃ t1 e1,
    proposal_notified a sid prop r now (pe_notif en) a1 msg ∧
    incomingChannel zone msg t = ([TEvGo (GoNotifyIncoming n expiry)], t1, Ret tt) ∧
    phase e1 = open ∧ status e1 = waitingForUser ∧ Tui.peer e1 = peer ∧ timeout e1 = clock zone expiry ∧
    proposed e1 = trimBal (mkBal (Print c x) (Print c y) "0") ∧
    wp (notifyIncomingChannel n) t1 (λ es t2 _, requests es = [] ∧ wf_tui t2 ∧ t_entries t2 = t_entries t ++ [e1] ∧
      ∀ N acc now2, delivers_proposal N a1 sid pid acc now2 →
        joining_result N a1 t t2 R c peer (kept en s) en pid acc now2 x y).

Lemma incoming_opening_run (zone : Z → Z) t tb R a s c peer prop r now x y
    (Hwf : wf_tui t) (HT : t_T t = Some tb) (HR : t_R t = Some R) (Hroom : currentIndex tb ≠ lastIndex tb)
    (Hcl : t_client t = true) (Hnode : wf_node (g_n a)) (Hl : n_locked (g_n a) = false)
    (Hs : n_sessions (g_n a) !! t_sessionID t = Some s) (Ho : s_isOpen s = true) (Hsl : s_locked s = false)
    (Hn : s_chProposalNotifier s = Some (server_proposals (t_sessionID t)))
    (Hprop : eth_proposal c peer (g_n a) s prop x y) (Hresp : opens r prop)
    (Hx : unix (now + response (s_timeoutCfg s)) ≠ 0) :
  proposal_result zone t R a s c peer prop r now x y.
Proof.
  unfold proposal_result. cbv zeta. set (sid := t_sessionID t). set (n := length (t_entries t)).
  set (expiry := unix _). set (pid := hex _). set (en := eth_entry _ _ _ _ _ _ _). destruct Hnode as [Hreg Hsess]. destruct (Hsess _ _ Hs) as [_ [_ _ Hfund]].
  pose proof (proposal_notified_run a sid s c peer prop r now x y Hs Ho Hsl Hn Hprop Hx) as Hnot. fold expiry in Hnot.
  destruct Hprop as [_ Hne _ Hb].
  assert (Hconv : grpcBalInfotoBalInfo (pbp_OpeningBalInfo (proposal_msg c peer prop x y expiry)) =
    Ret (mkBal (Print c x) (Print c y) "")).
  { unfold grpcBalInfotoBalInfo, findPeerIndex. cbn. by rewrite decide_True. }
  destruct (incomingChannel_run zone t tb R peer _ (proposal_msg c peer prop x y expiry) Hwf HT HR Hroom eq_refl Hne Hconv) as (R1 & Hlen & Hwf1 & Hrun).
  set (e := invited _ _ _ _ _ _) in Hwf1, Hrun.
  eexists _, (trimEntry e). split; [exact Hnot|]. split; [exact Hrun|]. do 5 (split; [done|]).
  assert (He : t_entries (added e tb R1 t) !! n = Some e) by by apply list_lookup_middle.
  eapply wp_mono; [|by apply (notifyIncoming_run _ n e Hwf1)]. intros es t2 [] (-> & Hreq & Hwf2).
  split; [done|]. split; [done|].
  assert (Hent : t_entries (at_ n (trimEntry e) (added e tb R1 t)) = t_entries t ++ [trimEntry e]).
  { cbn. by rewrite insert_app_r_alt, Nat.sub_diag. }
  split; [exact Hent|]. intros N acc now2 HN.
  eapply (proposal_answer_run _ _ _ _ R R1 _ _ _ _ (trimEntry e)); try done.
  - apply lookup_insert_eq.
  - apply Hreg.
  - apply lookup_insert_eq.
Qed.

(** C8: Opening a channel the peer has proposed, from the SDK to the screen and back.  When
    the SDK reports a proposal of a contact, the session keeps it until the user
    answers, and one message goes to the client; the dashboard adds an entry that shows
    the peer, the amounts, the time limit, and that it waits for the user.  The answer
    becomes one request, which reaches the SDK once, unless the time for it has passed;
    in any case the proposal is no longer kept, and no mutex stays locked.  If the SDK
    opens the channel, the session has exactly one more, with the amounts of the
    proposal; its watcher is started, the dashboard subscribes to its updates, and the
    entry is ready for payments and shows the channel.  If the peer is told of the
    rejection, no channel is added and the entry says that the user rejected.
    Otherwise no channel is added and the entry stays in [responding]. *)
Theorem incoming_opening_end_to_end (zone : Z → Z) t tb R a s c peer prop r now x y
    (Hwf : wf_tui t) (HT : t_T t = Some tb) (HR : t_R t = Some R) (Hroom : currentIndex tb ≠ lastIndex tb)
    (Hcl : t_client t = true) (Hnode : wf_node (g_n a)) (Hl : n_locked (g_n a) = false)
    (Hs : n_sessions (g_n a) !! t_sessionID t = Some s) (Ho : s_isOpen s = true) (Hsl : s_locked s = false)
    (Hn : s_chProposalNotifier s = Some (server_proposals (t_sessionID t)))
    (Hprop : eth_proposal c peer (g_n a) s prop x y) (Hresp : opens r prop)
    (Hx : unix (now + response (s_timeoutCfg s)) ≠ 0) :
  proposal_result zone t R a s c peer prop r now x y.
Proof. by apply (incoming_opening_run zone t tb). Qed.
End proposal.
