(* ===== verification/LedgerRefinement.v ===== *)
(** * The dashboard and the node refine a two-party ledger

    [EndToEnd] and [IncomingEndToEnd] follow one payment each.  Here the two sides run
    on: payments of the user, updates proposed by the peer, answers of the user and the
    timers of the screen, in any order.  What the channel of the node and its entry on
    the screen do is then what a ledger of two balances does ([ledger_step]), and the
    two agree after every step ([in_step]). *)
From S2P Require Import Prelude Perun Errors SessionErrors Currency IDProvider Contracts Sdk Timeout.
From S2P Require Import ChRegistry Client User Channel ChannelProps SessionHelpers Session SessionProps SessionLife.
From S2P Require Import Node Payment Grpc GrpcProps PbClient TuiText Tui TuiProps EndToEnd IncomingEndToEnd.
Local Open Scope Z_scope.

(** ** The ledger

    Two balances, the version they have, and what the peer has offered to pay: a
    positive offer goes to the user, who has not answered it yet. *)
Record ledger := mkLedger { l_ours : Z; l_theirs : Z; l_version : Z; l_offer : option Z }.

(** [d] goes from the user to the peer. *)
Definition pay (d : Z) (l : ledger) : ledger :=
  mkLedger (l_ours l - d) (l_theirs l + d) (uint64 (l_version l + 1)) None.
Definition set_offer (o : option Z) (l : ledger) : ledger := mkLedger (l_ours l) (l_theirs l) (l_version l) o.
Definition total (l : ledger) : Z := l_ours l + l_theirs l.

(** Moves of the two parties; the peer's offer is an amount, those of the user are
    typed. *)
Inductive move :=
| MPay (amount : string) (toPeer : bool)
| MOffer (d : Z)
| MAnswer (accept : bool)
| MExpire.

(** A payment of the user is refused while an offer is open, and may always be refused
    by the peer; an answer settles the offer, and accepting it may come too late. *)
Inductive ledger_step {GT : GoTypes} {DL : DecimalLib} (c : currency) : move → ledger → ledger → Prop :=
| ls_paid s (toPeer : bool) n l : l_offer l = None → Parse c s = inl n →
    ledger_step c (MPay s toPeer) l (pay (if toPeer then n else - n) l)
| ls_refused s toPeer l : ledger_step c (MPay s toPeer) l l
| ls_offered d l : ledger_step c (MOffer d) l (set_offer (Some d) l)
| ls_accepted d l : l_offer l = Some d → ledger_step c (MAnswer true) l (pay (- d) l)
| ls_settled acc l : ledger_step c (MAnswer acc) l (set_offer None l)
| ls_expired l : ledger_step c MExpire l (set_offer None l)
| ls_not_expired l : ledger_step c MExpire l l.

Inductive ledger_run {GT : GoTypes} {DL : DecimalLib} (c : currency) : list move → ledger → ledger → Prop :=
| lr_nil l : ledger_run c [] l l
| lr_cons m ms l l1 l' : ledger_step c m l l1 → ledger_run c ms l1 l' → ledger_run c (m :: ms) l l'.

(** No move creates or destroys money. *)
Lemma ledger_step_total `{DecimalLib} c m l l' : ledger_step c m l l' → total l' = total l.
Proof. destruct 1; unfold total; cbn; lia. Qed.

Section refinement.
Context {GT : GoTypes} {GP : GoPerun} {EL : EthLib} {DL : DecimalLib} {GL : GoTypesLaws} {UL : UpdateByLaws}.
Implicit Types (a : payChAPIServer) (t : tui) (ch : Channel.Channel GOut) (l : ledger).
Implicit Types (s : Session.Session GOut Client.client idProviderCache).

(** ** The two sides, connected

    The dashboard reaches the server: the two requests about updates are answered by
    its handlers, at the time [now]; the other requests, which are not made here, by
    [N0]. *)
Context (N0 : NodeServer) (zone : Z → Z) (p : nat).

Definition answer_of {A} (o : outcome (pb_response A)) : rpc A :=
  match o with Ret r => inl r | _ => inr (ErrText "no answer") end.
Definition connected a (now : Z) : NodeServer :=
  mkNodeServer (srv_OpenSession N0) (srv_OpenPayCh N0) (srv_SubPayChProposals N0) (srv_UnsubPayChProposals N0)
    (srv_RespondPayChProposal N0) (srv_GetPayChInfo N0)
    (λ sid cid ps, answer_of (value (Grpc.SendPayChUpdate sid cid ps a)))
    (srv_SubPayChUpdates N0) (srv_UnsubPayChUpdates N0)
    (λ sid cid uid acc, answer_of (value (Grpc.RespondPayChUpdate sid cid uid acc now a)))
    (srv_ClosePayCh N0) (srv_CloseSession N0) (srv_AddPeerID N0) (srv_GetPeerID N0) (srv_GetConfig N0) (srv_Time N0).

(** The server after a request. *)
Definition serve (now : Z) a (req : PbRequest) : payChAPIServer :=
  match req with
  | SendPayChUpdateReq sid cid ps => final (Grpc.SendPayChUpdate sid cid ps a)
  | RespondPayChUpdateReq sid cid uid acc => final (Grpc.RespondPayChUpdate sid cid uid acc now a)
  | _ => a
  end.

Record world := mkWorld { w_srv : payChAPIServer; w_dash : tui }.

(** What can happen: the user sends or asks for a payment ([send] and [request]),
    answers, the SDK reports an update of the peer, a timer of the screen fires. *)
Inductive wop :=
| WPay (amount : string) (toPeer : bool) (now : Z)
| WAnswer (accept : bool) (now : Z)
| WUpdate (prop : PState) (r : updResponder) (now : Z)
| WExpire (uid : string).

(** A step of the two sides.  An update goes through all the goroutines it starts, as in
    [notified], and is then shown. *)
Inductive world_step : wop → world → world → Prop :=
| ws_pay amount toPeer now a t es t' :
    update (connected a now) p amount toPeer t = (es, t', Ret tt) →
    world_step (WPay amount toPeer now) (mkWorld a t) (mkWorld (foldl (serve now) a (requests es)) t')
| ws_answer acc now a t es t' :
    respond (connected a now) p acc t = (es, t', Ret tt) →
    world_step (WAnswer acc now) (mkWorld a t) (mkWorld (foldl (serve now) a (requests es)) t')
| ws_update prop r now a t e i cur notif a1 msg b x es t' :
    t_entries t !! p = Some e →
    (∃ s ch, reaches a (t_sessionID t) (chID e) s i ch ∧ cur = Some (state_of ch)) →
    notified a (t_sessionID t) (chID e) i cur prop r now notif a1 msg →
    incomingUpdate msg t = ([TEvGo (GoNotifyNonClosing p (pbu_UpdateID msg) b x false)], t, Ret true) →
    notifyNonClosingUpdate zone p (pbu_UpdateID msg) b x false t = (es, t', Ret tt) →
    world_step (WUpdate prop r now) (mkWorld a t) (mkWorld a1 t')
| ws_expire uid a t es t' :
    notifyNonClosingUpdate_expired p uid t = (es, t', Ret tt) →
    world_step (WExpire uid) (mkWorld a t) (mkWorld a t').

(** ** When the two sides and the ledger agree *)

(** The entry [e] of the screen and the channel of the node it stands for: open, free,
    and with the subscription of the dashboard. *)
Record linked c (w : world) (e : channel) R s i ch : Prop := {
  lk_wf : wf_tui (w_dash w);
  lk_entry : t_entries (w_dash w) !! p = Some e;
  lk_phase : phase e = transact;
  lk_client : t_client (w_dash w) = true;
  lk_R : t_R (w_dash w) = Some R;
  lk_found : getByChID (chID e) R = Ret (Some p);
  lk_reaches : reaches (w_srv w) (t_sessionID (w_dash w)) (chID e) s i ch;
  lk_session : s_isOpen s = true;
  lk_unlocked : ch_locked ch = false;
  lk_open : ch_status ch = Channel.open;
  lk_sub : ch_chUpdateNotifier ch = Some (server_notifier (t_sessionID (w_dash w)) (chID e));
  lk_signals : wf_signals (w_srv w) ∧ is_Some (signal_of (w_srv w) (KUpdates (t_sessionID (w_dash w)) (chID e)));
  lk_ID : Channel.ID ch = chID e;
  lk_eth : eth_channel c (peer e) ch;
}.

Definition ledger_bal c l : balInfo := mkBal (Print c (l_ours l)) (Print c (l_theirs l)) (pretty (l_version l)).

(** An open offer: the node keeps the peer's state under the ID the entry will answer
    with, and the entry shows what accepting leads to. *)
Definition offered c l (e : channel) ch (d : Z) : Prop :=
  ∃ en prop, ch_chUpdateResponders ch !! updateID e = Some en ∧
    responder_of (ue_responder en) prop ∧ cun_Type (ue_notif en) ≠ ChUpdateTypeFinal ∧
    al_Balances (st_Allocation prop) = [row_of ch (l_ours l + d) (l_theirs l - d)] ∧
    st_Version prop = uint64 (l_version l + 1) ∧ shows (proposed e) (ledger_bal c (pay (- d) l)).

Record agrees c l (e : channel) ch : Prop := {
  ag_bals : bals_of ch = [row_of ch (l_ours l) (l_theirs l)];
  ag_version : st_Version (state_of ch) = l_version l;
  ag_shown : shows (current e) (ledger_bal c l);
  ag_offer : match l_offer l with
             | Some d => status e = waitingForUser ∧ offered c l e ch d
             | None => status e ≠ waitingForUser
             end;
}.

Definition in_step c (w : world) l : Prop :=
  ∃ e R s i ch, linked c w e R s i ch ∧ agrees c l e ch.

(** ** What the user and the SDK may do

    The user types an amount that is one, while the dashboard can read the balances it
    shows; the SDK reports valid updates of this channel: with the next version and the
    same sum, not final, under a responder that makes them the state. *)
Definition legible c (b : balInfo) : Prop :=
  is_inl (Parse c (ours b)) ∧ is_inl (Parse c (theirs b)) ∧ is_inl (Atoi (version b)).
Definition valid_update (st prop : PState) : Prop :=
  st_Version prop = uint64 (st_Version st + 1) ∧ st_IsFinal prop = false ∧
  Forall2 (λ row row', length row = length row' ∧ foldr Z.add 0 row = foldr Z.add 0 row')
    (al_Balances (st_Allocation st)) (al_Balances (st_Allocation prop)).
Definition allowed c (op : wop) (w : world) : Prop :=
  match op with
  | WPay amount _ _ =>
      is_inl (Parse c amount) ∧ ∃ e, t_entries (w_dash w) !! p = Some e ∧ (ready e → legible c (current e))
  | WUpdate prop r now =>
      ∃ e s i ch, t_entries (w_dash w) !! p = Some e ∧
        reaches (w_srv w) (t_sessionID (w_dash w)) (chID e) s i ch ∧ hex (st_ID prop) = chID e ∧
        valid_update (state_of ch) prop ∧ responder_of r prop ∧
        unix (now + response (p_timeoutCfg (ch_params ch))) ≠ 0
  | WAnswer _ _ | WExpire _ => True
  end.

Definition move_of (op : wop) (m : move) : Prop :=
  match op with
  | WPay amount toPeer _ => m = MPay amount toPeer
  | WAnswer acc _ => m = MAnswer acc
  | WUpdate _ _ _ => ∃ d, m = MOffer d
  | WExpire _ => m = MExpire
  end.

Inductive world_run c : list wop → world → world → Prop :=
| wr_nil w : world_run c [] w w
| wr_cons op ops w w1 w' :
    allowed c op w → world_step op w w1 → world_run c ops w1 w' → world_run c (op :: ops) w w'.

(** *** Steps keep the link *)

Lemma reaches_inj a sid cid s i ch s' i' ch' :
  reaches a sid cid s i ch → reaches a sid cid s' i' ch' → s' = s ∧ i' = i ∧ ch' = ch.
Proof.
  intros [_ Hs _ Hi Hch] [_ Hs' _ Hi' Hch']. rewrite Hs in Hs'. injection Hs' as <-.
  rewrite Hi in Hi'. injection Hi' as <-. rewrite Hch in Hch'. by injection Hch' as <-.
Qed.

(** An operation on the entry leaves it what it is the entry of. *)
Lemma entry_kept late k t e es t' e' :
  wf_tui t → t_entries t !! p = Some e → phase e = transact → entry_post late k p t e es t' → t' = at_ p e' t →
  wf_tui t' ∧ chID e' = chID e ∧ peer e' = peer e.
Proof.
  intros Hwf He Hph Hpost ->. split; [by destruct (entry_dstep _ _ _ _ _ _ _ Hwf He Hpost)|].
  destruct Hpost as (e2 & o & Hc & Hat & _).
  assert (e' = e2) as <-.
  { apply (f_equal (λ t, t_entries t !! p)) in Hat. rewrite !lookup_at in Hat by (destruct o; eauto).
    by injection Hat. }
  destruct Hc as [[]|[] Ho _]; [by split|]. by rewrite Ho in Hph.
Qed.

(** The channel after a step: its state has changed, but not what it is. *)
Record same_ch ch ch' : Prop := {
  sc_params : ch_params ch' = ch_params ch;
  sc_idx : pch_Idx (ch_pch ch') = pch_Idx (ch_pch ch);
  sc_status : ch_status ch' = ch_status ch;
  sc_locked : ch_locked ch' = ch_locked ch;
  sc_notifier : ch_chUpdateNotifier ch' = ch_chUpdateNotifier ch;
}.

Lemma same_ch_row ch ch' x y : same_ch ch ch' → row_of ch' x y = row_of ch x y.
Proof. intros [Hp _ _ _ _]. unfold row_of, Parts. by rewrite Hp. Qed.

Lemma linked_step c a t e R s i ch e' ch' :
  linked c (mkWorld a t) e R s i ch → wf_tui (at_ p e' t) → phase e' = transact → chID e' = chID e →
  peer e' = peer e → same_ch ch ch' →
  linked c (mkWorld (put_channel a (t_sessionID t) s i ch') (at_ p e' t)) e' R
    (set_chs (ChRegistry.update i ch' (s_chs s)) s) i ch'.
Proof.
  intros [] Hwf Hph Hid Hpe []. cbn [w_srv w_dash] in *. split; cbn [w_srv w_dash]; rewrite ?Hid, ?Hpe; try done.
  - apply lookup_at. eauto.
  - by eapply put_channel_reaches.
  - congruence.
  - congruence.
  - by rewrite sc_notifier0.
  - unfold Channel.ID. by rewrite sc_params0.
  - destruct lk_eth0 as [H1 H2 H3 H4 H5]. unfold Parts, Currencies in *.
    split; unfold Parts, Currencies; rewrite ?sc_params0, ?sc_idx0; done.
Qed.
Lemma linked_dash c a t e R s i ch e' :
  linked c (mkWorld a t) e R s i ch → wf_tui (at_ p e' t) → phase e' = transact → chID e' = chID e →
  peer e' = peer e → linked c (mkWorld a (at_ p e' t)) e' R s i ch.
Proof.
  intros [] Hwf Hph Hid Hpe. cbn [w_srv w_dash] in *.
  split; cbn [w_srv w_dash]; rewrite ?Hid, ?Hpe; try done. apply lookup_at. eauto.
Qed.

Lemma agrees_same c l e ch e' ch' :
  agrees c l e ch → same_ch ch ch' → state_of ch' = state_of ch → shows (current e') (ledger_bal c l) →
  status e' ≠ waitingForUser → agrees c (set_offer None l) e' ch'.
Proof.
  intros [Hb Hv _ _] Hsame Hst Hsh Hs. split; cbn; try done.
  - unfold bals_of. rewrite Hst, same_ch_row with (ch := ch) by done. exact Hb.
  - by rewrite Hst.
Qed.

(** ** The steps *)

(** The step is possible, and the ledger has a move for it. *)
Definition simulates c (op : wop) (w : world) l : Prop :=
  (∃ w', world_step op w w') ∧
  ∀ w', world_step op w w' → ∃ m l', move_of op m ∧ ledger_step c m l l' ∧ in_step c w' l'.

(** A step of the user, from what the operation does to the dashboard. *)
Lemma wp_elim {A} (m : tprog A) t Q es t' x : wp m t Q → m t = (es, t', Ret x) → Q es t' x.
Proof. intros (es1 & t1 & x1 & Hm & HQ) Hm'. rewrite Hm in Hm'. by injection Hm' as <- <- <-. Qed.

Ltac step_inv Hstep Hw :=
  inversion Hstep; subst;
  match goal with H : _ = (_, _, Ret _) |- _ => apply (wp_elim _ _ _ _ _ _ Hw) in H; revert H end.

Lemma update_not_ready N t e amount toPeer :
  wf_tui t → t_entries t !! p = Some e → ¬ ready e →
  wp (update N p amount toPeer) t (λ es t' _, t' = t ∧ requests es = []).
Proof.
  intros Hwf He Hr. pose proof (wf_unlocked _ _ _ Hwf He) as Hl. assert (is_Some (t_entries t !! p)) by eauto.
  eapply wp_with_lock; [done..|]. total_steps; [|by exfalso].
  rewrite assign_at. split; [|done]. by apply entry_id.
Qed.

Lemma pay_simulated c amount toPeer now w l :
  ethCurrency = Some c → in_step c w l → allowed c (WPay amount toPeer now) w →
  simulates c (WPay amount toPeer now) w l.
Proof.
  intros Hc (e & R & s & i & ch & Hlk & Hag) [[n Hn] (e' & He' & Hread)]. destruct w as [a t].
  pose proof Hlk as []. cbn [w_srv w_dash] in *. rewrite lk_entry0 in He'. injection He' as <-.
  destruct (decide (ready e)) as [Hready|Hready].
  2:{ pose proof (update_not_ready (connected a now) t e amount toPeer lk_wf0 lk_entry0 Hready) as Hw. split.
      - destruct Hw as (es & t' & [] & Hrun & _). eexists. by econstructor.
      - intros w' Hstep. step_inv Hstep Hw. intros [-> ->]. cbn [foldl].
        exists (MPay amount toPeer), l. split; [done|]. split; [constructor|]. by exists e, R, s, i, ch. }
  destruct (Hread Hready) as ([o Ho] & [th Hth] & [v Hv]). pose proof Hag as [Hb Hver Hsh Hoff].
  assert (l_offer l = None) as Hnone.
  { destruct (l_offer l); [|done]. destruct Hoff as [Hw _]. by destruct Hready as (_ & _ & ? & _). }
  rewrite Hnone in Hoff.
  destruct (payment_run (connected a now) t p e amount toPeer c n o th v a s i ch (l_ours l) (l_theirs l))
    as (es0 & q & err & _ & _ & Hfin & Hidx & Hw); try done.
  { intros r Hr. cbn. by rewrite Hr. }
  pose proof (wp_wlp _ _ _ _ (update_op (connected a now) false p amount toPeer t e lk_entry0) Hw) as Hw'. split.
  - destruct Hw as (es & t' & [] & Hrun & _). eexists. by econstructor.
  - intros w' Hstep. step_inv Hstep Hw'. intros (Hpost & e2 & -> & Hph & Hreq & Hres).
    destruct (entry_kept _ _ _ _ _ _ _ lk_wf0 lk_entry0 lk_phase0 Hpost eq_refl) as (Hwf2 & Hid & Hpe).
    rewrite Hreq. cbn [foldl serve]. rewrite Hfin. assert (same_ch ch (set_pch q ch)) as Hsame by by split.
    pose proof (linked_step _ _ _ _ _ _ _ _ e2 _ Hlk Hwf2 Hph Hid Hpe Hsame) as Hlk2.
    exists (MPay amount toPeer). destruct err as [err|].
    + destruct Hres as (Hst & Hsame2 & Hcur). exists l. split; [done|]. split; [constructor|]. eexists e2, R, _, i, _. split; [exact Hlk2|].
      assert (set_offer None l = l) as <- by (destruct l; cbn in *; by subst).
      apply (agrees_same c l e ch); [done..| |].
      * rewrite Hcur. by do 2 apply shows_trim.
      * rewrite list_elem_of_In in Hst. cbn in Hst. destruct Hst as [<-|[<-|[]]]; done.
    + destruct Hres as (Hst & Hb2 & Hv2 & Hcur).
      exists (pay (if toPeer then n else - n) l). split; [done|]. split; [by constructor|].
      eexists e2, R, _, i, _. split; [exact Hlk2|]. split; cbn.
      * exact Hb2.
      * by rewrite Hv2, Hver.
      * rewrite Hcur. unfold shown. rewrite Hv2, Hver. apply shows_once.
      * by rewrite Hst.
Qed.

Lemma respond_not_waiting N t e acc :
  wf_tui t → t_entries t !! p = Some e → status e ≠ waitingForUser →
  wp (respond N p acc) t (λ es t' _, t' = t ∧ requests es = []).
Proof.
  intros Hwf He Hs. pose proof (wf_unlocked _ _ _ Hwf He) as Hl. assert (is_Some (t_entries t !! p)) by eauto.
  eapply wp_with_lock; [done..|]. apply wp_bind, wp_deref_at; [done|].
  rewrite decide_True by (cbn; done). apply wp_emit. rewrite assign_at. split; [|done]. by apply entry_id.
Qed.

(** The offer is settled when the answer did not make the peer's state the state. *)
Lemma agrees_settled c l e ch uid q e' :
  agrees c l e ch → pch_State q = state_of ch → pch_Idx q = pch_Idx (ch_pch ch) →
  shows (current e') (ledger_bal c l) → status e' ≠ waitingForUser →
  agrees c (set_offer None l) e' (answered ch uid q).
Proof. intros Hag Hst Hi Hsh Hs. by apply (agrees_same c l e ch). Qed.

Lemma answer_simulated c acc now w l : in_step c w l → simulates c (WAnswer acc now) w l.
Proof.
  intros (e & R & s & i & ch & Hlk & Hag). destruct w as [a t]. pose proof Hlk as []. cbn [w_srv w_dash] in *.
  pose proof Hag as [Hb Hver Hsh Hoff]. destruct (l_offer l) as [d|] eqn:Ed.
  2:{ pose proof (respond_not_waiting (connected a now) t e acc lk_wf0 lk_entry0 Hoff) as Hw. split.
      - destruct Hw as (es & t' & [] & Hrun & _). eexists. by econstructor.
      - intros w' Hstep. step_inv Hstep Hw. intros [-> ->]. cbn [foldl].
        exists (MAnswer acc), (set_offer None l). split; [done|]. split; [constructor|].
        assert (set_offer None l = l) as -> by (destruct l; cbn in *; by subst). by exists e, R, s, i, ch. }
  destruct Hoff as [Hst (en & prop & Hen & Hresp & Hty & Hpb & Hpv & Hps)].
  destruct (server_answer_run c (peer e) a _ _ s i ch (updateID e) acc now en prop (l_ours l) (l_theirs l) _ _
    lk_reaches0 lk_unlocked0 lk_open0 Hen Hresp Hty lk_eth0 Hb Hpb) as (q & r & Hrun & Hidx & _ & Hres).
  assert (HN : srv_RespondPayChUpdate (connected a now) (t_sessionID t) (chID e) (updateID e) acc = inl r)
    by (cbn; by rewrite Hrun).
  assert (is_Some (t_T t)) by by apply wf_T_some. pose proof (wf_unlocked _ _ _ lk_wf0 lk_entry0) as Hl.
  eassert (Hw : wp (respond (connected a now) p acc) t _).
  { apply (respond_run (connected a now) t p e acc); try done.
    intros info. rewrite HN. intros [= ->]. destruct Hres as [_ ->]. by eexists. }
  rewrite HN in Hw.
  pose proof (wp_wlp _ _ _ _ (respond_op (connected a now) false p acc t e lk_entry0) Hw) as Hw'. split.
  - destruct Hw as (es & t' & [] & Hr & _). eexists. by econstructor.
  - intros w' Hstep. step_inv Hstep Hw'. intros (Hpost & e2 & -> & Hreq & Hph & Hshow).
    destruct (entry_kept _ _ _ _ _ _ _ lk_wf0 lk_entry0 lk_phase0 Hpost eq_refl) as (Hwf2 & Hid & Hpe).
    rewrite Hreq. cbn [foldl serve]. rewrite Hrun. unfold final. cbn [fst snd].
    assert (same_ch ch (answered ch (updateID e) q)) as Hsame by by split.
    pose proof (linked_step _ _ _ _ _ _ _ _ e2 _ Hlk Hwf2 Hph Hid Hpe Hsame) as Hlk2.
    exists (MAnswer acc). destruct r as [info|m]; [destruct acc|].
    + destruct Hres as [Hq Hinfo], Hshow as (Hst2 & b & Hb2 & Hcur). rewrite Hinfo in Hb2. injection Hb2 as <-.
      exists (pay (- d) l). split; [done|]. split; [by constructor|].
      eexists e2, R, _, i, _. split; [exact Hlk2|]. split; cbn.
      * change (al_Balances (st_Allocation (pch_State q)) = [row_of ch (l_ours l - - d) (l_theirs l + - d)]).
        rewrite Hq, Hpb. by rewrite Z.sub_opp_r, Z.add_opp_r.
      * change (st_Version (pch_State q) = uint64 (l_version l + 1)). by rewrite Hq.
      * rewrite Hcur. unfold shown, ledger_bal. cbn. rewrite Hpv, Z.sub_opp_r, Z.add_opp_r. apply shows_once.
      * by rewrite Hst2.
    + destruct Hres as [Hq _], Hshow as [Hst2 Hcur]. exists (set_offer None l). split; [done|]. split; [constructor|].
      eexists e2, R, _, i, _. split; [exact Hlk2|]. eapply agrees_settled; try done; [|by rewrite Hst2].
      rewrite Hcur. by do 2 apply shows_trim.
    + destruct Hshow as [Hst2 Hcur]. exists (set_offer None l). split; [done|]. split; [constructor|].
      eexists e2, R, _, i, _. split; [exact Hlk2|]. eapply agrees_settled; try done; [|by rewrite Hst2].
      rewrite Hcur. by apply shows_trim.
Qed.

Lemma expired_run t e u :
  wf_tui t → t_entries t !! p = Some e →
  wp (notifyNonClosingUpdate_expired p u) t (λ _ t' _,
    t' = t ∨ status e = waitingForUser ∧ t' = at_ p (trimEntry (Tui.set_status expired e)) t).
Proof.
  intros Hwf He. pose proof (wf_T_some _ Hwf). pose proof (wf_unlocked _ _ _ Hwf He) as Hl.
  assert (is_Some (t_entries t !! p)) by eauto.
  eapply wp_with_lock; [done..|]. total_steps; rewrite assign_at; cbn in *.
  - right. split; [tauto|]. destruct e. cbn in *. by subst.
  - left. by apply entry_id.
Qed.

Lemma expire_simulated c u w l : in_step c w l → simulates c (WExpire u) w l.
Proof.
  intros (e & R & s & i & ch & Hlk & Hag). destruct w as [a t]. pose proof Hlk as []. cbn [w_srv w_dash] in *.
  pose proof (expired_run t e u lk_wf0 lk_entry0) as Hw.
  pose proof (wp_wlp _ _ _ _ (notifyNonClosingUpdate_expired_op false p u t e lk_entry0) Hw) as Hw'. split.
  - destruct Hw as (es & t' & [] & Hrun & _). eexists. by econstructor.
  - intros w' Hstep. step_inv Hstep Hw'. intros (Hpost & [->|[Hs ->]]); exists MExpire.
    + exists l. split; [done|]. split; [constructor|]. by exists e, R, s, i, ch.
    + destruct (entry_kept _ _ _ _ _ _ _ lk_wf0 lk_entry0 lk_phase0 Hpost eq_refl) as (Hwf2 & Hid & Hpe).
      exists (set_offer None l). split; [done|]. split; [constructor|].
      eexists _, R, s, i, ch. split; [by eapply (linked_dash c a t e)|].
      apply (agrees_same c l e ch); [done|by split|done| |done]. by apply shows_trim, (ag_shown _ _ _ _ Hag).
Qed.

(** *** Updates of the peer *)

(** A valid update moves an amount between the two. *)
Lemma valid_update_offer ch prop x y :
  bals_of ch = [row_of ch x y] → valid_update (state_of ch) prop →
  ∃ d, al_Balances (st_Allocation prop) = [row_of ch (x + d) (y - d)].
Proof.
  intros Hb (_ & _ & Hrows). unfold bals_of in Hb. rewrite Hb in Hrows.
  inversion Hrows as [|? row ? ? [Hlen Hsum] Hnil]; subst. inversion Hnil; subst.
  unfold row_of in *. destruct (decide _); destruct row as [|r0 [|r1 [|]]]; try done; cbn in Hsum.
  - exists (r0 - x). repeat f_equal; lia.
  - exists (r1 - x). repeat f_equal; lia.
Qed.

Lemma notified_inj a sid cid i cur prop r now notif a1 msg i' notif' a1' msg' :
  notified a sid cid i cur prop r now notif a1 msg → notified a sid cid i' cur prop r now notif' a1' msg' →
  i' = i ∧ notif' = notif ∧ a1' = a1 ∧ msg' = msg.
Proof.
  intros [H1 H2 H3 H4] [H1' H2' H3' H4']. rewrite H1 in H1'. injection H1' as <-.
  rewrite H2 in H2'. injection H2' as <- <-. rewrite H4 in H4'. by injection H4' as <-.
Qed.

Lemma update_simulated c prop r now w l :
  in_step c w l → allowed c (WUpdate prop r now) w → simulates c (WUpdate prop r now) w l.
Proof.
  intros (e & R & s & i & ch & Hlk & Hag) (e' & s' & i' & ch' & He' & Hr' & Hhex & Hvalid & Hresp & Hx).
  destruct w as [a t]. pose proof Hlk as []. cbn [w_srv w_dash] in *.
  rewrite lk_entry0 in He'. injection He' as <-.
  destruct (reaches_inj _ _ _ _ _ _ _ _ _ lk_reaches0 Hr') as (-> & -> & ->). clear Hr'.
  pose proof Hag as [Hb Hver Hsh Hoff].
  destruct (valid_update_offer ch prop _ _ Hb Hvalid) as [d Hpb]. destruct Hvalid as (Hpv & Hfin & _).
  destruct (update_notified c (peer e) a _ _ s i ch _ (state_of ch) _ _ prop _ _ r now lk_reaches0 lk_session0
    lk_unlocked0 lk_open0 lk_sub0 lk_ID0 Hhex lk_eth0 eq_refl Hb Hpb Hx) as (notif & info & Hinfo & Huid & Hty & Hnot).
  destruct (eth_state_info c (peer e) ch prop _ _ lk_eth0 Hpb) as (info' & Hinfo' & Hci & Hshown).
  rewrite Hinfo in Hinfo'. injection Hinfo' as <-. rewrite Hfin in Hty.
  set (x := unix _) in *. set (b := shown c prop _ _) in *.
  set (msg := update_msg (chID e) prop info x) in *.
  assert (Hin : incomingUpdate msg t = ([TEvGo (GoNotifyNonClosing p (pbu_UpdateID msg) b x false)], t, Ret true)).
  { unfold msg, update_msg. rewrite Hfin.
    apply (incomingUpdate_run t R p (mkPbUpdateNotify _ (toGrpcPayChInfo (toPayChInfo info)) 0 x None) b lk_R0);
      [|done|exact Hshown]. cbn. by rewrite Hci, lk_ID0. }
  pose proof (notifyNonClosing_run zone t p e (pbu_UpdateID msg) b x lk_wf0 lk_entry0) as Hw.
  assert (listed (phase e) = true) as Hli by by rewrite lk_phase0.
  pose proof (wp_wlp _ _ _ _ (notifyNonClosingUpdate_op false zone p (pbu_UpdateID msg) b x false t e lk_entry0 Hli
    ltac:(done)) Hw) as Hw'. split.
  { destruct Hw as (es & t' & [] & Hrun & _). eexists. econstructor; try done. by exists s, ch. }
  intros w' Hstep. inversion Hstep; subst.
  match goal with H : t_entries t !! p = Some ?e0 |- _ => rewrite lk_entry0 in H; injection H as <- end.
  match goal with H : ∃ _ _, _ |- _ => destruct H as (s' & ch' & Hr' & ->) end.
  destruct (reaches_inj _ _ _ _ _ _ _ _ _ lk_reaches0 Hr') as (-> & -> & ->).
  match goal with H : notified _ _ _ _ _ _ _ _ _ _ _ |- _ =>
    destruct (notified_inj _ _ _ _ _ _ _ _ _ _ _ _ _ _ _ Hnot H) as (_ & -> & -> & ->) end.
  match goal with H : incomingUpdate _ _ = ([TEvGo (GoNotifyNonClosing _ _ ?b1 _ _)], _, _) |- _ =>
    rewrite Hin in H; injection H as <- <- end.
  match goal with H : _ = (_, _, Ret _) |- _ => apply (wp_elim _ _ _ _ _ _ Hw') in H as (Hpost & -> & _) end.
  destruct (entry_kept _ _ _ _ _ _ _ lk_wf0 lk_entry0 lk_phase0 Hpost eq_refl) as (Hwf2 & Hid & Hpe).
  assert (same_ch ch (pend ch notif r x)) as Hsame by by split.
  pose proof (linked_step _ _ _ _ _ _ _ _ _ _ Hlk Hwf2 lk_phase0 Hid Hpe Hsame) as Hlk2.
  exists (MOffer d), (set_offer (Some d) l). split; [by exists d|]. split; [constructor|].
  eexists _, R, _, i, _. split; [exact Hlk2|]. split; [exact Hb|exact Hver|by apply shows_trim|].
  split; [done|]. exists (mkUpdEntry notif r x), prop. split_and!; try done.
  - cbn. rewrite Huid. apply lookup_insert_eq.
  - cbn. by rewrite Hty.
  - by rewrite Hpv, Hver.
  - change (shows (trimBal b) (ledger_bal c (pay (- d) l))).
    assert (ledger_bal c (pay (- d) l) = b) as ->; [|apply shows_once].
    unfold b, shown, ledger_bal, pay. cbn [l_ours l_theirs l_version]. by rewrite Hpv, Hver, Z.sub_opp_r, Z.add_opp_r.
Qed.

(** ** Refinement *)

Lemma step_simulated c op w l :
  ethCurrency = Some c → in_step c w l → allowed c op w → simulates c op w l.
Proof.
  intros Hc Hin Ha. destruct op.
  - by apply pay_simulated.
  - by apply answer_simulated.
  - by apply update_simulated.
  - by apply expire_simulated.
Qed.

Lemma run_simulated c ops w l w'
    (Hc : ethCurrency = Some c) (Hin : in_step c w l) (Hrun : world_run c ops w w') :
  ∃ ms l', Forall2 move_of ops ms ∧ ledger_run c ms l l' ∧ in_step c w' l' ∧ total l' = total l ∧
    ∀ op, allowed c op w' → ∃ w'', world_step op w' w''.
Proof.
  revert l Hin. induction Hrun as [w|op ops w w1 w' Ha Hstep _ IH]; intros l Hin.
  - exists [], l. split_and!; [done|constructor|done|done|]. intros op Ha. by apply (step_simulated c op w l).
  - destruct (step_simulated c op w l Hc Hin Ha) as [_ Hsim].
    destruct (Hsim w1 Hstep) as (m & l1 & Hm & Hl & Hin1).
    destruct (IH l1 Hin1) as (ms & l' & Hms & Hls & Hin' & Htot & Hnext).
    exists (m :: ms), l'. split_and!; [by constructor|by econstructor|done| |done].
    by rewrite Htot, (ledger_step_total _ _ _ _ Hl).
Qed.

(** C4: The dashboard and the node, joined by the handlers of the server, refine the
    ledger: over any sequence of payments, updates of the peer, answers and timers, every
    operation that is allowed can be carried out to its end, and whatever it does is a
    move of the ledger.  The channel of the node then has exactly the balances and the
    version of the ledger, the entry on the screen shows the same numbers, as they are
    printed and trimmed, and it waits for the user exactly while an offer of the peer is
    open, showing what accepting it leads to.  So no sequence of operations makes the
    screen and the channel disagree, and the sum of the balances never changes. *)
Theorem screen_refines_ledger c ops w l w'
    (Hc : ethCurrency = Some c) (Hin : in_step c w l) (Hrun : world_run c ops w w') :
  ∃ ms l', Forall2 move_of ops ms ∧ ledger_run c ms l l' ∧ in_step c w' l' ∧ total l' = total l ∧
    ∀ op, allowed c op w' → ∃ w'', world_step op w' w''.
Proof. by eapply run_simulated. Qed.
End refinement.
