(* ===== verification/ClosingEndToEnd.v ===== *)
(** * Closing a channel, from the dashboard to the chain and back

    The command [close] of the dashboard up to the registration of the last state on
    the blockchain, and then the event of the blockchain up to the entry that says that
    the channel is closed.  As in [EndToEnd] only the transport between the dashboard
    and the server is assumed, and the goroutines run one after the other. *)
From S2P Require Import Prelude Perun Errors SessionErrors Currency IDProvider Contracts Sdk Timeout.
From S2P Require Import ChRegistry Client User Channel ChannelProps SessionHelpers Session SessionProps SessionLife.
From S2P Require Import Node Payment Grpc GrpcProps PbClient TuiText Tui TuiProps EndToEnd IncomingEndToEnd.
Local Open Scope Z_scope.

Section closing.
Context {GT : GoTypes} {GP : GoPerun} {EL : EthLib} {DL : DecimalLib} {GL : GoTypesLaws}.
Context {UL : UpdateByLaws} {CL : CloseLaws} {AL : AdjudicatorLaws}.
Implicit Types (a : payChAPIServer) (t : tui) (ch : Channel.Channel GOut).
Implicit Types (s : Session.Session GOut Client.client idProviderCache).

(** ** The node *)

(** The state that is registered: the final one when the peer agreed, and otherwise the
    last one it agreed to. *)
Definition closing_state (st st' : PState) : Prop :=
  st' = st ∨ st' = Sdk.set_Version (uint64 (st_Version st + 1)) (set_IsFinal true st).

Lemma closing_state_bals st st' :
  closing_state st st' → al_Balances (st_Allocation st') = al_Balances (st_Allocation st).
Proof. by intros [->| ->]. Qed.

Definition register_limit ch : Z :=
  Timeout.register (p_timeoutCfg (ch_params ch)) (p_challengeDurSecs (ch_params ch)).
Definition settle_limit ch : Z :=
  Timeout.settle (p_timeoutCfg (ch_params ch)) (p_challengeDurSecs (ch_params ch)).

(** The channel once closing it has been initiated. *)
Definition initiated ch (q : pch) : Channel.Channel GOut := set_wasCloseInitiated true (set_pch q ch).

Lemma server_close_run a sid cid s i ch c peer x y :
  reaches a sid cid s i ch → ch_locked ch = false → ch_status ch = Channel.open → eth_channel c peer ch →
  bals_of ch = [row_of ch x y] →
  ∃ q r, Grpc.ClosePayCh sid cid a =
      (GEvNode ∘ NEvSession sid <$> (SEvCh i <$> [EvUpdateBy (update_limit ch); EvRegister (register_limit ch)]),
       put_channel a sid s i (initiated ch q), Ret r) ∧
    closing_state (state_of ch) (pch_State q) ∧ pch_Idx q = pch_Idx (ch_pch ch) ∧
    match r with inl info => grpcPayChInfotoBalInfo info = Ret (shown c (pch_State q) x y) | inr _ => True end.
Proof.
  intros Hr Hl Ho Hch Hb.
  destruct (UpdateBy_ret (update_limit ch) (λ st, Ret (set_IsFinal true st, None)) (ch_pch ch)) as [[p1 err1] Hu];
    [by eexists|].
  destruct (pch_Register (register_limit ch) p1) as [q err2] eqn:Hreg.
  assert (Hq : pch_State q = pch_State p1) by (by rewrite <-(Register_state (register_limit ch) p1), Hreg).
  assert (Hidx : pch_Idx q = pch_Idx (ch_pch ch)).
  { destruct (UpdateBy_static _ _ _ _ _ Hu) as [_ <-]. by rewrite <-(Register_idx (register_limit ch) p1), Hreg. }
  assert (Hst : closing_state (state_of ch) (pch_State q)).
  { rewrite Hq. destruct err1 as [e|]; [left; by eapply UpdateBy_err|right].
    by apply UpdateBy_ok in Hu as (s1 & [= <-] & ->). }
  assert (Hbq : al_Balances (st_Allocation (pch_State q)) = [row_of ch x y]).
  { rewrite (closing_state_bals _ _ Hst). exact Hb. }
  destruct (eth_state_info c peer ch (pch_State q) x y Hch Hbq) as (info & Hi & _ & Hshown).
  assert (is_Some (p_parts (ch_params ch) !! Z.to_nat (Z.lxor (pch_Idx (ch_pch ch)) 1))) as Hp.
  { destruct Hch as [Hparts _ Hi' _ _]. change (p_parts (ch_params ch)) with (Parts ch).
    destruct Hparts as [-> | ->], Hi' as [-> | ->]; by eexists. }
  pose proof (Close_run ch p1 err1 q err2 info Hl Ho Hu Hp Hreg Hi) as Hclose.
  unfold Grpc.ClosePayCh. rewrite (get_ch_run _ _ _ _ _ _ _ _ Hr).
  unfold mbind, prog_mbind. rewrite (call_ch_run _ _ _ _ _ _ _ Hr).
  unfold Payment.ClosePayCh, mbind at 1, prog_mbind at 1. rewrite Hclose. cbn [mret prog_mret fst snd].
  rewrite app_nil_r. unfold Grpc.respond, errResponse, mbind, prog_mbind, lift.
  destruct err2 as [err|]; cbn.
  - unfold handleChRegisterError.
    destruct (chain_error_sent (p_chainURL (ch_params ch)) (onChainTxString (ch_params ch))
      (ErrWithMessage "registering channel state" err)) as [m ->].
    eexists q, (inr m). split; [reflexivity|]. by split_and!.
  - eexists q, (inl _). split; [reflexivity|]. by split_and!.
Qed.

(** ** The dashboard *)

(** Balances of another version than the one shown are marked as final. *)
Definition marked (v : string) (b : balInfo) : balInfo :=
  if decide (v ≠ version b) then set_version (version b +:+ " F") b else b.

Lemma close_run N t p e :
  wf_tui t → t_entries t !! p = Some e → ready e → t_client t = true →
  let resp := srv_ClosePayCh N (t_sessionID t) (chID e) in
  (∀ info, resp = inl (inl info) → returns (grpcPayChInfotoBalInfo info)) →
  wp (closeCh N p) t (λ es t' _, ∃ e', t' = at_ p e' t ∧
    requests es = [ClosePayChReq (t_sessionID t) (chID e)] ∧ phase e' = settle ∧ status e' = noUpdate ∧
    match resp with
    | inl (inl info) => ∃ b, grpcPayChInfotoBalInfo info = Ret b ∧ current e' = trimBal (marked (version (current e)) b)
    | _ => current e' = trimBal (marked (version (current e)) balInfo_zero)
    end).
Proof.
  intros Hwf He Hr Hcl resp Hresp. pose proof (wf_T_some _ Hwf). pose proof (wf_unlocked _ _ _ Hwf He) as Hl.
  assert (is_Some (t_entries t !! p)) by eauto.
  eapply wp_with_lock; [done..|]. apply wp_bind, wp_deref_at; [done|]. cbn [app].
  rewrite decide_False by (intros Hn; by apply Hn).
  apply wp_bind, wp_assign, wp_bind, wp_assign, wp_bind, wp_refreshEntry; [done..|]. cbn [app].
  apply wp_bind. unfold closeCh_req. apply wp_bind, wp_get_state. change (t_client _) with (t_client t).
  rewrite Hcl. cbn [negb app]. change (t_sessionID _) with (t_sessionID t).
  change (chID (Tui.set_locked true e)) with (chID e). fold resp.
  apply wp_bind. unfold call. apply wp_bind, wp_emit, wp_mret. cbn [app].
  destruct resp as [[info|err]|err] eqn:Er.
  - destruct (Hresp info eq_refl) as [b Hb]. rewrite Hb. total_steps. rewrite assign_at. eexists. split; [done|].
    split_and!; try done. exists b. split; [done|]. cbn. unfold marked. by destruct (decide _).
  - total_steps. rewrite assign_at. eexists. split; [done|]. split_and!; try done.
  - total_steps. rewrite assign_at. eexists. split; [done|]. split_and!; try done.
Qed.

(** ** The chain *)

(** The events on which a channel in the state [st] is settled. *)
Definition settles (ev : AdjudicatorEvent) (st : PState) : Prop :=
  match ev with
  | RegisteredEvent _ => st_IsFinal st = false
  | ConcludedEvent => st_IsFinal st = true
  | OtherEvent => False
  end.

(** The result of settling. *)
Definition settled ch : option goerror :=
  (pch_Settle (settle_limit ch) (negb (ch_wasCloseInitiated ch)) (ch_pch ch)).2.

(** What becomes of the channel [ch], that is subscribed to, when the chain reports [ev]:
    it is settled and closed, the client gets one message with its last balances and the
    error of settling, if any, and the subscription and its signal are gone. *)
Record node_settled a sid cid i ch c ev x y a3 (msg : pb_UpdateNotify) : Prop := {
  ns_event : ∃ notif a2,
    call_ch sid i (HandleAdjudicatorEvent ev) a =
      (GEvNode ∘ NEvSession sid <$> (SEvCh i <$>
         [EvSettle (settle_limit ch) (negb (ch_wasCloseInitiated ch)); EvClose;
          EvNotify (server_notifier sid cid) notif]), a2, Ret tt) ∧
    run_notifier (server_notifier sid cid notif) a2 = ([GEvSendUpdate sid cid msg], a3, Ret tt);
  ns_channel : ∃ s3 ch3, reaches a3 sid cid s3 i ch3 ∧ ch_status ch3 = Channel.closed ∧
    ch_chUpdateNotifier ch3 = None ∧ ch_locked ch3 = false ∧ state_of ch3 = state_of ch;
  ns_signal : signal_of a3 (KUpdates sid cid) = None;
  ns_type : pbu_Type msg = 2;
  ns_chID : pb_ChID (pbu_ProposedPayChInfo msg) = Channel.ID ch;
  ns_shown : grpcPayChInfotoBalInfo (pbu_ProposedPayChInfo msg) = Ret (shown c (state_of ch) x y);
  ns_error : pbu_Error msg = None ↔
    settled ch = None;
  ns_text : from_option printAPIError "" (pbu_Error msg) = "" ↔ settled ch = None;
}.

Lemma node_settle_run a sid cid s i ch c peer ev x y k :
  reaches a sid cid s i ch → ch_locked ch = false → eth_channel c peer ch → bals_of ch = [row_of ch x y] →
  ch_chUpdateNotifier ch = Some (server_notifier sid cid) → settles ev (state_of ch) →
  wf_signals a → signal_of a (KUpdates sid cid) = Some k →
  ∃ a3 msg, node_settled a sid cid i ch c ev x y a3 msg.
Proof.
  intros Hr Hl Hch Hb Hn Hev Hwf Hsig.
  destruct (pch_Settle (settle_limit ch) (negb (ch_wasCloseInitiated ch)) (ch_pch ch)) as [p1 err] eqn:Hset.
  set (p3 := (pch_Close p1).1).
  assert (Hst : pch_State p3 = state_of ch).
  { unfold p3. rewrite Close_state.
    unfold state_of. by rewrite <-(Settle_state (settle_limit ch) (negb (ch_wasCloseInitiated ch)) (ch_pch ch)), Hset. }
  destruct (eth_state_info c peer ch (state_of ch) x y Hch Hb) as (info & Hi & Hci & Hshown).
  assert (info_of ch p3 info) as Hinfo by (unfold info_of; by rewrite Hst).
  pose proof (HandleAdjudicatorEvent_run ev ch p1 err info Hl Hset Hinfo) as Hrun.
  unfold chain_reaction in Hrun. rewrite Hn in Hrun.
  set (ch3 := set_notifier None (Channel.set_status Channel.closed (set_pch p3 ch))).
  set (apiErr := settle_error ch err).
  assert (Hreact : HandleAdjudicatorEvent ev ch =
    ([EvSettle (settle_limit ch) (negb (ch_wasCloseInitiated ch)); EvClose;
      EvNotify (server_notifier sid cid) (makeChCloseNotif info apiErr)], ch3, Ret tt)).
  { rewrite Hrun. fold apiErr p3 ch3.
    destruct ev; cbn [settles] in Hev; [|..]; try done; unfold state_of in Hev; by rewrite Hev. }
  set (a2 := put_channel a sid s i ch3).
  assert (Hwf2 : wf_signals a2) by exact Hwf.
  assert (Hm : ∃ m, match apiErr with None => Ret None | Some err => e ← toGrpcError err; Ret (Some e) end = Ret m
            ∧ (m = None ↔ err = None) ∧ (from_option printAPIError "" m = "" ↔ err = None)).
  { unfold apiErr. destruct (settle_error ch err) as [e|] eqn:Ee; [|destruct err; [done|by exists None]].
    destruct (settle_error_sent ch err e Ee) as [m Hm]. rewrite Hm. exists (Some m).
    pose proof (settle_error_text ch err e m Ee Hm) as Ht. destruct err; [|done].
    split_and!; [done|by split|]. by split. }
  destruct Hm as (m & Hm & Hmerr & Hmtext).
  set (a3 := set_signals (<[k := true]> (signals a2)) (set_signal (KUpdates sid cid) None a2)).
  assert (Hend : closeGrpcPayChUpdateSub sid cid a2 = ([], a3, Ret tt)).
  { change (closeGrpcPayChUpdateSub sid cid) with (close_sub (KUpdates sid cid)).
    rewrite close_sub_run by done. change (signal_of a2) with (signal_of a). by rewrite Hsig. }
  exists a3, (mkPbUpdateNotify (cun_UpdateID (makeChCloseNotif info apiErr)) (toGrpcPayChInfo (toPayChInfo info)) 2 0 m).
  split; cbn [pbu_Type pbu_ProposedPayChInfo pbu_Error]; unfold settled; [| |..].
  - exists (makeChCloseNotif info apiErr), a2. split; [by rewrite (call_ch_run _ _ _ _ _ _ _ Hr), Hreact|].
    unfold run_notifier, server_notifier, toPayChUpdateNotif. cbn [makeChCloseNotif pcun_Error cun_Error].
    unfold mbind at 1, prog_mbind at 1, lift. rewrite Hm. cbn.
    unfold mbind at 1, prog_mbind at 1, emit. cbn. rewrite !decide_True by done. by rewrite Hend.
  - eexists _, ch3. split; [|by split_and!].
    pose proof (put_channel_reaches a sid cid s i ch ch3 Hr) as []. by split.
  - change (signal_of a3) with (signal_of (set_signal (KUpdates sid cid) None a2)).
    rewrite signal_of_set, decide_True by done. by destruct (_ !! _).
  - done.
  - exact Hci.
  - exact Hshown.
  - by rewrite Hset.
  - by rewrite Hset.
Qed.

(** ** The message on the screen *)
Lemma incomingClosing_run t R p e msg b :
  wf_tui t → t_entries t !! p = Some e → t_R t = Some R →
  getByChID (pb_ChID (pbu_ProposedPayChInfo msg)) R = Ret (Some p) → pbu_Type msg = 2 →
  grpcPayChInfotoBalInfo (pbu_ProposedPayChInfo msg) = Ret b →
  wp (incomingUpdate msg) t (λ es t' more, more = false ∧ requests es = [] ∧ ∃ e', t' = at_ p e' t ∧
    status e' = noUpdate ∧
    if decide (from_option printAPIError "" (pbu_Error msg) = "") then
      phase e' = closed ∧
      current e' = trimBal (if decide (version (current e) ≠ version b) then set_version (version b +:+ " F") b
                            else current e)
    else phase e' = phase e ∧ current e' = trimBal (current e) ∧ ∃ txt, TEvLogError (ErrText txt) ∈ es).
Proof.
  intros Hwf He HR Hreg Hty Hb. pose proof (wf_T_some _ Hwf). pose proof (wf_unlocked _ _ _ Hwf He) as Hl.
  assert (is_Some (t_entries t !! p)) by eauto.
  unfold incomingUpdate. apply wp_bind. unfold with_R. apply wp_bind, wp_get_state. rewrite HR. cbn [go_deref].
  apply wp_bind, wp_lift. rewrite Hreg. cbn [mbind outcome_mbind]. apply wp_bind, wp_lift, wp_bind, wp_modify, wp_mret.
  cbn [app fst snd]. replace (set_R (Some R) t) with t by (destruct t; cbn in *; by subst).
  rewrite decide_True by done. rewrite Hb. apply wp_bind, wp_lift, wp_bind. cbn [app].
  unfold notifyClosingUpdate. replace (match pbu_Error msg with Some e0 => printAPIError e0 | None => "" end)
    with (from_option printAPIError "" (pbu_Error msg)) by by destruct (pbu_Error msg).
  eapply wp_with_lock; [done..|]. destruct (decide (from_option _ _ _ = "")) as [Hm|Hm].
  all: total_steps; rewrite assign_at; cbn in *; do 2 (split; [done|]); eexists; (split; [reflexivity|]);
    split_and!; try done; cbn; try first [by rewrite decide_True|by rewrite decide_False].
  all: eexists; left.
Qed.
Lemma marked_version v b : ∃ v', marked v b = set_version v' b.
Proof. unfold marked. destruct (decide _); [by eexists|]. exists (version b). by destruct b. Qed.

(** ** From the dashboard to the chain and back *)

(** What the command leads to for the entry [e] and the channel [ch], when the transport
    delivers what the handler answers, and then what the event of the chain leads to. *)
Definition closing_result N a t p (e : channel) c i ch (x y : Z) : Prop :=
  let sid := t_sessionID t in
  let run := Grpc.ClosePayCh sid (chID e) a in
  (∀ r, value run = Ret r → srv_ClosePayCh N sid (chID e) = inl r) →
  ∃ q s1, let ch1 := initiated ch q in
    events run = GEvNode ∘ NEvSession sid <$> (SEvCh i <$> [EvUpdateBy (update_limit ch); EvRegister (register_limit ch)]) ∧
    closing_state (state_of ch) (state_of ch1) ∧ reaches (final run) sid (chID e) s1 i ch1 ∧
    wp (closeCh N p) t (λ es t1 _, requests es = [ClosePayChReq sid (chID e)] ∧
      (∃ e1, t1 = at_ p e1 t ∧ phase e1 = settle ∧ status e1 = noUpdate) ∧
      ∀ ev, settles ev (state_of ch1) → ∃ a3 msg, node_settled (final run) sid (chID e) i ch1 c ev x y a3 msg ∧
        wp (incomingUpdate msg) t1 (λ es t2 more, more = false ∧ requests es = [] ∧
          ∃ e2, t2 = at_ p e2 t ∧ status e2 = noUpdate ∧
            match settled ch1 with
            | None =>
                phase e2 = closed ∧
                ((∃ info, value run = Ret (inl info)) → ∃ v, shows (current e2) (set_version v (shown c (state_of ch1) x y)))
            | Some _ => phase e2 = settle ∧ ∃ txt, TEvLogError (ErrText txt) ∈ es
            end)).

Lemma closing_run N t p e R c a s i ch x y k
    (Hwf : wf_tui t) (He : t_entries t !! p = Some e) (Hready : ready e) (Hcl : t_client t = true)
    (HR : t_R t = Some R) (Hreg : getByChID (chID e) R = Ret (Some p))
    (Hr : reaches a (t_sessionID t) (chID e) s i ch) (Hl : ch_locked ch = false)
    (Ho : ch_status ch = Channel.open) (Hch : eth_channel c (peer e) ch) (Hid : Channel.ID ch = chID e)
    (Hn : ch_chUpdateNotifier ch = Some (server_notifier (t_sessionID t) (chID e)))
    (Hb : bals_of ch = [row_of ch x y]) (Hsigs : wf_signals a)
    (Hk : signal_of a (KUpdates (t_sessionID t) (chID e)) = Some k) :
  closing_result N a t p e c i ch x y.
Proof.
  unfold closing_result. set (sid := t_sessionID t). set (run := Grpc.ClosePayCh sid (chID e) a).
  intros HN. destruct (server_close_run a sid (chID e) s i ch c (peer e) x y Hr Hl Ho Hch Hb)
    as (q & r & Hrun & Hst & Hidx & Hres). fold run in Hrun.
  specialize (HN r ltac:(by rewrite Hrun)). rewrite Hrun. unfold final, value, events. cbn [fst snd].
  pose proof (put_channel_reaches _ _ _ _ _ _ (initiated ch q) Hr) as Hr1.
  eexists q, _. split; [done|]. split; [exact Hst|]. split; [exact Hr1|].
  eassert (Hwp : wp (closeCh N p) t _).
  { apply (close_run N t p e Hwf He Hready Hcl). intros info. fold sid. rewrite HN. intros [= ->]. by eexists. }
  fold sid in Hwp. rewrite HN in Hwp.
  eapply wp_mono; [|exact (wp_wlp _ _ _ _ (closeCh_op N false p t e He) Hwp)].
  intros es t1 _ (Hpost & e1 & -> & Hreq & Hph & Hs1 & Hcur). split; [done|]. split; [by exists e1|]. intros ev Hev.
  assert (Hwf1 : wf_tui (at_ p e1 t)) by (by destruct (entry_dstep _ _ _ _ _ _ _ Hwf He Hpost)).
  assert (Hch1 : eth_channel c (peer e) (initiated ch q)).
  { destruct Hch as [H1 H2 H3 H4 H5]. split; try done. cbn. by rewrite Hidx. }
  assert (Hb1 : bals_of (initiated ch q) = [row_of (initiated ch q) x y]).
  { change (bals_of (initiated ch q)) with (al_Balances (st_Allocation (pch_State q))).
    rewrite (closing_state_bals _ _ Hst). exact Hb. }
  destruct (node_settle_run _ _ _ _ _ _ _ _ ev x y k Hr1 Hl Hch1 Hb1 Hn Hev Hsigs Hk) as (a3 & msg & Hns).
  exists a3, msg. split; [exact Hns|]. pose proof Hns as [_ _ _ Hty Hcid Hsh _ Htext].
  eapply wp_mono; [|eapply (incomingClosing_run _ R p e1); try done].
  - intros es' t2 more (-> & Hreq2 & e2 & -> & Hs2 & Hres2). split; [done|]. split; [done|]. exists e2.
    split; [by rewrite at_at|]. split; [done|]. destruct (settled (initiated ch q)) as [err|] eqn:Hsettle.
    { rewrite decide_False in Hres2 by (intros Ht; by apply Htext in Ht). by destruct Hres2 as (-> & _ & ?). }
    rewrite decide_True in Hres2 by (by apply Htext).
    destruct Hres2 as [Hph2 Hcur2]. split; [done|]. intros (info & [= ->]). destruct Hcur as (b & Hinfo & Hcur).
    rewrite Hres in Hinfo. injection Hinfo as <-. rewrite Hcur2. destruct (decide _) as [Hv|Hv].
    + eexists. apply shows_once.
    + rewrite Hcur. destruct (marked_version (version (current e)) (shown c (pch_State q) x y)) as [v ->].
      exists v. by do 1 apply shows_trim, shows_once.
  - apply lookup_at. eauto.
  - rewrite Hcid. change (Channel.ID (initiated ch q)) with (Channel.ID ch). by rewrite Hid.
Qed.

(** C9: Closing a channel, from the command of the user to the chain and back to the screen.
    The dashboard makes one request; the node asks the peer to make the state final and
    registers the state on the blockchain in any case: the final one, or the last one
    the peer agreed to, so the balances are always those of the channel.  When the
    blockchain then reports the event that belongs to that state, the node settles the
    channel as the one that initiated the closing, closes it, and sends its last message
    about it; the subscription ends on both sides.  If settling succeeded the entry is
    shown as closed, and, unless the request had failed, with the balances that were
    registered; if it failed the entry stays in [settle], and only the log has the error. *)
Theorem closing_end_to_end N t p e R c a s i ch x y k
    (Hwf : wf_tui t) (He : t_entries t !! p = Some e) (Hready : ready e) (Hcl : t_client t = true)
    (HR : t_R t = Some R) (Hreg : getByChID (chID e) R = Ret (Some p))
    (Hr : reaches a (t_sessionID t) (chID e) s i ch) (Hl : ch_locked ch = false)
    (Ho : ch_status ch = Channel.open) (Hch : eth_channel c (peer e) ch) (Hid : Channel.ID ch = chID e)
    (Hn : ch_chUpdateNotifier ch = Some (server_notifier (t_sessionID t) (chID e)))
    (Hb : bals_of ch = [row_of ch x y]) (Hsigs : wf_signals a)
    (Hk : signal_of a (KUpdates (t_sessionID t) (chID e)) = Some k) :
  closing_result N a t p e c i ch x y.
Proof. by eapply closing_run. Qed.
End closing.
