(* ===== verification/ChannelLifetime.v ===== *)
(** * The life of a channel

    [OpeningEndToEnd] and [ProposalEndToEnd], [LedgerRefinement] and [ClosingEndToEnd]
    put together: a channel is opened by the user or by the peer, the dashboard
    subscribes to its updates, any number of payments follow, and it is closed. *)
From S2P Require Import Prelude Perun Errors SessionErrors Currency IDProvider Contracts Sdk Timeout.
From S2P Require Import ChRegistry Client User Channel ChannelProps SessionHelpers Session SessionProps SessionLife.
From S2P Require Import Node Payment Grpc GrpcProps PbClient TuiText Tui TuiProps EndToEnd IncomingEndToEnd.
From S2P Require Import OpeningEndToEnd ProposalEndToEnd LedgerRefinement ClosingEndToEnd.
Local Open Scope Z_scope.

Section lifetime.
Context {GT : GoTypes} {GP : GoPerun} {EL : EthLib} {DL : DecimalLib} {GL : GoTypesLaws}.
Context {FL : FunderLaws} {PL : ProposalLaws Client.client} {UL : UpdateByLaws} {CL : CloseLaws} {AL : AdjudicatorLaws}.
Implicit Types (a : payChAPIServer) (t : tui) (ch : Channel.Channel GOut) (w : world).
Implicit Types (s : Session.Session GOut Client.client idProviderCache).

(** ** How a channel begins *)

(** The dashboard [t] and the server [a] before: connected, with room for one more
    channel in the table and in the registry, and the session [s] open and free. *)
Record at_start t R a s c : Prop := {
  as_wf : wf_tui t;
  as_table : ∃ tb, t_T t = Some tb ∧ currentIndex tb ≠ lastIndex tb;
  as_R : t_R t = Some R;
  as_room : Z.of_nat (length (t_entries t)) + 1 < Z.of_nat (length (proposals R));
  as_client : t_client t = true;
  as_node : wf_node (g_n a);
  as_unlocked : n_locked (g_n a) = false;
  as_session : n_sessions (g_n a) !! t_sessionID t = Some s;
  as_open : s_isOpen s = true;
  as_free : s_locked s = false;
  as_currency : registered_Currency (n_currencyRegistry (g_n a)) ETHSymbol = Some (as_Currency c);
  as_signals : wf_signals a ∧ is_Some (chUpdatesNotif a !! t_sessionID t);
}.

(** The server once it has answered the request of the dashboard to subscribe. *)
Definition subscribed a (sid cid : string) : payChAPIServer := final (Grpc.SubPayChUpdates sid cid a).

(** The user types the command, or accepts a proposal of the peer; the node answers with
    the information on a channel, and the dashboard subscribes.  [x] and [y] are the
    amounts that were typed, or proposed. *)
Inductive begins t a s c (peer : string) : Z → Z → world → Prop :=
| begins_opened N ours theirs x y es t' info :
    peer ≠ OwnAlias → Parse c ours = inl x → Parse c theirs = inl y →
    delivers_opening N a (t_sessionID t) (open_request peer ours theirs) →
    openCmdHandler N [peer; ours; theirs] t = (es, t', Ret None) →
    let run := Grpc.OpenPayCh (t_sessionID t) (Some (open_request peer ours theirs)) challengeDurSecs a in
    value run = Ret (inl info) →
    begins t a s c peer x y (mkWorld (subscribed (final run) (t_sessionID t) (pb_ChID info)) t')
| begins_joined N zone prop r now x y n a1 msg es1 t1 es2 t2 now2 es3 t3 info :
    s_chProposalNotifier s = Some (server_proposals (t_sessionID t)) →
    eth_proposal c peer (g_n a) s prop x y → opens r prop → unix (now + response (s_timeoutCfg s)) ≠ 0 →
    proposal_notified a (t_sessionID t) prop r now n a1 msg →
    incomingChannel zone msg t = (es1, t1, Ret tt) →
    notifyIncomingChannel (length (t_entries t)) t1 = (es2, t2, Ret tt) →
    let pid := hex (lcp_ProposalID prop) in
    delivers_proposal N a1 (t_sessionID t) pid true now2 →
    respond N (length (t_entries t)) true t2 = (es3, t3, Ret tt) →
    let run := Grpc.RespondPayChProposal (t_sessionID t) pid true now2 a1 in
    value run = Ret (inl info) →
    begins t a s c peer x y (mkWorld (subscribed (final run) (t_sessionID t) (pb_ChID info)) t3).

(** ** Dashboard and node are in step from the beginning *)

Lemma stored_signal_reaches a sid cid s i ch k :
  reaches a sid cid s i ch → reaches (stored_signal k a) sid cid s i ch.
Proof. intros []. by destruct k; split. Qed.

Lemma new_channel_in_step a sid peer c s i ch x y t t' e R m :
  new_channel a sid peer c s i ch x y → chUpdatesNotif a !! sid = Some m → wf_signals a →
  wf_tui t' → t_entries t' = t_entries t ++ [e] → Tui.peer e = peer → t_client t' = true → t_sessionID t' = sid →
  sNo e < Z.of_nat (length (proposals R)) →
  entry_opened t t' e R c (Channel.ID ch) (state_of ch) x y →
  in_step (length (t_entries t)) c (mkWorld (subscribed a sid (Channel.ID ch)) t')
    (mkLedger x y (st_Version (state_of ch)) None).
Proof.
  intros [Hr Ho Hl Hst Hsub Heth Hb] Hm Hsig Hwf Hent Hp Hcl Hsid Hlt [Hready Hcid Hcur Hfound].
  destruct (Hfound Hlt) as (R' & HR' & Hget). unfold subscribed.
  rewrite (SubPayChUpdates_run a sid _ s i ch m Hr Hl Hst Hsub Hm).
  set (ch1 := set_cache [] (set_notifier _ ch)).
  set (a1 := put_channel a sid s i ch1). assert (Hwf1 : wf_signals a1) by exact Hsig.
  destruct (stored_signal_spec sid (Channel.ID ch) a1 m Hwf1 Hm) as [Hwf2 Hsig2].
  pose proof (put_channel_reaches _ _ _ _ _ _ ch1 Hr) as Hr1.
  apply (stored_signal_reaches _ _ _ _ _ _ (KUpdates sid (Channel.ID ch))) in Hr1.
  eexists e, R', _, i, ch1. split.
  - split; cbn [w_srv w_dash]; rewrite ?Hsid, ?Hcid; try done.
    + by rewrite Hent, list_lookup_middle.
    + by destruct Hready.
    + rewrite Hp. by destruct Heth.
  - split; cbn; try done.
    + rewrite Hcur. apply shows_once.
    + by destruct Hready as (_ & _ & ? & _).
Qed.

Lemma proposal_notified_inj a sid prop r now n a1 msg n' a1' msg' :
  proposal_notified a sid prop r now n a1 msg → proposal_notified a sid prop r now n' a1' msg' →
  a1' = a1 ∧ msg' = msg.
Proof. intros [H1 H2] [H1' H2']. rewrite H1 in H1'. injection H1' as <- <-. rewrite H2 in H2'. by injection H2' as <-. Qed.

Lemma begins_in_step t R a s c peer x y w :
  at_start t R a s c → begins t a s c peer x y w → ∃ v, in_step (length (t_entries t)) c w (mkLedger x y v None).
Proof.
  intros [Hwf (tb & HT & Hroom) HR Hlen Hcl Hnode Hl Hs Ho Hsl Hc [Hsig [m Hm]]] Hbegin.
  assert (Hno : ∀ t' e, wf_tui t' → t_entries t' = t_entries t ++ [e] → sNo e < Z.of_nat (length (proposals R))).
  { intros t' e [_ Hwe] Hent. destruct (Hwe (length (t_entries t)) e) as (-> & _ & _); [|done].
    by rewrite Hent, list_lookup_middle. }
  destruct Hbegin as [N ours theirs x y es t' info Hpeer Hx Hy HN Hrun run Hval
    |N zone prop r now x y n a1 msg es1 t1 es2 t2 now2 es3 t3 info Hn Hprop Hop Hexp Hnot Hin Hshow pid HN Hresp run Hval];
    unfold run in *; clear run.
  - destruct (opening_run N t tb R a s c peer ours theirs Hwf HT HR Hroom Hcl Hnode Hl Hs Ho Hsl Hc Hpeer HN)
      as (es' & _ & Hw).
    apply (wp_elim _ _ _ _ _ _ Hw) in Hrun as (_ & Hwf' & [Hcl' Hsid'] & e & Hent & Hp & [Hok|Hfail]).
    + destruct Hok as (s' & i & ch & x' & y' & info' & Hval' & Hid & [Hsrv Hnew Hx' Hy' _ _] & _ & Hopened).
      rewrite Hval in Hval'. injection Hval' as <-. rewrite Hx in Hx'. injection Hx' as <-.
      rewrite Hy in Hy'. injection Hy' as <-. eexists. rewrite Hid.
      eapply new_channel_in_step; try done; [by rewrite Hsrv|by rewrite Hsrv|congruence|by eapply Hno].
    + destruct Hfail as (_ & msg & Hval' & _). by rewrite Hval in Hval'.
  - destruct (incoming_opening_run zone t tb R a s c peer prop r now x y Hwf HT HR Hroom Hcl Hnode Hl Hs Ho Hsl Hn Hprop
      Hop Hexp) as (t1' & e1 & Hnot' & Hin' & _ & _ & _ & _ & _ & Hw).
    destruct (proposal_notified_inj _ _ _ _ _ _ _ _ _ _ _ Hnot Hnot') as [<- <-].
    rewrite Hin in Hin'. injection Hin' as _ <-.
    apply (wp_elim _ _ _ _ _ _ Hw) in Hshow as (_ & _ & _ & Hans).
    destruct (Hans N true now2 HN) as (es' & s2 & _ & _ & _ & _ & Hw2). clear Hans.
    apply (wp_elim _ _ _ _ _ _ Hw2) in Hresp as (Hwf' & [Hcl' Hsid'] & e & Hent & Hp & Hok & Hfail).
    set (en := eth_entry _ _ _ _ _ _ _) in *.
    destruct (decide (¬ proposal_late en now2 ∧ answer_taken (kept en s) en true)) as [Htaken|Htaken].
    + destruct (Hok Htaken) as (i & ch & info' & Hval' & Hid & [Hsrv _ _ Hnew _] & _ & _ & Hopened).
      unfold pid in Hval. rewrite Hval in Hval'. injection Hval' as <-. eexists. rewrite Hid. unfold pid.
      eapply new_channel_in_step; try done; [by rewrite Hsrv|by rewrite Hsrv|congruence|by eapply Hno].
    + destruct (Hfail Htaken) as ((m' & Hval') & _). unfold pid in Hval. by rewrite Hval in Hval'.
Qed.

(** ** What happens in between

    What the user does is not restricted: amounts that cannot be read, payments while an
    update is open, answers to nothing.  The updates that the SDK reports are valid and
    leave the channel open ([valid_update]); a final update of the peer is
    the end of this run, as the command to close the channel is. *)
Inductive life_run (N0 : NodeServer) zone (p : nat) c : list wop → world → world → Prop :=
| life_nil w : life_run N0 zone p c [] w w
| life_cons op ops w w1 w' :
    match op with WUpdate _ _ _ => allowed p c op w | _ => True end →
    world_step N0 zone p op w w1 → life_run N0 zone p c ops w1 w' → life_run N0 zone p c (op :: ops) w w'.

(** Any payment that does not crash the dashboard is one of the ledger, or changes nothing. *)
Lemma pay_step_simulated N0 zone p c amount toPeer now w w' l :
  ethCurrency = Some c → in_step p c w l → world_step N0 zone p (WPay amount toPeer now) w w' →
  ∃ l', ledger_step c (MPay amount toPeer) l l' ∧ in_step p c w' l'.
Proof.
  intros Hc Hin Hstep. pose proof Hin as (e & R & s & i & ch & [Hwf He _ _ _ _ _ _ _ _ _ _ _ _] & _). destruct w as [a t].
  cbn [w_dash w_srv] in *.
  assert (Hsame : wp (update (connected N0 a now) p amount toPeer) t (λ es t' _, t' = t ∧ requests es = []) →
    ∃ l', ledger_step c (MPay amount toPeer) l l' ∧ in_step p c w' l').
  { intros Hw. inversion Hstep; subst. match goal with H : _ = (_, _, Ret _) |- _ =>
      apply (wp_elim _ _ _ _ _ _ Hw) in H as [-> ->] end. exists l. split; [constructor|exact Hin]. }
  destruct (decide (ready e)) as [Hready|Hready]; [|by apply Hsame, update_not_ready with (e := e)].
  pose proof (update_reads (connected N0 a now) t p e amount toPeer Hwf He Hready) as Hreads.
  destruct (getProposedBalInfo _ _ _) as [[b|err]|x|] eqn:Hg; [|by apply Hsame| |].
  - destruct (pay_simulated N0 zone p c amount toPeer now (mkWorld a t) l Hc Hin) as [_ Hs].
    + pose proof (getProposedBalInfo_cases c (current e) amount toPeer Hc) as Hcases. rewrite Hg in Hcases.
      destruct Hcases as (Ha & Ho & Ht & Hv). split; [done|]. by exists e.
    + destruct (Hs w' Hstep) as (m & l' & -> & Hl & Hin'). by exists l'.
  - inversion Hstep; subst. match goal with H : _ = (_, _, Ret _) |- _ => unfold value in Hreads; by rewrite H in Hreads end.
  - pose proof (getProposedBalInfo_cases c (current e) amount toPeer Hc) as Hcases. by rewrite Hg in Hcases.
Qed.

(** The payments that crash the dashboard. *)
Lemma pay_crashes N0 p c w l e R s i ch amount toPeer now :
  ethCurrency = Some c → linked p c w e R s i ch → agrees c l e ch →
  value (update (connected N0 (w_srv w) now) p amount toPeer (w_dash w)) = Panic "nil pointer dereference" ↔
  ready e ∧ is_inl (Parse c amount) ∧
  ¬ (is_inl (Parse c (ours (current e))) ∧ is_inl (Parse c (theirs (current e)))).
Proof.
  intros Hc Hlk Hag. destruct w as [a t]. pose proof Hlk as [Hwf He _ _ _ _ _ _ _ _ _ _ _ _]. cbn [w_dash w_srv] in *.
  assert (Hstays : ∀ Q, wp (update (connected N0 a now) p amount toPeer) t Q →
    value (update (connected N0 a now) p amount toPeer t) ≠ Panic "nil pointer dereference").
  { intros Q (es & t' & [] & Hrun & _). by rewrite Hrun. }
  destruct (decide (ready e)) as [Hready|Hready].
  2:{ split; [|by intros [? _]]. by intros []%(Hstays _ (update_not_ready p _ _ _ _ _ Hwf He Hready)). }
  pose proof (update_reads (connected N0 a now) t p e amount toPeer Hwf He Hready) as Hreads.
  pose proof (getProposedBalInfo_cases c (current e) amount toPeer Hc) as Hcases.
  destruct (getProposedBalInfo _ _ _) as [[b|err]|x|]; [| | |done].
  - destruct Hcases as (Ha & Ho & Ht & Hv). split; [|by intros (_ & _ & []); split].
    destruct (pay_simulated N0 id p c amount toPeer now (mkWorld a t) l Hc) as [[w' Hstep] _].
    + by exists e, R, s, i, ch.
    + split; [done|]. by exists e.
    + inversion Hstep; subst. unfold value. match goal with H : _ = (_, _, Ret _) |- _ => by rewrite H end.
  - split; [by intros []%(Hstays _ Hreads)|]. intros (_ & Ha & Hb). naive_solver.
  - destruct Hcases as (-> & Ha & Hb). by split.
Qed.

Lemma life_simulated N0 zone p c ops w l w' :
  ethCurrency = Some c → in_step p c w l → life_run N0 zone p c ops w w' →
  ∃ ms l', Forall2 move_of ops ms ∧ ledger_run c ms l l' ∧ in_step p c w' l' ∧ total l' = total l.
Proof.
  intros Hc Hin Hrun. revert l Hin. induction Hrun as [w|op ops w w1 w' Hop Hstep Hrun IH]; intros l Hin.
  { exists [], l. split_and!; try done; constructor. }
  assert (∃ m l1, move_of op m ∧ ledger_step c m l l1 ∧ in_step p c w1 l1) as (m & l1 & Hm & Hl & Hin1).
  { destruct op as [amount toPeer now|acc now|prop r now|uid].
    - destruct (pay_step_simulated _ _ _ _ _ _ _ _ _ _ Hc Hin Hstep) as (l1 & Hl & Hin1). by exists (MPay amount toPeer), l1.
    - by apply (answer_simulated N0 zone p c acc now w l Hin).
    - by apply (update_simulated N0 zone p c prop r now w l Hin Hop).
    - by apply (expire_simulated N0 zone p c uid w l Hin). }
  destruct (IH l1 Hin1) as (ms & l' & Hms & Hls & Hin' & Htot). exists (m :: ms), l'.
  split_and!; [by constructor|by econstructor|done|]. rewrite Htot. by eapply ledger_step_total.
Qed.

(** ** The whole life *)

(** C3: A channel, from its opening to its closing.  Whoever opened it, and whatever
    sequence of commands to pay, answers and timers follows, and of updates of the peer
    that are valid and not final (a final update asks to close the channel and is not
    part of this run), dashboard and node stay in step with a ledger that began with
    the amounts the channel was opened with, [x] for the user and [y] for the peer: the
    sum of its balances is still [x + y].  The run ends where a step crashes the
    dashboard, and a payment does that exactly when the entry is ready, the
    amount can be read and one of the two balances it shows cannot, as the zero of a
    side that has spent everything.  When the entry is ready, the command to close the
    channel registers exactly the balances of the ledger on the blockchain; if that and
    settling succeed, the entry is closed and shows them. *)
Theorem channel_lifetime (N0 : NodeServer) (zone : Z → Z) t R a s c peer x y w0 ops w
    (Hc : ethCurrency = Some c) (Hstart : at_start t R a s c) (Hbegin : begins t a s c peer x y w0)
    (Hrun : life_run N0 zone (length (t_entries t)) c ops w0 w) :
  let p := length (t_entries t) in
  ∃ v ms l e R' s' i ch, Forall2 move_of ops ms ∧ ledger_run c ms (mkLedger x y v None) l ∧ total l = x + y ∧
    linked p c w e R' s' i ch ∧ agrees c l e ch ∧
    (∀ amount toPeer now,
       value (update (connected N0 (w_srv w) now) p amount toPeer (w_dash w)) = Panic "nil pointer dereference" ↔
       ready e ∧ is_inl (Parse c amount) ∧
       ¬ (is_inl (Parse c (ours (current e))) ∧ is_inl (Parse c (theirs (current e))))) ∧
    ∀ N, ready e → closing_result N (w_srv w) (w_dash w) p e c i ch (l_ours l) (l_theirs l).
Proof.
  intros p. destruct (begins_in_step t R a s c peer x y w0 Hstart Hbegin) as [v Hin].
  destruct (life_simulated N0 zone p c ops w0 _ w Hc Hin Hrun) as (ms & l & Hms & Hl & Hin' & Htot).
  pose proof Hin' as (e & R' & s' & i & ch & Hlk & Hag). exists v, ms, l, e, R', s', i, ch. split_and!; try done.
  - intros amount toPeer now. by apply pay_crashes with (R := R') (s := s') (i := i) (ch := ch) (l := l).
  - intros N Hready. pose proof Hlk as []. pose proof Hag as []. destruct lk_signals as [Hsig [k Hk]].
    by eapply closing_run.
Qed.
End lifetime.
