(* ===== verification/Cli.v ===== *)
(** * The command line client (cmd/perunnodecli)

    The package variables of the client -- the session, the aliases it gives to
    channels and to opening requests -- and every command.  A command is one step;
    the handlers of notifications are goroutines that run one message at a time.
    What is printed is kept as a structured message ([Msg]), without its colour and
    layout; completions and help texts are in [CliShell].  What the node answers
    while a command runs is the argument [N]. *)
From S2P Require Import Prelude Perun Errors Currency Contracts Grpc PbClient TuiText.

Record openChannelInfo := mkOpenChannelInfo {
  oc_id : string; oc_peerAlias : string; latestPaymentNotifID : string }.

(** [toBalanceMap] prints a map from participants to balances. *)
Record prettyInfo := mkPretty {
  pr_ID : string; pr_Currencies : list string; pr_Version : string; pr_Balance : gmap string string }.

Section cli.
Context {GT : GoTypes} {DL : DecimalLib} {EL : EthLib}.

(** ** State, messages and actions *)
Inductive Msg :=
| MsgHelp
| MsgNodeNotConnected
| MsgArgCount (got want : nat)
| MsgCommandSendingError (err : goerror)
| MsgUnknownChannelAlias (alias : string) (known : list string)
| MsgUnknownChNotif (alias : string) (known : list string)
| MsgNoPaymentNotif (alias : string)
| MsgApiError (what : string) (err : pb_MsgError)
| MsgError (what : string) (err : goerror)
| MsgText (what : string)
| MsgChannel (what alias : string) (info : prettyInfo)
| MsgChannelRequest (what alias : string) (info : prettyInfo) (expiresIn : Z)
| MsgPaymentRequest (what alias : string) (current proposed : prettyInfo) (expiresIn : Z)
| MsgPeer (p : pb_PeerID)
| MsgConfig (cfg : string * string * string * list string * list string)
| MsgTime (t : Z).

Inductive CGoroutine :=
| GoChannelNotifHandler
| GoPaymentNotifHandler (chAlias chID : string).

Inductive CEvent :=
| CEvRequest (r : PbRequest)
| CEvPrint (m : Msg)
| CEvGo (g : CGoroutine).

Record cli := mkCli {
  c_client : bool;
  c_sessionID : string;
  c_chainAddr : string;
  knownAliasesList : list string;
  openChannelsCounter : Z;
  openChannelsList : list string;
  openChannelsMap : gmap string openChannelInfo;
  openChannelsRevMap : gmap string string;
  channelNotifCounter : Z;
  channelNotifList : list string;
  channelNotifMap : gmap string pb_ProposalNotify;
}.

Definition cprog (A : Type) : Type := prog cli CEvent A.

Definition set_client (b : bool) (c : cli) : cli :=
  mkCli b (c_sessionID c) (c_chainAddr c) (knownAliasesList c) (openChannelsCounter c) (openChannelsList c)
    (openChannelsMap c) (openChannelsRevMap c) (channelNotifCounter c) (channelNotifList c) (channelNotifMap c).
Definition set_sessionID (s : string) (c : cli) : cli :=
  mkCli (c_client c) s (c_chainAddr c) (knownAliasesList c) (openChannelsCounter c) (openChannelsList c)
    (openChannelsMap c) (openChannelsRevMap c) (channelNotifCounter c) (channelNotifList c) (channelNotifMap c).
Definition set_chainAddr (s : string) (c : cli) : cli :=
  mkCli (c_client c) (c_sessionID c) s (knownAliasesList c) (openChannelsCounter c) (openChannelsList c)
    (openChannelsMap c) (openChannelsRevMap c) (channelNotifCounter c) (channelNotifList c) (channelNotifMap c).
Definition set_knownAliases (l : list string) (c : cli) : cli :=
  mkCli (c_client c) (c_sessionID c) (c_chainAddr c) l (openChannelsCounter c) (openChannelsList c)
    (openChannelsMap c) (openChannelsRevMap c) (channelNotifCounter c) (channelNotifList c) (channelNotifMap c).
Definition set_channels (n : Z) (l : list string) (m : gmap string openChannelInfo) (r : gmap string string)
    (c : cli) : cli :=
  mkCli (c_client c) (c_sessionID c) (c_chainAddr c) (knownAliasesList c) n l m r
    (channelNotifCounter c) (channelNotifList c) (channelNotifMap c).
Definition set_notifs (n : Z) (l : list string) (m : gmap string pb_ProposalNotify) (c : cli) : cli :=
  mkCli (c_client c) (c_sessionID c) (c_chainAddr c) (knownAliasesList c) (openChannelsCounter c)
    (openChannelsList c) (openChannelsMap c) (openChannelsRevMap c) n l m.

Definition print (m : Msg) : cprog unit := emit (CEvPrint m).
Definition ccall {A} (r : PbRequest) (resp : A) : cprog A := emit (CEvRequest r);; mret resp.

(** The guards most commands start with. *)
Definition if_connected (m : cprog unit) : cprog unit :=
  c ← get_state; if c_client c then m else print MsgNodeNotConnected.
Definition if_args (countReqArgs : nat) (args : list string) (m : cprog unit) : cprog unit :=
  if decide (length args ≠ countReqArgs) then print (MsgArgCount (length args) countReqArgs) else m.

(** The usual handling of a response. *)
Definition on_success {A B} (resp : rpc A) (what : string) (failed : B) (k : A → cprog B) : cprog B :=
  match resp with
  | inr err => print (MsgCommandSendingError err);; mret failed
  | inl (inr msgErr) => print (MsgApiError what msgErr);; mret failed
  | inl (inl msg) => k msg
  end.

(** ** Aliases (channel.go, idprovider.go) *)

(** Removes the first occurrence by moving the last element to its place. *)
Definition swap_remove (alias : string) (l : list string) : list string :=
  match list_find (alias =.) l with
  | None => l
  | Some (aliasIdx, _) =>
      match last l with
      | None => l
      | Some x => take (length l - 1) (<[aliasIdx := x]> l)
      end
  end.

Definition channel_alias (counter : Z) (peer : string) : string :=
  "ch_" +:+ Itoa counter +:+ "_" +:+ peer.
Definition request_alias (counter : Z) (peer : string) : string :=
  "request_" +:+ Itoa counter +:+ "_" +:+ peer.

Definition addOpenChannelID (id peer : string) : cprog string :=
  c ← get_state;
  let counter := int64 (openChannelsCounter c + 1) in
  let alias := channel_alias counter peer in
  modify (set_channels counter (openChannelsList c ++ [alias])
            (<[alias := mkOpenChannelInfo id peer ""]> (openChannelsMap c))
            (<[id := alias]> (openChannelsRevMap c)));;
  mret alias.

Definition removeOpenChannelID (alias : string) : cprog unit :=
  c ← get_state;
  modify (set_channels (openChannelsCounter c) (swap_remove alias (openChannelsList c))
            (delete alias (openChannelsMap c)) (openChannelsRevMap c)).

Definition findPeerAlias (parts : list string) : string :=
  match parts with
  | [a; b] => if decide (a ≠ OwnAlias) then a else if decide (b ≠ OwnAlias) then b else ""
  | _ => ""
  end.

Definition addChannelNotif (notif : pb_ProposalNotify) : cprog string :=
  c ← get_state;
  let counter := int64 (channelNotifCounter c + 1) in
  let alias := request_alias counter (findPeerAlias (pb_Parts (pbp_OpeningBalInfo notif))) in
  modify (set_notifs counter (channelNotifList c ++ [alias]) (<[alias := notif]> (channelNotifMap c)));;
  mret alias.

Definition removeChannelNotif (alias : string) : cprog unit :=
  c ← get_state;
  modify (set_notifs (channelNotifCounter c) (swap_remove alias (channelNotifList c))
            (delete alias (channelNotifMap c))).

Definition addPeerAlias (alias : string) : cprog unit :=
  c ← get_state;
  if decide (alias ∈ knownAliasesList c) then mret tt
  else modify (set_knownAliases (knownAliasesList c ++ [alias])).

Definition set_latest (chAlias u : string) : cprog unit :=
  modify (λ c, set_channels (openChannelsCounter c) (openChannelsList c)
    (alter (λ i, mkOpenChannelInfo (oc_id i) (oc_peerAlias i) u) chAlias (openChannelsMap c))
    (openChannelsRevMap c) c).

Definition resetLocalCache : cprog unit :=
  modify (set_notifs 0 [] ∅);;
  modify (set_channels 0 [] ∅ ∅);;
  modify (set_knownAliases []).

(** ** Pretty printing: panics on a missing message and on missing balances *)
Fixpoint toBalanceMap (parts bal : list string) : outcome (gmap string string) :=
  match parts, bal with
  | [], _ => Ret ∅
  | _ :: _, [] => Panic "index out of range"
  | p :: parts, b :: bal =>
      m ← toBalanceMap parts bal;
      Ret (match m !! p with Some _ => m | None => <[p := b]> m end)
  end.

Definition prettifyPayChInfo (chInfo : option pb_PayChInfo) : outcome prettyInfo :=
  i ← go_deref chInfo;
  bal ← go_index (pb_Bals (pb_BalInfo_ i)) 0;
  m ← toBalanceMap (pb_Parts (pb_BalInfo_ i)) bal;
  Ret (mkPretty (pb_ChID i) (pb_Currencies (pb_BalInfo_ i)) (pb_Version i) m).

Definition prettifyBalanceInfo (b : pb_BalInfo) (v : string) : outcome prettyInfo :=
  cur ← go_index (pb_Currencies b) 0;
  bal ← go_index (pb_Bals b) 0;
  m ← toBalanceMap (pb_Parts b) bal;
  Ret (mkPretty "" [cur] v m).

Definition prettifyChannelOpeningRequest (notif : pb_ProposalNotify) : outcome prettyInfo :=
  prettifyBalanceInfo (pbp_OpeningBalInfo notif) "".

Section commands.
Context (N : NodeServer).

(** ** Node, peer IDs and chain (node.go, idprovider.go, chain.go) *)
Definition getNodeTime : cprog (Z + goerror) := ccall TimeReq (srv_Time N).

Definition nodeConnectFn (dialErr : option goerror) (args : list string) : cprog unit :=
  if_args 1 args (
    (match dialErr with
     | Some err => print (MsgError "Error connecting to perun node" err)
     | None => mret tt
     end);;
    modify (set_client true);;
    t ← getNodeTime;
    match t with
    | inr err => print (MsgError "Error connecting to perun node" err)
    | inl t => print (MsgTime t)
    end).

Definition nodeTimeFn (args : list string) : cprog unit :=
  if_connected (if_args 0 args (
    t ← getNodeTime;
    match t with
    | inr err => print (MsgCommandSendingError err)
    | inl t => print (MsgTime t)
    end)).

Definition nodeConfigFn (args : list string) : cprog unit :=
  if_connected (if_args 0 args (
    r ← ccall GetConfigReq (srv_GetConfig N);
    match r with
    | inr err => print (MsgCommandSendingError err)
    | inl cfg => print (MsgConfig cfg)
    end)).

Definition peerIDAddFn (args : list string) : cprog unit :=
  if_connected (if_args 4 args (
    match args with
    | [alias; offChainAddress; commAddress; commType] =>
        c ← get_state;
        let p := mkPbPeerID alias offChainAddress commAddress commType in
        resp ← ccall (AddPeerIDReq (c_sessionID c) p) (srv_AddPeerID N (c_sessionID c) p);
        on_success resp "Error adding peer ID" tt (λ _,
          addPeerAlias alias;; print (MsgText "Peer ID added successfully."))
    | _ => mret tt
    end)).

Definition peerIDGetFn (args : list string) : cprog unit :=
  if_connected (if_args 1 args (
    match args with
    | [alias] =>
        c ← get_state;
        resp ← ccall (GetPeerIDReq (c_sessionID c) alias) (srv_GetPeerID N (c_sessionID c) alias);
        on_success resp "Error adding peer ID" tt (λ p, addPeerAlias alias;; print (MsgPeer p))
    | _ => mret tt
    end)).

Definition setChainAddrFn (args : list string) : cprog unit :=
  if_args 1 args (
    match args with
    | [addr] => modify (set_chainAddr addr);; print (MsgText ("Blockchain node address: " +:+ addr))
    | _ => mret tt
    end).
Definition getChainAddrFn (args : list string) : cprog unit :=
  if_args 0 args (c ← get_state; print (MsgText ("Blockchain node address: " +:+ c_chainAddr c))).

Definition getOnChainBalanceFn (args : list string) : cprog unit :=
  if_args 1 args (
    match args with
    | [arg] =>
        c ← get_state;
        if decide (c_chainAddr c = "") then print (MsgText "Chain address is not set") else
        match ParseAddr arg with
        | inr err => print (MsgError "Error parsing address" err)
        | inl addr =>
            match BalanceAt (c_chainAddr c) 10000000000 60000000000 addr with
            | inr err => print (MsgError "Error connecting to blockchain node" err)
            | inl bal =>
                cur ← lift (go_deref (Currency_ (Register NewRegistry ETHSymbol ETHMaxDecimals).1 ETHSymbol));
                print (MsgText ("On-chain balance: " +:+ truncateAtAmountMaxLen (Print cur bal)))
            end
        end
    | _ => mret tt
    end).

(** ** Requests on a channel shared by several commands *)
Definition channelSub : cprog unit :=
  c ← get_state;
  err ← ccall (SubPayChProposalsReq (c_sessionID c)) (srv_SubPayChProposals N (c_sessionID c));
  match err with
  | Some err => print (MsgCommandSendingError err)
  | None =>
      emit (CEvGo GoChannelNotifHandler);;
      print (MsgText "Subscribed to channel opening request notifications.")
  end.

Definition channelUnsub : cprog unit :=
  c ← get_state;
  resp ← ccall (UnsubPayChProposalsReq (c_sessionID c)) (srv_UnsubPayChProposals N (c_sessionID c));
  on_success resp "Error unsubscribing from channel proposals" tt (λ _, mret tt).

Definition paymentSub (chAlias : string) : cprog unit :=
  c ← get_state;
  match openChannelsMap c !! chAlias with
  | None => print (MsgUnknownChannelAlias chAlias (openChannelsList c))
  | Some chInfo =>
      err ← ccall (SubPayChUpdatesReq (c_sessionID c) (oc_id chInfo))
              (srv_SubPayChUpdates N (c_sessionID c) (oc_id chInfo));
      match err with
      | Some err => print (MsgCommandSendingError err)
      | None =>
          emit (CEvGo (GoPaymentNotifHandler chAlias (oc_id chInfo)));;
          print (MsgText "Subscribed to payment notifications on channel")
      end
  end.

Definition paymentUnsub (chAlias : string) : cprog unit :=
  c ← get_state;
  match openChannelsMap c !! chAlias with
  | None => print (MsgUnknownChannelAlias chAlias (openChannelsList c))
  | Some chInfo =>
      resp ← ccall (UnsubPayChUpdatesReq (c_sessionID c) (oc_id chInfo))
               (srv_UnsubPayChUpdates N (c_sessionID c) (oc_id chInfo));
      on_success resp "Error unsubscribing from payment notifications" tt (λ _,
        print (MsgText "Unsubscribed from payment notifications for channel"))
  end.

Definition getChannelInfo (chAlias : string) : cprog (option pb_PayChInfo) :=
  c ← get_state;
  match openChannelsMap c !! chAlias with
  | None => print (MsgUnknownChannelAlias chAlias (openChannelsList c));; mret None
  | Some chInfo =>
      resp ← ccall (GetPayChInfoReq (c_sessionID c) (oc_id chInfo))
               (srv_GetPayChInfo N (c_sessionID c) (oc_id chInfo));
      on_success resp "Error getting channel info" None (λ info, mret (Some info))
  end.

(** A channel that has been opened gets an alias, is shown and subscribed to. *)
Definition openedChannel (what : string) (info : pb_PayChInfo) : cprog unit :=
  chAlias ← addOpenChannelID (pb_ChID info) (findPeerAlias (pb_Parts (pb_BalInfo_ info)));
  pretty ← lift (prettifyPayChInfo (Some info));
  print (MsgChannel what chAlias pretty);;
  paymentSub chAlias.

(** ** Sessions (session.go) *)
Fixpoint restoreChannels (l : list pb_PayChInfo) : cprog unit :=
  match l with
  | [] => mret tt
  | info :: l => openedChannel "Channel restored" info;; restoreChannels l
  end.

Definition sessionOpenFn (args : list string) : cprog unit :=
  if_connected (if_args 1 args (
    match args with
    | [configFile] =>
        resp ← ccall (OpenSessionReq configFile) (srv_OpenSession N configFile);
        on_success resp "Error opening session" tt (λ msg,
          modify (set_sessionID msg.1);;
          print (MsgText "Session opened.");;
          restoreChannels msg.2;;
          channelSub)
    | _ => mret tt
    end)).

Fixpoint persistedChannels (l : list pb_PayChInfo) : cprog unit :=
  match l with
  | [] => mret tt
  | info :: l =>
      c ← get_state;
      pretty ← lift (prettifyPayChInfo (Some info));
      print (MsgChannel "Channel persisted" (default "" (openChannelsRevMap c !! pb_ChID info)) pretty);;
      persistedChannels l
  end.

Definition sessionCloseFn (args : list string) : cprog unit :=
  if_connected (if_args 1 args (
    channelUnsub;;
    match args with
    | [opt] =>
        if decide (opt ≠ "force" ∧ opt ≠ "no-force")
        then print (MsgText "Parameter should be one of these values: force, no-force")
        else
          let force := bool_decide (opt = "force") in
          c ← get_state;
          resp ← ccall (CloseSessionReq (c_sessionID c) force) (srv_CloseSession N (c_sessionID c) force);
          match resp with
          | inr err => print (MsgCommandSendingError err)
          | inl (inr msgErr) => channelSub;; print (MsgApiError "Error closing session" msgErr)
          | inl (inl openChs) =>
              resetLocalCache;;
              print (MsgText ("Session closed. ID: " +:+ c_sessionID c));;
              if force then persistedChannels openChs else mret tt
          end
    | _ => mret tt
    end)).

(** ** Channels (channel.go) *)
Definition channelSendFn (args : list string) : cprog unit :=
  if_connected (if_args 3 args (
    match args with
    | [peer; own; peers] =>
        c ← get_state;
        let bi := mkPbBalInfo [ETHSymbol] [OwnAlias; peer] [[own; peers]] in
        resp ← ccall (OpenPayChReq (c_sessionID c) bi 10) (srv_OpenPayCh N (c_sessionID c) bi 10);
        on_success resp "Error opening channel" tt (openedChannel "Channel opened")
    | _ => mret tt
    end)).

Definition channelSubFn (args : list string) : cprog unit := if_connected (if_args 0 args channelSub).
Definition channelUnsubFn (args : list string) : cprog unit := if_connected (if_args 0 args channelUnsub).

(** Accepting and rejecting; the request is forgotten in any case ([defer]). *)
Definition channelRespond (args : list string) (accept : bool) (k : pb_PayChInfo → cprog unit) : cprog unit :=
  if_connected (if_args 1 args (
    match args with
    | [alias] =>
        c ← get_state;
        match channelNotifMap c !! alias with
        | None => print (MsgUnknownChNotif alias (channelNotifList c))
        | Some notif =>
            resp ← ccall (RespondPayChProposalReq (c_sessionID c) (pbp_ProposalID notif) accept)
                     (srv_RespondPayChProposal N (c_sessionID c) (pbp_ProposalID notif) accept);
            on_success resp "Error responding accept to channel opening request" tt k;;
            removeChannelNotif alias
        end
    | _ => mret tt
    end)).
Definition channelAcceptFn (args : list string) : cprog unit :=
  channelRespond args true (openedChannel "Channel opened").
Definition channelRejectFn (args : list string) : cprog unit :=
  channelRespond args false (λ _, print (MsgText "Channel proposal rejected successfully.")).

Definition chCloseNSettleFn (args : list string) : cprog unit :=
  if_connected (if_args 1 args (
    match args with
    | [alias] =>
        c ← get_state;
        match openChannelsMap c !! alias with
        | None => print (MsgUnknownChannelAlias alias (openChannelsList c))
        | Some chInfo =>
            resp ← ccall (ClosePayChReq (c_sessionID c) (oc_id chInfo))
                     (srv_ClosePayCh N (c_sessionID c) (oc_id chInfo));
            on_success resp "Error closing channel update" tt (λ info,
              pretty ← lift (prettifyPayChInfo (Some info));
              print (MsgChannel "Channel closed" alias pretty);;
              removeOpenChannelID alias)
        end
    | _ => mret tt
    end)).

Definition showRequest (what : string) (nodeTime : Z) (x : string * pb_ProposalNotify) : cprog unit :=
  pretty ← lift (prettifyChannelOpeningRequest x.2);
  print (MsgChannelRequest what x.1 pretty (int64 (pbp_Expiry x.2 - nodeTime))).

(** The order in which a map is ranged over is not specified. *)
Fixpoint showRequests (what : string) (nodeTime : Z) (l : list (string * pb_ProposalNotify)) : cprog unit :=
  match l with
  | [] => mret tt
  | x :: l => showRequest what nodeTime x;; showRequests what nodeTime l
  end.
Definition channelPendingFn (args : list string) : cprog unit :=
  if_connected (if_args 0 args (
    t ← getNodeTime;
    match t with
    | inr err => print (MsgCommandSendingError err)
    | inl nodeTime => c ← get_state; showRequests "Notification" nodeTime (map_to_list (channelNotifMap c))
    end)).

Definition showChannel (alias : string) : cprog unit :=
  info ← getChannelInfo alias;
  pretty ← lift (prettifyPayChInfo info);
  print (MsgChannel "Channel Info" alias pretty).
Fixpoint showChannels (l : list string) : cprog unit :=
  match l with [] => mret tt | alias :: l => showChannel alias;; showChannels l end.
Definition channelListOpenFn (args : list string) : cprog unit :=
  if_connected (if_args 0 args (c ← get_state; showChannels (openChannelsList c))).
Definition channelInfoFn (args : list string) : cprog unit :=
  if_connected (if_args 1 args (match args with [alias] => showChannel alias | _ => mret tt end)).

(** One notification of an opening request: whether the handler goes on. *)
Definition channelNotif (notif : pb_ProposalNotify) : cprog bool :=
  alias ← addChannelNotif notif;
  t ← getNodeTime;
  match t with
  | inr err => print (MsgCommandSendingError err);; mret false
  | inl nodeTime => showRequest "Channel opening request" nodeTime (alias, notif);; mret true
  end.
Fixpoint channelNotifHandler (sub : list (pb_ProposalNotify + pb_MsgError)) (err : option goerror)
    : cprog unit :=
  match sub with
  | [] =>
      print (match err with
             | None => MsgText "Channel opening request subscription closed."
             | Some err => MsgError "Error receiving channel opening request notification" err
             end)
  | inr msgErr :: _ => print (MsgApiError "Error received in channel opening request notification" msgErr)
  | inl notif :: sub =>
      continue ← channelNotif notif;
      if continue : bool then channelNotifHandler sub err else mret tt
  end.

(** ** Payments (payment.go) *)
Definition paymentTo (what : string) (payee : openChannelInfo → string) (args : list string) : cprog unit :=
  if_connected (if_args 2 args (
    match args with
    | [alias; amount] =>
        c ← get_state;
        match openChannelsMap c !! alias with
        | None => print (MsgUnknownChannelAlias alias (openChannelsList c))
        | Some chInfo =>
            let payments := [mkPbPayment ETHSymbol (payee chInfo) amount] in
            resp ← ccall (SendPayChUpdateReq (c_sessionID c) (oc_id chInfo) payments)
                     (srv_SendPayChUpdate N (c_sessionID c) (oc_id chInfo) payments);
            on_success resp ("Error: " +:+ what) tt (λ info,
              c ← get_state;
              pretty ← lift (prettifyPayChInfo (Some info));
              print (MsgChannel what (default "" (openChannelsRevMap c !! pb_ChID info)) pretty))
        end
    | _ => mret tt
    end)).
Definition paymentSendFn (args : list string) : cprog unit :=
  paymentTo "Payment sent to peer" oc_peerAlias args.
Definition paymentRequestFn (args : list string) : cprog unit :=
  paymentTo "Payment request accepted by peer" (λ _, OwnAlias) args.

Definition paymentSubFn (args : list string) : cprog unit :=
  if_connected (if_args 1 args (match args with [alias] => paymentSub alias | _ => mret tt end)).
Definition paymentUnsubFn (args : list string) : cprog unit :=
  if_connected (if_args 1 args (match args with [alias] => paymentUnsub alias | _ => mret tt end)).

(** Answering the latest payment; without one, a message is printed and the
    request is sent all the same. *)
Definition paymentRespond (args : list string) (accept : bool) (k : openChannelInfo → pb_PayChInfo → cprog unit)
    : cprog unit :=
  if_connected (if_args 1 args (
    match args with
    | [alias] =>
        c ← get_state;
        match openChannelsMap c !! alias with
        | None => print (MsgUnknownChannelAlias alias (openChannelsList c))
        | Some chInfo =>
            (if decide (latestPaymentNotifID chInfo = "") then print (MsgNoPaymentNotif alias) else mret tt);;
            resp ← ccall (RespondPayChUpdateReq (c_sessionID c) (oc_id chInfo) (latestPaymentNotifID chInfo) accept)
                     (srv_RespondPayChUpdate N (c_sessionID c) (oc_id chInfo) (latestPaymentNotifID chInfo) accept);
            on_success resp "Error responding to payment channel update" tt (λ info,
              k chInfo info;; set_latest alias "")
        end
    | _ => mret tt
    end)).
Definition paymentAccept (args : list string) : cprog unit :=
  paymentRespond args true (λ chInfo info,
    c ← get_state;
    pretty ← lift (prettifyPayChInfo (Some info));
    print (MsgChannel "Payment channel updated." (default "" (openChannelsRevMap c !! oc_id chInfo)) pretty)).
Definition paymentReject (args : list string) : cprog unit :=
  paymentRespond args false (λ _ _, print (MsgText "Payment channel update rejected successfully.")).

(** Notifications of payments: [handleUpdateTypeOpenNotif] and
    [handleUpdateTypeFinalNotif] differ in the text only. *)
Definition handlePaymentNotif (what chAlias : string) (notif : pb_UpdateNotify) (nodeTime : Z) : cprog unit :=
  curr ← getChannelInfo chAlias;
  print (MsgText what);;
  curr ← lift (go_deref curr);
  current ← lift (prettifyBalanceInfo (pb_BalInfo_ curr) (pb_Version curr));
  let p := pbu_ProposedPayChInfo notif in
  proposed ← lift (prettifyBalanceInfo (pb_BalInfo_ p) (pb_Version p));
  print (MsgPaymentRequest what chAlias current proposed (int64 (pbu_Expiry notif - nodeTime)));;
  c ← get_state;
  chInfo ← lift (go_deref (openChannelsMap c !! chAlias));
  (if decide (latestPaymentNotifID chInfo ≠ "")
   then print (MsgText "Dropping older (now obselete) notification received on this channel.") else mret tt);;
  set_latest chAlias (pbu_UpdateID notif).
Definition handleUpdateTypeOpenNotif := handlePaymentNotif "Payment notification".
Definition handleUpdateTypeFinalNotif := handlePaymentNotif "Finalizing payment notification".

Definition handleUpdateTypeClosedNotif (chAlias : string) (notif : pb_UpdateNotify) : cprog unit :=
  let p := pbu_ProposedPayChInfo notif in
  print (MsgText "Payment channel close notification");;
  pretty ← lift (prettifyBalanceInfo (pb_BalInfo_ p) (pb_Version p));
  print (MsgChannel "Payment channel close notification" chAlias pretty);;
  (match pbu_Error notif with
   | None => mret tt
   | Some err => print (MsgApiError "Error settling the state" err)
   end);;
  removeOpenChannelID chAlias.

(** One message: whether the handler goes on. *)
Definition paymentNotif (chAlias : string) (notif : pb_UpdateNotify) : cprog bool :=
  t ← getNodeTime;
  match t with
  | inr err => print (MsgCommandSendingError err);; mret false
  | inl nodeTime =>
      (if decide (pbu_Type notif = 0) then handleUpdateTypeOpenNotif chAlias notif nodeTime
       else if decide (pbu_Type notif = 1) then handleUpdateTypeFinalNotif chAlias notif nodeTime
       else if decide (pbu_Type notif = 2) then handleUpdateTypeClosedNotif chAlias notif
       else mret tt);;
      mret true
  end.
Fixpoint paymentNotifHandler (chAlias : string) (sub : list (pb_UpdateNotify + pb_MsgError))
    (err : option goerror) : cprog unit :=
  match sub with
  | [] =>
      print (match err with
             | None => MsgText "Subscription to payment channel notifications closed"
             | Some err => MsgError "Error receiving channel update notification" err
             end)
  | inr msgErr :: _ => print (MsgApiError "Error message received in update notification" msgErr)
  | inl notif :: sub =>
      continue ← paymentNotif chAlias notif;
      if continue : bool then paymentNotifHandler chAlias sub err else mret tt
  end.
End commands.

(** ** Dispatch: the commands of the shell *)
Inductive Command :=
| NodeConnect (dialErr : option goerror) | NodeTime | NodeConfig
| PeerIDAdd | PeerIDGet | SetChainAddr | GetChainAddr | GetOnChainBalance
| SessionOpen | SessionClose
| ChannelSend | ChannelSub | ChannelUnsub | ChannelAccept | ChannelReject | ChannelCloseNSettle
| ChannelPending | ChannelListOpen | ChannelInfo
| PaymentSend | PaymentRequest | PaymentSub | PaymentUnsub | PaymentAccept | PaymentReject.

Definition command (N : NodeServer) (cmd : Command) : list string → cprog unit :=
  match cmd with
  | NodeConnect dialErr => nodeConnectFn N dialErr
  | NodeTime => nodeTimeFn N
  | NodeConfig => nodeConfigFn N
  | PeerIDAdd => peerIDAddFn N
  | PeerIDGet => peerIDGetFn N
  | SetChainAddr => setChainAddrFn
  | GetChainAddr => getChainAddrFn
  | GetOnChainBalance => getOnChainBalanceFn
  | SessionOpen => sessionOpenFn N
  | SessionClose => sessionCloseFn N
  | ChannelSend => channelSendFn N
  | ChannelSub => channelSubFn N
  | ChannelUnsub => channelUnsubFn N
  | ChannelAccept => channelAcceptFn N
  | ChannelReject => channelRejectFn N
  | ChannelCloseNSettle => chCloseNSettleFn N
  | ChannelPending => channelPendingFn N
  | ChannelListOpen => channelListOpenFn N
  | ChannelInfo => channelInfoFn N
  | PaymentSend => paymentSendFn N
  | PaymentRequest => paymentRequestFn N
  | PaymentSub => paymentSubFn N
  | PaymentUnsub => paymentUnsubFn N
  | PaymentAccept => paymentAccept N
  | PaymentReject => paymentReject N
  end.
End cli.
Arguments cprog {_} _.
