(* ===== verification/CliProps.v ===== *)
(** * What the command line client does (cmd/perunnodecli)

    The aliases given to channels and opening requests over any sequence of
    commands and notifications; removing an alias; and commands that name a channel
    the client does not know. *)
From Stdlib Require Import Strings.Ascii Decimal DecimalString DecimalZ.
From S2P Require Import Prelude Perun Errors Currency Contracts Grpc PbClient TuiText Cli.
Local Open Scope Z_scope.

(** ** Removing an alias from a list *)
Lemma swap_remove_none x l : x ∉ l → swap_remove x l = l.
Proof.
  intros Hx. unfold swap_remove. destruct (list_find (x =.) l) as [[i y]|] eqn:E; [|done].
  apply list_find_Some in E as (Hi & <- & _). destruct Hx. by eapply list_elem_of_lookup_2.
Qed.

Lemma swap_remove_perm x l : x ∈ l → x :: swap_remove x l ≡ₚ l.
Proof.
  intros Hx. unfold swap_remove. destruct (list_find (x =.) l) as [[i y]|] eqn:E.
  2:{ apply list_find_None in E. rewrite Forall_forall in E. by destruct (E x Hx). }
  apply list_find_Some in E as (Hi & <- & _).
  destruct l as [|z l _] using rev_ind; [done|]. rewrite last_snoc, length_app. cbn.
  replace (length l + 1 - 1)%nat with (length l) by lia.
  apply lookup_snoc_Some in Hi as [[Hlt Hi]|[-> ->]].
  - rewrite insert_app_l by done. rewrite take_app_length' by by rewrite length_insert.
    destruct (list_elem_of_split_length l i x Hi) as (l1 & l2 & -> & ->).
    rewrite (insert_app_r_alt l1 (x :: l2)) by lia. rewrite Nat.sub_diag. cbn.
    rewrite <-app_assoc. cbn.
    rewrite <-(Permutation_middle l1 (l2 ++ [z]) x). f_equiv. f_equiv.
    by rewrite (Permutation_app_comm l2 [z]).
  - rewrite insert_app_r_alt by lia. rewrite Nat.sub_diag. cbn. rewrite take_app_length.
    by rewrite Permutation_cons_append.
Qed.

Lemma filter_ne_id x (l : list string) : x ∉ l → filter (.≠ x) l = l.
Proof.
  induction l as [|y l IH]; [done|]. intros [Hy Hl]%not_elem_of_cons.
  rewrite filter_cons_True by congruence. by rewrite IH.
Qed.

Lemma swap_remove_filter x l : NoDup l → swap_remove x l ≡ₚ filter (.≠ x) l.
Proof.
  intros Hnd. destruct (decide (x ∈ l)) as [Hx|Hx].
  - pose proof (swap_remove_perm x l Hx) as Hp.
    assert (Hnd' : NoDup (x :: swap_remove x l)) by (by rewrite Hp).
    apply NoDup_cons in Hnd' as [Hx' _]. trans (filter (.≠ x) (x :: swap_remove x l)).
    + rewrite filter_cons_False by auto. by rewrite filter_ne_id.
    + by f_equiv.
  - by rewrite swap_remove_none, filter_ne_id.
Qed.

(** Removing an alias by moving the last one to its place leaves, up to their
    order, exactly the other aliases; an unknown alias changes nothing. *)
Theorem swap_remove_spec x l :
  NoDup l → swap_remove x l ≡ₚ filter (.≠ x) l ∧ NoDup (swap_remove x l) ∧ (x ∉ l → swap_remove x l = l).
Proof.
  intros Hnd. pose proof (swap_remove_filter x l Hnd) as Hp. split_and!; [done| |apply swap_remove_none].
  rewrite Hp. by apply NoDup_filter.
Qed.

Lemma elem_of_swap_remove x l y : NoDup l → y ∈ swap_remove x l ↔ y ∈ l ∧ y ≠ x.
Proof. intros Hnd. rewrite (swap_remove_filter x l Hnd), list_elem_of_filter. tauto. Qed.
Lemma NoDup_swap_remove x l : NoDup l → NoDup (swap_remove x l).
Proof. intros Hnd. rewrite (swap_remove_filter x l Hnd). by apply NoDup_filter. Qed.

(** ** Aliases are numbered, so they do not repeat *)
Lemma uint_no_underscore u : contains_char "_" (NilZero.string_of_uint u) = false.
Proof.
  assert (H : ∀ u, contains_char "_" (NilEmpty.string_of_uint u) = false) by (by induction u0).
  destruct u; [done|exact (H _)..].
Qed.
Lemma Itoa_no_underscore n : 0 ≤ n → contains_char "_" (Itoa n) = false.
Proof.
  intros Hn. unfold Itoa. destruct n; [done|apply (uint_no_underscore (Pos.to_uint p))|lia].
Qed.

Lemma underscore_inj a b x y :
  contains_char "_" a = false → contains_char "_" b = false →
  a +:+ "_" +:+ x = b +:+ "_" +:+ y → a = b.
Proof.
  revert b. induction a as [|c a IH]; intros [|d b]; cbn; [done|..].
  - intros _ [Hd _]%orb_false_elim [= <- _]. done.
  - intros [Hc _]%orb_false_elim _ [= -> _]. done.
  - intros [_ Ha]%orb_false_elim [_ Hb]%orb_false_elim [= -> E]. f_equal. by apply IH.
Qed.

Lemma Itoa_inj `{GoTypes} n m : is_int64 n → is_int64 m → Itoa n = Itoa m → n = m.
Proof.
  intros Hn Hm E. pose proof (Atoi_Itoa n Hn) as H1. rewrite E, (Atoi_Itoa m Hm) in H1. congruence.
Qed.

(** An alias determines its number. *)
Definition numbered (pre : string) (n : Z) (alias : string) : Prop :=
  ∃ k peer, alias = pre +:+ Itoa k +:+ "_" +:+ peer ∧ 1 ≤ k ≤ n.

Lemma numbered_fresh `{GoTypes} pre n peer :
  0 ≤ n < two63 - 1 → ¬ numbered pre n (pre +:+ Itoa (n + 1) +:+ "_" +:+ peer).
Proof.
  intros Hn (k & q & E & Hk). apply (inj (String.append pre)) in E.
  apply underscore_inj in E; [|apply Itoa_no_underscore; lia..].
  apply Itoa_inj in E; [lia|unfold is_int64, two63 in *; lia..].
Qed.
Lemma numbered_mono pre n m alias : n ≤ m → numbered pre n alias → numbered pre m alias.
Proof. intros Hle (k & q & -> & Hk). exists k, q. split; [done|lia]. Qed.

(** The aliases of one kind: the list completions are made of and the map agree,
    nothing is listed twice, and every alias has a number given out already. *)
Record aliases {A} (pre : string) (n : Z) (l : list string) (m : gmap string A) : Prop := {
  al_nodup : NoDup l;
  al_map alias : alias ∈ l ↔ is_Some (m !! alias);
  al_number alias : alias ∈ l → numbered pre n alias;
  al_count : 0 ≤ n;
}.

Section aliases.
Context {A : Type}.
Implicit Types (l : list string) (m : gmap string A).

Lemma aliases_empty pre : aliases (A := A) pre 0 [] ∅.
Proof.
  split; [constructor| |by intros ? ?%not_elem_of_nil|done].
  intros alias. rewrite lookup_empty. split; [by intros ?%not_elem_of_nil|by intros [? [=]]].
Qed.
Lemma aliases_add `{GoTypes} pre n l m peer x :
  aliases pre n l m → n < two63 - 1 →
  let alias := pre +:+ Itoa (n + 1) +:+ "_" +:+ peer in
  aliases pre (n + 1) (l ++ [alias]) (<[alias := x]> m).
Proof.
  intros [Hnd Hm Hnum Hn] Hlt alias.
  assert (Hfresh : alias ∉ l) by (intros Hin%Hnum; by apply numbered_fresh in Hin).
  split; [|intros a|intros a|lia].
  - apply NoDup_app. split_and!; [done| |apply NoDup_singleton]. intros a Ha ->%list_elem_of_singleton. done.
  - rewrite elem_of_app, list_elem_of_singleton, Hm. destruct (decide (alias = a)) as [<-|Hne].
    + rewrite lookup_insert_eq. split; [by eauto|by right].
    + rewrite lookup_insert_ne by done. split; [intros [?| <-]; [done|by destruct Hne]|by left].
  - rewrite elem_of_app, list_elem_of_singleton. intros [Ha| ->].
    + eapply numbered_mono; [|by apply Hnum]. lia.
    + exists (n + 1), peer. split; [done|lia].
Qed.
Lemma aliases_remove pre n l m alias :
  aliases pre n l m → aliases pre n (swap_remove alias l) (delete alias m).
Proof.
  intros [Hnd Hm Hnum Hn]. split; [by apply NoDup_swap_remove|intros a|intros a|done].
  - rewrite elem_of_swap_remove, Hm by done. destruct (decide (alias = a)) as [<-|Hne].
    + rewrite lookup_delete_eq. split; [intros [_ Hn0]; by destruct Hn0|by intros [? [=]]].
    + rewrite lookup_delete_ne by done. naive_solver.
  - rewrite elem_of_swap_remove by done. intros [Ha _]. by apply Hnum.
Qed.
Lemma aliases_alter pre n l m alias f : aliases pre n l m → aliases pre n l (alter f alias m).
Proof.
  intros [Hnd Hm Hnum Hn]. split; [done|intros a|done|done]. rewrite Hm.
  destruct (decide (alias = a)) as [<-|Hne].
  - rewrite lookup_alter_eq. by destruct (m !! alias); split; intros [? [=]]; eauto.
  - by rewrite lookup_alter_ne.
Qed.
End aliases.

Section cli_props.
Context {GT : GoTypes} {DL : DecimalLib} {EL : EthLib}.
Implicit Types c : cli.

(** [uniq] says that the node gives no new channel the ID of one that is open. *)
Context (uniq : bool).

(** A well-formed client; [B] bounds the numbers given out.  An ID never leads to the
    alias of a channel with another ID. *)
Record wf_cli (B : Z) c : Prop := {
  wc_channels : aliases "ch_" (openChannelsCounter c) (openChannelsList c) (openChannelsMap c);
  wc_requests : aliases "request_" (channelNotifCounter c) (channelNotifList c) (channelNotifMap c);
  wc_rev id alias : openChannelsRevMap c !! id = Some alias →
    numbered "ch_" (openChannelsCounter c) alias ∧
    ∀ info, openChannelsMap c !! alias = Some info → oc_id info = id;
  wc_ids alias info : openChannelsMap c !! alias = Some info → is_Some (openChannelsRevMap c !! oc_id info);
  wc_found alias info : uniq = true →
    openChannelsMap c !! alias = Some info → openChannelsRevMap c !! oc_id info = Some alias;
  wc_peers : NoDup (knownAliasesList c);
  wc_bound1 : openChannelsCounter c ≤ B;
  wc_bound2 : channelNotifCounter c ≤ B;
}.

Lemma wf_cli_mono B B' c : B ≤ B' → wf_cli B c → wf_cli B' c.
Proof. intros Hle []. split; try done; lia. Qed.

(** What keeps a client well formed without giving out numbers. *)
Local Abbreviation kept B := (invariant (S := cli) (E := CEvent) (wf_cli B)).

Lemma kept_removeOpenChannelID B alias : keeps (kept B) (removeOpenChannelID alias).
Proof.
  unfold removeOpenChannelID. intros c es c' x (es1 & c1 & c2 & es2 & [= <- <- <-] & [= <- <- _] & ->)%bind_ret.
  intros []. split; cbn; try done; [by apply aliases_remove|..].
  - intros id a Ha. destruct (wc_rev0 id a Ha) as [Hnum Hi]. split; [done|]. intros i [_ Ha2]%lookup_delete_Some. by apply Hi.
  - intros a i [_ H]%lookup_delete_Some. by eapply wc_ids0.
  - intros a i Hu [_ H]%lookup_delete_Some. by eapply wc_found0.
Qed.
Lemma kept_removeChannelNotif B alias : keeps (kept B) (removeChannelNotif alias).
Proof.
  unfold removeChannelNotif. intros c es c' x (es1 & c1 & c2 & es2 & [= <- <- <-] & [= <- <- _] & ->)%bind_ret.
  intros []. split; cbn; try done. by apply aliases_remove.
Qed.
Lemma kept_addPeerAlias B alias : keeps (kept B) (addPeerAlias alias).
Proof.
  unfold addPeerAlias. intros c es c' x (es1 & c1 & c2 & es2 & [= <- <- <-] & H & ->)%bind_ret.
  destruct (decide _) as [|Hn]; injection H as <- <- _; [by intros H|].
  intros []. split; cbn; try done. apply NoDup_app. split_and!; [done| |apply NoDup_singleton].
  by intros a Ha ->%list_elem_of_singleton.
Qed.
Lemma kept_set_latest B alias u : keeps (kept B) (set_latest alias u).
Proof.
  intros c es c' x [= <- <- _] [].
  assert (Hold : ∀ a i, alter (λ i, mkOpenChannelInfo (oc_id i) (oc_peerAlias i) u) alias (openChannelsMap c) !! a = Some i →
            ∃ i0, openChannelsMap c !! a = Some i0 ∧ oc_id i = oc_id i0).
  { intros a i. destruct (decide (alias = a)) as [<-|Hne].
    - rewrite lookup_alter_eq. destruct (openChannelsMap c !! alias) as [i0|]; [|done]. intros [= <-]. by exists i0.
    - rewrite lookup_alter_ne by done. eauto. }
  split; cbn; try done; [by apply aliases_alter|..].
  - intros id a Ha. destruct (wc_rev0 id a Ha) as [? Hi]. split; [done|].
    intros i (i0 & H0 & ->)%Hold. by apply Hi.
  - intros a i (i0 & H0 & ->)%Hold. by eapply wc_ids0.
  - intros a i Hu (i0 & H0 & ->)%Hold. by eapply wc_found0.
Qed.
Lemma kept_reset B : 0 ≤ B → keeps (kept B) resetLocalCache.
Proof.
  intros HB. unfold resetLocalCache. intros c es c' x.
  intros (? & ? & ? & ? & [= <- <- <-] & (? & ? & ? & ? & [= <- <- <-] & [= <- <- _] & ->)%bind_ret & ->)%bind_ret.
  intros []. split; cbn; try done; try apply aliases_empty. constructor.
Qed.
Lemma kept_frame B (f : cli → cli) :
  (∀ c, openChannelsCounter (f c) = openChannelsCounter c ∧ openChannelsList (f c) = openChannelsList c ∧
        openChannelsMap (f c) = openChannelsMap c ∧ openChannelsRevMap (f c) = openChannelsRevMap c ∧
        channelNotifCounter (f c) = channelNotifCounter c ∧ channelNotifList (f c) = channelNotifList c ∧
        channelNotifMap (f c) = channelNotifMap c ∧ knownAliasesList (f c) = knownAliasesList c) →
  keeps (kept B) (modify f : cprog unit).
Proof.
  intros Hf c es c' x [= <- <- _] []. destruct (Hf c) as (E1 & E2 & E3 & E4 & E5 & E6 & E7 & E8).
  split; rewrite ?E1, ?E2, ?E3, ?E4, ?E5, ?E6, ?E7, ?E8; done.
Qed.
Lemma kept_print B m : keeps (kept B) (print m).
Proof. intros c es c' x [= _ <- _] H. exact H. Qed.
Lemma kept_go B g : keeps (kept B) (emit (CEvGo g)).
Proof. intros c es c' x [= _ <- _] H. exact H. Qed.
Lemma kept_call {A} B r (x : A) : keeps (kept B) (ccall r x).
Proof. intros c es c' y [= _ <- _] H. exact H. Qed.
Hint Resolve kept_removeOpenChannelID kept_removeChannelNotif kept_addPeerAlias kept_set_latest kept_reset
  kept_print kept_go kept_call : keeps.
Hint Extern 1 (keeps _ (modify _)) => apply kept_frame; intros; by split_and! : keeps.

Lemma kept_on_success {A C} B (resp : rpc A) what (failed : C) k :
  (∀ x, keeps (kept B) (k x)) → keeps (kept B) (on_success resp what failed k).
Proof. intros Hk. unfold on_success. keeps_tac. Qed.
Hint Resolve kept_on_success : keeps.
Ltac kept_tac := repeat first [apply kept_on_success; intros | keeps_step].

(** The commands that give out no alias. *)
Lemma kept_if_connected B m : keeps (kept B) m → keeps (kept B) (if_connected m).
Proof. intros Hm. unfold if_connected. keeps_tac. Qed.
Lemma kept_if_args B n args m : keeps (kept B) m → keeps (kept B) (if_args n args m).
Proof. intros Hm. unfold if_args. keeps_tac. Qed.
Lemma kept_getNodeTime B N : keeps (kept B) (getNodeTime N).
Proof. unfold getNodeTime. kept_tac. Qed.
Lemma kept_channelSub B N : keeps (kept B) (channelSub N).
Proof. unfold channelSub. kept_tac. Qed.
Lemma kept_channelUnsub B N : keeps (kept B) (channelUnsub N).
Proof. unfold channelUnsub. kept_tac. Qed.
Lemma kept_paymentSub B N alias : keeps (kept B) (paymentSub N alias).
Proof. unfold paymentSub. kept_tac. Qed.
Lemma kept_paymentUnsub B N alias : keeps (kept B) (paymentUnsub N alias).
Proof. unfold paymentUnsub. kept_tac. Qed.
Lemma kept_getChannelInfo B N alias : keeps (kept B) (getChannelInfo N alias).
Proof. unfold getChannelInfo. kept_tac. Qed.
Hint Resolve kept_if_connected kept_if_args kept_getNodeTime kept_channelSub kept_channelUnsub
  kept_paymentSub kept_paymentUnsub kept_getChannelInfo : keeps.
Lemma kept_showRequest B what t x : keeps (kept B) (showRequest what t x).
Proof. unfold showRequest. kept_tac. Qed.
Lemma kept_showRequests B what t l : keeps (kept B) (showRequests what t l).
Proof. pose proof kept_showRequest. induction l; cbn; kept_tac. Qed.
Lemma kept_showChannel B N alias : keeps (kept B) (showChannel N alias).
Proof. unfold showChannel. kept_tac. Qed.
Lemma kept_showChannels B N l : keeps (kept B) (showChannels N l).
Proof. pose proof kept_showChannel. induction l; cbn; kept_tac. Qed.
Lemma kept_persistedChannels B l : keeps (kept B) (persistedChannels l).
Proof. induction l; cbn; kept_tac. Qed.
Lemma kept_paymentRespond B N args accept k :
  (∀ i x, keeps (kept B) (k i x)) → keeps (kept B) (paymentRespond N args accept k).
Proof. intros Hk. unfold paymentRespond. apply kept_if_connected, kept_if_args. kept_tac. Qed.
Lemma kept_paymentNotif B N alias notif : keeps (kept B) (paymentNotif N alias notif).
Proof.
  unfold paymentNotif, handleUpdateTypeOpenNotif, handleUpdateTypeFinalNotif, handlePaymentNotif,
    handleUpdateTypeClosedNotif. kept_tac.
Qed.
Hint Resolve kept_showRequest kept_showRequests kept_showChannel kept_showChannels kept_persistedChannels
  kept_paymentNotif : keeps.

Definition gives_alias (cmd : Command) : bool :=
  match cmd with SessionOpen | ChannelSend | ChannelAccept => true | _ => false end.

Lemma kept_command B N cmd args :
  0 ≤ B → gives_alias cmd = false → keeps (kept B) (command N cmd args).
Proof.
  intros HB Hg. destruct cmd; try discriminate; cbn [command];
    unfold nodeConnectFn, nodeTimeFn, nodeConfigFn, peerIDAddFn, peerIDGetFn, setChainAddrFn, getChainAddrFn,
      getOnChainBalanceFn, sessionCloseFn, channelSubFn, channelUnsubFn, channelRejectFn, channelRespond,
      chCloseNSettleFn, channelPendingFn, channelListOpenFn, channelInfoFn, paymentSendFn, paymentRequestFn,
      paymentTo, paymentSubFn, paymentUnsubFn, paymentAccept, paymentReject;
    try (apply kept_paymentRespond; intros); repeat first [apply kept_if_connected | apply kept_if_args]; kept_tac.
Qed.

(** The commands that do, and the incoming requests. *)
Lemma kept_wlp {A} B (m : cprog A) c Q :
  keeps (kept B) m → wf_cli B c → (∀ es c' x, wf_cli B c' → Q es c' x) → wlp m c Q.
Proof. intros Hm Hwf HQ es c' x Hr. eapply HQ, Hm; done. Qed.

Lemma counter_next n B : 0 ≤ n ≤ B → B < two63 - 1 → int64 (n + 1) = n + 1.
Proof. intros. apply int64_id. unfold is_int64, two63 in *. lia. Qed.

(** The IDs of the open channels. *)
Definition open_id c (id : string) : Prop := ∃ alias info, openChannelsMap c !! alias = Some info ∧ oc_id info = id.
Definition new_id c (id : string) : Prop := uniq = true → ¬ open_id c id.

Lemma addOpenChannelID_wf B id peer c :
  wf_cli B c → B < two63 - 1 → new_id c id →
  wlp (addOpenChannelID id peer) c (λ _ c' _, wf_cli (B + 1) c' ∧ ∀ id', open_id c' id' → id' = id ∨ open_id c id').
Proof.
  intros [] HB Hnew. apply wlp_bind, wlp_get_state. cbv zeta.
  rewrite (counter_next _ B) by (pose proof (al_count _ _ _ _ wc_channels0); lia).
  pose proof (al_count _ _ _ _ wc_channels0).
  set (alias := channel_alias (openChannelsCounter c + 1) peer).
  assert (Hfresh : ¬ numbered "ch_" (openChannelsCounter c) alias) by (apply numbered_fresh; lia).
  assert (Hnone : openChannelsMap c !! alias = None).
  { apply eq_None_not_Some. intros Hs%(al_map _ _ _ _ wc_channels0). by apply Hfresh, (al_number _ _ _ _ wc_channels0). }
  apply wlp_bind, wlp_modify, wlp_mret. split; [split; cbn; try done; try lia|].
  - apply aliases_add; [done|lia].
  - intros id' a [[<- <-]|[Hne Ha]]%lookup_insert_Some.
    + split; [exists (openChannelsCounter c + 1), peer; split; [done|lia]|].
      rewrite lookup_insert_eq. by intros i [= <-].
    + destruct (wc_rev0 id' a Ha) as [Hnum Hi]. split; [by eapply numbered_mono; [|exact Hnum]; lia|].
      rewrite lookup_insert_ne; [exact Hi|]. by intros <-.
  - intros a i [[_ <-]|[_ Ha]]%lookup_insert_Some; cbn; [rewrite lookup_insert_eq; by eauto|].
    apply wc_ids0 in Ha as [x Hx]. destruct (decide (id = oc_id i)) as [->|]; [rewrite lookup_insert_eq|
      rewrite lookup_insert_ne by done]; by eauto.
  - intros a i Hu [[<- <-]|[_ Ha]]%lookup_insert_Some; cbn; [by rewrite lookup_insert_eq|].
    rewrite lookup_insert_ne; [by apply wc_found0|]. intros ->. apply (Hnew Hu). by exists a, i.
  - intros id' (a & i & Ha & <-). cbn in Ha. apply lookup_insert_Some in Ha as [[_ <-]|[_ Ha]]; [by left|].
    right. by exists a, i.
Qed.
Lemma addChannelNotif_wf B notif c :
  wf_cli B c → B < two63 - 1 → wlp (addChannelNotif notif) c (λ _ c' _, wf_cli (B + 1) c').
Proof.
  intros [] HB. apply wlp_bind, wlp_get_state. cbv zeta.
  rewrite (counter_next _ B) by (pose proof (al_count _ _ _ _ wc_requests0); lia).
  apply wlp_bind, wlp_modify, wlp_mret. split; cbn; try done; try lia. apply aliases_add; [done|lia].
Qed.
(** What comes after an alias was given changes no table of channels. *)
Definition same_channels c (_ : list CEvent) c' : Prop := openChannelsMap c' = openChannelsMap c.
#[local] Instance same_channels_trace : TraceRel same_channels.
Proof. split; [done|]. intros c es c1 es' c2 H H'. unfold same_channels in *. congruence. Qed.
Hint Extern 0 (same_channels _ _ _) => reflexivity : keeps.
Lemma same_print m : keeps same_channels (print m).
Proof. unfold print. keeps_tac. Qed.
Lemma same_call {A} r' (x : A) : keeps same_channels (ccall r' x).
Proof. unfold ccall. keeps_tac. Qed.
Hint Resolve same_print same_call : keeps.
Lemma same_paymentSub N alias : keeps same_channels (paymentSub N alias).
Proof. unfold paymentSub. keeps_tac. Qed.
Hint Resolve same_paymentSub : keeps.

Lemma openedChannel_wf N what info B c :
  wf_cli B c → B < two63 - 1 → new_id c (pb_ChID info) →
  wlp (openedChannel N what info) c
    (λ _ c' _, wf_cli (B + 1) c' ∧ ∀ id, open_id c' id → id = pb_ChID info ∨ open_id c id).
Proof.
  intros Hwf HB Hnew. unfold openedChannel. apply wlp_bind.
  eapply wlp_mono; [by apply addOpenChannelID_wf|]. intros es c1 alias [Hwf1 Hids]. cbv beta.
  intros es' c2 [] Hr. split; [|unfold open_id in *].
  - revert Hr. apply (kept_wlp (B + 1) _ c1 (λ _ c2 _, wf_cli (B + 1) c2)); [keeps_tac|done|done].
  - assert (openChannelsMap c2 = openChannelsMap c1) as ->; [|exact Hids].
    revert Hr. match goal with |- ?m c1 = _ → _ => assert (Hk : keeps same_channels m) by keeps_tac end.
    apply (Hk c1).
Qed.

(** The IDs are all different, and none is that of an open channel. *)
Definition new_ids c (ids : list string) : Prop :=
  uniq = true → NoDup ids ∧ ∀ id, id ∈ ids → ¬ open_id c id.

Lemma restoreChannels_wf N l B c :
  wf_cli B c → B + Z.of_nat (length l) < two63 → new_ids c (pb_ChID <$> l) →
  wlp (restoreChannels N l) c (λ _ c' _, wf_cli (B + Z.of_nat (length l)) c').
Proof.
  revert B c. induction l as [|info l IH]; intros B c Hwf HB Hnew; cbn.
  - apply wlp_mret. by rewrite Z.add_0_r.
  - cbn in HB. apply wlp_bind. eapply wlp_mono; [apply openedChannel_wf; [done|lia|]|].
    { intros Hu. apply (Hnew Hu). by left. }
    intros es c1 [] [Hwf1 Hids]. cbv beta. eapply wlp_mono; [apply (IH (B + 1)); [done|lia|]|].
    { intros Hu. destruct (Hnew Hu) as [Hnd Hn]. cbn in Hnd. apply NoDup_cons in Hnd as [Hni Hnd].
      split; [done|]. intros id Hid [->|Ho]%Hids; [done|]. apply (Hn id); [by right|done]. }
    intros es' c2 [] Hwf2. cbv beta. by replace (B + Z.of_nat (S (length l))) with (B + 1 + Z.of_nat (length l)) by lia.
Qed.

(** A step: a command of the user, or a message of one of the two streams.  [names]
    is the number of aliases it can give out. *)
Inductive cop :=
| COp (N : NodeServer) (cmd : Command) (args : list string)
| CRequest (N : NodeServer) (notif : pb_ProposalNotify)
| CPayment (N : NodeServer) (chAlias : string) (notif : pb_UpdateNotify).
Definition run_cop (op : cop) : cprog unit :=
  match op with
  | COp N cmd args => command N cmd args
  | CRequest N notif => channelNotif N notif;; mret tt
  | CPayment N chAlias notif => paymentNotif N chAlias notif;; mret tt
  end.
Definition names (op : cop) : nat :=
  match op with
  | COp N SessionOpen [configFile] =>
      match srv_OpenSession N configFile with inl (inl (_, restored)) => length restored | _ => 0 end
  | COp _ (ChannelSend | ChannelAccept) _ => 1
  | CRequest _ _ => 1
  | _ => 0
  end.

(** The IDs of the channels the node says to have opened. *)
Definition opened_id (resp : rpc pb_PayChInfo) : list string :=
  match resp with inl (inl info) => [pb_ChID info] | _ => [] end.
Definition given_ids (op : cop) c : list string :=
  match op with
  | COp N SessionOpen [configFile] =>
      match srv_OpenSession N configFile with inl (inl (_, restored)) => pb_ChID <$> restored | _ => [] end
  | COp N ChannelSend [peer; own; peers] =>
      opened_id (srv_OpenPayCh N (c_sessionID c) (mkPbBalInfo [ETHSymbol] [OwnAlias; peer] [[own; peers]]) 10)
  | COp N ChannelAccept [alias] =>
      match channelNotifMap c !! alias with
      | Some notif => opened_id (srv_RespondPayChProposal N (c_sessionID c) (pbp_ProposalID notif) true)
      | None => []
      end
  | _ => []
  end.

Inductive crun : list cop → cli → list CEvent → cli → Prop :=
| crun_nil c : crun [] c [] c
| crun_cons op ops c es c1 es' c' :
    new_ids c (given_ids op c) → run_cop op c = (es, c1, Ret tt) → crun ops c1 es' c' → crun (op :: ops) c (es ++ es') c'.

Lemma wlp_if_connected m c Q :
  (c_client c = true → wlp m c Q) → Q [CEvPrint MsgNodeNotConnected] c tt → wlp (if_connected m) c Q.
Proof.
  intros H1 H2. apply wlp_bind, wlp_get_state. destruct (c_client c); [by apply H1|by apply wlp_emit].
Qed.
Lemma wlp_if_args n args m c Q :
  (length args = n → wlp m c Q) → Q [CEvPrint (MsgArgCount (length args) n)] c tt → wlp (if_args n args m) c Q.
Proof.
  intros H1 H2. unfold if_args. destruct (decide _) as [|Hn]; [by apply wlp_emit|].
  apply H1. destruct (decide (length args = n)); [done|by destruct Hn].
Qed.
(** A request whose answer is dealt with by [k]. *)
Lemma wlp_request {A} B r (resp : rpc A) what (k : A → cprog unit) c (P : cli → Prop) :
  wf_cli B c → (∀ c', wf_cli B c' → P c') → (∀ x, resp = inl (inl x) → wlp (k x) c (λ _ c' _, P c')) →
  wlp (x ← ccall r resp; on_success x what tt k) c (λ _ c' _, P c').
Proof.
  intros Hwf HP Hk. apply wlp_bind. intros es c1 x [= <- <- <-]. unfold on_success.
  destruct resp as [[x|e]|e]; [by apply Hk|..]; apply wlp_bind, wlp_emit, wlp_mret; by apply HP.
Qed.

Lemma sessionOpenFn_wf N args B c :
  wf_cli B c → B + Z.of_nat (names (COp N SessionOpen args)) < two63 →
  new_ids c (given_ids (COp N SessionOpen args) c) →
  wlp (sessionOpenFn N args) c (λ _ c' _, wf_cli (B + Z.of_nat (names (COp N SessionOpen args))) c').
Proof.
  intros Hwf HB Hnew. assert (Hmono : ∀ c', wf_cli B c' → wf_cli (B + Z.of_nat (names (COp N SessionOpen args))) c')
    by (intros c'; apply wf_cli_mono; lia).
  apply wlp_if_connected; [intros _|by apply Hmono]. apply wlp_if_args; [|by apply Hmono].
  destruct args as [|configFile [|]]; [done| |done]. intros _. eapply wlp_request; [done..|].
  intros [sid restored] Hresp. cbn [names given_ids] in *. rewrite Hresp in *.
  apply wlp_bind, wlp_modify. cbv beta.
  assert (Hwf1 : wf_cli B (set_sessionID sid c)) by (by destruct Hwf; split).
  apply wlp_bind, wlp_emit. cbv beta.
  apply wlp_bind. eapply wlp_mono; [by apply (restoreChannels_wf N restored B)|]. intros es3 c3 [] Hwf3. cbv beta.
  eapply kept_wlp; [apply kept_channelSub|done|done].
Qed.

Lemma cop_wf op B c :
  wf_cli B c → B + Z.of_nat (names op) < two63 → new_ids c (given_ids op c) →
  wlp (run_cop op) c (λ _ c' _, wf_cli (B + Z.of_nat (names op)) c').
Proof.
  intros Hwf HB Hnew. assert (Hmono : ∀ c', wf_cli B c' → wf_cli (B + Z.of_nat (names op)) c')
    by (intros c'; apply wf_cli_mono; lia).
  pose proof (Z.le_trans _ _ _ (al_count _ _ _ _ (wc_channels _ _ Hwf)) (wc_bound1 _ _ Hwf)) as HB0.
  destruct op as [N cmd args|N notif|N chAlias notif]; cbn [run_cop].
  - destruct (gives_alias cmd) eqn:Hg.
    2:{ eapply (kept_wlp B); [by apply kept_command|done|auto]. }
    destruct cmd; try discriminate; cbn [command].
    + by apply sessionOpenFn_wf.
    + apply wlp_if_connected; [intros _|by apply Hmono]. apply wlp_if_args; [|by apply Hmono].
      destruct args as [|peer [|own [|peers [|]]]]; try done. intros _.
      apply wlp_bind, wlp_get_state. eapply wlp_request; [done..|]. intros info Hresp.
      eapply wlp_mono; [apply openedChannel_wf; [done|cbn in HB; lia|]|by intros ??? [? _]].
      intros Hu. apply (Hnew Hu). cbn. rewrite Hresp. by left.
    + apply wlp_if_connected; [intros _|by apply Hmono]. apply wlp_if_args; [|by apply Hmono].
      destruct args as [|alias [|]]; try done. intros _. apply wlp_bind, wlp_get_state.
      destruct (channelNotifMap c !! alias) as [notif|] eqn:En; [|apply wlp_emit; by apply Hmono].
      apply wlp_bind. intros es c1 resp [= <- <- <-]. apply wlp_bind.
      match goal with |- wlp (on_success ?r _ _ _) _ _ =>
        assert (Hs : wlp (on_success r "Error responding accept to channel opening request" tt
                  (openedChannel N "Channel opened")) c (λ _ c' _, wf_cli (B + 1) c')) end.
      { unfold on_success. destruct (srv_RespondPayChProposal N _ _ _) as [[x|e]|e] eqn:Er.
        { eapply wlp_mono; [apply openedChannel_wf; [done|cbn in HB; lia|]|by intros ??? [? _]].
          intros Hu. apply (Hnew Hu). cbn. rewrite En, Er. by left. }
        all: apply wlp_bind, wlp_emit, wlp_mret; by apply Hmono. }
      eapply wlp_mono; [exact Hs|]. intros es2 c2 [] Hwf2. cbv beta.
      eapply kept_wlp; [apply kept_removeChannelNotif|exact Hwf2|done].
  - apply wlp_bind. unfold channelNotif. apply wlp_bind.
    eapply wlp_mono; [apply addChannelNotif_wf; [done|cbn in HB; lia]|]. intros es c1 alias Hwf1. cbv beta.
    eapply (kept_wlp (B + 1)); [keeps_tac|done|]. intros. by apply wlp_mret.
  - apply wlp_bind. eapply (kept_wlp B); [apply kept_paymentNotif|done|]. intros. apply wlp_mret. by apply Hmono.
Qed.

(** C35: Over any sequence of commands and notifications, as long as fewer than 2^63
    aliases are given out: the list that completes the aliases of open channels has
    no repetition and names exactly the channels of the map, likewise for opening
    requests; an alias is never given to a second channel of the session while the
    first has it (the number of a new one is larger than all in use); no peer is
    listed twice; and an ID leads to the alias of an open channel only if this is
    the ID of that channel.  As long as the node gives no new channel the ID of one
    that is open ([uniq]), the ID of an open channel leads to its alias and no
    other. *)
Theorem aliases_invariant ops B c es c' :
  wf_cli B c → crun ops c es c' → B + Z.of_nat (sum_list (names <$> ops)) < two63 →
  wf_cli (B + Z.of_nat (sum_list (names <$> ops))) c' ∧
  (∀ peer, channel_alias (openChannelsCounter c' + 1) peer ∉ openChannelsList c' ∨
           openChannelsCounter c' = two63 - 1) ∧
  (∀ alias info id, openChannelsMap c' !! alias = Some info →
     (openChannelsRevMap c' !! id = Some alias → oc_id info = id) ∧
     (uniq = true → oc_id info = id → openChannelsRevMap c' !! id = Some alias)).
Proof.
  intros Hwf Hr HB.
  assert (Hwf' : wf_cli (B + Z.of_nat (sum_list (names <$> ops))) c').
  { revert B Hwf HB. induction Hr as [c|op ops c es c1 es' c' Hok Hop Hr IH]; intros B Hwf HB; cbn in *.
    - by rewrite Z.add_0_r.
    - apply (cop_wf op B c Hwf) in Hop; [|lia|done]. eapply wf_cli_mono; [|apply (IH _ Hop)]; lia. }
  split_and!; [done|..].
  - intros peer. destruct (decide (openChannelsCounter c' = two63 - 1)) as [|Hne]; [by right|left].
    intros Hin%(al_number _ _ _ _ (wc_channels _ _ Hwf')). apply numbered_fresh in Hin; [done|].
    pose proof (al_count _ _ _ _ (wc_channels _ _ Hwf')). pose proof (wc_bound1 _ _ Hwf'). lia.
  - intros alias info id Ha. split.
    + intros Hid. by apply (wc_rev _ _ Hwf' id alias Hid).
    + intros Hu <-. by apply (wc_found _ _ Hwf').
Qed.

(** Naming a channel the client does not know -- mistyped, or closed meanwhile.
    Payments, subscriptions, answers and closing report it and change nothing;
    asking for its information crashes the client, and so does a notification of a
    payment on it. *)
Theorem unknown_alias N alias amount accept k c :
  c_client c = true → openChannelsMap c !! alias = None →
  let unknown := CEvPrint (MsgUnknownChannelAlias alias (openChannelsList c)) in
  paymentSendFn N [alias; amount] c = ([unknown], c, Ret tt) ∧
  paymentRequestFn N [alias; amount] c = ([unknown], c, Ret tt) ∧
  paymentSubFn N [alias] c = ([unknown], c, Ret tt) ∧
  paymentUnsubFn N [alias] c = ([unknown], c, Ret tt) ∧
  paymentRespond N [alias] accept k c = ([unknown], c, Ret tt) ∧
  chCloseNSettleFn N [alias] c = ([unknown], c, Ret tt) ∧
  channelInfoFn N [alias] c = ([unknown], c, Panic "nil pointer dereference") ∧
  ∀ what notif now,
    handlePaymentNotif N what alias notif now c =
      ([unknown; CEvPrint (MsgText what)], c, Panic "nil pointer dereference").
Proof.
  intros Hc Ha unknown.
  assert (Hconn : ∀ m, if_connected m c = m c).
  { intros m. unfold if_connected, mbind, prog_mbind, get_state. cbn. rewrite Hc. by destruct (m c) as [[] ]. }
  split_and!; try (unfold paymentSendFn, paymentRequestFn, paymentTo, paymentSubFn, paymentUnsubFn, paymentRespond,
    chCloseNSettleFn, channelInfoFn; rewrite Hconn; unfold if_args; rewrite decide_False by (cbn; lia);
    unfold paymentSub, paymentUnsub, showChannel, getChannelInfo, mbind, prog_mbind, get_state; cbn; by rewrite Ha).
  intros what notif now. unfold handlePaymentNotif, getChannelInfo, mbind, prog_mbind, get_state. cbn. by rewrite Ha.
Qed.
End cli_props.
