(* ===== verification/CliShell.v ===== *)
(** * The shell of the command line client (cmd/perunnodecli)

    The commands as they are given to the shell: names, help texts, what completes
    their arguments, and what they run.  The library ishell reads the lines, finds
    the command by its name and asks for completions.  Deploying the contracts needs
    the chain in addition to the state of the client. *)
From S2P Require Import Prelude Perun Errors Currency Contracts Os TestConfig SetupContracts Generate.
From S2P Require Import Grpc PbClient TuiText Cli.
Local Open Scope Z_scope.

Section shell.
Context {GT : GoTypes} {DL : DecimalLib} {EL : EthLib} {EN : Env} {TL : TestLib} {CL : ChainLib}.

Inductive ShEvent := ShCli (e : CEvent) | ShOs (e : OEvent).
Record shell := mkShell { sh_cli : cli; sh_eth : eth }.
Definition shprog (A : Type) : Type := prog shell ShEvent A.

Definition on_cli {A} (m : cprog A) : shprog A :=
  zoom (λ s, Ret (sh_cli s)) (λ c s, mkShell c (sh_eth s)) ShCli m.
Definition on_eth {A} (m : ethprog A) : shprog A :=
  zoom (λ s, Ret (sh_eth s)) (λ e s, mkShell (sh_cli s) e) ShOs m.

(** A command without a completer completes nothing. *)
Record Cmd := mkCmd {
  cmd_Name : string;
  cmd_Help : string;
  cmd_Completer : option (cli → list string);
  cmd_Func : list string → shprog unit;
}.
Definition run_cli (f : list string → cprog unit) (args : list string) : shprog unit := on_cli (f args).

(** ** Groups of commands print their help, some only when connected. *)
Definition chainFn (args : list string) : cprog unit := print MsgHelp.
Definition nodeFn (args : list string) : cprog unit := print MsgHelp.
Definition sessionFn (args : list string) : cprog unit := if_connected (print MsgHelp).
Definition peerIDFn (args : list string) : cprog unit := if_connected (print MsgHelp).
Definition channelFn (args : list string) : cprog unit := if_connected (print MsgHelp).
Definition paymentFn (args : list string) : cprog unit := if_connected (print MsgHelp).

Definition deployPerunContractsFn (args : list string) : shprog unit :=
  if decide (length args ≠ 0%nat) then on_cli (print (MsgArgCount (length args) 0))
  else
    s ← get_state;
    if decide (c_chainAddr (sh_cli s) = "") then on_cli (print (MsgText "Chain address is not set"))
    else
      contracts ← on_eth (SetupContracts (c_chainAddr (sh_cli s)) ChainID OnChainTxTimeout false);
      match contracts with
      | inr err => on_cli (print (MsgError "Error deploying contracts" err))
      | inl contracts =>
          assetETH ← lift (AssetETH contracts);
          on_cli (print (MsgText ("Contracts deployed successfully.
Adjudicator address: " +:+ addr_String (Adjudicator contracts) +:+ "
Asset ETH address: " +:+ addr_String assetETH)))
      end.

(** ** The commands *)
Definition aliceOnChainAddr : string := "0x8450c0055cB180C7C37A25866132A740b812937B".
Definition bobOnChainAddr : string := "0xc4bA4815c82727554e4c12A07a139b74c6742322".
Definition sessionCloseOpts : list string := ["force"; "no-force"].

(** The node, and the result of dialling it. *)
Variables (N : NodeServer) (dialErr : option goerror).

Definition chainCmdUsage : string := "Usage: chain [sub-command]".
Definition chainCmd : Cmd := mkCmd "chain"
  ("Use this command to functionalities related to direct interaction with blockchain" +:+ chainCmdUsage)
  None (run_cli chainFn).

Definition setChainAddrCmdUsage : string := "Usage: set-blockchain-address [address].".
Definition setChainAddrCmd : Cmd := mkCmd "set-blockchain-address"
  ("Set address of the blockchain node for reading balance." +:+ setChainAddrCmdUsage)
  (Some (λ _, ["ws://127.0.0.1:8545"])) (run_cli setChainAddrFn).

Definition getChainAddrCmdUsage : string := "Usage: get-blockchain-address.".
Definition getChainAddrCmd : Cmd := mkCmd "get-blockchain-address"
  ("Get address of the blockchain node for reading balance." +:+ getChainAddrCmdUsage)
  None (run_cli getChainAddrFn).

Definition deployPerunContractsCmdUsage : string := "Usage: deploy-perun-contracts.".
Definition deployPerunContractsCmd : Cmd := mkCmd "deploy-perun-contracts"
  ("Deploy perun smart contracts." +:+ deployPerunContractsCmdUsage)
  None deployPerunContractsFn.

Definition getOnChainBalanceCmdUsage : string := "Usage: deploy-perun-contracts.".
Definition getOnChainBalanceCmd : Cmd := mkCmd "get-on-chain-balance"
  ("Get on-chain balance." +:+ getOnChainBalanceCmdUsage)
  (Some (λ _, [aliceOnChainAddr; bobOnChainAddr])) (run_cli getOnChainBalanceFn).

Definition nodeCmdUsage : string := "Usage: node [sub-command]".
Definition nodeCmd : Cmd := mkCmd "node"
  ("Use the command to access the node related functionalities." +:+ nodeCmdUsage)
  None (run_cli nodeFn).

Definition nodeConnectCmdUsage : string := "Usage: node connect [url]".
Definition nodeConnectCmd : Cmd := mkCmd "connect"
  ("Connect to a running perun node instance. Use tab completion to cycle through default values." +:+ nodeConnectCmdUsage)
  (Some (λ _, [":50001"])) (run_cli (nodeConnectFn N dialErr)).

Definition nodeTimeCmdUsage : string := "Usage: node time".
Definition nodeTimeCmd : Cmd := mkCmd "time"
  ("Print node time." +:+ nodeTimeCmdUsage)
  None (run_cli (nodeTimeFn N)).

Definition nodeConfigCmdUsage : string := "Usage: node config".
Definition nodeConfigCmd : Cmd := mkCmd "config"
  ("Print node config." +:+ nodeConfigCmdUsage)
  None (run_cli (nodeConfigFn N)).

Definition sessionCmdUsage : string := "Usage: session [sub-command]".
Definition sessionCmd : Cmd := mkCmd "session"
  ("Use this command to open and close sessions." +:+ sessionCmdUsage)
  None (run_cli sessionFn).

Definition sessionOpenCmdUsage : string := "Usage: session open [session config file]".
Definition sessionOpenCmd : Cmd := mkCmd "open"
  ("Open a new session. Use tab completion to cycle through default values." +:+ sessionOpenCmdUsage)
  (Some (λ _, ["alice/session.yaml"; "bob/session.yaml"])) (run_cli (sessionOpenFn N)).

Definition sessionCloseCmdUsage : string := "Usage: session close force|no-force".
Definition sessionCloseCmd : Cmd := mkCmd "close"
  ("Close the current session. Force will persist open chs" +:+ sessionCloseCmdUsage)
  (Some (λ _, sessionCloseOpts)) (run_cli (sessionCloseFn N)).

Definition peerIDCmdUsage : string := "Usage: peer-id [sub-command]".
Definition peerIDCmd : Cmd := mkCmd "peer-id"
  ("Use this command to add/get peer ID." +:+ peerIDCmdUsage)
  None (run_cli peerIDFn).

Definition peerIDAddCmdUsage : string := "Usage: peer-id add [peer alias] [off-chain address] [comm address] [comm type]".
Definition peerIDAddCmd : Cmd := mkCmd "add"
  ("Add a peer ID to the ID provider." +:+ peerIDAddCmdUsage)
  None (run_cli (peerIDAddFn N)).

Definition peerIDGetCmdUsage : string := "Usage: peer-id get [peer alias]".
Definition peerIDGetCmd : Cmd := mkCmd "get"
  ("Get peer ID corresponding to the given Alias from the ID provider." +:+ peerIDGetCmdUsage)
  None (run_cli (peerIDGetFn N)).

Definition channelCmdUsage : string := "Usage: channel [sub-command]".
Definition channelCmd : Cmd := mkCmd "channel"
  ("Use this command to open/close payment channels." +:+ channelCmdUsage)
  None (run_cli channelFn).

Definition channelSendCmdUsage : string := "Usage: channel send-opening-request [peer alias] [own amount] [peer amount]".
Definition channelSendCmd : Cmd := mkCmd "send-opening-request"
  ("Send a request to open a channel with the peer." +:+ channelSendCmdUsage)
  (Some knownAliasesList) (run_cli (channelSendFn N)).

Definition channelSubCmdUsage : string := "Usage: channel subscribe-opening-request".
Definition channelSubCmd : Cmd := mkCmd "subscribe-to-opening-requests"
  ("Subscribe to channel opening request notications from the peer." +:+ channelSubCmdUsage)
  None (run_cli (channelSubFn N)).

Definition channelUnsubCmdUsage : string := "Usage: channel unsubcribe-opening-request".
Definition channelUnsubCmd : Cmd := mkCmd "unsubcribe-from-opening-requests"
  ("Unsubscribe from channel opening request notications from the peer." +:+ channelUnsubCmdUsage)
  None (run_cli (channelUnsubFn N)).

Definition channelAcceptCmdUsage : string := "Usage: channel accept-opening-request [channel notification alias]".
Definition channelAcceptCmd : Cmd := mkCmd "accept-opening-request"
  ("Accept channel opening request from the peer." +:+ channelAcceptCmdUsage)
  (Some channelNotifList) (run_cli (channelAcceptFn N)).

Definition channelRejectCmdUsage : string := "Usage: channel reject-opening-request [channel notification alias]".
Definition channelRejectCmd : Cmd := mkCmd "reject-opening-request"
  ("Reject channel opening request from the peer." +:+ channelRejectCmdUsage)
  (Some channelNotifList) (run_cli (channelRejectFn N)).

Definition channelCloseNSettleCmdUsage : string := "Usage: channel settle-on-chain [channel alias]".
Definition channelCloseNSettleCmd : Cmd := mkCmd "close-n-settle-on-chain"
  ("Close the channel and settle the balance on the blockchain." +:+ channelCloseNSettleCmdUsage)
  (Some openChannelsList) (run_cli (chCloseNSettleFn N)).

Definition channelListPendingCmdUsage : string := "Usage: channel list-notifications-pending-response".
Definition channelListPendingCmd : Cmd := mkCmd "list-notifications-pending-response"
  ("List channel opening request notifications pending a response." +:+ channelListPendingCmdUsage)
  None (run_cli (channelPendingFn N)).

Definition channelListOpenCmdUsage : string := "Usage: channel list-open-channels".
Definition channelListOpenCmd : Cmd := mkCmd "list-open-channels"
  ("Print the current channel info for all open channels." +:+ channelListOpenCmdUsage)
  None (run_cli (channelListOpenFn N)).

Definition channelInfoCmdUsage : string := "Usage: channel info".
Definition channelInfoCmd : Cmd := mkCmd "info"
  ("Print the current channel info." +:+ channelInfoCmdUsage)
  (Some openChannelsList) (run_cli (channelInfoFn N)).

Definition paymentCmdUsage : string := "Usage: payment [sub-command]".
Definition paymentCmd : Cmd := mkCmd "payment"
  ("Use this command to send/receive payments." +:+ paymentCmdUsage)
  None (run_cli paymentFn).

Definition paymentSendCmdUsage : string := "Usage: payment send [channel alias] [amount]".
Definition paymentSendCmd : Cmd := mkCmd "send-to-peer"
  ("Send a payment to the peer." +:+ paymentSendCmdUsage)
  (Some openChannelsList) (run_cli (paymentSendFn N)).

Definition paymentRequestCmdUsage : string := "Usage: payment request [channel alias] [amount]".
Definition paymentRequestCmd : Cmd := mkCmd "request-from-peer"
  ("Request a payment from the peer." +:+ paymentRequestCmdUsage)
  (Some openChannelsList) (run_cli (paymentRequestFn N)).

Definition paymentSubCmdUsage : string := "Usage: payment sub [channel alias]".
Definition paymentSubCmd : Cmd := mkCmd "subscribe-to-notifications"
  ("Subscribe to payment notifications from the peer." +:+ paymentSubCmdUsage)
  (Some openChannelsList) (run_cli (paymentSubFn N)).

Definition paymentUnsubCmdUsage : string := "Usage: payment unsub [channel alias]".
Definition paymentUnsubCmd : Cmd := mkCmd "unsubscribe-to-notifications"
  ("Unsubscribe from payment notifications from the peer." +:+ paymentUnsubCmdUsage)
  (Some openChannelsList) (run_cli (paymentUnsubFn N)).

Definition paymentAcceptCmdUsage : string := "Usage: payment accept [channel alias]".
Definition paymentAcceptCmd : Cmd := mkCmd "accept-payment-update-from-peer"
  ("Accept latest payment update from peer on the channel." +:+ paymentAcceptCmdUsage)
  (Some openChannelsList) (run_cli (paymentAccept N)).

Definition paymentRejectCmdUsage : string := "Usage: payment reject [channel alias]".
Definition paymentRejectCmd : Cmd := mkCmd "reject-payment-update-from-peer"
  ("Reject latest payment update from peer on the channel." +:+ paymentRejectCmdUsage)
  (Some openChannelsList) (run_cli (paymentReject N)).

(** The commands under each command of the shell, in the order they are added. *)
Definition cli_commands : list (Cmd * list Cmd) := [
    (chainCmd, [setChainAddrCmd; getChainAddrCmd; deployPerunContractsCmd; getOnChainBalanceCmd]);
    (nodeCmd, [nodeConnectCmd; nodeTimeCmd; nodeConfigCmd]);
    (sessionCmd, [sessionOpenCmd; sessionCloseCmd]);
    (peerIDCmd, [peerIDAddCmd; peerIDGetCmd]);
    (channelCmd, [channelSendCmd; channelSubCmd; channelUnsubCmd; channelAcceptCmd;
   channelRejectCmd; channelListPendingCmd; channelListOpenCmd; channelInfoCmd;
   channelCloseNSettleCmd]);
    (paymentCmd, [paymentSendCmd; paymentRequestCmd; paymentSubCmd; paymentUnsubCmd;
   paymentAcceptCmd; paymentRejectCmd])].
End shell.
