(* ===== verification/CliShellProps.v ===== *)
(** * Properties of the shell of the command line client *)
From S2P Require Import Prelude Perun Errors Currency Contracts Os TestConfig SetupContracts Generate.
From S2P Require Import Grpc PbClient TuiText Cli CliProps CliShell.
Local Open Scope Z_scope.

Create HintDb accepts.

Section shell_props.
Context {GT : GoTypes} {DL : DecimalLib} {EL : EthLib} {EN : Env} {TL : TestLib} {CL : ChainLib}.
Context (N : NodeServer) (dialErr : option goerror).
Implicit Types (c : cli).

(** The answers to an argument that is not known. *)
Definition refusal (m : Msg) : bool :=
  match m with
  | MsgUnknownChannelAlias _ _ | MsgUnknownChNotif _ _ => true
  | MsgText s => bool_decide (s = "Parameter should be one of these values: force, no-force")
  | _ => false
  end.
Definition accepting (e : CEvent) : Prop := match e with CEvPrint m => refusal m = false | _ => True end.

(** [m] run in [c] refuses nothing, whatever happens. *)
Definition accepts {A} (m : cprog A) c : Prop := Forall accepting (events (m c)).

Lemma accepts_bind {A B} (m : cprog A) (f : A → cprog B) c :
  accepts m c → (∀ es c' a, m c = (es, c', Ret a) → accepts (f a) c') → accepts (m ≫= f) c.
Proof.
  unfold accepts, events, mbind, prog_mbind. destruct (m c) as [[es c'] [a|w|]]; cbn; [|done..].
  intros H1 H2. specialize (H2 es c' a eq_refl). destruct (f a c') as [[es' c''] o]. by apply Forall_app.
Qed.
Lemma accepts_mret {A} (a : A) c : accepts (mret a) c.
Proof. constructor. Qed.
Lemma accepts_get c : accepts get_state c.
Proof. constructor. Qed.
Lemma accepts_modify f c : accepts (modify f) c.
Proof. constructor. Qed.
Lemma accepts_lift {A} (o : outcome A) c : accepts (lift o) c.
Proof. constructor. Qed.
Lemma accepts_emit e c : accepting e → accepts (emit e) c.
Proof. by repeat constructor. Qed.
Lemma accepts_ccall {A} r (resp : A) c : accepts (ccall r resp) c.
Proof. apply accepts_bind; [by apply accepts_emit|]. intros. apply accepts_mret. Qed.

Lemma accepts_on_success {A B} (resp : rpc A) what (failed : B) (k : A → cprog B) c :
  (∀ a, accepts (k a) c) → accepts (on_success resp what failed k) c.
Proof.
  intros H. unfold on_success, print. destruct resp as [[a|e]|e]; [apply H|..];
    (apply accepts_bind; [by apply accepts_emit|]; intros; apply accepts_mret).
Qed.

Lemma accepts_if_connected m c : accepts m c → accepts (if_connected m) c.
Proof.
  intros H. apply accepts_bind; [apply accepts_get|]. intros es c' a [= <- <- <-].
  destruct (c_client c); [done|]. by apply accepts_emit.
Qed.
Lemma accepts_if_args n args m c : (length args = n → accepts m c) → accepts (if_args n args m) c.
Proof. intros H. unfold if_args. destruct (decide _) as [|Hn]; [by apply accepts_emit|]. apply H. lia. Qed.

Hint Resolve accepts_mret accepts_get accepts_modify accepts_lift accepts_ccall : accepts.
Hint Extern 1 (accepts (print _) _) => (apply accepts_emit; reflexivity) : accepts.
Hint Extern 1 (accepts (emit _) _) => (apply accepts_emit; done) : accepts.

(** Runs through a program; the state is known while nothing but reading happens. *)
Ltac accepts_step :=
  match goal with
  | |- accepts (get_state ≫= _) _ =>
      apply accepts_bind; [apply accepts_get|]; intros ? ? ? Hget; injection Hget as <- <- <-
  | |- accepts (if_connected _) _ => apply accepts_if_connected
  | |- accepts (if_args _ _ _) _ => apply accepts_if_args; intros ?
  | |- accepts (on_success _ _ _ _) _ => apply accepts_on_success; intros ?
  | |- accepts (_ ≫= _) _ => apply accepts_bind; [|intros ? ? ? _]
  | |- accepts (match ?x with _ => _ end) _ => destruct x eqn:?
  | |- accepts _ _ => solve [eauto with accepts]
  end.
Ltac accepts_tac := repeat (accepts_step; cbv beta).

Lemma accepts_paymentSub alias c : is_Some (openChannelsMap c !! alias) → accepts (paymentSub N alias) c.
Proof. intros [i Hi]. unfold paymentSub. accepts_step. rewrite Hi. accepts_tac. Qed.

Lemma accepts_openedChannel what info c : accepts (openedChannel N what info) c.
Proof.
  unfold openedChannel. apply accepts_bind; [unfold addOpenChannelID; accepts_tac|].
  intros es c1 alias H. assert (is_Some (openChannelsMap c1 !! alias)) as Hal.
  { unfold addOpenChannelID, mbind, prog_mbind in H. cbn in H. injection H as _ <- <-. cbn.
    rewrite lookup_insert_eq. by eexists. }
  apply accepts_bind; [apply accepts_lift|]. intros es2 c2 p Hp. injection Hp as _ <- _.
  apply accepts_bind; [by apply accepts_emit|]. intros es3 c3 [] Hp. injection Hp as _ <-.
  by apply accepts_paymentSub.
Qed.

Lemma accepts_restoreChannels l c : accepts (restoreChannels N l) c.
Proof.
  revert c. induction l as [|i l IH]; intros c; cbn; [apply accepts_mret|].
  apply accepts_bind; [apply accepts_openedChannel|]. intros. apply IH.
Qed.
Lemma accepts_persistedChannels l c : accepts (persistedChannels l) c.
Proof. revert c. induction l as [|i l IH]; intros c; cbn; [apply accepts_mret|]. accepts_tac. Qed.
Lemma accepts_channelSub c : accepts (channelSub N) c.
Proof. unfold channelSub. accepts_tac. Qed.
Lemma accepts_channelUnsub c : accepts (channelUnsub N) c.
Proof. unfold channelUnsub. accepts_tac. Qed.
Hint Resolve accepts_openedChannel accepts_restoreChannels accepts_persistedChannels accepts_channelSub
  accepts_channelUnsub : accepts.

(** ** The commands with completions *)
Lemma accepts_showChannel alias c : is_Some (openChannelsMap c !! alias) → accepts (showChannel N alias) c.
Proof. intros [i Hi]. unfold showChannel, getChannelInfo. accepts_step. accepts_step. rewrite Hi. all: accepts_tac. Qed.

Lemma accepts_channel alias rest c :
  is_Some (openChannelsMap c !! alias) →
  accepts (paymentSendFn N (alias :: rest)) c ∧ accepts (paymentRequestFn N (alias :: rest)) c ∧
  accepts (paymentSubFn N (alias :: rest)) c ∧ accepts (paymentUnsubFn N (alias :: rest)) c ∧
  accepts (paymentAccept N (alias :: rest)) c ∧ accepts (paymentReject N (alias :: rest)) c ∧
  accepts (chCloseNSettleFn N (alias :: rest)) c ∧ accepts (channelInfoFn N (alias :: rest)) c.
Proof.
  intros Hal. pose proof Hal as [i Hi].
  split_and!; unfold paymentSendFn, paymentRequestFn, paymentTo, paymentSubFn, paymentUnsubFn, paymentUnsub,
    paymentAccept, paymentReject, paymentRespond, set_latest, chCloseNSettleFn, removeOpenChannelID, channelInfoFn;
    do 2 accepts_step; repeat (destruct rest; try apply accepts_mret);
    try (by apply accepts_paymentSub); try (by apply accepts_showChannel); accepts_step; rewrite Hi; accepts_tac.
Qed.

Lemma accepts_request alias rest c :
  is_Some (channelNotifMap c !! alias) →
  accepts (channelAcceptFn N (alias :: rest)) c ∧ accepts (channelRejectFn N (alias :: rest)) c.
Proof.
  intros [i Hi]. split; unfold channelAcceptFn, channelRejectFn, channelRespond, removeChannelNotif;
    do 2 accepts_step; (destruct rest; [|apply accepts_mret]); accepts_step; rewrite Hi; accepts_tac.
Qed.

Lemma accepts_getNodeTime c : accepts (getNodeTime N) c.
Proof. unfold getNodeTime. accepts_tac. Qed.
Hint Resolve accepts_getNodeTime : accepts.

Lemma accepts_any args c :
  accepts (setChainAddrFn args) c ∧ accepts (getOnChainBalanceFn args) c ∧
  accepts (nodeConnectFn N dialErr args) c ∧ accepts (sessionOpenFn N args) c ∧ accepts (channelSendFn N args) c.
Proof.
  split_and!; unfold setChainAddrFn, getOnChainBalanceFn, nodeConnectFn, sessionOpenFn, channelSendFn; accepts_tac.
Qed.

Lemma accepts_sessionClose opt rest c :
  opt ∈ sessionCloseOpts → accepts (sessionCloseFn N (opt :: rest)) c.
Proof.
  intros Ho. unfold sessionCloseFn, resetLocalCache. do 3 accepts_step; [accepts_tac|].
  destruct rest; [|apply accepts_mret]. destruct (decide _) as [[H1 H2]|_]; [|accepts_tac].
  repeat (apply elem_of_cons in Ho as [Ho|Ho]; [congruence|]). by apply elem_of_nil in Ho.
Qed.

(** What runs in the client only. *)
Definition refuses_nothing (m : shprog unit) (s : shell) : Prop :=
  Forall (λ e, match e with ShCli e => accepting e | ShOs _ => True end) (events (m s)).

Lemma refuses_nothing_cli f args s : accepts (f args) (sh_cli s) → refuses_nothing (run_cli f args) s.
Proof.
  unfold refuses_nothing, accepts, run_cli, on_cli, zoom, events. destruct (f args (sh_cli s)) as [[es c'] o].
  cbn. by rewrite Forall_fmap.
Qed.

(** Completions.  Whatever the shell offers as the first argument of a command is
    accepted, in every state a client can be in: a channel or a request that is
    offered is known, and the options are those of the command.  All open channels
    and all requests are offered; the session files offered are those the generate
    command of the node makes.  No two commands of a group have the same name. *)
Theorem completions_accepted uniq B s (Hwf : wf_cli uniq B (sh_cli s)) :
  (∀ g cmd f word rest, g ∈ cli_commands N dialErr → cmd ∈ g.2 → cmd_Completer cmd = Some f →
     word ∈ f (sh_cli s) → refuses_nothing (cmd_Func cmd (word :: rest)) s) ∧
  (∀ alias, is_Some (openChannelsMap (sh_cli s) !! alias) → alias ∈ openChannelsList (sh_cli s)) ∧
  (∀ alias, is_Some (channelNotifMap (sh_cli s) !! alias) → alias ∈ channelNotifList (sh_cli s)) ∧
  (λ f, f (sh_cli s)) <$> cmd_Completer (sessionOpenCmd N) =
    Some [Join aliceAlias sessionConfigFile; Join bobAlias sessionConfigFile] ∧
  NoDup (cmd_Name ∘ fst <$> cli_commands N dialErr) ∧
  Forall (λ g, NoDup (cmd_Name <$> g.2)) (cli_commands N dialErr).
Proof.
  destruct Hwf as [Hch Hreq _ _ _ _]. split_and!.
  - intros g cmd f word rest Hg Hcmd Hf Hw.
    pose proof (al_map _ _ _ _ Hch word) as [Hc _]. pose proof (al_map _ _ _ _ Hreq word) as [Hr _].
    pose proof (accepts_any (word :: rest) (sh_cli s)) as (? & ? & ? & ? & ?).
    repeat (apply elem_of_cons in Hg as [Hg|Hg]; [subst g; cbn [snd] in Hcmd;
      repeat (apply elem_of_cons in Hcmd as [Hcmd|Hcmd]; [subst cmd; try discriminate Hf;
        injection Hf as <-; apply refuses_nothing_cli;
        first [done|by apply accepts_sessionClose|by apply accepts_request, Hr|by apply accepts_channel, Hc]|]);
      by apply elem_of_nil in Hcmd|]).
    by apply elem_of_nil in Hg.
  - intros alias H. by apply (al_map _ _ _ _ Hch).
  - intros alias H. by apply (al_map _ _ _ _ Hreq).
  - done.
  - apply (bool_decide_unpack _). vm_compute. done.
  - repeat constructor; apply (bool_decide_unpack _); vm_compute; done.
Qed.
End shell_props.
