(* ===== verification/Instances.v ===== *)
(** * Concrete libraries for the witnesses

    One executable implementation of every library interface the development
    is parameterised by: addresses, decimals in scientific notation, contracts,
    and a state channel SDK in which the peer accepts or rejects as the state of
    the controller says.  They satisfy the laws the theorems rely on, so the
    witnesses can evaluate the program. *)
From Stdlib Require Import QArith Qround Qabs Qpower Lqa Decimal DecimalString DecimalZ.
From Stdlib Require Import Strings.Byte Strings.Ascii.
From S2P Require Import Prelude Perun Currency Contracts Sdk Client SessionLife.
Local Open Scope Z_scope.

(** ** Addresses are their strings *)
#[export] Instance ex_GoTypes : GoTypes := {|
  address := string;
  addr_String := λ a, a;
  addr_Equals := λ a b, bool_decide (a = b);
  appdef := string;
  appdata := string;
  NoApp := "";
  NoData := "";
  wallet := string;
|}.

#[export] Instance ex_GoTypesLaws : GoTypesLaws.
Proof. split. intros a b. apply bool_decide_eq_true. Qed.

(** ** Decimals: a coefficient and a power of ten *)
Record ex_decimal := mkDec { coef : Z; dexp : Z }.

Definition print_Z (z : Z) : string := NilEmpty.string_of_int (Z.to_int z).
Definition parse_Z (s : string) : option Z := Z.of_int <$> NilEmpty.int_of_string s.

Lemma parse_print_Z z : parse_Z (print_Z z) = Some z.
Proof. unfold parse_Z, print_Z. rewrite NilEmpty.isi. cbn. by rewrite DecimalZ.of_to. Qed.

(** Splits a string at the first ["e"]. *)
Fixpoint split_e (s : string) : option (string * string) :=
  match s with
  | EmptyString => None
  | String c s' =>
      if Ascii.eqb c "e"%char then Some ("", s')
      else (λ '(a, b), (String c a, b)) <$> split_e s'
  end.

Fixpoint no_e (s : string) : bool :=
  match s with EmptyString => true | String c s' => negb (Ascii.eqb c "e"%char) && no_e s' end.

Lemma split_e_app a b : no_e a = true → split_e (a +:+ "e" +:+ b) = Some (a, b).
Proof.
  induction a as [|c a IH]; [done|]. change (String c a +:+ "e" +:+ b) with (String c (a +:+ "e" +:+ b)).
  cbn. destruct (Ascii.eqb c "e"%char); [done|]. cbn. intros H. by rewrite IH.
Qed.

Lemma no_e_print_Z z : no_e (print_Z z) = true.
Proof.
  unfold print_Z. assert (∀ d, no_e (NilEmpty.string_of_uint d) = true) as H by (by induction d).
  destruct (Z.to_int z); cbn; apply H.
Qed.

Definition ex_NewFromString (s : string) : ex_decimal + goerror :=
  match split_e s with
  | Some (a, b) =>
      match parse_Z a, parse_Z b with
      | Some c, Some e => inl (mkDec c e)
      | _, _ => inr (ErrText "can't convert to decimal")
      end
  | None =>
      match parse_Z s with
      | Some c => inl (mkDec c 0)
      | None => inr (ErrText "can't convert to decimal")
      end
  end.

Definition ex_dval (d : ex_decimal) : Q := (inject_Z (coef d) * pow10 (dexp d))%Q.

Definition ex_Div (a b : ex_decimal) : ex_decimal :=
  mkDec (Qfloor (ex_dval a / ex_dval b * pow10 DivisionPrecision + (1 # 2)))%Q (- DivisionPrecision).

#[export] Instance ex_DecimalLib : DecimalLib := {|
  decimal := ex_decimal;
  NewFromString := ex_NewFromString;
  New := mkDec;
  NewFromInt := λ v, mkDec v 0;
  NewFromBigInt := mkDec;
  Mul := λ a b, mkDec (coef a * coef b) (dexp a + dexp b);
  LessThan := λ a b, match (ex_dval a ?= ex_dval b)%Q with Lt => true | _ => false end;
  BigInt := λ a, Qtrunc (ex_dval a);
  Div := ex_Div;
  dec_String := λ a, print_Z (coef a) +:+ "e" +:+ print_Z (dexp a);
|}.

Lemma ex_Div_val a b : ¬ (ex_dval b == 0)%Q →
  ∃ k : Z, (ex_dval (ex_Div a b) == inject_Z k * pow10 (- DivisionPrecision))%Q ∧
           (Qabs (ex_dval (ex_Div a b) - ex_dval a / ex_dval b) * (2 # 1)
              <= pow10 (- DivisionPrecision))%Q.
Proof.
  intros _. eexists. split; [reflexivity|].
  set (x := (ex_dval a / ex_dval b)%Q). unfold ex_Div. fold x.
  set (q := (x * pow10 DivisionPrecision + (1 # 2))%Q).
  pose proof (Qfloor_le q) as H1. pose proof (Qlt_floor q) as H2.
  unfold ex_dval. cbn [coef dexp].
  set (k := Qfloor q) in *. rewrite inject_Z_plus in H2. change (inject_Z 1) with 1%Q in H2.
  assert (Ex : (x == (q - (1 # 2)) * pow10 (- DivisionPrecision))%Q).
  { unfold q. rewrite <- (Qmult_1_r x) at 1. rewrite <- (pow10_inv DivisionPrecision). ring. }
  rewrite Ex. set (p := pow10 (- DivisionPrecision)) in *.
  assert (0 < p)%Q as Hp by apply pow10_pos.
  assert (Qabs (inject_Z k * p - (q - (1 # 2)) * p) == Qabs (inject_Z k - q + (1 # 2)) * p)%Q as ->.
  { rewrite <- (Qabs_pos p) at 3 by lra. rewrite <- Qabs_Qmult. apply Qabs_wd. ring. }
  assert (Qabs (inject_Z k - q + (1 # 2)) <= 1 # 2)%Q as Hb by (apply Qabs_Qle_condition; lra).
  nra.
Qed.

#[export] Instance ex_DecimalLaws : DecimalLaws.
Proof.
  refine {| dval := ex_dval; Div_val := ex_Div_val |}; try reflexivity; unfold ex_dval; cbn.
  - intros v. rewrite Qmult_1_r. reflexivity.
  - intros a b. rewrite inject_Z_mult, pow10_plus. ring.
  - intros a b. rewrite Qlt_alt. destruct (_ ?= _)%Q; split; congruence.
  - intros a. eexists. unfold ex_NewFromString. rewrite split_e_app by apply no_e_print_Z.
    rewrite !parse_print_Z. split; [reflexivity|]. reflexivity.
Defined.

(** ** Contracts: a chain is the list of its tokens *)
Definition ex_token (c : list (string * (string * Z))) (a : string) : option (string * Z) :=
  snd <$> find (λ t, bool_decide (t.1 = a)) c.

#[export] Instance ex_EthLib : EthLib := {|
  cb := list (string * (string * Z));
  libfunder := list string;
  HexToAddress := λ s, s;
  ZeroAddress := "0x0000000000000000000000000000000000000000";
  is_eth_address := λ _, true;
  lib_IsErrInvalidContractCode := λ e, match e with ErrConst _ => true | _ => false end;
  lib_ValidateAdjudicator := λ _ _, None;
  lib_ValidateAssetHolderETH := λ _ _ _, None;
  lib_ValidateAssetHolderERC20 := λ _ _ _ _, None;
  lib_BindToken := λ c a,
    match ex_token c a with Some _ => None | None => Some (ErrText "no contract") end;
  lib_TokenSymbol := λ c a, (from_option fst "" (ex_token c a), None);
  lib_TokenDecimals := λ c a, (from_option snd 0 (ex_token c a), None);
  lib_DeployAdjudicator := λ _ a, (a, None);
  lib_DeployETHAssetholder := λ _ a b, (a +:+ b, None);
  lib_DeployERC20Assetholder := λ _ a b c, (a +:+ b +:+ c, None);
  lib_DeployPerunToken := λ _ _ _ a, (a, None);
  lib_NewFunder := λ _, [];
  os_NotExist := λ _, None;
  lib_OpenWallet := λ _ k _, inl k;
  lib_UnlockAccount := λ _ _, None;
  ethclient := list (string * (string * Z));
  keystore := string;
  kswallet := string;
  lib_DialContext := λ _ url, inl [(url, ("PRN", 18))];
  lib_NewKeyStore := id;
  ks_Unlock := λ _ _ _, None;
  lib_NewKsWallet := λ k _, inl k;
  lib_NewContractBackend := λ e _, e;
  lib_BalanceAt := λ _ _ _, inl 0;
  lib_RegisterAsset := λ f a _ _,
    if decide (a ∈ f) then (f, false) else (a :: f, true);
  lib_IsAssetRegistered := λ f a, bool_decide (a ∈ f);
|}.

(** ** The state channel SDK *)

(** A controller knows whether the peer and the blockchain will agree. *)
Record ex_pch := mkExPch {
  ex_id : list byte;
  ex_idx : Z;
  ex_peers : list string;
  ex_phase : phase;
  ex_state : PState;
  ex_peer_agrees : bool;
  ex_chain_ok : bool;
  ex_closed : bool;
}.

Definition ex_set_state (s : PState) (p : ex_pch) : ex_pch :=
  mkExPch (ex_id p) (ex_idx p) (ex_peers p) (ex_phase p) s (ex_peer_agrees p) (ex_chain_ok p)
    (ex_closed p).
Definition ex_set_closed (p : ex_pch) : ex_pch :=
  mkExPch (ex_id p) (ex_idx p) (ex_peers p) (ex_phase p) (ex_state p) (ex_peer_agrees p)
    (ex_chain_ok p) true.

(** The controller of the proposer. *)
Definition ex_first (s : PState) (p : ex_pch) : ex_pch :=
  mkExPch (ex_id p) 0 (ex_peers p) (ex_phase p) s (ex_peer_agrees p) (ex_chain_ok p) (ex_closed p).
Definition ex_UpdateBy (t : Z) (f : StateUpdater) (p : ex_pch) : outcome (ex_pch * option goerror) :=
  match f (ex_state p) with
  | Ret (s, None) =>
      if ex_peer_agrees p
      then Ret (ex_set_state (set_Version (uint64 (st_Version (ex_state p) + 1)) s) p, None)
      else Ret (p, Some (PeerRejectedError "no" "rejected by peer"))
  | Ret (_, Some e) => Ret (p, Some e)
  | Panic w => Panic w
  | Block => Block
  end.

Definition ex_chain_call (p : ex_pch) : ex_pch * option goerror :=
  (p, if ex_chain_ok p then None else Some (ChainNotReachableError "no connection")).

(** A controller with [10^18] and [2 * 10^18] base units of ETH. *)
Definition ex_state_of (version : Z) (final : bool) : PState :=
  mkPState [x01] version "" (mkAllocation ["eth"] [[10 ^ 18; 2 * 10 ^ 18]]) "" final.
Definition ex_controller (version : Z) (final agrees chain_ok : bool) : ex_pch :=
  mkExPch [x01] 0 ["0xa"; "0xb"] Acting (ex_state_of version final) agrees chain_ok false.

(** The channels of the database have balances for their assets only. *)
Definition ex_sound (p : ex_pch) : Prop :=
  (length (al_Balances (st_Allocation (ex_state p))) ≤ length (al_Assets (st_Allocation (ex_state p))))%nat.
#[export] Instance ex_sound_dec p : Decision (ex_sound p).
Proof. unfold ex_sound. apply _. Defined.

#[export] Instance ex_GoPerun : GoPerun := {|
  pch := ex_pch;
  pch_ID := ex_id;
  pch_Idx := ex_idx;
  pch_ChallengeDuration := λ _, 10;
  pch_Peers := ex_peers;
  pch_Phase := ex_phase;
  pch_State := ex_state;
  pch_Close := λ p, (ex_set_closed p, None);
  pch_UpdateBy := ex_UpdateBy;
  pch_Register := λ _ p, ex_chain_call p;
  pch_Settle := λ _ _ p, ex_chain_call p;
  pch_WatchReturned := ex_closed;
  updResponder := PState;
  upd_Accept := λ _ s p, (ex_set_state s p, None);
  upd_Reject := λ _ _ _, None;
  propResponder := ex_pch;
  proposalAcc := LedgerChannelProposal * option string;
  lcp_Accept := pair;
  prop_Accept := λ _ r _, inl r;
  prop_Reject := λ _ _ _, None;
  NewLedgerChannelProposal := λ dur _ alloc peers def data,
    inl (mkLedgerChannelProposal [x01; x02] dur (default "" def) (default "" data) alloc
           (omap id peers));
  wallet_Unlock := λ _ _, None;
  registerer := list (string * string);
  reg_Register := λ a s r, (a, s) :: r;
  wbus := bool;
  NewBus := λ _ _, false;
  bus_Close := λ _, (true, None);
  bus_ListenReturns := id;
  NewTCPListener := λ _, None;
  NewTCPDialer := λ _, [];
  pcl := bool * list ex_pch;
  NewClient := λ _ _, inl (false, [ex_controller 3 false true true]);
  pcl_ProposeChannel := λ _ prop c,
    match c with
    | (b, p :: c') =>
        ((b, c'), inl (ex_first (mkPState (ex_id p) 0 (lcp_App prop) (lcp_InitBals prop)
                                       (lcp_InitData prop) false) p))
    | (_, []) => (c, inr (PeerRejectedError "no" "rejected by peer"))
    end;
  pcl_Restore := λ _ c, (c, filter ex_sound c.2, None);
  pcl_Close := λ c, ((true, c.2), None);
  pcl_HandleReturns := fst;
  database := unit;
  LoadDatabase := λ _, inl tt;
  db_Close := λ _, None;
|}.

#[export] Instance ex_UpdateByLaws : UpdateByLaws.
Proof.
  split; cbn; unfold ex_UpdateBy; [|intros d f p p'..].
  - intros d f p [[s [e|]] ->]; [by eexists|]. destruct (ex_peer_agrees p); by eexists.
  - intros H. split_cases. by eexists.
  - intros e H. by split_cases.
  - intros e H. by split_cases.
Qed.

#[export] Instance ex_CloseLaws : CloseLaws.
Proof. by split. Qed.

#[export] Instance ex_AdjudicatorLaws : AdjudicatorLaws.
Proof. by split. Qed.

#[export] Instance ex_ClientCloseLaws : ClientCloseLaws.
Proof. split; [by intros c c' [= <-]|by intros b b' [= <-]]. Qed.

#[export] Instance ex_ProposalLaws : ProposalLaws client.
Proof.
  split; [by intros d own al addrs def data p [= <-]|..];
    intros t p c c' ch; cbn; unfold ProposeChannel; cbn;
    (destruct (cl_pClient c) as [b [|q l]]; [done|]); by intros [= _ <-].
Qed.

#[export] Instance ex_FunderLaws : FunderLaws.
Proof.
  split; cbn.
  - intros f a t acc b. case_decide; [done|]. rewrite !bool_decide_eq_true. by right.
  - intros f a t acc. rewrite bool_decide_eq_true. case_decide; [done|]. by left.
Qed.
