(* ===== verification/Witnesses.v ===== *)
(** * Witnesses

    Every theorem with hypotheses, applied at a concrete input where they hold:
    the libraries are those of [Instances]. *)
From Stdlib Require Import QArith Lqa.
From Stdlib Require Import Strings.Byte.
From S2P Require Import Prelude Perun Errors SessionErrors Currency IDProvider Contracts Sdk Timeout.
From S2P Require Import Channel ChannelProps Instances.
Local Open Scope Z_scope.

(** ** Currencies *)
Definition ex_eth : currency := mkcurrency "ETH" (New 1 ETHMaxDecimals).

Lemma ex_eth_decimals : has_decimals ex_eth 18.
Proof. unfold has_decimals. change (decimals ex_eth) with (New 1 18). rewrite (New_val 1 18). ring. Qed.

Lemma Parse_spec_witness :
  Parse ex_eth "15e-1" = inl (15 * 10 ^ 17) ↔
  ∃ a, NewFromString "15e-1" = inl a ∧ (1 <= dval a * pow10 18)%Q ∧
       15 * 10 ^ 17 = Qtrunc (dval a * pow10 18)%Q.
Proof. apply (Parse_spec ex_eth 18), ex_eth_decimals. Defined.

Lemma Print_Parse_roundtrip_witness : Parse ex_eth (Print ex_eth 1500) = inl 1500.
Proof.
  apply (Print_Parse_roundtrip ex_eth 18); [apply ex_eth_decimals|lia|lia|].
  exists 15. reflexivity.
Defined.

Lemma Print_loses_small_amounts_witness :
  Print ex_eth 49 = "0e-16" ∧ ∃ e, Parse ex_eth (Print ex_eth 49) = inr e.
Proof.
  split; [vm_compute; reflexivity|].
  apply Print_loses_small_amounts; [apply ex_eth_decimals|lia].
Defined.

(** ** The ID provider *)
Definition ex_backend : WalletBackend :=
  mkWalletBackend (λ s, if decide (s = "") then inr (ErrText "empty") else inl s)
    (λ k _, inl k) (λ _ _, None).
Definition ex_peer (alias addr : string) : PeerID := mkPeerID alias None addr "127.0.0.1:5751" "tcp".
Definition ex_peers_file : gmap string PeerID := {[ "bob" := ex_peer "bob" "0xb" ]}.
Definition ex_cache : idProviderCache :=
  match newIDProviderCache (map_to_list ex_peers_file) ex_peers_file ex_backend with
  | inl c => c
  | inr _ => mkCache ex_backend ∅ ∅
  end.

Lemma ReadByOffChainAddr_sound_witness :
  pid_OffChainAddrString (set_OffChainAddr "0xb" (ex_peer "bob" "0xb")) = "0xb".
Proof.
  apply (ReadByOffChainAddr_sound ex_backend (map_to_list ex_peers_file) ex_peers_file ex_cache
    [("carol", ex_peer "carol" "0xc")] "0xb").
  - reflexivity.
  - vm_compute. repeat constructor.
  - vm_compute. reflexivity.
  - vm_compute. reflexivity.
Defined.

Lemma ReadByOffChainAddr_after_Write_witness :
  ReadByOffChainAddr (Write "carol" (ex_peer "carol" "0xc") ex_cache).1 (Some "0xc") =
  Some (set_OffChainAddr "0xc" (ex_peer "carol" "0xc")).
Proof.
  apply (ReadByOffChainAddr_after_Write "carol" (ex_peer "carol" "0xc") ex_cache _ "0xc");
    vm_compute; reflexivity.
Defined.

Lemma Delete_leaves_stale_address_witness :
  let '(c1, e1) := Write "carol" (ex_peer "carol" "0xc") ex_cache in
  let '(c2, e2) := Delete "carol" c1 in
  let '(c3, e3) := Write "carol" (ex_peer "carol" "0xd") c2 in
  e1 = None ∧ e2 = None ∧ e3 = None ∧
  ReadByOffChainAddr c2 (Some "0xc") = None ∧
  ReadByOffChainAddr c3 (Some "0xc") = Some (set_OffChainAddr "0xd" (ex_peer "carol" "0xd")).
Proof.
  apply (Delete_leaves_stale_address ex_cache "carol" (ex_peer "carol" "0xc")
    (ex_peer "carol" "0xd") "0xc" "0xd"); first [vm_compute; reflexivity | discriminate].
Defined.

(** ** Contracts *)
Definition ex_chain : cb := [("token1", ("PRN", 18)); ("token2", ("MPRN", 3))].
Definition ex_contracts0 : contractRegistry :=
  mkContractRegistry ex_chain "adj" {[ "ETH" := 0%nat ]} ["eth"] [None].
Definition ex_contracts : contractRegistry := (RegisterAssetERC20 ex_contracts0 "token1" "asset1").1.

Lemma ex_contracts_wf : wf_contracts ex_contracts.
Proof. apply RegisterAssetERC20_wf, (NewContractRegistry_wf ex_chain "adj" "eth"). reflexivity. Qed.

Lemma contractRegistry_wf_witness : wf_contracts ex_contracts.
Proof.
  apply (contractRegistry_wf ex_chain "adj" "eth" ex_contracts0 [("token1", "asset1")]).
  reflexivity.
Defined.

Lemma Asset_Symbol_inverse_witness :
  Asset ex_contracts "PRN" = Some "asset1" ↔ Symbol_of ex_contracts "asset1" = Some "PRN".
Proof. apply (Asset_Symbol_inverse ex_contracts "PRN" "asset1"), ex_contracts_wf. Defined.

Lemma RegisterAssetERC20_spec_witness :
  let '(r', res) := RegisterAssetERC20 ex_contracts "token2" "asset2" in
  res = inl ("MPRN", 3) ∧ Asset r' "MPRN" = Some "asset2".
Proof.
  pose proof (RegisterAssetERC20_spec ex_contracts "token2" "asset2" ex_contracts_wf) as H.
  change (Symbol_of ex_contracts "asset2") with (@None string) in H.
  change (ValidateAssetERC20 _ _ _ _) with ("MPRN", 3, @None goerror) in H.
  change (Asset ex_contracts "MPRN") with (@None address) in H.
  destruct (RegisterAssetERC20 _ _ _) as [r' res]. destruct H as (H1 & H2 & _). exact (conj H1 H2).
Defined.

Lemma Token_spec_witness : is_Some (Token ex_contracts "PRN") ↔ "PRN" ≠ "ETH" ∧ is_Some (Asset ex_contracts "PRN").
Proof. apply (Token_spec ex_contracts "PRN"), ex_contracts_wf. Defined.

(** ** Time limits *)
Definition ex_timeoutCfg : timeoutConfig := mkTimeoutConfig (10 * Second) (5 * Second).

Lemma timeouts_exact_witness :
  proposeCh ex_timeoutCfg 10 = 2 * (5 * Second) + 3 * (10 * Second) + 2 * (10 * Second) + processingTime.
Proof. apply (timeouts_exact ex_timeoutCfg 10). unfold no_overflow. vm_compute. repeat split; discriminate. Defined.

Lemma proposeCh_overflows_witness : is_uint64 4611686016 ∧ proposeCh ex_timeoutCfg 4611686016 < 0.
Proof. apply proposeCh_overflows; vm_compute; split; discriminate. Defined.

(** ** Channels *)
Definition ex_eth_Currency : Currency := as_Currency ex_eth.

Definition ex_params : params :=
  mkParams "01" [Some ex_eth_Currency] {[ "ETH" := 0%nat ]} ["self"; "bob"] ex_timeoutCfg 10 "ws://".

Definition ex_notifier : ChUpdateNotifier unit := λ _, tt.

Definition ex_ch (p : ex_pch) (st : chStatus) (n : option (ChUpdateNotifier unit)) : Channel unit :=
  mkChannel ex_params p st false n [] ∅ false.

(** The open channel without and with a subscription. *)
Definition ex_open (n : option (ChUpdateNotifier unit)) : Channel unit :=
  ex_ch (ex_controller 3 false true true) open n.

Lemma ex_wf n : wf_channel (ex_open n).
Proof. by repeat split. Qed.

(** An update arrives, the user subscribes, and accepts it. *)
Definition ex_now : Z := 1000 * Second.
Definition ex_ops : list (ch_op (Out := unit)) :=
  [OpHandleUpdate (Some (ex_state_of 3 false)) (ex_state_of 4 true) (ex_state_of 4 true) ex_now;
   OpSubChUpdates ex_notifier; OpRespondChUpdate "01_4" true ex_now].

Fixpoint ex_run (os : list (ch_op (Out := unit))) (ch : Channel unit) : list (ChEvent unit) * Channel unit :=
  match os with
  | [] => ([], ch)
  | o :: os' =>
      let '(es, ch', _) := run_op o ch in let '(es', ch'') := ex_run os' ch' in (es ++ es', ch'')
  end.

Fixpoint ex_runs (os : list (ch_op (Out := unit))) (ch : Channel unit) : bool :=
  match os with
  | [] => true
  | o :: os' => match run_op o ch with (_, ch', Ret _) => ex_runs os' ch' | _ => false end
  end.

Lemma ex_run_steps os ch : ex_runs os ch = true → ch_steps ch os (ex_run os ch).1 (ex_run os ch).2.
Proof.
  revert ch. induction os as [|o os IH]; intros ch; cbn [ex_run ex_runs]; [constructor|].
  destruct (run_op o ch) as [[es ch'] [[]|w|]] eqn:E; [|done..]. intros H. specialize (IH ch' H).
  destruct (ex_run os ch') as [es' ch'']. econstructor; [by constructor|exact IH].
Qed.

Lemma ex_run_ops : ch_steps (ex_open None) ex_ops (ex_run ex_ops (ex_open None)).1 (ex_run ex_ops (ex_open None)).2.
Proof. apply ex_run_steps. vm_compute. reflexivity. Qed.

Lemma channel_refines_witness :
  let '(es, ch', _) := run_op OpClose (ex_open None) in
  ch_step OpClose (ex_open None) es ch' ∧
  abs_step ex_params OpClose (abs_ch (ex_open None)) (labels es) (abs_ch ch').
Proof.
  destruct (run_op OpClose (ex_open None)) as [[es ch'] o] eqn:E.
  assert (ch_step OpClose (ex_open None) es ch') as Hs.
  { constructor. rewrite E. f_equal. apply (f_equal snd) in E. vm_compute in E. by rewrite <-E. }
  split; [exact Hs|]. apply (channel_refines OpClose (ex_open None) es ch' Hs).
Defined.

Lemma channel_invariant_witness :
  wf_channel (ex_run ex_ops (ex_open None)).2 ∧
  ch_params (ex_run ex_ops (ex_open None)).2 = ex_params.
Proof.
  destruct (channel_invariant _ _ _ _ (ex_wf None) ex_run_ops) as (H1 & H2 & _).
  exact (conj H1 H2).
Defined.

(** A scheduler: [inl o] runs an entry point, [inr k] the waiting goroutine [k]. *)
Fixpoint ex_schedule (sc : list (ch_op (Out := unit) + nat)) (ch : Channel unit)
    (pool : list (goroutine (Out := unit)))
    : option (list (goroutine (Out := unit)) * list (ChUpdateNotifier unit * ChUpdateNotif) *
              Channel unit * list (goroutine (Out := unit))) :=
  match sc with
  | [] => Some ([], [], ch, pool)
  | inl o :: sc' =>
      match run_op o ch with
      | (es, ch1, Ret _) =>
          '(gs, ds, ch2, pool2) ← ex_schedule sc' ch1 (pool ++ started es);
          Some (started es ++ gs, ds, ch2, pool2)
      | _ => None
      end
  | inr k :: sc' =>
      g ← pool !! k;
      match run_goroutine g ch with
      | (es, ch1, Ret _) =>
          '(gs, ds, ch2, pool2) ← ex_schedule sc' ch1 (take k pool ++ drop (S k) pool);
          Some (gs, delivered es ++ ds, ch2, pool2)
      | _ => None
      end
  end.

Definition entries_of (sc : list (ch_op (Out := unit) + nat)) : list (ch_op (Out := unit)) :=
  omap (λ x, match x with inl o => Some o | _ => None end) sc.

Lemma ex_schedule_sched sc ch pool gs ds ch' pool' :
  Forall is_entry (entries_of sc) → ex_schedule sc ch pool = Some (gs, ds, ch', pool') →
  ch_sched ch pool (entries_of sc) gs ds ch' pool'.
Proof.
  revert ch pool gs ds. induction sc as [|[o|k] sc IH]; intros ch pool gs ds He H; cbn in *.
  - simplify_eq. constructor.
  - apply Forall_cons in He as [Ho He]. destruct (run_op o ch) as [[es ch1] [[]|w|]] eqn:E; [|done..].
    destruct (ex_schedule sc ch1 _) as [[[[gs1 ds1] ch2] pool2]|] eqn:E2; cbn in H; [|done].
    simplify_eq. eapply sched_entry; [done|by constructor|by apply IH].
  - destruct (pool !! k) as [g|] eqn:Eg; cbn in H; [|done].
    destruct (run_goroutine g ch) as [[es ch1] [[]|w|]] eqn:E; [|done..].
    destruct (ex_schedule sc ch1 _) as [[[[gs1 ds1] ch2] pool2]|] eqn:E2; cbn in H; [|done].
    simplify_eq. rewrite <-(take_drop_middle _ _ _ Eg). eapply sched_go; [done|by apply IH].
Qed.

(** An update is cached, the user subscribes, another update arrives; its
    goroutine overtakes the one of the cached notification, which still waits. *)
Definition ex_sched_ops : list (ch_op (Out := unit) + nat) :=
  [inl (OpHandleUpdate (Some (ex_state_of 3 false)) (ex_state_of 4 false) (ex_state_of 4 false) ex_now);
   inl (OpSubChUpdates ex_notifier);
   inl (OpHandleUpdate (Some (ex_state_of 3 false)) (ex_state_of 5 false) (ex_state_of 5 false) ex_now);
   inr 1%nat].

Definition ex_scheduled :=
  default ([], [], ex_open None, []) (ex_schedule ex_sched_ops (ex_open None) []).

Lemma ex_scheduled_run :
  ch_sched (ex_open None) [] (entries_of ex_sched_ops) ex_scheduled.1.1.1 ex_scheduled.1.1.2
    ex_scheduled.1.2 ex_scheduled.2.
Proof.
  apply ex_schedule_sched; [by repeat constructor|]. unfold ex_scheduled.
  destruct (ex_schedule ex_sched_ops (ex_open None) []) as [[[[gs ds] ch'] pool']|] eqn:E; [reflexivity|].
  exfalso. assert (match ex_schedule ex_sched_ops (ex_open None) [] with Some _ => true | None => false end = true)
    as H by (vm_compute; reflexivity). by rewrite E in H.
Qed.

Lemma notifications_once_witness :
  cun_UpdateID <$> made (entries_of ex_sched_ops) (ex_open None) = ["01_4"; "01_5"] ∧
  cun_UpdateID <$> (carried <$> ex_scheduled.1.1.1) = ["01_4"; "01_5"] ∧
  cun_UpdateID <$> ex_scheduled.1.1.2.*2 = ["01_5"] ∧
  cun_UpdateID <$> (carried <$> ex_scheduled.2) = ["01_4"] ∧
  carried <$> ([] ++ ex_scheduled.1.1.1) ≡ₚ ex_scheduled.1.1.2.*2 ++ (carried <$> ex_scheduled.2).
Proof.
  split; [vm_compute; reflexivity|]. split; [vm_compute; reflexivity|].
  split; [vm_compute; reflexivity|]. split; [vm_compute; reflexivity|].
  destruct (notifications_once _ _ _ _ _ _ _ (ex_wf None) ex_scheduled_run) as (_ & Hp & _). exact Hp.
Defined.

Lemma answered_at_most_once_witness :
  answered (ex_run ex_ops (ex_open None)).1 = [ex_state_of 4 true] ∧
  answered (ex_run ex_ops (ex_open None)).1 ++
    waiting (ch_chUpdateResponders (ex_run ex_ops (ex_open None)).2) ⊆+ [ex_state_of 4 true].
Proof.
  split; [vm_compute; reflexivity|].
  apply (answered_at_most_once _ _ _ _ ex_run_ops).
Defined.

(** The channel with the final update of [ex_ops] pending. *)
Definition ex_pending : Channel unit := (ex_run (take 2 ex_ops) (ex_open None)).2.
Definition ex_entry : chUpdateResponderEntry :=
  default (mkUpdEntry (mkChUpdateNotif "" ChInfo_zero ChInfo_zero ChUpdateTypeOpen 0 None)
             (ex_state_of 0 false) 0)
    (ch_chUpdateResponders ex_pending !! "01_4").

Definition ex_info (s : PState) : ChInfo :=
  match makeChInfo ex_params (Some s) with Ret i => i | _ => ChInfo_zero end.

Lemma ex_pending_entry : ch_chUpdateResponders ex_pending !! "01_4" = Some ex_entry.
Proof.
  unfold ex_entry. destruct (_ !! _) eqn:E; [reflexivity|exfalso].
  assert (match ch_chUpdateResponders ex_pending !! "01_4" with Some _ => true | None => false end = true)
    as H by (vm_compute; reflexivity). by rewrite E in H.
Qed.

Lemma RespondChUpdate_spec_witness :
  (RespondChUpdate "01_4" true ex_now ex_pending).1.1 =
    [EvAccept (15 * Second - 5 * Second) (ex_state_of 4 true); EvRegister (25 * Second)].
Proof.
  destruct (RespondChUpdate_spec "01_4" ex_now ex_pending ex_entry) as [_ H];
    [reflexivity|reflexivity|apply ex_pending_entry|].
  destruct H as (_ & _ & _ & H); [vm_compute; discriminate|].
  rewrite (H (ex_controller 4 true true true) (ex_controller 4 true true true) None
             (ex_info (ex_state_of 4 true))); reflexivity.
Defined.

Lemma closed_channel_refuses_witness :
  let ch := ex_ch (ex_controller 3 false true true) closed None in
  Close ch = ([], ch, Ret (ex_info (ex_state_of 3 false), Some closed_error)).
Proof.
  apply (closed_channel_refuses (ex_ch (ex_controller 3 false true true) closed None)
           (ex_info (ex_state_of 3 false))); reflexivity.
Defined.

Lemma Close_spec_witness :
  value (Close (ex_ch (ex_controller 3 false false true) open None)) =
    Ret (ex_info (ex_state_of 3 false), None).
Proof.
  destruct (Close_spec (ex_ch (ex_controller 3 false false true) open None)
    (ex_controller 3 false false true) (Some (PeerRejectedError "no" "rejected by peer"))
    (ex_controller 3 false false true) None (ex_info (ex_state_of 3 false))) as (H & _);
    [reflexivity|reflexivity|reflexivity|vm_compute; by eexists|
     reflexivity|reflexivity|].
  rewrite H. reflexivity.
Defined.

Lemma HandleAdjudicatorEvent_spec_witness :
  ch_status (final (HandleAdjudicatorEvent (RegisteredEvent None) (ex_open (Some ex_notifier)))) = closed.
Proof.
  rewrite (HandleAdjudicatorEvent_spec (RegisteredEvent None) (ex_open (Some ex_notifier))
    (ex_controller 3 false true true) None (ex_info (ex_state_of 3 false)));
    reflexivity.
Defined.

Lemma SendChUpdate_spec_witness :
  value (SendChUpdate (λ s, Ret (s, None)) (ex_open None)) = Ret (ex_info (ex_state_of 4 false), None).
Proof.
  destruct (SendChUpdate_spec (λ s, Ret (s, None)) (ex_open None) (ex_controller 4 false true true) None)
    as [H _]; [reflexivity|reflexivity|reflexivity|vm_compute; by eexists|].
  destruct (H eq_refl) as [_ Hr].
  rewrite (Hr (ex_info (ex_state_of 4 false))); reflexivity.
Defined.

Lemma late_notification_panics_witness :
  ∃ notif ch1 ch2,
    ch_step (OpHandleUpdate None (ex_state_of 4 false) (ex_state_of 4 false) ex_now)
      (ex_open (Some ex_notifier)) [EvGoLater notif] ch1 ∧
    ch_step OpUnsubChUpdates ch1 [] ch2 ∧
    value (run_op (OpRunNotify notif) ch1) = Ret tt ∧
    value (run_op (OpRunNotify notif) ch2) = Panic "nil pointer dereference".
Proof.
  eexists. apply (late_notification_panics (ex_open (Some ex_notifier)) ex_notifier);
    reflexivity.
Defined.
