(* ===== verification/SessionWitnesses.v ===== *)
(** * Witnesses for the theorems on clients and sessions

    A node with ETH and one token, a session of "self" with the peer "bob" and
    one channel restored from the database. *)
From Stdlib Require Import Strings.Byte.
From S2P Require Import Prelude Perun Errors SessionErrors Currency IDProvider Contracts Sdk Timeout.
From S2P Require Import ChRegistry Client User Channel ChannelProps SessionHelpers Session SessionProps.
From S2P Require Import SessionLife Instances Witnesses.

(** ** The node's registries *)
Definition ex_currencies : Registry :=
  (Currency.Register (Currency.Register NewRegistry "ETH" 18).1 "PRN" 18).1.
Definition ex_env : env := mkEnv ex_contracts ex_currencies ex_backend.

Lemma ex_registries : wf_registries ex_contracts ex_currencies.
Proof.
  split; [apply ex_contracts_wf|apply Register_wf, Register_wf, NewRegistry_wf|].
  intros s. unfold Asset, isSymbolRegistered.
  change (cr_currencies ex_contracts) with (<["PRN" := 1%nat]> {[ "ETH" := 0%nat ]} : gmap string nat).
  destruct (decide (s = "PRN")) as [->|H1]; [reflexivity|].
  destruct (decide (s = "ETH")) as [->|H2]; [reflexivity|].
  rewrite lookup_insert_ne, lookup_singleton_ne by done. intros H. by destruct (is_Some_None H).
Qed.

(** ** A session *)
Definition ex_cfg : Config :=
  mkConfig (mkUserConfig "self" "0x1" (mkWalletConfig "on" "p") [] "0xa" (mkWalletConfig "off" "p")
              "127.0.0.1:5750" "tcp")
    "local" "peers.yaml" "ws://" 1337 0 (10 * Second) (5 * Second) "db" 0 None None.
Definition ex_file : id_file := mkIDFile None ex_peers_file None (map_to_list ex_peers_file).

Definition ex_session0 : Session unit client idProviderCache :=
  mkSession "" false (mkUser PeerID_zero (mkCredential "" "" "" "") (mkCredential "" "" "" "") [])
    (mkClient (false, []) false [] None [] false) ex_cache ex_timeoutCfg ""
    (mkChainBackend [] 0) [] (newChRegistry (C := Channel unit)) None [] ∅ false.
Definition ex_session : Session unit client idProviderCache :=
  match New ex_env ex_cfg ex_file "s1" with Ret (inl s) => s | _ => ex_session0 end.

Lemma ex_session_new : New (Out := unit) ex_env ex_cfg ex_file "s1" = Ret (inl ex_session).
Proof.
  assert (match New (Out := unit) ex_env ex_cfg ex_file "s1" with Ret (inl _) => true | _ => false end = true)
    as H by (vm_compute; reflexivity).
  unfold ex_session. destruct (New _ _ _ _) as [[s|e]|w|]; done.
Qed.


(** A session with one open channel, its client restored. *)
Definition ex_user : User :=
  mkUser (mkPeerID "self" (Some "0xa") "0xa" "127.0.0.1:5750" "tcp")
    (mkCredential "0x1" "on" "on" "p") (mkCredential "0xa" "off" "off" "p") [].
Definition ex_client : client :=
  mkClient (false, [ex_controller 0 false true true]) false [] (Some tt) [WgListen; WgHandle] false.
Definition ex_idp : idProviderCache :=
  mkCache ex_backend {[ "self" := u_PeerID ex_user; "bob" := set_OffChainAddr "0xb" (ex_peer "bob" "0xb") ]}
    {[ "0xa" := "self"; "0xb" := "bob" ]}.
Definition ex_sess : Session unit client idProviderCache :=
  mkSession "s1" true ex_user ex_client ex_idp ex_timeoutCfg "ws://" (mkChainBackend ex_chain 10) ["eth"]
    (put ID (ex_open None) (newChRegistry (C := Channel unit))) None [] ∅ false.

Lemma ex_sess_wf : wf_session ex_sess.
Proof. split; [apply put_wf, newChRegistry_wf|done|apply map_Forall_empty]. Qed.

Lemma ex_addrs : addrs_known ex_idp.
Proof.
  intros a p H. change (peerIDsByAlias ex_idp !! a = Some p) in H. unfold ex_idp in H. cbn [peerIDsByAlias] in H.
  apply lookup_insert_Some in H as [[_ <-]|[_ H]]; [by eexists|].
  apply lookup_singleton_Some in H as [_ <-]. by eexists.
Qed.

Lemma ex_funder_ready : funder_ready ex_contracts ["eth"].
Proof. intros a. cbn. intros [= <-] _. reflexivity. Qed.

Lemma session_invariant_witness :
  let r := run_sop (SOpClose true) ex_sess in
  session_inv ex_contracts (final r) ∧ evolves ex_sess (events r ++ []) (final r).
Proof.
  apply (session_invariant ex_contracts ex_sess [SOpClose true]).
  - split; [apply ex_sess_wf|apply ex_addrs|apply ex_funder_ready].
  - eapply s_steps_cons; [reflexivity|apply s_steps_nil].
Defined.

(** ** Opening a channel *)
Definition ex_request : BalInfo := mkBalInfo ["ETH"] ["bob"; "self"] [["2e0"; "1e0"]].
Definition ex_request' : BalInfo := mkBalInfo ["ETH"] ["self"; "bob"] [["1e0"; "2e0"]].

Lemma sanitizeBalInfo_spec_witness :
  ∃ bi', sanitizeBalInfo ex_request = Ret bi' ∧ bi_Parts bi' !! 0%nat = Some OwnAlias.
Proof.
  destruct (sanitizeBalInfo_spec ex_request) as (bi' & H & _ & _ & Ho & _); [by repeat constructor|].
  exists bi'. split; [exact H|]. apply Ho. right. left.
Defined.

Lemma makeAllocation_spec_witness :
  ∃ cs, makeAllocation ex_request' ex_contracts ex_currencies =
          Ret (inl (cs, mkAllocation ["eth"] [[10 ^ 18; 2 * 10 ^ 18]])) ∧
        getCurrencies ["eth"] ex_contracts ex_currencies = inl cs.
Proof.
  destruct (makeAllocation_spec ex_request' _ _ ex_registries) as (r & Hr & H).
  destruct r as [[cs al]|e].
  - exists cs. assert (al = mkAllocation ["eth"] [[10 ^ 18; 2 * 10 ^ 18]]) as ->.
    { transitivity (match makeAllocation ex_request' ex_contracts ex_currencies with
                    | Ret (inl (_, al)) => al | _ => mkAllocation [] [] end);
        [by rewrite Hr|vm_compute; reflexivity]. }
    split; [exact Hr|apply H].
  - exfalso. assert (match makeAllocation ex_request' ex_contracts ex_currencies with
                    | Ret (inl _) => true | _ => false end = true) as Hb by (vm_compute; reflexivity).
    by rewrite Hr in Hb.
Defined.

Lemma OpenCh_spec_witness :
  wp (OpenCh ex_env ex_request (mkApp (Some "") (Some "")) 10) ex_sess
    (λ es s' r, open_outcome ex_env ex_request' (mkApp (Some "") (Some "")) 10 ex_sess es s' r ∧ documented r ∧
      s_locked s' = false ∧ s_isOpen s' = true) ∧
  match value (OpenCh ex_env ex_request (mkApp (Some "") (Some "")) 10 ex_sess) with
  | Ret (_, None) => True
  | _ => False
  end.
Proof.
  split; [|vm_compute; exact I].
  apply (OpenCh_spec ex_env ex_request ex_request'); try reflexivity.
  - apply ex_registries.
  - apply ex_funder_ready.
  - apply ex_addrs.
Defined.

(** ** Proposals *)
Definition ex_proposal : LedgerChannelProposal :=
  mkLedgerChannelProposal [x0a] 10 "" "" (mkAllocation ["eth"] [[10 ^ 18; 2 * 10 ^ 18]]) ["0xb"; "0xa"].
Definition ex_prop_notif : ChProposalNotif :=
  match chProposalNotif ["bob"; "self"] [Some ex_eth_Currency] ex_proposal 1010 with
  | Ret n => n
  | _ => mkChProposalNotif "" BalInfo_zero (mkApp None None) 0 0
  end.
Definition ex_prop_entry : chProposalResponderEntry :=
  mkPropEntry ex_proposal ex_prop_notif (ex_controller 0 false true true) [Some ex_eth_Currency].
Definition ex_prop_notifier : ChProposalNotifier unit := λ _, tt.

(** A scheduler: [inl o] runs a critical section, [inr k] the waiting goroutine [k]. *)
Fixpoint ex_sched (sc : list (section_op (Out := unit) + nat)) (s : Session unit client idProviderCache)
    (pool : list (goroutine (Out := unit)))
    : option (list (goroutine (Out := unit)) * list (goroutine (Out := unit)) *
              list chProposalResponderEntry * Session unit client idProviderCache *
              list (goroutine (Out := unit))) :=
  match sc with
  | [] => Some ([], [], [], s, pool)
  | inl o :: sc' =>
      match run_section o s with
      | (es, s1, Ret r) =>
          '(gs, ds, rs, s2, pool2) ← ex_sched sc' s1 (pool ++ started es);
          Some (started es ++ gs, ds, option_list r ++ rs, s2, pool2)
      | _ => None
      end
  | inr k :: sc' =>
      g ← pool !! k;
      '(gs, ds, rs, s2, pool2) ← ex_sched sc' s (take k pool ++ drop (S k) pool);
      Some (gs, g :: ds, rs, s2, pool2)
  end.

Definition sections_of (sc : list (section_op (Out := unit) + nat)) : list (section_op (Out := unit)) :=
  omap (λ x, match x with inl o => Some o | _ => None end) sc.

Lemma ex_sched_ok sc s pool gs ds rs s' pool' :
  ex_sched sc s pool = Some (gs, ds, rs, s', pool') → sched s pool (sections_of sc) gs ds rs s' pool'.
Proof.
  revert s pool gs ds rs. induction sc as [|[o|k] sc IH]; intros s pool gs ds rs H; cbn in *.
  - simplify_eq. constructor.
  - destruct (run_section o s) as [[es s1] [r|w|]] eqn:E; [|done..].
    destruct (ex_sched sc s1 _) as [[[[[gs1 ds1] rs1] s2] pool2]|] eqn:E2; cbn in H; [|done].
    simplify_eq. eapply sched_section; [done|by apply IH].
  - destruct (pool !! k) as [g|] eqn:Eg; cbn in H; [|done].
    destruct (ex_sched sc s _) as [[[[[gs1 ds1] rs1] s2] pool2]|] eqn:E2; cbn in H; [|done].
    simplify_eq. rewrite <-(take_drop_middle _ _ _ Eg). by apply sched_go, IH.
Qed.

(** A proposal is stored, the user subscribes and answers twice; the goroutine that
    delivers the notification runs in between. *)
Definition ex_sched_ops : list (section_op (Out := unit) + nat) :=
  [inl (SecStore ex_prop_entry); inl (SecSub ex_prop_notifier); inl (SecTake "0a"); inr 0%nat;
   inl (SecTake "0a")].
Definition ex_scheduled := default ([], [], [], ex_sess, []) (ex_sched ex_sched_ops ex_sess []).

Lemma ex_scheduled_ok :
  sched ex_sess [] (sections_of ex_sched_ops) ex_scheduled.1.1.1.1 ex_scheduled.1.1.1.2
    ex_scheduled.1.1.2 ex_scheduled.1.2 ex_scheduled.2.
Proof.
  apply ex_sched_ok. unfold ex_scheduled.
  destruct (ex_sched ex_sched_ops ex_sess []) as [[[[[gs ds] rs] s'] pool']|] eqn:E; [reflexivity|].
  exfalso. assert (match ex_sched ex_sched_ops ex_sess [] with Some _ => true | None => false end = true)
    as H by (vm_compute; reflexivity). by rewrite E in H.
Qed.

Lemma proposals_once_witness :
  length ex_scheduled.1.1.1.2 = 1%nat ∧ length ex_scheduled.1.1.2 = 1%nat ∧ length ex_scheduled.2 = 0%nat ∧
  [] ++ ex_scheduled.1.1.1.1 ≡ₚ ex_scheduled.1.1.1.2 ++ ex_scheduled.2 ∧
  ex_scheduled.1.1.2 ++ pending ex_scheduled.1.2 ⊆+ pending ex_sess ++ [ex_prop_entry].
Proof.
  split; [vm_compute; reflexivity|]. split; [vm_compute; reflexivity|]. split; [vm_compute; reflexivity|].
  apply (proposals_once _ _ _ _ _ _ _ _ ex_sess_wf ex_scheduled_ok).
Defined.

(** The session with the proposal waiting for an answer. *)
Definition ex_waiting : Session unit client idProviderCache :=
  set_chProposalResponders {[ "0a" := ex_prop_entry ]} ex_sess.

Lemma RespondChProposal_spec_witness :
  value (RespondChProposal ex_env "0a" false ex_now ex_waiting) = Ret (ChInfo_zero, None) ∧
  events (RespondChProposal ex_env "0a" false ex_now ex_waiting) =
    [SEvReject (respChProposalReject ex_timeoutCfg) (ex_controller 0 false true true) "rejected by user"].
Proof.
  pose proof (RespondChProposal_spec ex_env "0a" ex_now ex_waiting eq_refl) as H.
  change (negb (s_isOpen ex_waiting)) with false in H. cbv iota in H.
  change (s_chProposalResponders ex_waiting !! "0a") with (Some ex_prop_entry) in H.
  destruct H as [_ H]. destruct H as [H _]; [vm_compute; discriminate|].
  rewrite H. split; reflexivity.
Defined.

Lemma HandleProposal_spec_witness :
  value (HandleProposal ex_env (LedgerProposal ex_proposal) (ex_controller 0 false true true) ex_now ex_sess) = Ret tt.
Proof.
  pose proof (HandleProposal_spec ex_env ex_proposal (ex_controller 0 false true true) ex_now ex_sess
    [registered_Currency ex_currencies "ETH"]
    (match chProposalNotif ["bob"; "self"] [registered_Currency ex_currencies "ETH"] ex_proposal 1005 with
     | Ret n => n | _ => mkChProposalNotif "" BalInfo_zero (mkApp None None) 0 0 end)
    eq_refl eq_refl eq_refl) as H.
  change (peerAliases (s_idProvider ex_sess) (lcp_Peers ex_proposal)) with (["bob"; "self"], true) in H.
  cbn beta iota zeta in H.
  destruct (HandleProposal _ _ _ _ _) as [[es s'] res].
  destruct H as [-> _]; [vm_compute; discriminate|reflexivity|reflexivity].
Defined.

Lemma HandleProposal_unknown_asset_panics_witness :
  let p := mkLedgerChannelProposal [x0a] 10 "" "" (mkAllocation ["other"] [[1; 2]]) ["0xb"; "0xa"] in
  value (HandleProposal ex_env (LedgerProposal p) (ex_controller 0 false true true) ex_now ex_sess) =
    Panic "index out of range".
Proof.
  intros p.
  pose proof (HandleProposal_unknown_asset_panics ex_env p (ex_controller 0 false true true) ex_now ex_sess
    (ErrText ("unknown asset " +:+ "other")) [1; 2] [] eq_refl eq_refl eq_refl) as H.
  destruct (HandleProposal _ _ _ _ _) as [[es s'] res]. destruct H as [-> _]. reflexivity.
Defined.

(** ** Closing *)
Lemma ex_idle : Forall idle (chs (s_chs ex_sess)).
Proof. constructor; [|constructor]. split; [reflexivity|]. vm_compute. reflexivity. Qed.

Definition ex_client_closed : client := (Client.Close ex_client).1.
Lemma ex_client_close : cc_Close (s_chClient ex_sess) = (ex_client_closed, Ret None).
Proof.
  assert ((cc_Close (s_chClient ex_sess)).2 = Ret None) as H by reflexivity.
  rewrite (surjective_pairing (cc_Close (s_chClient ex_sess))), H. reflexivity.
Qed.

Lemma session_Close_spec_witness :
  value (Session.Close false ex_sess) =
    Ret ([], Some (NewAPIErrFailedPreConditionUnclosedChs
      (ErrText "session cannot be closed with channels in open phase without force option")
      [info_val (ex_open None)])) ∧
  final (Session.Close false ex_sess) = ex_sess.
Proof.
  rewrite (session_Close_spec false ex_sess ex_client_closed None eq_refl eq_refl ex_idle ex_client_close).
  split; reflexivity.
Defined.

Lemma session_deadlock_after_Close_witness :
  value (GetChsInfo (final (Session.Close true ex_sess))) = Block.
Proof.
  assert (omap unexpected_phase (chs (s_chs ex_sess)) = []) as Hu by reflexivity.
  destruct (session_deadlock_after_Close ex_sess ex_client_closed None (ex_open None) []
    eq_refl eq_refl ex_idle ex_client_close Hu eq_refl) as (_ & _ & H & _).
  exact H.
Defined.

Lemma closed_session_refuses_witness :
  UnsubChProposals (set_isOpen false ex_sess) = ([], set_isOpen false ex_sess, Ret (Some ErrClosedSession)).
Proof. apply (closed_session_refuses (set_isOpen false ex_sess) eq_refl eq_refl). Defined.

Lemma AddPeerID_spec_witness :
  value (AddPeerID (ex_peer "carol" "0xc") ex_sess) = Ret None.
Proof.
  pose proof (AddPeerID_spec (ex_peer "carol" "0xc") ex_sess eq_refl eq_refl) as H.
  destruct (AddPeerID _ _) as [[es s'] res]. destruct H as [_ H].
  change ((idp_Write _ _ _).2) with (@None goerror) in H. destruct H as [-> _]. reflexivity.
Defined.

(** ** The client *)
Lemma client_Close_spec_witness :
  (Client.Close ex_client).2 = Ret None ∧ cl_goroutines (Client.Close ex_client).1 = [] ∧
  ∀ c1 r, rtc close_step (ex_client, inl Close_body) (c1, inr r) → r = Ret None ∧ cl_goroutines c1 = [].
Proof.
  destruct (client_Close_spec ex_client tt eq_refl) as (_ & _ & H).
  split; [reflexivity|]. split; [reflexivity|]. intros c1 r Hrun. specialize (H c1 (inr r) Hrun).
  change ((pcl_Close _).2) with (@None goerror) in H. change ((bus_Close _).2) with (@None goerror) in H.
  destruct H as (-> & _ & _ & Hg). split; [reflexivity|exact Hg].
Defined.

Lemma RestoreChs_spec_witness : cl_dbConn (RestoreChs "db" 0 ex_client).1.1 = Some tt.
Proof.
  pose proof (RestoreChs_spec "db" 0 ex_client) as H. destruct (RestoreChs _ _ _) as [[c' l] err].
  apply H.
Defined.
