(* ===== verification/NodeWitnesses.v ===== *)
(** * Witnesses for the theorems on payments, the node and the API server *)
From Stdlib Require Import Strings.Byte.
From S2P Require Import Prelude Perun Errors SessionErrors Currency IDProvider Contracts Sdk Timeout.
From S2P Require Import ChRegistry Client User Channel ChannelProps SessionHelpers Session SessionProps.
From S2P Require Import SessionLife Node Payment Grpc GrpcProps Instances Witnesses SessionWitnesses.

(** ** Payments *)
Definition ex_payments : list Payment :=
  [mkPayment "ETH" "bob" "5e-1"; mkPayment "ETH" "self" "25e-2"].

Lemma ex_two_party n : two_party (ex_open n).
Proof. split; [reflexivity|by left|reflexivity]. Qed.

Lemma SendPayChUpdate_spec_witness :
  match Payment.SendPayChUpdate ex_payments (ex_open None) with
  | (_, ch, Ret (info, None)) =>
      al_Balances (st_Allocation (pch_State (ch_pch ch))) = [[75 * 10 ^ 16; 225 * 10 ^ 16]] ∧
      pci_Version info = "4" ∧
      ∃ b, paid (ex_open None) ex_payments [[10 ^ 18; 2 * 10 ^ 18]] b
  | _ => False
  end.
Proof.
  destruct (SendPayChUpdate_spec ex_payments (ex_open None) eq_refl eq_refl (ex_two_party None))
    as (es & ch & [info err] & E & H).
  { split; [reflexivity|]. repeat constructor. }
  assert (match Payment.SendPayChUpdate ex_payments (ex_open None) with
    | (_, ch, Ret (info, None)) =>
        (al_Balances (st_Allocation (pch_State (ch_pch ch))), pci_Version info) =
          ([[75 * 10 ^ 16; 225 * 10 ^ 16]], "4")
    | _ => False end) as Hc by (vm_compute; reflexivity).
  rewrite E in Hc |- *. destruct err as [e|]; [destruct Hc|]. injection Hc as H1 H2.
  split; [exact H1|]. split; [exact H2|]. destruct H as (_ & _ & b & i & Hp & _). exists b. exact Hp.
Defined.

Lemma toPayChsCloseSessionErr_spec_witness :
  ∃ e', toPayChsCloseSessionErr (Some (NewAPIErrUnknownInternal (ErrText "x"))) = Some e' ∧
    Code e' = ErrUnknownInternal.
Proof.
  destruct (toPayChsCloseSessionErr_spec (NewAPIErrUnknownInternal (ErrText "x"))) as (e' & H & _ & _ & Hc & _).
  - split; [reflexivity|exact I].
  - exists e'. exact (conj H Hc).
Defined.

(** ** The node *)
Definition ex_node_cfg : NodeConfig :=
  mkNodeConfig "" "" "0x02" 1337 "0x01" "eth" [("0x02", "0x03")] 0 0 0 ["tcp"] ["local"] ["ETH"].

Definition ex_node0 : node GOut := mkNode ex_node_cfg ∅ ex_contracts ex_currencies false.
Definition ex_node : node GOut :=
  match Node.New (Out := GOut) ex_node_cfg None with inl n => n | inr _ => ex_node0 end.

Lemma ex_node_new : Node.New (Out := GOut) ex_node_cfg None = inl ex_node.
Proof.
  assert (match Node.New (Out := GOut) ex_node_cfg None with inl _ => true | inr _ => false end = true)
    as H by (vm_compute; reflexivity).
  unfold ex_node. by destruct (Node.New _ _).
Qed.

Lemma node_New_spec_witness :
  wf_node ex_node ∧ asset_registered (n_contractRegistry ex_node) ("0x02", "0x03").
Proof.
  pose proof (node_New_spec (Out := GOut) ex_node_cfg None) as H. rewrite ex_node_new in H.
  destruct H as [H1 _ _ _ H2 _ _].
  split; [exact H1|]. exact (Forall_inv H2).
Defined.

(** A node with one session that has one channel. *)
Definition ex_gch : Channel GOut :=
  mkChannel ex_params (ex_controller 3 false true true) open false None [] ∅ false.
Definition ex_gsess : Session GOut client idProviderCache :=
  mkSession "s1" true ex_user ex_client ex_idp ex_timeoutCfg "ws://" (mkChainBackend ex_chain 10) ["eth"]
    (put ID ex_gch (newChRegistry (C := Channel GOut))) None [] ∅ false.
Definition ex_node1 : node GOut :=
  mkNode ex_node_cfg {[ "s1" := ex_gsess ]} ex_contracts ex_currencies false.

Lemma ex_in_step : in_step ex_contracts ex_currencies.
Proof.
  split; [apply ex_registries|]. intros s Hs. apply (wf_symbols_dom _ (wfr_currencies _ _ ex_registries)) in Hs.
  change (symbols ex_currencies) with ["ETH"; "PRN"] in Hs.
  apply elem_of_cons in Hs as [->|Hs]; [by eexists|].
  apply list_elem_of_singleton in Hs as ->. by eexists.
Qed.

Lemma ex_node1_wf : wf_node ex_node1.
Proof.
  split; [apply ex_in_step|]. intros id s Hs. unfold ex_node1 in Hs. cbn [n_sessions] in Hs.
  apply lookup_singleton_Some in Hs as [<- <-]. split; [done|].
  split; [|apply ex_addrs|apply ex_funder_ready].
  split; [apply put_wf, newChRegistry_wf|done|apply map_Forall_empty].
Qed.

Lemma ex_restored : ∀ t c, Forall bals_match (pcl_Restore t c).1.2.
Proof. intros t c. cbn. apply Forall_forall. by intros p [H _]%list_elem_of_filter. Qed.

Lemma RegisterCurrency_spec_witness :
  match Node.RegisterCurrency "token2" "asset2" ex_node1 with
  | (_, n, Ret (symbol, None)) => symbol = "MPRN" ∧ in_step (n_contractRegistry n) (n_currencyRegistry n)
  | _ => False
  end.
Proof.
  pose proof (RegisterCurrency_spec "token2" "asset2" ex_node1 eq_refl ex_node1_wf) as H.
  assert (match value (Node.RegisterCurrency "token2" "asset2" ex_node1) with
          | Ret (s, None) => s = "MPRN" | _ => False end) as Hv by (vm_compute; reflexivity).
  destruct (Node.RegisterCurrency "token2" "asset2" ex_node1) as [[es n] [[s [e|]]|w|]]; try destruct Hv.
  destruct H as (_ & _ & _ & _ & H & _). split; [reflexivity|exact H].
Defined.

Lemma OpenSession_spec_witness :
  wp (Node.OpenSession "session.yaml" (inl ex_cfg) ex_file "s2") ex_node1
    (λ es n' r, es = [] ∧ session_opened (inl ex_cfg) "s2" ex_node1 n' r) ∧
  match value (Node.OpenSession "session.yaml" (inl ex_cfg) ex_file "s2" ex_node1) with
  | Ret (id, infos, None) => id = "s2" ∧ length infos = 1%nat
  | _ => False
  end.
Proof.
  split; [|vm_compute; split; reflexivity].
  apply OpenSession_spec; [reflexivity|apply ex_node1_wf|reflexivity|apply ex_restored].
Defined.

(** A token is registered, then the session is closed. *)
Definition ex_nops : list (n_op (Out := GOut)) :=
  [NOpRegisterCurrency "token2" "asset2"; NOpSession "s1" (λ _, SOpClose true)].

Fixpoint ex_nrun (os : list (n_op (Out := GOut))) (n : node GOut) : option (node GOut) :=
  match os with
  | [] => Some n
  | o :: os' => match run_nop o n with (_, n', Ret _) => ex_nrun os' n' | _ => None end
  end.

Lemma ex_nrun_steps os n n' :
  Forall (λ o, match o with NOpOpenSession _ _ _ _ => False | _ => True end) os →
  ex_nrun os n = Some n' → n_steps n os n'.
Proof.
  intros Hall. revert n. induction Hall as [|o os Ho _ IH]; intros n; cbn [ex_nrun].
  { intros [= <-]. constructor. }
  destruct (run_nop o n) as [[es n1] [[]|w|]] eqn:E; [|done..]. intros H.
  econstructor; [by destruct o|exact E|by apply IH].
Qed.

Lemma node_invariant_witness :
  match ex_nrun ex_nops ex_node1 with
  | Some n' => wf_node n' ∧ n_evolves ex_node1 n'
  | None => False
  end.
Proof.
  destruct (ex_nrun ex_nops ex_node1) as [n'|] eqn:E.
  - apply (node_invariant ex_node1 ex_nops n' ex_restored ex_node1_wf).
    apply ex_nrun_steps; [repeat constructor|exact E].
  - assert (match ex_nrun ex_nops ex_node1 with Some _ => true | None => false end = true) as H
      by (vm_compute; reflexivity).
    rewrite E in H. discriminate H.
Defined.

(** ** The server *)
Definition ex_server : payChAPIServer := mkServer ex_node1 ∅ {[ "s1" := ∅ ]} [].

Lemma ex_server_wf : wf_signals ex_server.
Proof.
  assert (∀ k, signal_of ex_server k = None) as H.
  { intros [sid|sid chID]; [done|]. unfold ex_server. cbn [signal_of chUpdatesNotif].
    destruct (decide (sid = "s1")) as [->|Hne]; [by rewrite lookup_singleton_eq|].
    by rewrite lookup_singleton_ne. }
  split; intros k; [intros i|intros k' i]; by rewrite H.
Qed.

Lemma update_subscription_witness :
  let a1 := final (SubPayChUpdates_call "s1" "01" ex_server) in
  value (Grpc.UnsubPayChUpdates "s1" "01" a1) = Panic "close of nil channel".
Proof.
  apply (update_subscription ex_server "s1" "01" ex_gsess 0 ex_gch ∅);
    [split; reflexivity|reflexivity|reflexivity|reflexivity|apply ex_server_wf|reflexivity|reflexivity].
Defined.

Lemma signals_closed_once_witness :
  let a1 := final (run_sig (SigStoreUpdates "s1" "01") ex_server) in
  let a2 := final (run_sig (SigCloseUpdates "s1" "01") a1) in
  wf_signals a2 ∧ signals a2 = [true].
Proof.
  intros a1 a2. split; [|reflexivity].
  apply (signals_closed_once ex_server [SigStoreUpdates "s1" "01"; SigCloseUpdates "s1" "01"] a2 ex_server_wf).
  eapply sig_steps_cons; [reflexivity|]. eapply sig_steps_cons; [reflexivity|]. apply sig_steps_nil.
Defined.

Lemma toGrpcError_spec_witness :
  ∃ m, toGrpcError (NewAPIErrPeerRequestTimedOut (ErrText "x") "bob" "10s") = Ret m ∧
    pb_Code m = 101 ∧ pb_AddInfo m = Some (Pb_PeerRequestTimedOut "" "10s").
Proof.
  destruct (toGrpcError_spec (NewAPIErrPeerRequestTimedOut (ErrText "x") "bob" "10s"))
    as (m & H & _ & Hc & _ & Hi); [discriminate|].
  exists m. exact (conj H (conj Hc Hi)).
Defined.

Lemma unknown_session_refused_witness :
  ∃ m, Grpc.GetPayChsInfo "s2" ex_server = ([], ex_server, Ret (inr m)) ∧ pb_Code m = 201.
Proof.
  destruct (unknown_session_refused "s2" ex_server eq_refl eq_refl) as (_ & _ & _ & (m & H & Hc & _) & _).
  exists m. exact (conj H Hc).
Defined.
