(* ===== verification/TuiWitnesses.v ===== *)
(** * The theorems on the dashboard at concrete inputs

    A dashboard on a terminal of 29 lines with two channels: one in the transaction
    phase, one whose proposal waits for the user; and a node that accepts every
    payment.  The libraries are those of [Instances]. *)
From Stdlib Require Import QArith.
From S2P Require Import Prelude Perun Errors Currency Contracts Grpc PbClient TuiText Tui TuiProps Instances.
Local Open Scope Z_scope.

Definition ex_entry (i : Z) (ph : chPhase) (st : responseStatus) (o t v c u : string) : channel :=
  mkEntry false ph "bob" (mkBal o t v) st "" balInfo_zero c u false i (i + 2) None.

Definition ex_tui (l : list channel) (R : registry) : tui :=
  mkTui true "s1" "alice" "ws" None (Some (mkTable 13 3 (Z.of_nat (length l) + 1) 10)) (Some R) l.

Definition ex_R : registry := mkReg [None; Some 0; Some 1; None; None; None; None]%nat {["c1" := 1]}.
Definition ex_dash : tui :=
  ex_tui [ex_entry 1 transact noUpdate "1" "2" "3" "c1" ""; ex_entry 2 open waitingForUser "" "" "" "" "p1"] ex_R.

Definition ex_info (c o t v : string) : pb_PayChInfo :=
  mkPbPayChInfo c (mkPbBalInfo ["ETH"] ["self"; "bob"] [[o; t]]) v.
Definition ex_srv : NodeServer :=
  mkNodeServer (λ _, inr (ErrText "")) (λ _ _ _, inr (ErrText "")) (λ _, None) (λ _, inr (ErrText ""))
    (λ _ _ _, inl (inl (ex_info "c2" "3" "4" "0"))) (λ _ _, inr (ErrText ""))
    (λ _ _ _, inl (inl (ex_info "c1" "0.5" "2.5" "4"))) (λ _ _, None) (λ _ _, inr (ErrText ""))
    (λ _ _ _ _, inl (inl (ex_info "c1" "0.5" "2.5" "4"))) (λ _ _, inr (ErrText ""))
    (λ _ _, inr (ErrText "")) (λ _ _, inr (ErrText "")) (λ _ _, inr (ErrText "")) (inr (ErrText "")) (inl 90).

Lemma ex_dash_wf : wf_tui ex_dash.
Proof.
  split.
  - eexists _, _. split_and!; [reflexivity..| |].
    + by split.
    + split.
      * reflexivity.
      * intros [|[|[|[|[|[|[|i]]]]]]] p [=]; subst; cbn; lia.
      * intros [|[|p]] Hp; cbn in *; [done|done|lia].
      * intros c s Hc. change ((({["c1" := 1]} : gmap string Z) !! c) = Some s) in Hc.
        apply lookup_singleton_Some in Hc as [<- <-].
        by exists 0%nat, (ex_entry 1 transact noUpdate "1" "2" "3" "c1" "").
      * intros [|[|p]] e [= <-] Hl; [|done]. by eexists.
  - intros [|[|p]] e [= <-]; done.
Qed.

(** ** Text *)
Lemma trimZeros_spec_witness :
  trimZeros "12.340" = trimZeros "12.34".
Proof.
  destruct (trimZeros_spec "12" "340" "34" eq_refl eq_refl eq_refl) as (_ & _ & _ & _ & _ & H).
  apply H. reflexivity.
Defined.

(** ** Runs: an update arrives on the first channel, the user accepts the proposal
    of the second, and the timer of the update fires. *)
Definition ex_dops : list dop :=
  [DUpdate (λ _, 0) 0 "u1" (mkBal "0.50" "2.5" "4") 100 false; DRespond ex_srv 1 true; DUpdateExpired 0 "u1"].

Definition ex_run (ops : list dop) (a : tui) : list TEvent * tui * bool :=
  foldl (λ '(es, a, ok) op,
    match run_dop op a with (es', a', Ret _) => (es ++ es', a', ok) | (es', a', _) => (es ++ es', a', false) end)
    ([], a, true) ops.

Lemma ex_drun : ∃ es a', drun false ex_dops ex_dash es a' ∧
  (phase <$> t_entries a') = [transact; transact] ∧ (status <$> t_entries a') = [expired; noUpdate] ∧
  answers es = [AskProposal "p1"].
Proof.
  eexists _, _. split.
  - eapply drun_cons; [|vm_compute; reflexivity|].
    { cbn. eexists. split; [reflexivity|]. split; [reflexivity|]. intros [=]. }
    eapply drun_cons; [exact I|vm_compute; reflexivity|].
    eapply drun_cons; [exact I|vm_compute; reflexivity|]. apply drun_nil.
  - split; [|split]; vm_compute; reflexivity.
Qed.

Lemma dashboard_invariant_witness : ∃ es a', drun false ex_dops ex_dash es a' ∧ wf_tui a'.
Proof.
  destruct ex_drun as (es & a' & Hr & _). exists es, a'. split; [exact Hr|].
  apply (dashboard_invariant false ex_dops ex_dash es a' ex_dash_wf Hr).
Defined.

Lemma dashboard_answers_once_witness : ∃ es a', drun false ex_dops ex_dash es a' ∧
  answers es = [AskProposal "p1"] ∧
  answers es ++ all_waiting a' ⊆+ [AskUpdate "u1"] ++ [AskProposal "p1"] ∧
  NoDup (answers es ++ all_waiting a').
Proof.
  destruct ex_drun as (es & a' & Hr & _ & _ & Ha). exists es, a'. split; [exact Hr|]. split; [exact Ha|].
  destruct (dashboard_answers_once false ex_dops ex_dash es a' ex_dash_wf Hr) as [H1 H2].
  split; [exact H1|]. apply H2. change (NoDup [AskUpdate "u1"; AskProposal "p1"]).
  apply NoDup_cons_2; [|apply NoDup_singleton]. intros H. apply list_elem_of_singleton in H. discriminate H.
Defined.

Lemma waits_end_witness :
  ends_wait (run_dop (DProposalExpired 1)) ex_dash 1
    (ex_entry 2 open waitingForUser "" "" "" "" "p1") proposal_waits ∧
  proposal_waits (ex_entry 2 open waitingForUser "" "" "" "" "p1").
Proof.
  destruct (waits_end false [] ex_dash [] ex_dash 1 (ex_entry 2 open waitingForUser "" "" "" "" "p1")
              ex_dash_wf (drun_nil false ex_dash) eq_refl) as [H _].
  split; [exact H|split; reflexivity].
Defined.

(** ** The limit: on a terminal of 22 lines already the first channel has no place *)
Definition ex_new : tui := mkTui true "s1" "alice" "ws" None None None [].
Definition ex_limit_ops : list dop :=
  [DOpen ex_srv "bob" "1" "2"; DProposed ex_srv 0 (true, "c2", mkBal "1" "2" "0", None)].

Lemma registry_limit_witness :
  ∃ es a, drun false ex_limit_ops (final (newDashboardScreen 22 None None ex_new)) es a ∧
    incomingUpdate (mkPbUpdateNotify "u" (ex_info "c2" "1" "2" "4") 0 100 None) a
    = ([], a, Panic "index out of range").
Proof.
  eexists _, _. split.
  - eapply drun_cons; [exact I|vm_compute; reflexivity|].
    eapply drun_cons; [cbn; eexists; split; reflexivity|vm_compute; reflexivity|]. apply drun_nil.
  - edestruct (registry_limit 22 ex_new false ex_limit_ops) as (R & _ & _ & _ & _ & H).
    + discriminate.
    + reflexivity.
    + eapply drun_cons; [exact I|vm_compute; reflexivity|].
      eapply drun_cons; [cbn; eexists; split; reflexivity|vm_compute; reflexivity|]. apply drun_nil.
    + instantiate (2 := 0%nat). reflexivity.
    + instantiate (1 := "c2"). vm_compute. reflexivity.
    + apply H; [vm_compute; discriminate|reflexivity].
Defined.

(** ** Payments *)
Definition ex_ethc : currency := mkcurrency ETHSymbol (New 1 ETHMaxDecimals).

Lemma update_spec_witness :
  wp (update ex_srv 0 "5e-1" true) ex_dash (λ es a' _, (status <$> t_entries a' !! 0%nat) = Some accepted).
Proof.
  destruct (update_spec ex_srv ex_dash 0 (ex_entry 1 transact noUpdate "1" "2" "3" "c1" "") "5e-1" true
              ex_ethc (5 * 10 ^ 17) (10 ^ 18) (2 * 10 ^ 18) 3 ex_dash_wf eq_refl) as [_ H].
  eapply wp_mono; [|apply H].
  - intros es a' [] (e' & -> & _ & _ & _ & Hs & _). cbn. rewrite Hs. reflexivity.
  - split; [reflexivity|]. split; [discriminate|]. split; discriminate.
  - reflexivity.
  - reflexivity.
  - vm_compute. reflexivity.
  - vm_compute. reflexivity.
  - vm_compute. reflexivity.
  - reflexivity.
  - intros info [= <-]. eexists. reflexivity.
Defined.

Definition ex_spent : tui :=
  ex_tui [ex_entry 1 transact accepted "0" "3" "4" "c1" ""; ex_entry 2 open waitingForUser "" "" "" "" "p1"] ex_R.
Lemma ex_spent_wf : wf_tui ex_spent.
Proof.
  split.
  - eexists _, _. split_and!; [reflexivity..| |].
    + by split.
    + split.
      * reflexivity.
      * intros [|[|[|[|[|[|[|i]]]]]]] p [=]; subst; cbn; lia.
      * intros [|[|p]] Hp; cbn in *; [done|done|lia].
      * intros c s Hc. change ((({["c1" := 1]} : gmap string Z) !! c) = Some s) in Hc.
        apply lookup_singleton_Some in Hc as [<- <-].
        by exists 0%nat, (ex_entry 1 transact accepted "0" "3" "4" "c1" "").
      * intros [|[|p]] e [= <-] Hl; [|done]. by eexists.
  - intros [|[|p]] e [= <-]; done.
Qed.

Lemma send_on_empty_balance_panics_witness :
  value (update ex_srv 0 "5e-1" false ex_spent) = Panic "nil pointer dereference".
Proof.
  eapply (send_on_empty_balance_panics ex_srv ex_spent 0 (ex_entry 1 transact accepted "0" "3" "4" "c1" "") "5e-1"
           false ex_ethc (5 * 10 ^ 17) _ ex_spent_wf eq_refl).
  - split; [reflexivity|]. split; [discriminate|]. split; discriminate.
  - reflexivity.
  - vm_compute. reflexivity.
  - left. vm_compute. reflexivity.
Defined.

(** ** A stream that is closed *)
Definition ex_stream : list (pb_UpdateNotify + pb_MsgError) :=
  [inl (mkPbUpdateNotify "u" (ex_info "c1" "0.5" "2.5" "4") 0 100 None);
   inl (mkPbUpdateNotify "" (ex_info "c1" "0.5" "2.5" "4") 2 0 None);
   inl (mkPbUpdateNotify "x" (ex_info "c9" "1" "1" "5") 0 100 None)].

Lemma incomingUpdateHandler_ends_witness :
  incomingUpdateHandler ex_stream None ex_dash = incomingUpdateHandler (take 2 ex_stream) None ex_dash.
Proof.
  destruct (incomingUpdateHandler_ends ex_dash ex_stream None ex_dash_wf) as (_ & H & _).
  - intros t R c s [= <-] [= <-] Hc. change ((({["c1" := 1]} : gmap string Z) !! c) = Some s) in Hc.
    apply lookup_singleton_Some in Hc as [_ <-]. reflexivity.
  - intros notif Hn. unfold ex_stream in Hn. rewrite !elem_of_cons in Hn.
    destruct Hn as [[= ->]|[[= ->]|[[= ->]|Hn]]]; [eexists; reflexivity..|by apply elem_of_nil in Hn].
  - exact (H [inl (mkPbUpdateNotify "u" (ex_info "c1" "0.5" "2.5" "4") 0 100 None)]
             (mkPbUpdateNotify "" (ex_info "c1" "0.5" "2.5" "4") 2 0 None) _ eq_refl eq_refl).
Defined.
