(* ===== verification/CliWitnesses.v ===== *)
(** * The theorems on the command line client at concrete inputs

    A client in session "s1" whose node restores one channel on opening a session
    and opens another one; the libraries are those of [Instances]. *)
From S2P Require Import Prelude Perun Errors Currency Contracts Grpc PbClient TuiText Cli CliProps Instances.
Local Open Scope Z_scope.

Definition ex_cli : cli := mkCli true "" "" [] 0 [] ∅ ∅ 0 [] ∅.
Definition ex_cinfo (c : string) : pb_PayChInfo :=
  mkPbPayChInfo c (mkPbBalInfo ["ETH"] ["self"; "bob"] [["1"; "2"]]) "0".
Definition ex_cnode : NodeServer :=
  mkNodeServer (λ _, inl (inl ("s1", [ex_cinfo "c1"]))) (λ _ _ _, inl (inl (ex_cinfo "c2"))) (λ _, None)
    (λ _, inl (inl true)) (λ _ _ _, inl (inl (ex_cinfo "c3"))) (λ _ _, inl (inl (ex_cinfo "c1")))
    (λ _ _ _, inl (inl (ex_cinfo "c1"))) (λ _ _, None) (λ _ _, inl (inl true))
    (λ _ _ _ _, inl (inl (ex_cinfo "c1"))) (λ _ _, inl (inl (ex_cinfo "c1")))
    (λ _ _, inl (inl [])) (λ _ _, inl (inl true)) (λ _ _, inl (inl (mkPbPeerID "bob" "" "" "")))
    (inr (ErrText "")) (inl 90).

Lemma ex_cli_wf : wf_cli true 0 ex_cli.
Proof. split; cbn; try apply aliases_empty; try done. constructor. Qed.

Lemma swap_remove_spec_witness :
  swap_remove "a" ["a"; "b"; "c"] = ["c"; "b"] ∧
  swap_remove "a" ["a"; "b"; "c"] ≡ₚ filter (.≠ "a") ["a"; "b"; "c"].
Proof.
  split; [reflexivity|]. apply (swap_remove_spec "a" ["a"; "b"; "c"]).
  apply (bool_decide_unpack (NoDup ["a"; "b"; "c"])). vm_compute. exact I.
Defined.

(** Opening a session, opening a channel, closing the restored one. *)
Definition ex_cops : list cop :=
  [COp ex_cnode SessionOpen ["alice/session.yaml"]; COp ex_cnode ChannelSend ["bob"; "1"; "2"];
   COp ex_cnode ChannelCloseNSettle ["ch_1_bob"]].

Lemma new_ids_check c ids :
  bool_decide (NoDup ids ∧ Forall (λ id, Forall (λ x, oc_id x.2 ≠ id) (map_to_list (openChannelsMap c))) ids) = true →
  new_ids true c ids.
Proof.
  intros [Hnd Hall]%bool_decide_eq_true _. split; [done|]. intros id Hid (alias & info & Ha & He).
  rewrite Forall_forall in Hall. specialize (Hall id Hid). rewrite Forall_forall in Hall.
  by apply (Hall (alias, info)); [apply elem_of_map_to_list|].
Qed.

Lemma ex_crun : ∃ es c', crun true ex_cops ex_cli es c' ∧ openChannelsList c' = ["ch_2_bob"] ∧
  (oc_id <$> openChannelsMap c' !! "ch_2_bob") = Some "c2".
Proof.
  eexists _, _. split.
  - eapply crun_cons; [apply new_ids_check; vm_compute; reflexivity|vm_compute; reflexivity|].
    eapply crun_cons; [apply new_ids_check; vm_compute; reflexivity|vm_compute; reflexivity|].
    eapply crun_cons; [apply new_ids_check; vm_compute; reflexivity|vm_compute; reflexivity|]. apply crun_nil.
  - split; vm_compute; reflexivity.
Qed.

Lemma aliases_invariant_witness :
  ∃ es c', crun true ex_cops ex_cli es c' ∧ openChannelsList c' = ["ch_2_bob"] ∧
    openChannelsRevMap c' !! "c2" = Some "ch_2_bob" ∧ wf_cli true 2 c'.
Proof.
  destruct ex_crun as (es & c' & Hr & Hl & Hid). exists es, c'. split; [exact Hr|]. split; [exact Hl|].
  destruct (aliases_invariant true ex_cops 0 ex_cli es c' ex_cli_wf Hr) as (H & _ & H2); [vm_compute; reflexivity|].
  split; [|exact H]. destruct (openChannelsMap c' !! "ch_2_bob") as [info|] eqn:E; [|discriminate Hid].
  injection Hid as Hid. apply (H2 "ch_2_bob" info "c2" E); [reflexivity|exact Hid].
Defined.

Lemma unknown_alias_witness :
  channelInfoFn ex_cnode ["ch_9_eve"] ex_cli =
    ([CEvPrint (MsgUnknownChannelAlias "ch_9_eve" [])], ex_cli, Panic "nil pointer dereference").
Proof.
  destruct (unknown_alias ex_cnode "ch_9_eve" "1" true (λ _ _, mret tt) ex_cli eq_refl eq_refl)
    as (_ & _ & _ & _ & _ & _ & H & _).
  exact H.
Defined.
