(* ===== verification/EndToEndWitnesses.v ===== *)
(** * Payments through the whole system at concrete inputs

    The dashboard of [TuiWitnesses] with one entry for the channel of the server of
    [NodeWitnesses], and a transport that answers with what the handler of that
    server answers. *)
From S2P Require Import Prelude Perun Errors SessionErrors Currency IDProvider Contracts Sdk Timeout.
From S2P Require Import ChRegistry Client User Channel ChannelProps SessionHelpers Session SessionProps SessionLife.
From S2P Require Import Node Payment Grpc GrpcProps PbClient TuiText Tui TuiProps EndToEnd IncomingEndToEnd OpeningEndToEnd ProposalEndToEnd LedgerRefinement ClosingEndToEnd ChannelLifetime Instances Witnesses.
From S2P Require Import SessionWitnesses NodeWitnesses TuiWitnesses.
Local Open Scope Z_scope.

Definition ex_pay_dash : tui :=
  ex_tui [ex_entry 1 transact noUpdate "1" "2" "3" "01" ""]
    (mkReg [None; Some 0; None; None; None; None; None]%nat {["01" := 1]}).

Lemma ex_pay_dash_wf : wf_tui ex_pay_dash.
Proof.
  split.
  - eexists _, _. split_and!; [reflexivity..| |].
    + by split.
    + split.
      * reflexivity.
      * intros [|[|[|[|[|[|[|i]]]]]]] p [=]; subst; cbn; lia.
      * intros [|p] Hp; cbn in *; [done|lia].
      * intros c s Hc. change ((({["01" := 1]} : gmap string Z) !! c) = Some s) in Hc.
        apply lookup_singleton_Some in Hc as [<- <-].
        by exists 0%nat, (ex_entry 1 transact noUpdate "1" "2" "3" "01" "").
      * intros [|p] e [= <-] Hl. by eexists.
  - intros [|p] e [= <-]; done.
Qed.

Definition ex_transport : NodeServer :=
  mkNodeServer (srv_OpenSession ex_srv) (srv_OpenPayCh ex_srv) (srv_SubPayChProposals ex_srv)
    (srv_UnsubPayChProposals ex_srv) (srv_RespondPayChProposal ex_srv) (srv_GetPayChInfo ex_srv)
    (λ sid cid ps, match value (Grpc.SendPayChUpdate sid cid ps ex_server) with
                   | Ret r => inl r
                   | _ => inr (ErrText "no answer")
                   end)
    (srv_SubPayChUpdates ex_srv) (srv_UnsubPayChUpdates ex_srv) (srv_RespondPayChUpdate ex_srv)
    (srv_ClosePayCh ex_srv) (srv_CloseSession ex_srv) (srv_AddPeerID ex_srv) (srv_GetPeerID ex_srv)
    (srv_GetConfig ex_srv) (srv_Time ex_srv).

Lemma ex_gch_eth : eth_channel ex_ethc "bob" ex_gch.
Proof. split; [by left|done|by left|reflexivity|reflexivity]. Qed.

(** The user sends half an ether to bob. *)
Lemma payment_end_to_end_witness :
  ∃ es s' q err, let ch' := set_pch q ex_gch in
    proposes ex_gch [mkPbPayment "ETH" "bob" "5e-1"] (10 ^ 18) (2 * 10 ^ 18) (5 * 10 ^ 17) es q err ∧
    reaches (final (Grpc.SendPayChUpdate "s1" "01" [mkPbPayment "ETH" "bob" "5e-1"] ex_server)) "s1" "01" s' 0 ch' ∧
    wp (update ex_transport 0 "5e-1" true) ex_pay_dash (λ es t' _, ∃ e', t' = at_ 0 e' ex_pay_dash ∧
      requests es = [SendPayChUpdateReq "s1" "01" [mkPbPayment "ETH" "bob" "5e-1"]]).
Proof.
  destruct (payment_end_to_end ex_transport ex_pay_dash 0 (ex_entry 1 transact noUpdate "1" "2" "3" "01" "")
              "5e-1" true ex_ethc (5 * 10 ^ 17) (10 ^ 18) (2 * 10 ^ 18) 3 ex_server ex_gsess 0 ex_gch
              (10 ^ 18) (2 * 10 ^ 18)) as (es & s' & q & err & _ & Hprop & Hr & _ & _ & Hw).
  - exact ex_pay_dash_wf.
  - reflexivity.
  - split; [reflexivity|]. split; [discriminate|]. split; discriminate.
  - reflexivity.
  - reflexivity.
  - vm_compute. reflexivity.
  - vm_compute. reflexivity.
  - vm_compute. reflexivity.
  - reflexivity.
  - split; reflexivity.
  - reflexivity.
  - reflexivity.
  - exact ex_gch_eth.
  - vm_compute. reflexivity.
  - intros r Hr. unfold ex_transport. cbn [srv_SendPayChUpdate].
    cbn [ex_entry chID ex_pay_dash t_sessionID ex_tui] in Hr |- *. rewrite Hr. reflexivity.
  - exists es, s', q, err. split; [exact Hprop|]. split; [exact Hr|]. eapply wp_mono; [|exact Hw].
    intros es' t' _ (e' & Ht & Hreq & _). exists e'. split; [exact Ht|exact Hreq].
Defined.

(** ** Bob pays a tenth of an ether *)
Definition ex_sub_ch : Channel.Channel GOut := set_notifier (Some (server_notifier "s1" "01")) ex_gch.
Definition ex_sub_sess : Session GOut client idProviderCache :=
  mkSession "s1" true ex_user ex_client ex_idp ex_timeoutCfg "ws://" (mkChainBackend ex_chain 10) ["eth"]
    (put Channel.ID ex_sub_ch (newChRegistry (C := Channel.Channel GOut))) None [] ∅ false.
Definition ex_sub_server : payChAPIServer :=
  mkServer (mkNode ex_node_cfg {[ "s1" := ex_sub_sess ]} ex_contracts ex_currencies false) ∅ {[ "s1" := ∅ ]} [].

Definition ex_proposed : PState :=
  mkPState [Byte.x01] 4 "" (mkAllocation ["eth"] [[11 * 10 ^ 17; 19 * 10 ^ 17]]) "" false.

Definition ex_answers (a : payChAPIServer) (now : Z) : NodeServer :=
  mkNodeServer (srv_OpenSession ex_srv) (srv_OpenPayCh ex_srv) (srv_SubPayChProposals ex_srv)
    (srv_UnsubPayChProposals ex_srv) (srv_RespondPayChProposal ex_srv) (srv_GetPayChInfo ex_srv)
    (srv_SendPayChUpdate ex_srv) (srv_SubPayChUpdates ex_srv) (srv_UnsubPayChUpdates ex_srv)
    (λ sid cid uid acc, match value (Grpc.RespondPayChUpdate sid cid uid acc now a) with
                        | Ret r => inl r
                        | _ => inr (ErrText "no answer")
                        end)
    (srv_ClosePayCh ex_srv) (srv_CloseSession ex_srv) (srv_AddPeerID ex_srv) (srv_GetPeerID ex_srv)
    (srv_GetConfig ex_srv) (srv_Time ex_srv).

(** The user accepts three seconds later. *)
Lemma incoming_payment_end_to_end_witness :
  ∃ a1 e1, proposed e1 = mkBal "11000000000000000e-16" "19000000000000000e-16" "4" ∧ status e1 = waitingForUser ∧
    wp (respond (ex_answers a1 13000000000) 0 true) (at_ 0 e1 ex_pay_dash) (λ es t2 _, ∃ e2,
      t2 = at_ 0 e2 (at_ 0 e1 ex_pay_dash) ∧ requests es = [RespondPayChUpdateReq "s1" "01" "01_4" true] ∧
      status e2 = accepted ∧ current e2 = mkBal "11000000000000000e-16" "19000000000000000e-16" "4").
Proof.
  destruct (incoming_payment_end_to_end id ex_pay_dash 0 (ex_entry 1 transact noUpdate "1" "2" "3" "01" "")
              (mkReg [None; Some 0; None; None; None; None; None]%nat {["01" := 1]}) ex_ethc ex_sub_server ex_sub_sess
              0 ex_sub_ch (10 ^ 18) (2 * 10 ^ 18) ex_proposed (11 * 10 ^ 17) (19 * 10 ^ 17) ex_proposed 10000000000)
    as (notif & a1 & msg & e1 & _ & _ & _ & Hst & Hprop & _ & Hid & Hans).
  - exact ex_pay_dash_wf.
  - reflexivity.
  - reflexivity.
  - reflexivity.
  - reflexivity.
  - reflexivity.
  - split; reflexivity.
  - reflexivity.
  - reflexivity.
  - reflexivity.
  - reflexivity.
  - reflexivity.
  - reflexivity.
  - split; [by left|done|by left|reflexivity|reflexivity].
  - vm_compute. reflexivity.
  - vm_compute. reflexivity.
  - reflexivity.
  - intros d p. by split.
  - vm_compute. discriminate.
  - exists a1, e1. split; [rewrite Hprop; vm_compute; reflexivity|]. split; [exact Hst|].
    destruct (Hans (ex_answers a1 13000000000) true 13000000000) as (_ & s2 & ch2 & _ & _ & _ & Hw).
    + intros r Hr. unfold ex_answers. cbn [srv_RespondPayChUpdate].
      cbn [ex_entry chID ex_pay_dash t_sessionID ex_tui] in Hr |- *. rewrite Hr. reflexivity.
    + eapply wp_mono; [|exact Hw]. intros es t2 _ (e2 & Ht & _ & Hreq & Hok & _). exists e2.
      split; [exact Ht|]. split; [rewrite Hid in Hreq; exact Hreq|].
      destruct Hok as (_ & H1 & H2); [split; [vm_compute; congruence|reflexivity]|].
      split; [exact H1|]. rewrite H2. vm_compute. reflexivity.
Defined.

(** ** The user opens a channel with bob *)
Definition ex_new_sess : Session GOut client idProviderCache :=
  mkSession "s1" true ex_user ex_client ex_idp ex_timeoutCfg "ws://" (mkChainBackend ex_chain 10) ["eth"]
    (newChRegistry (C := Channel.Channel GOut)) None [] ∅ false.
Definition ex_new_server : payChAPIServer :=
  mkServer (mkNode ex_node_cfg {[ "s1" := ex_new_sess ]} ex_contracts ex_currencies false) ∅ {[ "s1" := ∅ ]} [].

Lemma ex_new_server_wf : wf_node (g_n ex_new_server).
Proof.
  split; [apply ex_in_step|]. intros id s Hs. cbn [g_n ex_new_server n_sessions] in Hs.
  apply lookup_singleton_Some in Hs as [<- <-]. split; [done|].
  split; [|apply ex_addrs|apply ex_funder_ready]. split; [apply newChRegistry_wf|done|apply map_Forall_empty].
Qed.

Definition ex_opens : NodeServer :=
  mkNodeServer (srv_OpenSession ex_srv)
    (λ sid bal d, match value (Grpc.OpenPayCh sid (Some bal) d ex_new_server) with
                  | Ret r => inl r
                  | _ => inr (ErrText "no answer")
                  end)
    (srv_SubPayChProposals ex_srv) (srv_UnsubPayChProposals ex_srv) (srv_RespondPayChProposal ex_srv)
    (srv_GetPayChInfo ex_srv) (srv_SendPayChUpdate ex_srv) (srv_SubPayChUpdates ex_srv)
    (srv_UnsubPayChUpdates ex_srv) (srv_RespondPayChUpdate ex_srv) (srv_ClosePayCh ex_srv)
    (srv_CloseSession ex_srv) (srv_AddPeerID ex_srv) (srv_GetPeerID ex_srv) (srv_GetConfig ex_srv)
    (srv_Time ex_srv).

Definition ex_empty_dash : tui := ex_tui [] (mkReg (replicate 7 None) ∅).
Lemma ex_empty_dash_wf : wf_tui ex_empty_dash.
Proof.
  split.
  - eexists _, _. split_and!; [reflexivity..| |].
    + by split.
    + split; [reflexivity| |cbn; lia|done|done].
      intros i p H. cbn [proposals] in H. by apply lookup_replicate in H as [? _].
  - by intros p e H.
Qed.

Lemma opening_end_to_end_witness :
  wp (openCmdHandler ex_opens ["bob"; "1"; "2"]) ex_empty_dash (λ _ t' _, wf_tui t' ∧
    ∃ e', t_entries t' = [e'] ∧ phase e' = transact ∧
      ours (current e') = "10000000000000000e-16" ∧ theirs (current e') = "20000000000000000e-16").
Proof.
  destruct (opening_end_to_end ex_opens ex_empty_dash (mkTable 13 3 1 10) (mkReg (replicate 7 None) ∅)
              ex_new_server ex_new_sess ex_ethc "bob" "1" "2") as (es & _ & Hw).
  - exact ex_empty_dash_wf.
  - reflexivity.
  - reflexivity.
  - discriminate.
  - reflexivity.
  - exact ex_new_server_wf.
  - reflexivity.
  - reflexivity.
  - reflexivity.
  - reflexivity.
  - reflexivity.
  - discriminate.
  - intros r Hr. unfold ex_opens. cbn [srv_OpenPayCh]. rewrite Hr. reflexivity.
  - eapply wp_mono; [|exact Hw]. intros tes t' err (_ & Hwf & _ & e' & Hent & _ & [H|H]).
    + destruct H as (s' & i & ch & x & y & info & _ & _ & [_ _ Hx Hy _ _] & _ & [Hr _ Hcur _]).
      assert (x = 10 ^ 18) as -> by (vm_compute in Hx; by injection Hx as <-).
      assert (y = 2 * 10 ^ 18) as -> by (vm_compute in Hy; by injection Hy as <-).
      split; [exact Hwf|]. exists e'. split; [exact Hent|]. split; [exact (proj1 Hr)|]. rewrite Hcur.
      split; vm_compute; reflexivity.
    + exfalso. destruct H as (s' & m & Hm & _). vm_compute in Hm. discriminate Hm.
Defined.

(** ** Bob proposes a channel, and the user accepts two seconds later *)
Definition ex_invited_sess : Session GOut client idProviderCache :=
  mkSession "s1" true ex_user ex_client ex_idp ex_timeoutCfg "ws://" (mkChainBackend ex_chain 10) ["eth"]
    (newChRegistry (C := Channel.Channel GOut)) (Some (server_proposals "s1")) [] ∅ false.
Definition ex_invited_server : payChAPIServer :=
  mkServer (mkNode ex_node_cfg {[ "s1" := ex_invited_sess ]} ex_contracts ex_currencies false) {[ "s1" := 0%nat ]}
    {[ "s1" := ∅ ]} [false].
(** The controller of the channel, once it is open. *)
Definition ex_joined : ex_pch := mkExPch [Byte.x01] 1 ["0xb"; "0xa"] Acting (ex_state_of 0 false) true true false.

Lemma ex_invited_server_wf : wf_node (g_n ex_invited_server).
Proof.
  split; [apply ex_in_step|]. intros id s Hs. cbn [g_n ex_invited_server n_sessions] in Hs.
  apply lookup_singleton_Some in Hs as [<- <-]. split; [done|].
  split; [|apply ex_addrs|apply ex_funder_ready]. split; [apply newChRegistry_wf|done|apply map_Forall_empty].
Qed.

Definition ex_joins (a : payChAPIServer) (now : Z) : NodeServer :=
  mkNodeServer (srv_OpenSession ex_srv) (srv_OpenPayCh ex_srv) (srv_SubPayChProposals ex_srv)
    (srv_UnsubPayChProposals ex_srv)
    (λ sid pid acc, match value (Grpc.RespondPayChProposal sid pid acc now a) with
                    | Ret r => inl r
                    | _ => inr (ErrText "no answer")
                    end)
    (srv_GetPayChInfo ex_srv) (srv_SendPayChUpdate ex_srv) (srv_SubPayChUpdates ex_srv)
    (srv_UnsubPayChUpdates ex_srv) (srv_RespondPayChUpdate ex_srv) (srv_ClosePayCh ex_srv)
    (srv_CloseSession ex_srv) (srv_AddPeerID ex_srv) (srv_GetPeerID ex_srv) (srv_GetConfig ex_srv)
    (srv_Time ex_srv).

(** The server while the proposal waits. *)
Definition ex_kept_server : payChAPIServer :=
  put_session ex_invited_server "s1"
    (kept (eth_entry ex_ethc "bob" ex_proposal ex_joined (2 * 10 ^ 18) (10 ^ 18)
             (unix (10000000000 + response (s_timeoutCfg ex_invited_sess)))) ex_invited_sess).

Lemma incoming_opening_end_to_end_witness :
  ∃ t1, wp (notifyIncomingChannel 0) t1 (λ _ t2 _,
    wp (respond (ex_joins ex_kept_server 12000000000) 0 true) t2 (λ es t3 _, ∃ e, t_entries t3 = [e] ∧
      requests es = [RespondPayChProposalReq "s1" "0a" true; SubPayChUpdatesReq "s1" "01"] ∧ phase e = transact ∧
      ours (current e) = "20000000000000000e-16" ∧ theirs (current e) = "10000000000000000e-16")).
Proof.
  destruct (incoming_opening_end_to_end id ex_empty_dash (mkTable 13 3 1 10) (mkReg (replicate 7 None) ∅)
              ex_invited_server ex_invited_sess ex_ethc "bob" ex_proposal ex_joined 10000000000 (2 * 10 ^ 18) (10 ^ 18))
    as (t1 & e1 & _ & _ & _ & _ & _ & _ & _ & Hw).
  - exact ex_empty_dash_wf.
  - reflexivity.
  - reflexivity.
  - discriminate.
  - reflexivity.
  - exact ex_invited_server_wf.
  - reflexivity.
  - reflexivity.
  - reflexivity.
  - reflexivity.
  - reflexivity.
  - split; [reflexivity|discriminate|reflexivity|reflexivity].
  - intros d resp p [= <-]. split; reflexivity.
  - vm_compute. discriminate.
  - exists t1. eapply wp_mono; [|exact Hw]. intros es t2 _ (_ & _ & _ & Hans).
    destruct (Hans (ex_joins ex_kept_server 12000000000) true 12000000000) as (es2 & s2 & _ & _ & _ & _ & Hw2).
    + intros r Hr. exact (f_equal (λ o, match o with Ret r => inl r | _ => inr (ErrText "no answer") end) Hr).
    + eapply wp_mono; [|exact Hw2]. intros tes t3 _ (_ & _ & e & Hent & _ & Hok & _).
      destruct Hok as (i & ch & info & _ & _ & Hj & _ & Hreq & Hopen).
      { split; [vm_compute; congruence|]. by eexists. }
      assert (Channel.ID ch = "01") as HID.
      { destruct Hj as [_ Hmade -> _ _]. injection Hmade as <-. reflexivity. }
      destruct Hopen as [Hrdy _ Hcur _]. exists e. split; [exact Hent|]. split; [rewrite Hreq, HID; reflexivity|].
      split; [exact (proj1 Hrdy)|]. rewrite Hcur. split; vm_compute; reflexivity.
Defined.

(** ** Bob offers a tenth of an ether, and the user accepts *)
(** The server with the signal of the subscription. *)
Definition ex_close_server : payChAPIServer :=
  mkServer (g_n ex_sub_server) ∅ {[ "s1" := {[ "01" := 0%nat ]} ]} [false].

Lemma ex_close_signal k i : signal_of ex_close_server k = Some i → k = KUpdates "s1" "01" ∧ i = 0%nat.
Proof.
  destruct k as [sid|sid cid]; cbn [signal_of ex_close_server chProposalsNotif chUpdatesNotif]; [done|].
  intros (m & [<- <-]%lookup_singleton_Some & Hm)%bind_Some. by apply lookup_singleton_Some in Hm as [<- <-].
Qed.
Lemma ex_close_signals : wf_signals ex_close_server.
Proof.
  split.
  - intros k i [_ ->]%ex_close_signal. reflexivity.
  - intros k k' i [-> _]%ex_close_signal [-> _]%ex_close_signal. reflexivity.
Qed.

Definition ex_shown_entry : Tui.channel :=
  ex_entry 1 transact noUpdate "10000000000000000e-16" "20000000000000000e-16" "3" "01" "".
Definition ex_shown_dash : tui := at_ 0 ex_shown_entry ex_pay_dash.
Definition ex_world : world := mkWorld ex_close_server ex_shown_dash.
Definition ex_ledger : ledger := mkLedger (10 ^ 18) (2 * 10 ^ 18) 3 None.
Definition ex_ops : list wop :=
  [WUpdate ex_proposed ex_proposed 10000000000; WAnswer true 13000000000; WExpire "01_4"].

Lemma ex_shown_dash_wf : wf_tui ex_shown_dash.
Proof.
  refine (proj1 (entry_dstep false [] 0 ex_pay_dash (ex_entry 1 transact noUpdate "1" "2" "3" "01" "") [] _ ex_pay_dash_wf
    eq_refl _)).
  exists ex_shown_entry, None. split_and!; [apply changes_local; by constructor|reflexivity|done].
Qed.

Lemma ex_screen_in_step : in_step 0 ex_ethc ex_world ex_ledger.
Proof.
  eexists ex_shown_entry, _, ex_sub_sess, 0%nat, ex_sub_ch. split.
  - split; try reflexivity; [exact ex_shown_dash_wf|by split|split; [exact ex_close_signals|by eexists]|].
    split; [by left|done|by left|reflexivity|reflexivity].
  - split; [vm_compute; reflexivity|vm_compute; reflexivity|exists 0%nat; vm_compute; reflexivity|done].
Qed.

Lemma screen_refines_ledger_witness :
  ∃ w' ms l', world_run ex_srv id 0 ex_ethc ex_ops ex_world w' ∧ ledger_run ex_ethc ms ex_ledger l' ∧
    in_step 0 ex_ethc w' l' ∧ total l' = 3 * 10 ^ 18.
Proof.
  assert (allowed 0 ex_ethc (WUpdate ex_proposed ex_proposed 10000000000) ex_world) as Ha.
  { eexists ex_shown_entry, ex_sub_sess, 0%nat, ex_sub_ch. split; [reflexivity|]. split; [by split|].
    split; [vm_compute; reflexivity|]. split; [split; [vm_compute; reflexivity|split; [reflexivity|repeat constructor]]|].
    split; [intros d q; by split|vm_compute; discriminate]. }
  destruct (step_simulated ex_srv id 0 ex_ethc _ _ _ eq_refl ex_screen_in_step Ha) as [[w1 Hw1] Hs].
  destruct (Hs w1 Hw1) as (_ & l1 & _ & _ & Hin1). clear Hs.
  destruct (step_simulated ex_srv id 0 ex_ethc (WAnswer true 13000000000) w1 l1 eq_refl Hin1 I) as [[w2 Hw2] Hs].
  destruct (Hs w2 Hw2) as (_ & l2 & _ & _ & Hin2). clear Hs.
  destruct (step_simulated ex_srv id 0 ex_ethc (WExpire "01_4") w2 l2 eq_refl Hin2 I) as [[w3 Hw3] _].
  assert (world_run ex_srv id 0 ex_ethc ex_ops ex_world w3) as Hrun by (repeat (econstructor; try done)).
  destruct (screen_refines_ledger ex_srv id 0 ex_ethc ex_ops ex_world ex_ledger w3 eq_refl ex_screen_in_step Hrun)
    as (ms & l' & _ & Hl & Hin & Htot & _).
  exists w3, ms, l'. split; [exact Hrun|]. split; [exact Hl|]. split; [exact Hin|]. rewrite Htot. reflexivity.
Defined.

(** ** The user closes the channel *)
Definition ex_closes : NodeServer :=
  mkNodeServer (srv_OpenSession ex_srv) (srv_OpenPayCh ex_srv) (srv_SubPayChProposals ex_srv)
    (srv_UnsubPayChProposals ex_srv) (srv_RespondPayChProposal ex_srv) (srv_GetPayChInfo ex_srv)
    (srv_SendPayChUpdate ex_srv) (srv_SubPayChUpdates ex_srv) (srv_UnsubPayChUpdates ex_srv)
    (srv_RespondPayChUpdate ex_srv)
    (λ sid cid, match value (Grpc.ClosePayCh sid cid ex_close_server) with
                | Ret r => inl r
                | _ => inr (ErrText "no answer")
                end)
    (srv_CloseSession ex_srv) (srv_AddPeerID ex_srv) (srv_GetPeerID ex_srv) (srv_GetConfig ex_srv) (srv_Time ex_srv).

(** The chain reports the event that belongs to the state that was registered. *)
Lemma closing_end_to_end_witness :
  wp (closeCh ex_closes 0) ex_pay_dash (λ es t1 _, requests es = [ClosePayChReq "s1" "01"] ∧
    ∃ msg, wp (incomingUpdate msg) t1 (λ _ t2 more, more = false ∧
      ∃ e2, t2 = at_ 0 e2 ex_pay_dash ∧ (phase e2 = closed ∨ phase e2 = settle))).
Proof.
  destruct (closing_end_to_end ex_closes ex_pay_dash 0 (ex_entry 1 transact noUpdate "1" "2" "3" "01" "")
              (mkReg [None; Some 0; None; None; None; None; None]%nat {["01" := 1]}) ex_ethc ex_close_server ex_sub_sess
              0 ex_sub_ch (10 ^ 18) (2 * 10 ^ 18) 0) as (q & s1 & _ & _ & _ & Hw).
  - exact ex_pay_dash_wf.
  - reflexivity.
  - split; [reflexivity|]. split; [discriminate|]. split; discriminate.
  - reflexivity.
  - reflexivity.
  - reflexivity.
  - split; reflexivity.
  - reflexivity.
  - reflexivity.
  - split; [by left|done|by left|reflexivity|reflexivity].
  - reflexivity.
  - reflexivity.
  - vm_compute. reflexivity.
  - exact ex_close_signals.
  - reflexivity.
  - intros r Hr. unfold ex_closes. cbn [srv_ClosePayCh].
    cbn [ex_entry chID ex_pay_dash t_sessionID ex_tui] in Hr |- *. rewrite Hr. reflexivity.
  - eapply wp_mono; [|exact Hw]. intros es t1 _ (Hreq & _ & Hev). split; [exact Hreq|].
    destruct (st_IsFinal (state_of (initiated ex_sub_ch q))) eqn:Ef.
    + destruct (Hev ConcludedEvent Ef) as (a3 & msg & _ & Hwm). exists msg.
      eapply wp_mono; [|exact Hwm]. intros es2 t2 more (Hm & _ & e2 & Ht2 & _ & Hp). split; [exact Hm|].
      exists e2. split; [exact Ht2|]. destruct (settled _); [right; apply Hp|left; apply Hp].
    + destruct (Hev (RegisteredEvent None) Ef) as (a3 & msg & _ & Hwm). exists msg.
      eapply wp_mono; [|exact Hwm]. intros es2 t2 more (Hm & _ & e2 & Ht2 & _ & Hp). split; [exact Hm|].
      exists e2. split; [exact Ht2|]. destruct (settled _); [right; apply Hp|left; apply Hp].
Defined.

(** ** A whole life: the user opens a channel with bob, pays, and could close it *)
Definition ex_opened_run := openCmdHandler ex_opens ["bob"; "1"; "2"] ex_empty_dash.
Definition ex_open_request_run := Grpc.OpenPayCh "s1" (Some (open_request "bob" "1" "2")) challengeDurSecs ex_new_server.
Definition ex_born : world := mkWorld (subscribed (final ex_open_request_run) "s1" "01") (final ex_opened_run).
Definition ex_life : list wop := [WPay "5e-1" true 10000000000; WExpire "01_4"].

Lemma ex_at_start : at_start ex_empty_dash (mkReg (replicate 7 None) ∅) ex_new_server ex_new_sess ex_ethc.
Proof.
  split; try reflexivity.
  - exact ex_empty_dash_wf.
  - by exists (mkTable 13 3 1 10).
  - exact ex_new_server_wf.
  - split; [|by eexists]. assert (∀ k i, signal_of ex_new_server k ≠ Some i) as Hno.
    { intros [sid|sid cid] i; cbn [signal_of ex_new_server chProposalsNotif chUpdatesNotif]; [done|].
      intros (m & [<- <-]%lookup_singleton_Some & Hm)%bind_Some. done. }
    split; intros k; intros; exfalso; by eapply Hno.
Qed.

Lemma ex_begins : begins ex_empty_dash ex_new_server ex_new_sess ex_ethc "bob" (10 ^ 18) (2 * 10 ^ 18) ex_born.
Proof.
  assert (∃ info, value ex_open_request_run = Ret (inl info) ∧ pb_ChID info = "01") as (info & Hval & Hid)
    by (eexists; split; vm_compute; reflexivity).
  unfold ex_born. rewrite <-Hid. apply (begins_opened ex_empty_dash ex_new_server ex_new_sess ex_ethc "bob" ex_opens "1" "2" (10 ^ 18)
    (2 * 10 ^ 18) (events ex_opened_run) (final ex_opened_run) info).
  - discriminate.
  - vm_compute. reflexivity.
  - vm_compute. reflexivity.
  - intros r Hr. unfold ex_opens. cbn [srv_OpenPayCh]. rewrite Hr. reflexivity.
  - vm_compute. reflexivity.
  - exact Hval.
Qed.

Lemma channel_lifetime_witness :
  ∃ w l, life_run ex_srv id 0 ex_ethc ex_life ex_born w ∧ in_step 0 ex_ethc w l ∧ total l = 3 * 10 ^ 18.
Proof.
  destruct (begins_in_step _ _ _ _ _ _ _ _ _ ex_at_start ex_begins) as [v Hin].
  assert (allowed 0 ex_ethc (WPay "5e-1" true 10000000000) ex_born) as Ha.
  { split; [eexists; vm_compute; reflexivity|].
    eexists. split; [vm_compute; reflexivity|]. intros _. repeat split; eexists; vm_compute; reflexivity. }
  destruct (step_simulated ex_srv id 0 ex_ethc _ _ _ eq_refl Hin Ha) as [[w1 Hw1] Hs].
  destruct (Hs w1 Hw1) as (_ & l1 & _ & _ & Hin1).
  destruct (step_simulated ex_srv id 0 ex_ethc (WExpire "01_4") w1 l1 eq_refl Hin1 I) as [[w2 Hw2] _].
  assert (life_run ex_srv id 0 ex_ethc ex_life ex_born w2) as Hrun by (repeat (econstructor; try done)).
  destruct (channel_lifetime ex_srv id ex_empty_dash _ ex_new_server ex_new_sess ex_ethc "bob" _ _ _ ex_life w2 eq_refl
    ex_at_start ex_begins Hrun) as (v' & ms & l & e & R & s & i & ch & _ & _ & Htot & Hlk & Hag & _).
  exists w2, l. split; [exact Hrun|]. split; [by exists e, R, s, i, ch|]. rewrite Htot. reflexivity.
Defined.
