(* ===== verification/DemoWitnesses.v ===== *)
(** * Witnesses for the theorems on demos, tests and the node command

    A chain is the list of its transactions, the newest first; a contract gets the
    address made of its creator and the number of the transaction. *)
From stdpp Require Import fin_sets.
From S2P Require Import Prelude Perun Errors SessionErrors Currency IDProvider Contracts Sdk Timeout.
From S2P Require Import Os Log User TestConfig TestConfigProps SetupContracts Generate GenerateProps.
From S2P Require Import ChRegistry Client Channel ChannelProps SessionHelpers Session SessionProps SessionLife.
From S2P Require Import ConfigFile Node Payment Grpc GrpcProps NodeCmd NodeCmdProps PbClient TuiText Tui TuiProps.
From S2P Require Import TuiScreens TuiScreensProps Cli CliProps CliShell CliShellProps Instances Witnesses CliWitnesses.
Local Open Scope Z_scope.

(** ** The system *)
Definition str_tail (s : string) : string := match s with EmptyString => "" | String _ s => s end.

#[local] Instance demo_Env : Env := {|
  env_fault := λ _, None;
  env_port := λ n, 5000 + Z.of_nat n;
  temp_name := λ _ X, String.String (Ascii.ascii_of_nat 47) (fresh (set_map str_tail X : gset string));
  range_order := λ l, l;
|}.

#[local] Instance demo_EnvLaws : EnvLaws.
Proof.
  split; [|by intros pat X; cbn -[fresh]; destruct (fresh _)|reflexivity]. intros pat X Hin.
  destruct (is_fresh (set_map str_tail X : gset string)).
  change (fresh (set_map str_tail X : gset string))
    with (str_tail (String.String (Ascii.ascii_of_nat 47) (fresh (set_map str_tail X : gset string)))).
  by apply elem_of_map_2.
Qed.

(** ** The chain *)
Definition demo_chain : Type := list (string * deployment).

Definition demo_address (creator : string) (n : Z) : string := creator +:+ "/" +:+ pretty n.
Definition demo_nonce (c : demo_chain) (s : string) : Z :=
  Z.of_nat (length (filter (λ t : string * deployment, t.1 = s) c)).

Fixpoint demo_at (c : demo_chain) (a : string) : option deployment :=
  match c with
  | [] => None
  | (s, d) :: c => if bool_decide (a = demo_address s (demo_nonce c s)) then Some d else demo_at c a
  end.

#[local] Instance deployment_eq_dec : EqDecision deployment.
Proof. unfold EqDecision, Decision. change address with string. repeat decide equality. Defined.

Definition demo_valid (b : bool) : option goerror := if b then None else Some (ErrConst "invalid code").
Definition demo_token (c : demo_chain) (a : string) : bool :=
  match demo_at c a with Some (DPerunToken _ _) => true | _ => false end.

(** Connecting yields an empty chain for the address ["new"], otherwise the chain with
    the four contracts. *)
Definition demo_adj : string := demo_address "0xa0" 0.
Definition demo_deployed : demo_chain :=
  [("0xa0", DAssetERC20 demo_adj (demo_address "0xa0" 2)); ("0xa0", DPerunToken [] 0);
   ("0xa0", DAssetETH demo_adj); ("0xa0", DAdjudicator)].

#[local] Instance demo_EthLib : EthLib := {|
  cb := demo_chain;
  libfunder := list string;
  HexToAddress := λ s, s;
  ZeroAddress := "0x0000000000000000000000000000000000000000";
  is_eth_address := λ _, true;
  lib_IsErrInvalidContractCode := λ e, match e with ErrConst _ => true | _ => false end;
  lib_ValidateAdjudicator := λ c a, demo_valid (bool_decide (demo_at c a = Some DAdjudicator));
  lib_ValidateAssetHolderETH := λ c a adj, demo_valid
    (bool_decide (demo_at c a = Some (DAssetETH adj)) && bool_decide (demo_at c adj = Some DAdjudicator));
  lib_ValidateAssetHolderERC20 := λ c a adj token, demo_valid
    (bool_decide (demo_at c a = Some (DAssetERC20 adj token)) && bool_decide (demo_at c adj = Some DAdjudicator));
  lib_BindToken := λ c a, demo_valid (demo_token c a);
  lib_TokenSymbol := λ _ _, ("PRN", None);
  lib_TokenDecimals := λ _ _, (18, None);
  lib_DeployAdjudicator := λ c s, (demo_address s (demo_nonce c s), None);
  lib_DeployETHAssetholder := λ c _ s, (demo_address s (demo_nonce c s), None);
  lib_DeployERC20Assetholder := λ c _ _ s, (demo_address s (demo_nonce c s), None);
  lib_DeployPerunToken := λ c _ _ s, (demo_address s (demo_nonce c s), None);
  lib_NewFunder := λ _, [];
  os_NotExist := λ _, None;
  lib_OpenWallet := λ _ k _, inl k;
  lib_UnlockAccount := λ _ _, None;
  ethclient := demo_chain;
  keystore := string;
  kswallet := string;
  lib_DialContext := λ _ url, inl (if bool_decide (url = "new") then [] else demo_deployed);
  lib_NewKeyStore := id;
  ks_Unlock := λ _ _ _, None;
  lib_NewKsWallet := λ k _, inl k;
  lib_NewContractBackend := λ e _, e;
  lib_BalanceAt := λ _ _ _, inl 0;
  lib_RegisterAsset := λ f a _ _, if decide (a ∈ f) then (f, false) else (a :: f, true);
  lib_IsAssetRegistered := λ f a, bool_decide (a ∈ f);
|}.

#[local] Instance demo_TestLib : TestLib := {|
  rng := nat;
  rand_New := λ _, 0%nat;
  lib_NewRandomAccount := λ r, ("0xa" +:+ pretty r, S r);
  lib_RandAddress := λ r, ("0xa" +:+ pretty r, S r);
  lib_CreateAddress := demo_address;
  lib_as_wallet := λ w, w;
|}.

Definition demo_mined (c : demo_chain) (s : string) (d : deployment) : demo_chain := (s, d) :: c.
#[local] Instance demo_ChainLib : ChainLib := {| mined := demo_mined |}.

Lemma demo_valid_None b : demo_valid b = None ↔ b = true.
Proof. by destruct b. Qed.

#[local] Instance demo_ChainLaws : ChainLaws.
Proof.
  refine {| nonce := demo_nonce : cb → address → Z; contract_at := demo_at : cb → address → option deployment |}.
  - intros c s d. change (Z.of_nat (length (filter (λ t : string * deployment, t.1 = s) ((s, d) :: c)))
      = demo_nonce c s + 1). rewrite filter_cons_True by done. cbn [length]. by rewrite Nat2Z.inj_succ.
  - done.
  - intros s n m H. change (demo_address s n = demo_address s m) in H. unfold demo_address in H. apply (inj (String.app s)) in H.
    apply (inj (String.app "/")) in H. by apply (inj pretty) in H.
  - by intros c s a [= <-].
  - by intros c adj s a [= <-].
  - by intros c accs bal s a [= <-].
  - by intros c adj token s a [= <-].
  - intros c a. cbn. by rewrite demo_valid_None, bool_decide_eq_true.
  - intros c a adj. cbn. by rewrite demo_valid_None, andb_true_iff, !bool_decide_eq_true.
  - intros c a adj token. cbn. by rewrite demo_valid_None, andb_true_iff, !bool_decide_eq_true.
  - intros c a accs bal H. cbn in *. unfold demo_token. by rewrite H.
Defined.

Lemma demo_ok_env : ok_env.
Proof. split; [done|]. intros path. by eexists. Qed.

(** ** Clean-up of test helpers *)
Definition demo_peer : PeerID := mkPeerID "bob" None "0xb" "127.0.0.1:6000" "tcp".
Definition demo_test : testing := mkTesting (mkWorld ∅ 0) [] [] false.

Lemma helpers_clean_up_witness :
  ∃ es t file, NewIDProviderT [demo_peer] demo_test = (es, t, Ret (Some file)) ∧
    wp run_cleanups t (λ _ t' _, files_of t' = ∅).
Proof.
  destruct helpers_clean_up as (_ & H & _).
  assert (wp (NewIDProviderT [demo_peer]) demo_test (λ _ t x, ∃ file, x = Some file ∧
    wp run_cleanups t (λ _ t' _, files_of t' = ∅))) as (es & t & x & E & file & -> & Hc).
  { apply (wpe_wp (¬ ok_env)); [|intros Hn; apply Hn, demo_ok_env].
    eapply wpe_mono; [exact (H [demo_peer] demo_test eq_refl)|].
    intros es t [file|]; [|intros [Hn _]; destruct Hn; apply demo_ok_env].
    intros (es' & t' & u & E & Hr). exists file. split; [reflexivity|]. exists es', t', u.
    split; [exact E|]. destruct (Hr (λ _, eq_refl)) as [Hf _]. symmetry. exact Hf. }
  exists es, t, file. split; [exact E|exact Hc].
Defined.

(** ** Deploying the contracts *)
Lemma SetupContracts_spec_witness :
  wp (SetupContracts "new" ChainID 0 true) (mkEth (mkWorld ∅ 0) []) (λ es s r,
    transactions es = all_contracts ∧ deployed (e_chain s) ∧ is_inl r).
Proof.
  apply (wpe_wp (¬ ok_env)); [|intros Hn; apply Hn, demo_ok_env].
  eapply wpe_mono; [exact (SetupContracts_spec "new" ChainID 0 true (mkEth (mkWorld ∅ 0) []) []
    (λ _, eq_refl))|].
  intros es s r [_ _ Hfresh Hworks _].
  assert (is_inl r) as [reg ->].
  { apply Hworks; [discriminate|reflexivity|apply demo_ok_env|]. intros c. split_and!; reflexivity. }
  destruct (Hfresh reg) as (H1 & H2 & _); [discriminate|reflexivity|reflexivity|].
  split; [exact H1|]. split; [exact H2|]. by exists reg.
Defined.

(** ** Logging *)
#[local] Instance demo_LogLib : LogLib := {|
  logrus_ParseLevel := λ s, if String.eqb s "debug" then inl 5 else inr (ErrText "not a valid logrus Level");
  os_OpenFile := λ _, None;
  log_entry := string;
  logrus_Format := λ e, (e, None);
|}.

Lemma logging_spec_witness :
  wp NewLogger (mkLogState None None) (λ _ _ l, l = Some (mkLogger 5 Stdout [])).
Proof.
  destruct (logging_spec (LL := demo_LogLib) 5 eq_refl (mkLogState None None)) as [_ (es & s & l & E & _ & -> & _)].
  eexists es, s, _. split; [exact E|reflexivity].
Defined.

(** ** The node command: a set of flags is the list of those given *)
#[local] Instance demo_CmdLib : CmdLib := {|
  flagset := list string;
  fs_Changed := λ fs f, bool_decide (f ∈ fs);
  fs_GetString := λ _ _, inl "node.yaml";
  fs_GetUint64 := λ _ _, inl 50001;
  fs_GetBool := λ fs f, inl (bool_decide (f ∈ fs));
  viper := bool;
  v_SetConfigFile := λ _ v, v;
  v_SetConfigType := λ _ v, v;
  v_ReadInConfig := λ v, (true, None);
  v_Unmarshal := λ v, if v then inl (demo_node_config true) else inr (ErrText "no configuration");
  prettify := λ _, "";
  net_Listen := λ _, None;
  grpc_Serve := λ _, None;
|}.

Lemma demo_contracts n : 0 ≤ n ≤ 3 → ParseAddr (addr_String (contract n)) = inl (contract n).
Proof.
  intros Hn. assert (n = 0 ∨ n = 1 ∨ n = 2 ∨ n = 3) as [->|[->|[->| ->]]] by lia; vm_compute; reflexivity.
Qed.

Lemma demo_node_starts_witness :
  wp generateNodeConfig (mkWorld ∅ 0) (λ _ w _, ∃ cfg (n : node GOut),
    w_files w !! "node.yaml" = Some (File (Some (YNodeConfig cfg))) ∧ New cfg None = inl n ∧
    Asset (n_contractRegistry n) "PRN" = Some (contract 3)).
Proof.
  destruct (demo_node_starts (EL := demo_EthLib) (TL := demo_TestLib) (CLW := demo_ChainLaws) (Out := GOut)
    (mkWorld ∅ 0) demo_deployed demo_deployed demo_ok_env) as (es & w & err & E & H);
    [reflexivity| |reflexivity|reflexivity|apply demo_contracts|].
  - split; [reflexivity|reflexivity|by exists [], 0|reflexivity].
  - exists es, w, err. split; [exact E|]. destruct H as (_ & cfg & n & Hf & Hn & Hr & _). exists cfg, n.
    split; [exact Hf|]. split; [exact Hn|]. exact (ro_prn _ _ _ Hr).
Defined.

Definition demo_run : list REvent * logstate * outcome unit :=
  run (EL := demo_EthLib) (LL := demo_LogLib) (LB := demo_CmdLib) ([] : list string) false (mkLogState None None).

Lemma run_spec_witness :
  ∃ es s a, demo_run = (es, s, Ret tt) ∧ serves es = [(a, ":50001")] ∧
    wf_node (g_n a).
Proof.
  pose proof (run_spec (EL := demo_EthLib) (LL := demo_LogLib) (LB := demo_CmdLib) ([] : list string) false "node.yaml" 50001 (mkLogState None None) eq_refl eq_refl) as H.
  fold demo_run in H. destruct demo_run as [[es s] o].
  destruct H as (_ & -> & _ & _ & _ & _ & _ & Hserve). exists es, s. destruct Hserve as (a & E & Ha & _).
  - split; [|split; [by exists 5|by split; [left|]]].
    assert (match New (demo_node_config true) None : node GOut + goerror with inl _ => True | _ => False end)
      as Hn by (vm_compute; exact I).
    change (is_inl (New (demo_node_config true) None : node GOut + goerror)).
    destruct (New (demo_node_config true) None) as [n|]; [by exists n|destruct Hn].
  - exists a. split; [reflexivity|]. split; [exact E|apply Ha].
Defined.

Lemma generate_spec_witness :
  wp (generate (EL := demo_EthLib) (LB := demo_CmdLib) ([] : list string)) (mkWorld ∅ 0) (λ es w _,
    w_files w !! "node.yaml" = Some (File (Some (YNodeConfig (demo_node_config true)))) ∧ both_users w ∧
    Exit 1 ∉ es).
Proof.
  assert (rooted ∅) as Hroot by (intros q d [x Hx]; by rewrite lookup_empty in Hx).
  assert (¬ node_present (mkWorld ∅ 0)) as Hn by (intros [x Hx]; discriminate Hx).
  assert (¬ session_present (mkWorld ∅ 0)) as Hs by (intros [[x Hx]|[x Hx]]; discriminate Hx).
  apply (wpe_wp (¬ ok_env)); [|intros H; apply H, demo_ok_env].
  pose proof (generate_spec (EL := demo_EthLib) (LB := demo_CmdLib) ([] : list string) (mkWorld ∅ 0) false
    false eq_refl eq_refl Hroot) as Hgen. cbv zeta in Hgen. eapply wpe_mono; [exact Hgen|]. clear Hgen.
  intros es w u [_ H]. destruct (H demo_ok_env) as (H1 & H2 & H3).
  split; [exact (H1 I Hn)|]. split; [exact (H2 I Hs)|]. intros Hx. apply Hs, H3, Hx.
Defined.

(** ** Using the artefacts: the configuration is read as it was written *)
#[local] Instance demo_ConfigLib : ConfigLib := {|
  v_Unmarshal_session := λ y, match y with YSessionConfig c => inl c | _ => inr (ErrText "no session") end;
|}.
#[local] Instance demo_ConfigLaws : ConfigLaws.
Proof. by split. Defined.

Lemma demo_config_loads_witness :
  wp generateSessionConfig (mkWorld ∅ 0) (λ _ w _, ∃ A B,
    ParseConfig "alice/session.yaml" w = ([], tick w, Ret (inl A)) ∧
    ParseConfig "bob/session.yaml" w = ([], tick w, Ret (inl B)) ∧
    w_files w !! cfg_IDProviderURL A = Some (File (Some (YPeerIDs {[ "bob" := peerID (cfg_User B) ]})))).
Proof.
  destruct (demo_config_loads (CFL := demo_ConfigLib) (mkWorld ∅ 0) demo_ok_env) as (es & w & err & E & H).
  - intros q d [x Hx]. cbn in Hx. rewrite lookup_empty in Hx. discriminate Hx.
  - reflexivity.
  - reflexivity.
  - exists es, w, err. split; [exact E|]. destruct H as (_ & _ & A & B & [HA _ Hpeers _] & [HB Hal _ _]).
    exists A, B. split; [exact HA|]. split; [exact HB|]. rewrite Hpeers. cbn. rewrite Hal. reflexivity.
Defined.

(** ** Screens *)
Definition demo_form : connectForm :=
  mkForm 65 3 1 5 (mkConnectScreen alice defaultNodeURL "alice/session.yaml" defaultChainURL
    "0x8450c0055cB180C7C37A25866132A740b812937B").

Lemma screen_layout_witness :
  ∃ t, newTable 13 None = Ret (inl t) ∧ height_of (dashboard_grid 29 "Alice" t) = 29 ∧
    ¬ row_shown t "Alice" 29 (9 - 1 + offset t).
Proof.
  eexists. split; [reflexivity|].
  destruct (screen_layout 106 29 "Alice" _ demo_form (Z.le_refl 106) (Z.le_refl 29) eq_refl eq_refl)
    as (H & _ & _ & _ & _ & _ & Hrow & _).
  split; [exact H|]. intros Hs. apply Hrow in Hs; [|split; vm_compute; congruence]. apply Hs. reflexivity.
Defined.

Lemma quit_spec_witness :
  ∃ s, quit_run quit_start [ConnectDone; PressQuit; LoopReceives] = Some s ∧
    (∃ s', q_updaters s' = 0%nat ∧ q_loop s' = LoopReturned ∧
       quit_run s [UpdaterReceives; LoopReturns] = Some s') ∧
    (∃ s1, quit_run s [PressQuit] = Some s1 ∧ ∃ l e s0, [ConnectDone; PressQuit; LoopReceives; PressQuit] = l ++ [e] ∧
       quit_run quit_start l = Some s0 ∧ e = PressQuit ∧ q_closed s0 = true).
Proof.
  eexists. split; [reflexivity|]. split.
  - destruct (quit_spec [ConnectDone; PressQuit; LoopReceives] _ eq_refl) as (_ & H & _).
    exact (H eq_refl eq_refl).
  - eexists. split; [reflexivity|].
    destruct (quit_spec [ConnectDone; PressQuit; LoopReceives; PressQuit] _ eq_refl) as (_ & _ & _ & H & _).
    destruct (H eq_refl) as (l & e & s0 & Hl & Hr & Hc). exists l, e, s0. split; [exact Hl|]. split; [exact Hr|].
    destruct Hc as [Hc|[He _]]; [exact Hc|]. exfalso. subst e.
    assert (last [ConnectDone; PressQuit; LoopReceives; PressQuit] = Some KeyQuit) as Hx
      by (rewrite Hl; apply last_snoc).
    discriminate Hx.
Defined.

(** ** Completions: the channel that was opened is offered *)
Definition demo_shell : shell := mkShell (addOpenChannelID "c1" "bob" ex_cli).1.2 (mkEth (mkWorld ∅ 0) []).

Lemma demo_shell_wf : wf_cli true 1 (sh_cli demo_shell).
Proof.
  assert (new_id true ex_cli "c1") as Hnew by (by intros _ (alias & info & Ha & _)).
  apply (addOpenChannelID_wf true 0 "c1" "bob" ex_cli ex_cli_wf (eq_refl : 0 < two63 - 1) Hnew [] _ "ch_1_bob").
  reflexivity.
Qed.

Lemma completions_accepted_witness :
  "ch_1_bob" ∈ openChannelsList (sh_cli demo_shell) ∧
  refuses_nothing (cmd_Func (paymentSendCmd ex_cnode) ["ch_1_bob"; "1"]) demo_shell.
Proof.
  destruct (completions_accepted ex_cnode None true 1 demo_shell demo_shell_wf) as (H1 & H2 & _).
  assert ("ch_1_bob" ∈ openChannelsList (sh_cli demo_shell)) as Hin by (apply H2; by eexists).
  split; [exact Hin|]. eapply (H1 (paymentCmd, _)); [| | |exact Hin].
  - do 5 right. left.
  - left.
  - reflexivity.
Defined.
